(* ===== verification/_CoqProject ===== *)
-Q . S2P
Prelude.v
Memory.v
FrameAllocator.v
Frame.v
PageTree.v
Paging.v
KernelMemory.v
Containers.v
Function.v
Utilities.v
Descriptors.v
Processor.v
CString.v
Printf.v
Idt.v
Typing.v
EarlyFaults.v
Acpi.v
Running.v
SelfMapped.v
FreeList.v
Vmm.v
Terminal.v
Views.v
Shell.v
Tests.v
Session.v
Boot.v
Main.v
