(* ===== verification/Prelude.v ===== *)
(** * davOS kernel: verification development (root file)

    davOS is a small x86-64 kernel in C++ (src/kernel), started by the Limine
    boot loader, which leaves a memory map, a framebuffer, the ACPI tables and an
    identity-mapped low memory plus a direct map of physical memory at the
    higher-half offset (HHDM).  This library is a shallow embedding of the
    kernel's own code: every operation is an executable function on explicit
    state, and the theorems relate these functions to what the processor, the
    devices or a user of the component observes.

    ** Conventions

    - An operation returns [outcome]: [Done], [Panic] ([kernel_panic] or a failed
      [kernel_assert]), [Undefined] (undefined behaviour of C++, such as an index
      outside an array or the dereference of an empty Optional) or [Diverged]
      (a loop that does not end; also [hlt] for ever).
    - A [w]-bit integer is a [Z] between 0 and 2^w; conversions and unsigned
      arithmetic wrap with [wrap] ([u8], [u16], [u32], [u64]), signed readings
      are [swrap] ([i8], [i32]).
    - [while] and [for_upto] are the loops.  A [while] has fuel.  Where the number
      of rounds is known from the arguments the definition computes it (pages of
      a range plus two, frames of an entry plus two, size of the memory plus two
      for strlen, length of a format plus one); otherwise the fuel is an
      argument, and the theorem says how much is enough: the latency of the
      keyboard controller, the number of entries of the MADT, the number of free
      blocks.  Every such theorem proves that the loop ends.
    - A claim (C1, C2, ...) is a theorem about the program; each claim with
      hypotheses is followed by a [_witness] that applies it to concrete data.

    ** Files, the code they model, and what is proved

    - Prelude: outcomes, loops and their total-correctness rules, machine
      integers, bit equations ([zbits]).
    - Memory: byte-addressed memory as a finite map, little-endian loads and
      stores, the relations [same_bytes] and [same_outside].
    - FrameAllocator (src/frame_allocator.cpp, NonOwningStack.hpp): the stack of
      free frames, stored in physical memory.  Initialisation panics exactly when
      no usable entry of the memory map can hold the stack, and otherwise puts it
      into the first one and makes exactly the other usable frames free; whatever clients
      do, free frames and handed-out frames partition them; reclaiming the boot
      loader's memory keeps only what fits on the stack.
    - Frame (src/Frame.cpp): a frame held by an object; a scope gives its frame
      back, a copied object gives it back twice.
    - PageTree (src/PageTree.cpp, PageTreeNode.cpp): the four-level page tables in
      memory.  The specification is the walk of the processor, [mmu_translate]
      and [mmu_writable].  Mapping a page changes the translation of exactly that
      page; the kernel's own walk agrees with the processor's below 4 GiB;
      flags of inner entries are replaced, which revokes write permission.
    - Paging (src/paging.cpp): page ranges, mapping and allocating ranges, the
      initial mappings, [paging_init], the free regions of virtual memory.
      Mapping a range takes exactly one frame for each page table that is missing
      ([missing_tables]); allocating a range takes one more for each page, none of
      which is a page table ([is_table]).
    - KernelMemory: the invariant [kernel_memory] of all of the above, the budget
      of free frames included, and what mapping, allocating and device pages do
      to it; the processor's view of the virtual memory, [vm_translate]; which
      bytes stay as they are while frames are handed out ([undisturbed]).
    - Containers (kpp: CircularQueue, Optional, UniquePtr; KeyboardBuffer.hpp):
      refinements of a bounded queue, of a partial map and of owned objects.
    - Function (kpp functional.hpp): the type-erased callable over UniquePtr; the
      results of programs are those of a map from Functions to functors, or to
      references where the Function was made from an lvalue.
    - Utilities (kpp: Array, algorithm, cmath): bounds-explicit element access.
    - Descriptors (src/gdt.cpp, IDTStructure.cpp, TableDescriptor.cpp,
      SegmentSelector.h): descriptor tables as the bytes the processor decodes.
    - Processor (src/processor.cpp, LocalAPIC.cpp): the classes [Platform] (the
      instructions) and [Devices] (documented behaviour of the 8259A, the 8042
      keyboard controller, the local APIC and the I/O APIC); code is proved
      against the classes, and the machine [pc] is an instance.  Device registers
      are reached through the page table.
    - CString (kpp/string), Printf (kpp/stdio): memory and string functions;
      [printf] over the class [Console], whose instances are a tape and the
      terminal.
    - Idt (src/idt.cpp): the interrupt routines, the keyboard decoder, the
      installed gates.  A page fault puts a fresh frame behind the page and keeps
      everything else.
    - Typing: interrupts of typed keys one after the other; each is handled to its
      end and the keys arrive in the keyboard buffer in order (typed_keys_arrive).
    - EarlyFaults: page faults before the local APIC is enabled, whose handler
      faults itself; the invariant [starting] of the machine in that phase.
    - Running: the invariant [live] of the running kernel (memory, local APIC,
      devices), page faults and memory accesses under it.
    - SelfMapped: the identity map and the direct map under the kernel's own
      pointers ([identity_mapped], [direct_mapped]), which the initial mappings
      provide and which Boot and Main show to be there until the end.
    - Acpi (RootSystemDescriptionPointer.h, ACPISDTHeader.h, RootSDT.h,
      APICManager): checksums and the panics where they are wrong, table look-up,
      the MADT parser, which maps the register page of each I/O APIC, redirection
      of interrupts, inter-processor interrupts.
    - FreeList (FreeListAllocator), Vmm (src/vmm.cpp): the heap, a list of free
      blocks threaded through memory, related to lists of (address, size) pairs;
      allocation keeps used blocks apart and untouched, deallocation merges; the
      same with the page faults on block headers ([allocate_faulting],
      [deallocate_faulting]); what [vmm_init] and [vfree] do to the layers below:
      [vfree] gives back a frame that stays mapped, and whose page it maps itself
      where that was never touched.
    - Terminal (Terminal.hpp, Terminal.cpp, BitmapFont.hpp): the ring of lines,
      painting, and the picture on the screen, pixel by pixel.
    - Shell (src/main.cpp, kernel.cpp): the line editor, the commands, panics and
      the stack protector.  Keys of any kind keep the editor's state well typed
      (editor_types_preserved).
    - Views (kpp StringView.hpp, Span.hpp): the characters the terminal writes and
      the bytes of a glyph, read out of memory.
    - Tests (src/tests.cpp): the tests that run at start-up.  What they print
      ([run_all_tests_prints]) and what they leave behind: the paging test passes
      and keeps its frame (paging_test_correct); the allocator test passes and
      costs the kernel's heap all regions but the first
      (allocator_test_forgets_heap).
    - Session (kernel_main of src/main.cpp): its loop with the hardware behind it:
      for any arrival of the scan codes of typed lines that keeps within the
      buffer, the terminal receives the dialogue of the user (session_answers).
    - Boot (kernel_init of src/kernel.cpp): all parts set up one after the other
      from a machine as the boot loader leaves it; the promises of the parts hold
      together at the end (kernel_init_correct): a new terminal, the initial
      mappings kept but for pages 0 and 1 and the register pages, the keyboard's
      interrupt line led through the I/O APIC to the keyboard routine, the
      memory under the kernel's pointers still reached by them, and the bytes in
      use (tables, responses, stack) unchanged.
    - Main (src/main.cpp): [kernel_main] from the boot loader to the dialogue:
      start-up, tests, greeting and session compose to what the screen receives,
      and the memory of the kernel is still mapped where its pointers say
      (kernel_main_correct); [kernel_pre_main], whose stack switch has its
      operands swapped ([boot_stack_reclaimed]).

    ** How the parts interact

    PageTree takes frames from FrameAllocator and zeroes them as new tables;
    [sys_ok] is the invariant of both: a well-formed tree whose nodes, the free
    frames and the storage of the free stack are disjoint.  Paging, Processor,
    Acpi and Idt preserve it ([map_page_spec], [map_device_page_sys]), and the
    clients see it as [kernel_memory], which EarlyFaults extends to [starting] and
    Boot threads from paging_init to the last redirection.  Idt uses
    Processor (end of interrupt), Paging (page faults) and Containers (keys).
    Vmm stacks FreeList on Paging and FrameAllocator.  Shell reads the keyboard
    buffer and prints through Printf to Terminal ([print_format_terminal]), so
    that its theorems speak about the text sent to the screen and
    [terminal_shows_text] about its pixels.

    ** Defects the proofs expose

    The theorems state what the code does, also where this is not what it means
    to do; among others: map_page_revokes_write, exception_vectors_shifted,
    find_sdt_skips_first, madt_zero_length_diverges, heap_allocate_correct (exact
    fit of the first block), early_fault_maps_null, stale_prev_double_allocation,
    vmm_init_overruns, vfree_frees_mapped_frame, terminal_full_ring, clear_keeps_old_lines,
    backspace_does_not_erase, allocator_test_forgets_heap, boot_stack_reclaimed.

    ** Assumptions

    Memory reads as 0 where nothing was stored.  The heap's memory is one [mem]:
    the page-fault handler backs a page on its first access.  The terminal
    theorems start from zeroed lines, which the source does not guarantee.  The
    classes [Platform] and [Devices], the font and the memory map are parameters.
    Code runs on one processor; an interrupt routine runs between two operations
    of the code, not inside one.  The C++ stack is not in the state; it
    and the responses of the boot loader, which are parameters, lie in memory of
    which the kernel hands frames out.  Boot and Main assume that they are not in
    one of the few frames handed out during the run, nor in page 1 ([bc_area]),
    and that the free stack is away from page 1 and the pages of the paging test
    ([bc_reserve], [stack_apart]); they prove that then no byte of the former is
    written and the latter stays mapped to itself.  Other memory maps are outside
    the model.

    ** Not modelled

    The two tests that the source comments out (interrupt handling, stack smash);
    members that do not compile when they are used (the copy assignment of
    Function, the non-const members of Span); the bodies of the global
    constructors other than that of the constructor test (kernel_init takes any
    list of them); keys typed before the loop of the shell; abort, which nothing
    calls; FreeStackAllocator, which is not compiled and includes headers that do
    not exist; debug printing, which is compiled out; assembly stubs, which are
    fields of the state; the linker script and the boot loader's responses, which
    are parameters; and Limine. *)

From Stdlib Require Import ZArith Lia String Btauto.
From stdpp Require Import base gmap list list_numbers numbers strings option.
#[local] Open Scope Z_scope.
#[local] Set Warnings "-clear-no-such-hyp".

(** ** Outcomes of kernel code

    [kernel_panic] is [[noreturn]]; an access outside an object is undefined
    behaviour; a loop that never exits does not return.  A modelled operation
    says which of these happened. *)
Inductive outcome (A : Type) : Type :=
| Done (a : A)
| Panic (msg : string)
| Undefined (what : string)
| Diverged.
Arguments Done {A} a.
Arguments Panic {A} msg.
Arguments Undefined {A} what.
Arguments Diverged {A}.

#[export] Instance outcome_ret : MRet outcome := fun A a => Done a.
#[export] Instance outcome_bind : MBind outcome := fun A B f m =>
  match m with
  | Done a => f a
  | Panic s => Panic s
  | Undefined s => Undefined s
  | Diverged => Diverged
  end.
#[export] Instance outcome_fmap : FMap outcome := fun A B f m =>
  match m with
  | Done a => Done (f a)
  | Panic s => Panic s
  | Undefined s => Undefined s
  | Diverged => Diverged
  end.

#[export] Instance outcome_eq_dec {A} `{EqDecision A} : EqDecision (outcome A).
Proof. solve_decision. Defined.

(** The boolean tests used by executable guards and by witnesses. *)
Definition is_done {A} (m : outcome A) : bool :=
  match m with Done _ => true | _ => false end.

Lemma is_done_inv {A} (m : outcome A) : is_done m = true -> exists a, m = Done a.
Proof. destruct m; naive_solver. Qed.

Lemma done_inj {A} (a b : A) : Done a = Done b -> a = b.
Proof. by intros [=]. Qed.

Lemma bind_done {A B} (a : A) (f : A -> outcome B) : (Done a ≫= f) = f a.
Proof. done. Qed.

Lemma bind_done_inv {A B} (m : outcome A) (f : A -> outcome B) b :
  (m ≫= f) = Done b -> exists a, m = Done a /\ f a = Done b.
Proof. destruct m; naive_solver. Qed.

Lemma bind_assoc {A B C} (m : outcome A) (f : A -> outcome B) (g : B -> outcome C) :
  (m ≫= f) ≫= g = m ≫= (fun a => f a ≫= g).
Proof. by destruct m. Qed.

Lemma bind_cong {A B} (m : outcome A) (f g : A -> outcome B) :
  (forall a, f a = g a) -> (a ← m; f a) = (a ← m; g a).
Proof. intros Hfg. destruct m; [apply Hfg|done..]. Qed.

(** ** Loops

    [while fuel cond body s] is the C++ loop [while (cond) body]; running out
    of fuel is [Diverged].  Every use in the development fixes a fuel and a
    theorem shows that it is enough. *)
Fixpoint while {S : Type} (fuel : nat) (cond : S -> bool)
    (body : S -> outcome S) (s : S) : outcome S :=
  match fuel with
  | O => Diverged
  | Datatypes.S n => if cond s then s' ← body s; while n cond body s' else Done s
  end.

(** Total correctness of a loop from a decreasing invariant. *)
Lemma while_total {S} (I : nat -> S -> Prop) (P : S -> Prop) cond body :
  (forall n s, I n s -> cond s = false -> P s) ->
  (forall n s, I n s -> cond s = true ->
     exists n' s', n = Datatypes.S n' /\ body s = Done s' /\ I n' s') ->
  forall n fuel s, I n s -> (n < fuel)%nat ->
  exists s', while fuel cond body s = Done s' /\ P s'.
Proof.
  intros Hexit Hstep n fuel. revert n.
  induction fuel as [|fuel IH]; intros n s HI Hlt; [lia|]. simpl.
  destruct (cond s) eqn:Hc; [|eauto].
  destruct (Hstep _ _ HI Hc) as (n' & s' & -> & -> & HI').
  rewrite bind_done. apply (IH n'); [done|lia].
Qed.

(** Partial correctness: what holds when the loop has exited. *)
Lemma while_partial {S} (I : S -> Prop) cond body :
  (forall s s', I s -> cond s = true -> body s = Done s' -> I s') ->
  forall fuel s s', I s -> while fuel cond body s = Done s' -> I s' /\ cond s' = false.
Proof.
  intros Hstep fuel. induction fuel as [|fuel IH]; intros s s' HI Hw; [done|].
  simpl in Hw. destruct (cond s) eqn:Hc; [|naive_solver].
  apply bind_done_inv in Hw as (s1 & Hb & Hw). eauto.
Qed.

Lemma while_unfold {S} fuel cond (body : S -> outcome S) s :
  while (Datatypes.S fuel) cond body s =
  if cond s then s' ← body s; while fuel cond body s' else Done s.
Proof. done. Qed.

Lemma while_more_fuel {S} cond (body : S -> outcome S) fuel fuel' s s' :
  (fuel <= fuel')%nat -> while fuel cond body s = Done s' ->
  while fuel' cond body s = Done s'.
Proof.
  revert fuel' s. induction fuel as [|fuel IH]; intros fuel' s Hle Hw; [done|].
  destruct fuel' as [|fuel']; [lia|]. simpl in *.
  destruct (cond s); [|done].
  apply bind_done_inv in Hw as (s1 & -> & Hw). rewrite bind_done. apply IH; [lia|done].
Qed.

(** [for (i = first; i < first + n; ++i) body] over a state. *)
Fixpoint for_upto {S : Type} (n : nat) (first : Z) (body : Z -> S -> outcome S)
    (s : S) : outcome S :=
  match n with
  | O => Done s
  | Datatypes.S n => s' ← body first s; for_upto n (first + 1) body s'
  end.

Lemma for_upto_S {S} n first (body : Z -> S -> outcome S) s :
  for_upto (Datatypes.S n) first body s =
  (s' ← body first s; for_upto n (first + 1) body s').
Proof. done. Qed.

(** Total correctness of a counted loop. *)
Lemma for_upto_total {S} (I : Z -> S -> Prop) (body : Z -> S -> outcome S) n first s :
  I first s ->
  (forall i s, first <= i < first + Z.of_nat n -> I i s ->
     exists s', body i s = Done s' /\ I (i + 1) s') ->
  exists s', for_upto n first body s = Done s' /\ I (first + Z.of_nat n) s'.
Proof.
  revert first s. induction n as [|n IHn]; intros first s HI Hbody; cbn [for_upto].
  { exists s. by rewrite Z.add_0_r. }
  destruct (Hbody first s) as (s1 & -> & HI1); [lia|done|]. rewrite bind_done.
  destruct (IHn (first + 1) s1) as (s' & -> & HI'); [done| |].
  { intros i s2 Hi. apply Hbody. lia. }
  exists s'. split; [done|].
  rewrite Nat2Z.inj_succ. by replace (first + Z.succ (Z.of_nat n)) with (first + 1 + Z.of_nat n) by lia.
Qed.

(** ** Lists *)
Lemma list_snoc_cases {A} (l : list A) : l = [] \/ exists l' x, l = l' ++ [x].
Proof. induction l as [|x l' _] using rev_ind; eauto. Qed.

Lemma size_list_to_set_le {A} `{Countable A} (l : list A) :
  (size (list_to_set l : gset A) <= List.length l)%nat.
Proof.
  induction l as [|x l IH]; cbn [list_to_set]; [by rewrite (size_empty (C:=gset A))|].
  cbn [List.length].
  rewrite size_union_alt, size_singleton.
  assert (size (list_to_set l ∖ {[x]} : gset A) <= size (list_to_set l : gset A))%nat
    by (apply subseteq_size; set_solver). lia.
Qed.

(** Set inclusions that need no hypothesis. *)
Ltac pure_set := clear; set_solver.

(** ** Machine integers

    A [w]-bit unsigned integer is a [Z] in [0, 2^w); conversions and unsigned
    arithmetic wrap. *)
Definition wrap (w z : Z) : Z := z mod 2 ^ w.
Abbreviation u8 := (wrap 8).
Abbreviation u16 := (wrap 16).
Abbreviation u32 := (wrap 32).
Abbreviation u64 := (wrap 64).

(** Two's-complement reading of the low [w] bits ([char], [int]). *)
Definition swrap (w z : Z) : Z :=
  let r := wrap w z in if r <? 2 ^ (w - 1) then r else r - 2 ^ w.
Abbreviation i8 := (swrap 8).
Abbreviation i32 := (swrap 32).

#[global] Arguments wrap : simpl never.
#[global] Arguments Z.pow : simpl never.
#[global] Arguments Z.modulo : simpl never.
#[global] Arguments Z.div : simpl never.
Definition UINT64_MAX : Z := 2 ^ 64 - 1.
Definition INT_MAX : Z := 2 ^ 31 - 1.

Lemma wrap_range w z : 0 <= w -> 0 <= wrap w z < 2 ^ w.
Proof. intros. apply Z.mod_pos_bound. lia. Qed.

Lemma swrap_range w z : 0 < w -> - 2 ^ (w - 1) <= swrap w z < 2 ^ (w - 1).
Proof.
  intros Hw. unfold swrap. pose proof (wrap_range w z ltac:(lia)) as Hr.
  assert (2 ^ w = 2 * 2 ^ (w - 1)) as He by (rewrite <-Z.pow_succ_r by lia; f_equal; lia).
  destruct (Z.ltb_spec (wrap w z) (2 ^ (w - 1))); lia.
Qed.

Lemma swrap_id w z : 0 < w -> - 2 ^ (w - 1) <= z < 2 ^ (w - 1) -> swrap w z = z.
Proof.
  intros Hw Hz. assert (2 ^ w = 2 * 2 ^ (w - 1)) as He by (rewrite <-Z.pow_succ_r by lia; f_equal; lia).
  unfold swrap, wrap. destruct (Z.lt_ge_cases z 0).
  - assert (z mod 2 ^ w = z + 2 ^ w) as ->.
    { symmetry. apply (Zmod_unique _ _ (-1)); lia. }
    destruct (Z.ltb_spec (z + 2 ^ w) (2 ^ (w - 1))); lia.
  - rewrite Z.mod_small by lia. destruct (Z.ltb_spec z (2 ^ (w - 1))); lia.
Qed.

Lemma i32_range z : - 2 ^ 31 <= i32 z < 2 ^ 31.
Proof. by apply (swrap_range 32). Qed.

Lemma wrap_id w z : 0 <= z < 2 ^ w -> wrap w z = z.
Proof. intros. by apply Z.mod_small. Qed.

Lemma wrap_wrap w z : wrap w (wrap w z) = wrap w z.
Proof. unfold wrap. by rewrite Zmod_mod. Qed.

Lemma wrap_land w z : 0 <= w -> wrap w z = Z.land z (Z.ones w).
Proof. intros. unfold wrap. by rewrite Z.land_ones. Qed.

Lemma wrap_add_l w a b : wrap w (wrap w a + b) = wrap w (a + b).
Proof. unfold wrap. by rewrite Zplus_mod_idemp_l. Qed.

Lemma wrap_add_r w a b : wrap w (a + wrap w b) = wrap w (a + b).
Proof. unfold wrap. by rewrite Zplus_mod_idemp_r. Qed.

Lemma wrap_sub_inv w a b : 0 <= a < 2 ^ w -> wrap w (wrap w (a + b) - b) = a.
Proof.
  intros. unfold wrap. rewrite Zminus_mod_idemp_l.
  replace (a + b - b) with a by lia. by apply Z.mod_small.
Qed.

(** Rewriting database for wrap-around that does not happen. *)
Create HintDb wraps.

Ltac unwrap :=
  repeat match goal with
  | |- context [wrap ?w ?z] => rewrite (wrap_id w z) by lia
  | H : context [wrap ?w ?z] |- _ => rewrite (wrap_id w z) in H by lia
  end.

(** ** Bits

    [zbits] proves an equation between bit expressions one bit at a time. *)
Create HintDb zbit.
#[global] Arguments Z.testbit : simpl never.
Lemma testbit_wrap w z i :
  0 <= w -> 0 <= i -> Z.testbit (wrap w z) i = (i <? w) && Z.testbit z i.
Proof.
  intros. unfold wrap. destruct (Z.ltb_spec i w); simpl.
  - by apply Z.mod_pow2_bits_low.
  - by apply Z.mod_pow2_bits_high.
Qed.

Lemma testbit_high z w i : 0 <= z < 2 ^ w -> w <= i -> Z.testbit z i = false.
Proof.
  intros [Hz Hlt] Hi. destruct (decide (z = 0)) as [->|]; [apply Z.bits_0|].
  apply Z.bits_above_log2; [done|].
  apply Z.log2_lt_pow2; [lia|]. eapply Z.lt_le_trans; [done|].
  apply Z.pow_le_mono_r; lia.
Qed.

Lemma bounded_of_testbit z w :
  0 <= w -> 0 <= z -> (forall i, w <= i -> Z.testbit z i = false) -> z < 2 ^ w.
Proof.
  intros Hw Hz Hb. destruct (decide (z = 0)) as [->|]; [lia|].
  apply Z.log2_lt_pow2; [lia|].
  destruct (Z.lt_ge_cases (Z.log2 z) w) as [|Hge]; [done|].
  specialize (Hb _ Hge). rewrite Z.bit_log2 in Hb by lia. done.
Qed.

Lemma lor_range a b w : 0 <= w -> 0 <= a < 2 ^ w -> 0 <= b < 2 ^ w -> 0 <= Z.lor a b < 2 ^ w.
Proof.
  intros Hw Ha Hb. split; [apply Z.lor_nonneg; lia|].
  apply bounded_of_testbit; [done|apply Z.lor_nonneg; lia|].
  intros i Hi. rewrite Z.lor_spec, !(testbit_high _ w) by done. done.
Qed.

Lemma land_range_l a b w : 0 <= w -> 0 <= a < 2 ^ w -> 0 <= Z.land a b < 2 ^ w.
Proof.
  intros Hw Ha. split; [apply Z.land_nonneg; lia|].
  apply bounded_of_testbit; [done|apply Z.land_nonneg; lia|].
  intros i Hi. rewrite Z.land_spec, (testbit_high a w) by done. done.
Qed.

Lemma land_range_r a b w : 0 <= w -> 0 <= b < 2 ^ w -> 0 <= Z.land a b < 2 ^ w.
Proof. intros. rewrite Z.land_comm. by apply land_range_l. Qed.
#[export] Hint Resolve lor_range land_range_l land_range_r : zbit.

Lemma testbit_ones_ltb n i : 0 <= n -> 0 <= i -> Z.testbit (Z.ones n) i = (i <? n).
Proof.
  intros. destruct (Z.ltb_spec i n).
  - by apply Z.ones_spec_low.
  - apply Z.ones_spec_high; lia.
Qed.

Ltac zbits_step :=
  match goal with
  | |- context [Z.testbit (Z.land _ _) _] => rewrite Z.land_spec
  | |- context [Z.testbit (Z.lor _ _) _] => rewrite Z.lor_spec
  | |- context [Z.testbit (Z.ldiff _ _) _] => rewrite Z.ldiff_spec
  | |- context [Z.testbit (Z.lxor _ _) _] => rewrite Z.lxor_spec
  | |- context [Z.testbit (Z.shiftl _ _) _] => rewrite Z.shiftl_spec by lia
  | |- context [Z.testbit (Z.shiftr _ _) _] => rewrite Z.shiftr_spec by lia
  | |- context [Z.testbit (Z.ones _) _] => rewrite testbit_ones_ltb by lia
  | |- context [Z.testbit (wrap _ _) _] => rewrite testbit_wrap by lia
  | |- context [Z.testbit (Z.lnot _) _] => rewrite Z.lnot_spec by lia
  | |- context [Z.testbit 0 _] => rewrite Z.bits_0
  | |- context [Z.testbit ?z ?i] => rewrite (Z.testbit_neg_r z i) by lia
  end.
Ltac zbits_cases :=
  repeat match goal with
  | |- context [?a <? ?b] => destruct (Z.ltb_spec a b)
  end.
Ltac zbits_finish :=
  rewrite ?andb_false_r, ?andb_true_r, ?orb_false_r, ?orb_true_r; simpl;
  try done; try (f_equal; (lia || (f_equal; lia))); try btauto.
Ltac zbits :=
  apply Z.bits_inj'; intros ?i ?Hi;
  repeat zbits_step; zbits_cases; try (exfalso; lia);
  repeat zbits_step; zbits_finish.
