(* ===== verification/Memory.v ===== *)
(** * Byte-addressed memory

    The contents of memory as a finite map from addresses to bytes, with
    little-endian loads and stores of any width (x86-64 stores integers and
    pointers little-endian, and allows unaligned accesses).  A byte the map does
    not hold reads as 0, so every memory of finite size is represented. *)

From Stdlib Require Import ZArith Lia.
From stdpp Require Import base gmap list list_numbers numbers.
From S2P Require Import Prelude.
#[local] Open Scope Z_scope.

Abbreviation mem := (gmap Z Z).

(** The byte at an address. *)
Definition load8 (m : mem) (a : Z) : Z := u8 (default 0 (m !! a)).

Definition store8 (m : mem) (a v : Z) : mem := <[a := u8 v]> m.

(** [n]-byte little-endian load and store. *)
Fixpoint load (n : nat) (m : mem) (a : Z) : Z :=
  match n with
  | O => 0
  | S n => load8 m a + 256 * load n m (a + 1)
  end.

Fixpoint store (n : nat) (m : mem) (a v : Z) : mem :=
  match n with
  | O => m
  | S n => store n (store8 m a v) (a + 1) (v / 256)
  end.

Abbreviation load16 := (load 2).
Abbreviation load32 := (load 4).
Abbreviation load64 := (load 8).
Abbreviation store32 := (store 4).
Abbreviation store64 := (store 8).

(** Two memories hold the same bytes from [lo] (inclusive) to [hi] (exclusive). *)
Definition same_bytes (lo hi : Z) (m m' : mem) : Prop :=
  forall a, lo <= a < hi -> load8 m' a = load8 m a.

(** The bytes outside [lo, hi) are the same. *)
Definition same_outside (lo hi : Z) (m m' : mem) : Prop :=
  forall a, a < lo \/ hi <= a -> load8 m' a = load8 m a.

#[export] Instance same_bytes_equiv lo hi : Equivalence (same_bytes lo hi).
Proof.
  split; unfold same_bytes.
  - intros m a Ha. done.
  - intros m m' Hm a Ha. by rewrite Hm.
  - intros m m' m'' H1 H2 a Ha. by rewrite H2, H1.
Qed.

#[export] Instance same_outside_equiv lo hi : Equivalence (same_outside lo hi).
Proof.
  split; unfold same_outside.
  - intros m a Ha. done.
  - intros m m' Hm a Ha. by rewrite Hm.
  - intros m m' m'' H1 H2 a Ha. by rewrite H2, H1.
Qed.

Lemma load8_range m a : 0 <= load8 m a < 256.
Proof. unfold load8. apply (wrap_range 8). lia. Qed.

Lemma load8_store8_eq m a v : load8 (store8 m a v) a = u8 v.
Proof. unfold load8, store8. rewrite lookup_insert_eq. simpl. apply wrap_wrap. Qed.

Lemma load8_store8_ne m a b v : a <> b -> load8 (store8 m a v) b = load8 m b.
Proof. intros. unfold load8, store8. by rewrite lookup_insert_ne. Qed.

Lemma load8_store8 m a b v :
  load8 (store8 m a v) b = if decide (a = b) then u8 v else load8 m b.
Proof.
  case_decide; subst; [apply load8_store8_eq|by apply load8_store8_ne].
Qed.

Lemma pow256_S n : 2 ^ (8 * Z.of_nat (S n)) = 256 * 2 ^ (8 * Z.of_nat n).
Proof.
  rewrite Nat2Z.inj_succ, Z.mul_succ_r, Z.pow_add_r by lia. lia.
Qed.

Lemma load_range n m a : 0 <= load n m a < 2 ^ (8 * Z.of_nat n).
Proof.
  revert a. induction n as [|n IH]; intros a; [simpl; lia|].
  rewrite pow256_S. simpl load. pose proof (IH (a + 1)). pose proof (load8_range m a). lia.
Qed.

Lemma load64_range m a : 0 <= load64 m a < 2 ^ 64.
Proof. apply (load_range 8). Qed.

(** A load depends only on the bytes it covers. *)
Lemma load_same n m m' a :
  same_bytes a (a + Z.of_nat n) m m' -> load n m' a = load n m a.
Proof.
  revert a. induction n as [|n IH]; intros a Hs; [done|]. simpl.
  rewrite (Hs a) by lia. rewrite IH; [done|].
  intros b Hb. apply Hs. lia.
Qed.

Lemma store_outside n m a v : same_outside a (a + Z.of_nat n) m (store n m a v).
Proof.
  revert m a v. induction n as [|n IH]; intros m a v b Hb; simpl; [done|].
  rewrite IH by lia. apply load8_store8_ne. lia.
Qed.

Lemma load_store_eq n m a v : load n (store n m a v) a = wrap (8 * Z.of_nat n) v.
Proof.
  revert m a v. induction n as [|n IH]; intros m a v.
  { simpl. unfold wrap. simpl. by rewrite Z.mod_1_r. }
  simpl load. simpl store. rewrite IH.
  rewrite (store_outside n _ (a + 1)) by lia. rewrite load8_store8_eq.
  unfold wrap. rewrite pow256_S.
  rewrite (Z.rem_mul_r v 256) by lia. done.
Qed.

Lemma load_store_ne n n' m a b v :
  b + Z.of_nat n' <= a \/ a + Z.of_nat n <= b ->
  load n' (store n m a v) b = load n' m b.
Proof.
  intros Hd. apply load_same. intros c Hc. apply store_outside. lia.
Qed.

Lemma load_outside n m m' lo hi a :
  same_outside lo hi m m' -> a + Z.of_nat n <= lo \/ hi <= a ->
  load n m' a = load n m a.
Proof. intros Hs Ha. apply load_same. intros b Hb. apply Hs. lia. Qed.

Lemma same_outside_weaken lo hi lo' hi' m m' :
  lo' <= lo -> hi <= hi' -> same_outside lo hi m m' -> same_outside lo' hi' m m'.
Proof. intros ?? Hs a Ha. apply Hs. lia. Qed.

Lemma load64_store64_eq m a v : load64 (store64 m a v) a = u64 v.
Proof. apply (load_store_eq 8). Qed.

Lemma load64_store64_ne m a b v :
  b + 8 <= a \/ a + 8 <= b -> load64 (store64 m a v) b = load64 m b.
Proof. intros. apply load_store_ne. lia. Qed.

(** Loading what a wider store wrote, one 8-byte field at a time. *)
Lemma store64_outside m a v : same_outside a (a + 8) m (store64 m a v).
Proof. apply (store_outside 8). Qed.

#[global] Arguments load : simpl never.
#[global] Arguments store : simpl never.
#[global] Opaque load store.

(** [n] zeroed 64-bit words from [a] on. *)
Fixpoint zero_words (n : nat) (m : mem) (a : Z) : mem :=
  match n with
  | O => m
  | S n => zero_words n (store64 m a 0) (a + 8)
  end.

Lemma zero_words_outside n m a : same_outside a (a + 8 * Z.of_nat n) m (zero_words n m a).
Proof.
  revert m a. induction n as [|n IH]; intros m a; simpl; [done|].
  etrans; [|eapply same_outside_weaken; [| |apply IH]; lia].
  eapply same_outside_weaken; [| |apply store64_outside]; lia.
Qed.

Lemma zero_words_load n m a i :
  0 <= i < Z.of_nat n -> load64 (zero_words n m a) (a + 8 * i) = 0.
Proof.
  revert m a i. induction n as [|n IH]; intros m a i Hi; simpl zero_words; [lia|].
  destruct (decide (i = 0)) as [->|].
  - rewrite (load_outside _ _ _ _ _ _ (zero_words_outside n _ _)) by lia.
    replace (a + 8 * 0) with a by lia. by rewrite load64_store64_eq.
  - replace (a + 8 * i) with (a + 8 + 8 * (i - 1)) by lia. apply IH. lia.
Qed.

(** Loads across stores: normalise an address comparison with [lia]. *)
Ltac mem_simpl :=
  repeat first
    [ rewrite load64_store64_eq
    | rewrite load64_store64_ne by lia ].
