(* ===== verification/FrameAllocator.v ===== *)
(** * Physical frame allocator

    [kpp::NonOwningStack] (lib/kpp/include/kpp/NonOwningStack.hpp) and the frame
    allocator built on it (src/frame_allocator.cpp): a stack of free frame
    addresses whose storage is itself carved out of physical memory.  The stack
    storage is part of the modelled memory, so a frame that overlapped it would
    corrupt the free list in the model as well. *)

From Stdlib Require Import ZArith Lia String Sorted.
From stdpp Require Import base gmap list list_numbers numbers strings.
From S2P Require Import Prelude Memory.
#[local] Set Warnings "-clear-no-such-hyp".
#[local] Open Scope Z_scope.

(** kernelConstants (include/kernel/constants.h) *)
Definition pageSize : Z := 0x1000.
Definition frameSize : Z := 0x1000.

(** LIMINE_MEMMAP_* and struct limine_memmap_entry (include/kernel/limine.h) *)
Definition LIMINE_MEMMAP_USABLE : Z := 0.
Definition LIMINE_MEMMAP_BOOTLOADER_RECLAIMABLE : Z := 5.

Record limine_memmap_entry := MemmapEntry {
  entry_base : Z;
  entry_length : Z;
  entry_type : Z
}.

(** The responses of the boot loader the kernel reads (src/limine_features.cpp). *)
Record limine_features := Limine {
  memory_map : list limine_memmap_entry;
  hhdm_offset : Z;
  physical_base : Z
}.

(** kpp::NonOwningStack *)
Record NonOwningStack := MkStack {
  m_stack : Z;
  m_maxSize : Z;
  m_size : Z
}.

(** What the memory-management code shares: the physical memory, and
    [static kpp::Optional<kpp::NonOwningStack> free_stack]. *)
Record kmem := KMem {
  ram : mem;
  free_stack : option NonOwningStack
}.

Record FrameRange := MkFrameRange { begin : Z; end_ : Z }.

Section FrameAllocator.
Context (limine : limine_features).

(** The physical address behind a kernel pointer: the low addresses are
    identity mapped, addresses from the HHDM offset on are mapped with that
    offset (docs/memory.md, [virtual_to_physical]).  The page tables could say
    something else: that they do not, for the pointers that the kernel uses, is a
    theorem about start-up and the whole run (kernel_init_correct and
    kernel_main_correct, with SelfMapped's [identity_mapped] and [direct_mapped]). *)
Definition phys (v : Z) : Z :=
  if hhdm_offset limine <=? v then v - hhdm_offset limine else v.

Definition kernel_physical_to_virtual (physical_address : Z) : Z :=
  u64 (physical_address + hhdm_offset limine).

(** ** kpp::NonOwningStack *)

Definition stack_empty (s : NonOwningStack) : bool := m_size s =? 0.
Definition stack_full (s : NonOwningStack) : bool := m_size s =? m_maxSize s.
(** The pointer to the free stack is the physical address of its first frame. *)
Definition stack_slot (s : NonOwningStack) (i : Z) : Z := phys (u64 (m_stack s + 8 * i)).

Definition stack_push (m : mem) (s : NonOwningStack) (frame_pointer : Z)
    : mem * NonOwningStack :=
  if stack_full s then (m, s)
  else (store64 m (stack_slot s (m_size s)) frame_pointer,
        MkStack (m_stack s) (m_maxSize s) (u64 (m_size s + 1))).

Definition stack_pop (s : NonOwningStack) : NonOwningStack :=
  if stack_empty s then s
  else MkStack (m_stack s) (m_maxSize s) (u64 (m_size s - 1)).

Definition stack_top (m : mem) (s : NonOwningStack) : Z :=
  load64 m (stack_slot s (u64 (m_size s - 1))).

(** ** frame_allocator.cpp *)

Definition is_allocatable (e : limine_memmap_entry) : bool :=
  entry_type e =? LIMINE_MEMMAP_USABLE.

Definition get_num_allocatable_frames : Z :=
  foldl (fun allocatable_frames entry =>
    if is_allocatable entry
    then u64 (allocatable_frames + entry_length entry / frameSize)
    else allocatable_frames) 0 (memory_map limine).

Definition ceil_div (dividend divisor : Z) : Z :=
  dividend / divisor + (if dividend mod divisor =? 0 then 0 else 1).

Fixpoint reserve_from (entries : list limine_memmap_entry) (num_frames : Z) : Z :=
  match entries with
  | [] => 0
  | entry :: rest =>
      if is_allocatable entry && (u64 (num_frames * frameSize) <=? entry_length entry)
      then entry_base entry else reserve_from rest num_frames
  end.
Definition manually_reserve_contiguous_frames (num_frames : Z) : Z :=
  reserve_from (memory_map limine) num_frames.

(** [free_stack->push(p)]; dereferencing an empty Optional is undefined. *)
Definition free_stack_push (st : kmem) (p : Z) : outcome kmem :=
  match free_stack st with
  | None => Undefined "free_stack: dereference of an empty Optional"
  | Some s => let '(m, s) := stack_push (ram st) s p in Done (KMem m (Some s))
  end.

Definition in_exclude_range (exclude_ranges : list FrameRange) (frame : Z) : bool :=
  existsb (fun r => (begin r <=? frame) && (frame <? end_ r)) exclude_ranges.

(** The loop over the frames of one memory-map entry.  The fuel exceeds the
    number of frames of the entry; the loop needs more only when [frame]
    wraps around, and then it never ends. *)
Definition for_frames (entry : limine_memmap_entry)
    (body : kmem -> Z -> outcome kmem) (st : kmem) : outcome kmem :=
  let end_of_entry := u64 (entry_base entry + entry_length entry) in
  p ← while (Z.to_nat (entry_length entry / frameSize) + 2)
        (fun p : kmem * Z => snd p <? end_of_entry)
        (fun p => st ← body (fst p) (snd p); Done (st, u64 (snd p + frameSize)))
        (st, entry_base entry);
  Done (fst p).

Fixpoint for_entries (entries : list limine_memmap_entry)
    (use : limine_memmap_entry -> bool)
    (body : kmem -> Z -> outcome kmem) (st : kmem) : outcome kmem :=
  match entries with
  | [] => Done st
  | entry :: rest =>
      if use entry
      then st ← for_frames entry body st; for_entries rest use body st
      else for_entries rest use body st
  end.

Definition fill_free_stack (exclude_ranges : list FrameRange) (st : kmem) : outcome kmem :=
  for_entries (memory_map limine) is_allocatable
    (fun st frame => if in_exclude_range exclude_ranges frame then Done st
                     else free_stack_push st frame) st.

Definition frame_allocator_init (st : kmem) : outcome kmem :=
  let num_allocatable_frames := get_num_allocatable_frames in
  let frame_pointers_per_frame := ceil_div frameSize 8 in
  let num_free_stack_frames := ceil_div num_allocatable_frames frame_pointers_per_frame in
  let free_stack_frames_begin := manually_reserve_contiguous_frames num_free_stack_frames in
  if free_stack_frames_begin =? 0
  then Panic "not enough contiguous space for the free stack frame allocator"
  else
    let free_stack_frames_end :=
      u64 (free_stack_frames_begin + u64 (num_free_stack_frames * frameSize)) in
    let st := KMem (ram st)
                (Some (MkStack free_stack_frames_begin num_allocatable_frames 0)) in
    fill_free_stack [MkFrameRange free_stack_frames_begin free_stack_frames_end] st.

Definition allocate_frame (st : kmem) : outcome (Z * kmem) :=
  match free_stack st with
  | None => Undefined "free_stack: dereference of an empty Optional"
  | Some s =>
      if stack_empty s then Panic "ran out of physical memory to allocate!"
      else let frame_address := stack_top (ram st) s in
           Done (frame_address, KMem (ram st) (Some (stack_pop s)))
  end.

Definition available_frames (st : kmem) : outcome Z :=
  match free_stack st with
  | None => Undefined "free_stack: dereference of an empty Optional"
  | Some s => Done (m_size s)
  end.

Definition deallocate_frame (frame : Z) (st : kmem) : outcome kmem :=
  free_stack_push st frame.

Definition free_limine_bootloader_memory (st : kmem) : outcome kmem :=
  for_entries (memory_map limine)
    (fun entry => entry_type entry =? LIMINE_MEMMAP_BOOTLOADER_RECLAIMABLE)
    (fun st frame => deallocate_frame frame st) st.

Definition update_frame_ref_count (frame change : Z) (st : kmem) : outcome kmem :=
  if change =? -1 then deallocate_frame frame st else Done st.
End FrameAllocator.

Definition limine_memmap_type (type : Z) : string :=
  match type with
  | 0 => "USABLE"
  | 1 => "RESERVED"
  | 2 => "ACPI_RECLAIMABLE"
  | 3 => "ACPI_NVS"
  | 4 => "BAD_MEMORY"
  | 5 => "BOOTLOADER_RECLAIMABLE"
  | 6 => "KERNEL_AND_MODULES"
  | 7 => "FRAMEBUFFER"
  | _ => "unknown"
  end.

(** ** Specification: the free list read out of memory *)
Section Contents.
Context (limine : limine_features).

(** The frames on the stack, bottom first. *)
Definition stack_contents (m : mem) (s : NonOwningStack) : list Z :=
  (fun i => load64 m (stack_slot limine s i)) <$> seqZ 0 (m_size s).

Definition free_frames (st : kmem) : list Z :=
  match free_stack st with
  | None => []
  | Some s => stack_contents (ram st) s
  end.

(** The stack's storage lies in the identity-mapped low memory. *)
Record stack_ok (s : NonOwningStack) : Prop := {
  stack_size_ok : 0 <= m_size s <= m_maxSize s;
  stack_base_ok : 0 < m_stack s;
  stack_end_ok : m_stack s + 8 * m_maxSize s <= hhdm_offset limine;
  hhdm_small : hhdm_offset limine <= 2 ^ 64
}.

(** The address [a] belongs to the storage of the free stack. *)
Definition in_storage (st : kmem) (a : Z) : Prop :=
  match free_stack st with
  | None => False
  | Some s => m_stack s <= a < m_stack s + 8 * m_maxSize s
  end.

Definition allocator_ok (st : kmem) : Prop :=
  match free_stack st with None => False | Some s => stack_ok s end.

(** The memories of two states agree on the allocator's storage. *)
Definition storage_same (st : kmem) (m' : mem) : Prop :=
  forall a, in_storage st a -> load8 m' a = load8 (ram st) a.

Lemma stack_slot_id s i :
  stack_ok s -> 0 <= i < m_maxSize s -> stack_slot limine s i = m_stack s + 8 * i.
Proof.
  intros [] Hi. unfold stack_slot, phys. rewrite wrap_id by lia.
  destruct (Z.leb_spec (hhdm_offset limine) (m_stack s + 8 * i)); lia.
Qed.

Lemma stack_contents_same m m' s :
  stack_ok s ->
  same_bytes (m_stack s) (m_stack s + 8 * m_maxSize s) m m' ->
  stack_contents m' s = stack_contents m s.
Proof.
  intros Hok Hs. pose proof (stack_size_ok _ Hok). unfold stack_contents.
  apply list_fmap_ext. intros i x Hx%lookup_seqZ.
  rewrite stack_slot_id by (done || lia). apply load_same.
  intros a Ha. apply Hs. lia.
Qed.

Lemma free_frames_same st m' :
  allocator_ok st -> storage_same st m' ->
  free_frames (KMem m' (free_stack st)) = free_frames st.
Proof.
  unfold allocator_ok, storage_same, free_frames, in_storage. simpl.
  destruct (free_stack st) as [s|]; [|done]. intros Hok Hs.
  by apply stack_contents_same.
Qed.

Lemma stack_contents_length m s :
  0 <= m_size s -> Z.of_nat (List.length (stack_contents m s)) = m_size s.
Proof. intros. unfold stack_contents. rewrite length_fmap, length_seqZ. lia. Qed.

Lemma stack_push_full m s p : stack_full s = true -> stack_push limine m s p = (m, s).
Proof. intros Hf. unfold stack_push. by rewrite Hf. Qed.

(** A push on a stack that is not full appends to the contents and writes
    nothing outside the storage. *)
Lemma stack_push_spec m s p :
  stack_ok s -> m_size s < m_maxSize s -> 0 <= p < 2 ^ 64 ->
  exists m', stack_push limine m s p =
      (m', MkStack (m_stack s) (m_maxSize s) (m_size s + 1)) /\
    stack_contents m' (MkStack (m_stack s) (m_maxSize s) (m_size s + 1)) =
      stack_contents m s ++ [p] /\
    same_outside (m_stack s) (m_stack s + 8 * m_maxSize s) m m'.
Proof.
  intros Hok Hsz Hp. pose proof (stack_size_ok _ Hok).
  pose proof (stack_base_ok _ Hok). pose proof (stack_end_ok _ Hok).
  pose proof (hhdm_small _ Hok).
  unfold stack_push, stack_full. rewrite (proj2 (Z.eqb_neq _ _)) by lia.
  rewrite stack_slot_id by (done || lia). rewrite wrap_id by lia.
  eexists. split; [done|]. split.
  - unfold stack_contents. simpl. rewrite seqZ_app by lia. simpl.
    rewrite fmap_app. f_equal.
    + apply list_fmap_ext. intros i x Hx%lookup_seqZ.
      change (stack_slot limine (MkStack _ _ _)) with (stack_slot limine s).
      rewrite stack_slot_id by (done || lia). mem_simpl. done.
    + rewrite Z.add_0_l. change (seqZ (m_size s) 1) with [m_size s]. simpl.
      change (stack_slot limine (MkStack _ _ _)) with (stack_slot limine s).
      rewrite stack_slot_id by (done || lia). mem_simpl. by rewrite wrap_id by lia.
  - eapply same_outside_weaken; [| |apply store64_outside]; lia.
Qed.

Lemma stack_pop_spec m s l p :
  stack_ok s -> stack_contents m s = l ++ [p] ->
  stack_empty s = false /\ stack_top limine m s = p /\
  stack_pop s = MkStack (m_stack s) (m_maxSize s) (m_size s - 1) /\
  stack_contents m (stack_pop s) = l.
Proof.
  intros Hok Hc. pose proof (stack_size_ok _ Hok).
  pose proof (stack_base_ok _ Hok). pose proof (stack_end_ok _ Hok).
  pose proof (hhdm_small _ Hok).
  assert (Hlen : m_size s = Z.of_nat (List.length l) + 1).
  { rewrite <-(stack_contents_length m) by lia. rewrite Hc, length_app. simpl. lia. }
  assert (Hne : stack_empty s = false) by (apply Z.eqb_neq; lia).
  assert (Hpop : stack_pop s = MkStack (m_stack s) (m_maxSize s) (m_size s - 1)).
  { unfold stack_pop. rewrite Hne. by rewrite wrap_id by lia. }
  split; [done|]. rewrite Hpop. unfold stack_top.
  rewrite wrap_id by lia. unfold stack_contents in Hc |- *.
  replace (m_size s) with (m_size s - 1 + 1) in Hc by lia.
  rewrite seqZ_app in Hc by lia. rewrite fmap_app in Hc. simpl in Hc.
  rewrite Z.add_0_l in Hc.
  change (seqZ (m_size s - 1) 1) with [m_size s - 1] in Hc. simpl in Hc.
  apply app_inj_tail in Hc as [Hl Hp]. split; [done|]. split; [done|].
  rewrite <-Hl. by apply list_fmap_ext.
Qed.
End Contents.

(** ** Allocation and deallocation, on the free list *)
Section AllocSpec.
Context (limine : limine_features).

(** Where the stack's storage is: its base and its capacity. *)
Definition storage (st : kmem) : option (Z * Z) :=
  (fun s => (m_stack s, m_maxSize s)) <$> free_stack st.

(** How many frames the free stack can hold. *)
Definition capacity (st : kmem) : Z := default 0 (snd <$> storage st).

Lemma in_storage_eq st st' a :
  storage st' = storage st -> in_storage st' a <-> in_storage st a.
Proof.
  unfold storage, in_storage.
  destruct (free_stack st) as [[]|], (free_stack st') as [[]|]; simpl; naive_solver.
Qed.

Lemma free_frames_length st :
  allocator_ok limine st -> Z.of_nat (List.length (free_frames limine st)) <= capacity st.
Proof.
  unfold allocator_ok, free_frames, capacity, storage.
  destruct (free_stack st) as [s|]; simpl; [|done]. intros Hok.
  pose proof (stack_size_ok _ _ Hok). rewrite stack_contents_length; lia.
Qed.

Lemma available_frames_spec st :
  allocator_ok limine st ->
  available_frames st = Done (Z.of_nat (List.length (free_frames limine st))).
Proof.
  unfold allocator_ok, available_frames, free_frames.
  destruct (free_stack st) as [s|]; [|done]. intros Hok.
  pose proof (stack_size_ok _ _ Hok). rewrite stack_contents_length; [done|lia].
Qed.

Lemma allocate_frame_spec st l f :
  allocator_ok limine st -> free_frames limine st = l ++ [f] ->
  exists st', allocate_frame limine st = Done (f, st') /\ ram st' = ram st /\
    free_frames limine st' = l /\ allocator_ok limine st' /\ storage st' = storage st.
Proof.
  unfold allocator_ok, allocate_frame, free_frames, storage.
  destruct (free_stack st) as [s|]; [|done]. intros Hok Hc.
  destruct (stack_pop_spec _ _ _ _ _ Hok Hc) as (-> & -> & Hp & Hl).
  eexists. split; [done|]. simpl. split; [done|]. split; [done|].
  rewrite Hp. split; [|done].
  assert (1 <= m_size s).
  { pose proof (stack_size_ok _ _ Hok).
    rewrite <-(stack_contents_length limine (ram st)), Hc, length_app by lia. simpl. lia. }
  destruct Hok. split; simpl; lia.
Qed.

Lemma allocate_frame_empty st :
  allocator_ok limine st -> free_frames limine st = [] ->
  allocate_frame limine st = Panic "ran out of physical memory to allocate!".
Proof.
  unfold allocator_ok, allocate_frame, free_frames.
  destruct (free_stack st) as [s|]; [|done]. intros Hok Hc.
  pose proof (stack_size_ok _ _ Hok).
  assert (m_size s = 0) as Hz.
  { rewrite <-(stack_contents_length limine (ram st)), Hc by lia. done. }
  unfold stack_empty. by rewrite Hz.
Qed.

Lemma free_stack_push_spec st f :
  allocator_ok limine st -> 0 <= f < 2 ^ 64 ->
  Z.of_nat (List.length (free_frames limine st)) < capacity st ->
  exists st', free_stack_push limine st f = Done st' /\
    free_frames limine st' = free_frames limine st ++ [f] /\
    allocator_ok limine st' /\ storage st' = storage st /\
    (forall a, ~ in_storage st a -> load8 (ram st') a = load8 (ram st) a).
Proof.
  unfold allocator_ok, free_stack_push, free_frames, storage, capacity, in_storage, storage.
  destruct (free_stack st) as [s|]; [|done]. simpl. intros Hok Hf Hroom.
  pose proof (stack_size_ok _ _ Hok). rewrite stack_contents_length in Hroom by lia.
  destruct (stack_push_spec limine (ram st) s f) as (m' & -> & Hc & Hout); [done|lia|done|].
  eexists. split; [done|]. simpl. split; [done|]. split.
  { destruct Hok. split; simpl; lia. }
  split; [done|]. intros a Ha. apply Hout. lia.
Qed.

(** A full stack silently drops the frame. *)
Lemma free_stack_push_full st f :
  allocator_ok limine st ->
  Z.of_nat (List.length (free_frames limine st)) = capacity st ->
  free_stack_push limine st f = Done st.
Proof.
  unfold allocator_ok, free_stack_push, free_frames, storage, capacity, storage.
  destruct st as [m [s|]]; [|done]. simpl. intros Hok Hfull.
  pose proof (stack_size_ok _ _ Hok). rewrite stack_contents_length in Hfull by lia.
  rewrite stack_push_full; [done|]. apply Z.eqb_eq. lia.
Qed.
End AllocSpec.

(** ** The loops over the memory map *)

(** The frames of an entry, lowest first. *)
Definition entry_frames (e : limine_memmap_entry) : list Z :=
  (fun i => entry_base e + frameSize * i) <$> seqZ 0 (entry_length e / frameSize).

(** The frames of all the entries that [use] selects. *)
Definition frames_of (use : limine_memmap_entry -> bool)
    (entries : list limine_memmap_entry) : list Z :=
  concat (entry_frames <$> filter (fun e => use e = true) entries).

(** What the Limine protocol guarantees of the entries the kernel uses: they are
    page aligned and the address arithmetic on them does not wrap. *)
Definition entry_ok (e : limine_memmap_entry) : Prop :=
  0 < entry_base e /\ 0 <= entry_length e /\
  entry_base e mod frameSize = 0 /\ entry_length e mod frameSize = 0 /\
  entry_base e + entry_length e <= 2 ^ 64 - frameSize.

Lemma entry_frames_elem e f :
  f ∈ entry_frames e <-> exists i, f = entry_base e + frameSize * i /\
    0 <= i < entry_length e / frameSize.
Proof.
  unfold entry_frames. rewrite list_elem_of_fmap. setoid_rewrite elem_of_seqZ.
  naive_solver.
Qed.

Lemma entry_frames_bounds e f :
  entry_ok e -> f ∈ entry_frames e ->
  entry_base e <= f /\ f + frameSize <= entry_base e + entry_length e /\ f mod frameSize = 0.
Proof.
  intros (Hb & Hl & Hba & Hla & He) (i & -> & Hi)%entry_frames_elem.
  unfold frameSize in *. split; [lia|]. split; [|].
  - apply Z.div_exact in Hla; lia.
  - rewrite Z.mul_comm, Z.mod_add by lia. done.
Qed.

Section Loops.
Context (P : list Z -> kmem -> Prop).

(** Each iteration of the loop handles the next frame of the entry. *)
Lemma for_frames_spec e body pre post st :
  entry_ok e ->
  (forall l1 f l2 st, pre ++ entry_frames e ++ post = l1 ++ f :: l2 -> P l1 st ->
     exists st', body st f = Done st' /\ P (l1 ++ [f]) st') ->
  P pre st ->
  exists st', for_frames e body st = Done st' /\ P (pre ++ entry_frames e) st'.
Proof.
  intros (Hb & Hl & Hba & Hla & He) Hbody HP. unfold for_frames.
  pose proof (Z.div_exact (entry_length e) frameSize ltac:(done)) as Hdiv.
  apply Hdiv in Hla. unfold frameSize in *. set (k := entry_length e / 0x1000) in *.
  assert (Hk : 0 <= k) by lia.
  rewrite (wrap_id 64) by lia.
  pose (I := fun (n : nat) (p : kmem * Z) => exists i, 0 <= i /\ Z.of_nat n = k - i /\
    snd p = entry_base e + 0x1000 * i /\
    P (pre ++ ((fun j => entry_base e + 0x1000 * j) <$> seqZ 0 i)) (fst p)).
  destruct (while_total I (fun p => P (pre ++ entry_frames e) (fst p)))
    with (n := Z.to_nat k) (fuel := (Z.to_nat k + 2)%nat)
      (cond := fun p : kmem * Z => snd p <? entry_base e + entry_length e)
      (body := fun p : kmem * Z => st ← body (fst p) (snd p); Done (st, u64 (snd p + 0x1000)))
      (s := (st, entry_base e)) as ([st' fr] & Hw & HP').
  - intros n p (i & Hi & Hn & Hs & HPi) Hc%Z.ltb_ge.
    replace i with k in HPi by lia. unfold entry_frames, frameSize. fold k. done.
  - intros n p (i & Hi & Hn & Hs & HPi) Hc%Z.ltb_lt.
    destruct n as [|n]; [lia|].
    edestruct (Hbody (pre ++ ((fun j => entry_base e + 0x1000 * j) <$> seqZ 0 i)) (snd p)
      (((fun j => entry_base e + 0x1000 * j) <$> seqZ (i + 1) (k - i - 1)) ++ post))
      as (st1 & Hst1 & HP1); [|done|].
    { unfold entry_frames, frameSize. fold k. rewrite <-!app_assoc. f_equal.
      replace k with (i + (1 + (k - i - 1))) at 1 by lia.
      rewrite seqZ_app, seqZ_app, !fmap_app by lia.
      rewrite <-!app_assoc. f_equal. rewrite !Z.add_0_l.
      change (seqZ i 1) with [i]. simpl. by rewrite Hs. }
    eexists n, _. split; [done|]. rewrite Hst1, bind_done. split; [done|].
    exists (i + 1). simpl. rewrite wrap_id by lia.
    split; [lia|]. split; [lia|]. split; [lia|].
    rewrite <-app_assoc, Hs in HP1. rewrite seqZ_app, fmap_app by lia.
    by rewrite Z.add_0_l.
  - exists 0. simpl. rewrite app_nil_r. split; [done|]. split; [lia|]. split; [lia|done].
  - lia.
  - fold k. rewrite Hw, bind_done. eauto.
Qed.

Lemma for_entries_spec use body entries pre st :
  Forall (fun e => use e = true -> entry_ok e) entries ->
  (forall l1 f l2 st, pre ++ frames_of use entries = l1 ++ f :: l2 -> P l1 st ->
     exists st', body st f = Done st' /\ P (l1 ++ [f]) st') ->
  P pre st ->
  exists st', for_entries entries use body st = Done st' /\ P (pre ++ frames_of use entries) st'.
Proof.
  intros Hok. revert pre st. induction Hok as [|e es He Hok IH]; intros pre st Hbody HP.
  { exists st. by rewrite app_nil_r. }
  unfold frames_of in *. simpl. destruct (use e) eqn:Hu.
  - rewrite filter_cons_True in * by done. simpl in *.
    destruct (for_frames_spec e body pre
      (concat (entry_frames <$> filter (fun e => use e = true) es)) st)
      as (st1 & -> & HP1); [auto|done|done|].
    rewrite bind_done. rewrite app_assoc. apply IH; [|done].
    intros l1 f l2 st2 Heq. rewrite <-app_assoc in Heq. eauto.
  - rewrite filter_cons_False in * by congruence. eauto.
Qed.
End Loops.

(** ** Initialisation *)
Section Init.
Context (limine : limine_features).

Definition usable_frames : list Z := frames_of is_allocatable (memory_map limine).

(** The memory map the boot loader hands over. *)
Record memmap_ok : Prop := {
  mm_usable : Forall (fun e => is_allocatable e = true ->
    entry_ok e /\ entry_base e + entry_length e <= hhdm_offset limine) (memory_map limine);
  mm_hhdm : 2 ^ 32 <= hhdm_offset limine <= 2 ^ 64 - 2 ^ 32;
  mm_total : Z.of_nat (List.length usable_frames) < 2 ^ 52
}.

(** How many frames the free stack itself takes. *)
Definition stack_frames : Z :=
  ceil_div (Z.of_nat (List.length usable_frames)) (ceil_div frameSize 8).

Lemma entry_frames_length e :
  0 <= entry_length e -> Z.of_nat (List.length (entry_frames e)) = entry_length e / frameSize.
Proof.
  intros. unfold entry_frames. rewrite length_fmap, length_seqZ.
  pose proof (Z.div_pos (entry_length e) frameSize). unfold frameSize in *. lia.
Qed.

Lemma get_num_allocatable_frames_eq :
  memmap_ok -> get_num_allocatable_frames limine = Z.of_nat (List.length usable_frames).
Proof.
  intros [Hu _ Ht]. unfold get_num_allocatable_frames, usable_frames in *.
  rewrite <-(wrap_id 64 (Z.of_nat _)) by lia. clear Ht.
  change 0 with (u64 0). rewrite <-(Z.add_0_l (Z.of_nat _)).
  generalize 0 as acc.
  induction Hu as [|e es He Hu IH]; intros acc; simpl; [by rewrite Z.add_0_r|].
  unfold frames_of in *. simpl. destruct (is_allocatable e) eqn:Ha.
  - rewrite filter_cons_True by done. rewrite fmap_cons. cbn [concat].
    rewrite length_app, Nat2Z.inj_add.
    destruct He as [(Hb & Hl & _) _]; [done|]. rewrite entry_frames_length by done.
    rewrite wrap_add_l, IH. f_equal. lia.
  - rewrite filter_cons_False by congruence. apply IH.
Qed.

Lemma ceil_div_bounds a b : 0 <= a -> 0 < b -> a <= b * ceil_div a b < a + b.
Proof.
  intros Ha Hb. unfold ceil_div. pose proof (Z.div_mod a b).
  pose proof (Z.mod_pos_bound a b).
  destruct (Z.eqb_spec (a mod b) 0); lia.
Qed.

Lemma reserve_from_spec entries n :
  Forall (fun e => is_allocatable e = true -> entry_ok e) entries ->
  0 <= n < 2 ^ 52 -> reserve_from entries n <> 0 ->
  exists e, e ∈ entries /\ is_allocatable e = true /\
    entry_base e = reserve_from entries n /\ n * frameSize <= entry_length e.
Proof.
  intros Hok Hn. induction Hok as [|e es He Hok IH]; simpl; [done|].
  destruct (is_allocatable e) eqn:Ha; simpl.
  - destruct (Z.leb_spec (u64 (n * frameSize)) (entry_length e)) as [Hle|Hgt].
    + intros _. exists e. split; [apply list_elem_of_here|].
      rewrite wrap_id in Hle by (unfold frameSize; lia). done.
    + intros Hr. destruct (IH Hr) as (e' & ? & ?). exists e'.
      split; [by apply list_elem_of_further|done].
  - intros Hr. destruct (IH Hr) as (e' & ? & ?). exists e'.
    split; [by apply list_elem_of_further|done].
Qed.

Lemma usable_frames_elem f :
  memmap_ok -> f ∈ usable_frames ->
  0 < f /\ f + frameSize <= hhdm_offset limine /\ f mod frameSize = 0.
Proof.
  intros [Hu _ _]. unfold usable_frames, frames_of.
  rewrite list_elem_of_In, in_concat. intros (l & Hl & Hf).
  apply list_elem_of_In, list_elem_of_fmap in Hl as (e & -> & He).
  apply list_elem_of_filter in He as [Ha He].
  apply list_elem_of_In in Hf. rewrite Forall_forall in Hu.
  destruct (Hu _ He Ha) as [Hok Hend]. destruct (entry_frames_bounds _ _ Hok Hf) as (?&?&?).
  destruct Hok. split; [lia|]. split; [lia|done].
Qed.

(** The frames that initialisation leaves free. *)
Definition initial_free_frames (b : Z) : list Z :=
  filter (fun f => in_exclude_range
    [MkFrameRange b (u64 (b + u64 (stack_frames * frameSize)))] f = false) usable_frames.

Lemma fill_spec (excl : list FrameRange) st :
  memmap_ok -> allocator_ok limine st -> free_frames limine st = [] ->
  Z.of_nat (List.length usable_frames) <= capacity st ->
  exists st', fill_free_stack limine excl st = Done st' /\
    free_frames limine st' =
      filter (fun f => in_exclude_range excl f = false) usable_frames /\
    allocator_ok limine st' /\ storage st' = storage st /\
    (forall a, ~ in_storage st a -> load8 (ram st') a = load8 (ram st) a).
Proof.
  intros Hmm Hok Hempty Hcap. unfold fill_free_stack.
  pose (P := fun l st1 =>
    free_frames limine st1 = filter (fun f => in_exclude_range excl f = false) l /\
    allocator_ok limine st1 /\ storage st1 = storage st /\
    (forall a, ~ in_storage st a -> load8 (ram st1) a = load8 (ram st) a)).
  apply (for_entries_spec P _ _ _ []).
  - eapply Forall_impl; [apply (mm_usable Hmm)|]. simpl. naive_solver.
  - intros l1 f l2 st1 Heq (Hf1 & Hok1 & Hst1 & Hm1). simpl in Heq.
    fold usable_frames in Heq. unfold P. rewrite filter_app.
    destruct (in_exclude_range excl f) eqn:Hex.
    + exists st1. split; [done|]. rewrite filter_cons_False by congruence.
      by rewrite app_nil_r.
    + rewrite filter_cons_True by done.
      assert (Hin : f ∈ usable_frames) by (rewrite Heq; set_solver).
      apply usable_frames_elem in Hin as (? & ? & _); [|done].
      pose proof (mm_hhdm Hmm).
      destruct (free_stack_push_spec limine st1 f) as (st2 & -> & Hf2 & Hok2 & Hst2 & Hm2);
        [done|unfold frameSize in *; lia| |].
      { unfold capacity. rewrite Hst1. fold (capacity st). rewrite Hf1.
        eapply Z.lt_le_trans; [|exact Hcap]. rewrite Heq, length_app. simpl.
        pose proof (length_filter (fun f => in_exclude_range excl f = false) l1). lia. }
      exists st2. split; [done|]. rewrite Hf2, Hf1, Hst2. split; [done|].
      split; [done|]. split; [done|]. intros a Ha. rewrite Hm2; [auto|].
      by rewrite in_storage_eq.
  - unfold P. rewrite Hempty. done.
Qed.

Lemma stack_frames_bounds :
  memmap_ok ->
  0 <= stack_frames < 2 ^ 52 /\
  Z.of_nat (List.length usable_frames) * 8 <= stack_frames * frameSize.
Proof.
  intros [_ _ Ht]. unfold stack_frames, frameSize.
  change (ceil_div 4096 8) with 512.
  pose proof (ceil_div_bounds (Z.of_nat (List.length usable_frames)) 512). lia.
Qed.

(** The state right after [free_stack.emplace]. *)
Definition empty_stack_state (m : mem) (b : Z) : kmem :=
  KMem m (Some (MkStack b (Z.of_nat (List.length usable_frames)) 0)).

Lemma init_state_ok m b :
  memmap_ok -> b = manually_reserve_contiguous_frames limine stack_frames -> b <> 0 ->
  allocator_ok limine (empty_stack_state m b) /\ 0 < b /\ b mod frameSize = 0 /\
  b + stack_frames * frameSize <= hhdm_offset limine.
Proof.
  intros Hmm -> Hb. destruct (stack_frames_bounds Hmm) as [Hn Hcap].
  pose proof (mm_hhdm Hmm).
  destruct (reserve_from_spec (memory_map limine) stack_frames) as (e & He & Ha & Hbe & Hlen);
    [|done|done|].
  { eapply Forall_impl; [apply (mm_usable Hmm)|]. simpl. naive_solver. }
  pose proof (mm_usable Hmm) as Hu. rewrite Forall_forall in Hu.
  destruct (Hu _ He Ha) as [(H1 & H2 & H3 & H4 & H5) H6].
  unfold manually_reserve_contiguous_frames. rewrite <-Hbe.
  split; [split; simpl; lia|]. split; [done|]. split; [done|]. lia.
Qed.

Lemma frame_allocator_init_done st b :
  memmap_ok -> b = manually_reserve_contiguous_frames limine stack_frames -> b <> 0 ->
  exists st', frame_allocator_init limine st = Done st' /\
    free_frames limine st' = initial_free_frames b /\
    allocator_ok limine st' /\
    storage st' = Some (b, Z.of_nat (List.length usable_frames)) /\
    (forall a, ~ in_storage st' a -> load8 (ram st') a = load8 (ram st) a).
Proof.
  intros Hmm Hb Hb0. destruct (init_state_ok (ram st) b Hmm Hb Hb0) as (Hok & _).
  unfold frame_allocator_init. rewrite (get_num_allocatable_frames_eq Hmm).
  fold stack_frames. rewrite <-Hb. rewrite (proj2 (Z.eqb_neq b 0)) by done.
  destruct (fill_spec [MkFrameRange b (u64 (b + u64 (stack_frames * frameSize)))]
    (empty_stack_state (ram st) b)) as (st' & Hfill & Hf & Hok' & Hst & Hm);
    [done|done|done|done|].
  exists st'. split; [exact Hfill|]. split; [exact Hf|]. split; [done|].
  split; [by rewrite Hst|]. intros a Ha. apply Hm. by rewrite <-in_storage_eq.
Qed.
End Init.

(** ** What initialisation establishes *)
Section InitProps.
Context (limine : limine_features).

(** Distinct usable entries do not overlap (the protocol sorts them). *)
Definition memmap_sorted : Prop :=
  StronglySorted (fun e1 e2 => entry_base e1 + entry_length e1 <= entry_base e2)
    (filter (fun e => is_allocatable e = true) (memory_map limine)).

Lemma entry_frames_NoDup e : NoDup (entry_frames e).
Proof.
  unfold entry_frames. apply NoDup_fmap_2; [|apply NoDup_seqZ].
  intros x y. unfold frameSize. lia.
Qed.

Lemma usable_frames_NoDup : memmap_ok limine -> memmap_sorted -> NoDup (usable_frames limine).
Proof.
  intros [Hu _ _]. unfold memmap_sorted, usable_frames, frames_of.
  assert (Hall : Forall entry_ok (filter (fun e => is_allocatable e = true) (memory_map limine))).
  { apply Forall_forall. intros e [Ha He]%list_elem_of_filter.
    rewrite Forall_forall in Hu. by destruct (Hu _ He Ha). }
  revert Hall. generalize (filter (fun e => is_allocatable e = true) (memory_map limine)) as es.
  intros es Hall Hs. induction Hs as [|e es Hs IH Hlt]; [apply NoDup_nil_2|].
  apply Forall_cons in Hall as [He Hall]. rewrite fmap_cons. cbn [concat].
  apply NoDup_app. split; [apply entry_frames_NoDup|]. split; [|auto].
  intros f Hf Hf'. rewrite list_elem_of_In, in_concat in Hf'.
  destruct Hf' as (l & Hl & Hfl). apply list_elem_of_In, list_elem_of_fmap in Hl as (e' & -> & He').
  apply list_elem_of_In in Hfl. rewrite Forall_forall in Hall, Hlt.
  pose proof (entry_frames_bounds _ _ He Hf). pose proof (entry_frames_bounds _ _ (Hall _ He') Hfl).
  pose proof (Hlt _ He'). unfold frameSize in *. lia.
Qed.

Lemma page_apart f b n :
  f mod frameSize = 0 -> b mod frameSize = 0 -> ~ (b <= f < b + n * frameSize) ->
  f + frameSize <= b \/ b + n * frameSize <= f.
Proof.
  unfold frameSize. intros Hf Hb Hout.
  apply Z.mod_divide in Hf as [x ->]; [|done]. apply Z.mod_divide in Hb as [y ->]; [|done]. lia.
Qed.

Lemma initial_free_frames_elem b f :
  memmap_ok limine -> b = manually_reserve_contiguous_frames limine (stack_frames limine) ->
  b <> 0 ->
  f ∈ initial_free_frames limine b <->
  f ∈ usable_frames limine /\ ~ (b <= f < b + stack_frames limine * frameSize).
Proof.
  intros Hmm Hb Hb0. destruct (init_state_ok limine ∅ b Hmm Hb Hb0) as (_ & Hb1 & _ & Hend).
  pose proof (mm_hhdm _ Hmm). destruct (stack_frames_bounds _ Hmm).
  unfold initial_free_frames. rewrite list_elem_of_filter. unfold in_exclude_range. simpl.
  rewrite orb_false_r. unfold frameSize in *. unwrap.
  destruct (Z.leb_spec b f), (Z.ltb_spec f (b + stack_frames limine * 0x1000)); simpl;
    intuition (done || lia).
Qed.
End InitProps.

(** The entry has room for one pointer per usable frame. *)
Definition holds_stack (limine : limine_features) (e : limine_memmap_entry) : Prop :=
  entry_type e = LIMINE_MEMMAP_USABLE /\ 8 * Z.of_nat (List.length (usable_frames limine)) <= entry_length e.

#[export] Instance holds_stack_dec limine e : Decision (holds_stack limine e).
Proof. unfold holds_stack. apply _. Defined.

(** A length in whole frames has room for the pointers exactly when it has room
    for the frames that the code reserves for them. *)
Lemma stack_frames_fit limine len :
  len mod frameSize = 0 ->
  stack_frames limine * frameSize <= len <-> 8 * Z.of_nat (List.length (usable_frames limine)) <= len.
Proof.
  intros Hl. unfold stack_frames, frameSize in *. change (ceil_div 4096 8) with 512.
  pose proof (ceil_div_bounds (Z.of_nat (List.length (usable_frames limine))) 512 ltac:(lia) ltac:(lia)).
  apply Z.mod_divide in Hl as [k ->]; [|done]. lia.
Qed.

(** The first entry with room is taken, and 0 means that there is none. *)
Lemma reserve_first_fit limine :
  memmap_ok limine ->
  manually_reserve_contiguous_frames limine (stack_frames limine) =
    match filter (holds_stack limine) (memory_map limine) with e :: _ => entry_base e | [] => 0 end.
Proof.
  intros Hmm. destruct (stack_frames_bounds _ Hmm) as [Hn _].
  unfold manually_reserve_contiguous_frames. pose proof (mm_usable _ Hmm) as Hu.
  induction Hu as [|e es He Hu IH]; [done|]. cbn [reserve_from].
  unfold is_allocatable in *. destruct (Z.eqb_spec (entry_type e) LIMINE_MEMMAP_USABLE) as [Ht|Ht]; cbn [andb].
  - destruct He as [(_ & _ & _ & Hl & _) _]; [done|].
    rewrite (wrap_id 64) by (unfold frameSize; lia). pose proof (stack_frames_fit limine _ Hl) as Hfit.
    destruct (Z.leb_spec (stack_frames limine * frameSize) (entry_length e)) as [Hle|Hgt].
    + rewrite filter_cons_True; [done|]. split; [done|]. by apply Hfit.
    + rewrite filter_cons_False; [done|]. intros [_ Hle]. apply Hfit in Hle. lia.
  - rewrite filter_cons_False; [done|]. by intros [? _].
Qed.

Lemma filter_ext_elem {A} (P Q : A -> Prop) `{!forall x, Decision (P x), !forall x, Decision (Q x)} (l : list A) :
  (forall x, x ∈ l -> P x <-> Q x) -> filter P l = filter Q l.
Proof.
  induction l as [|x l IH]; intros Hpq; [done|].
  rewrite !filter_cons, IH by (intros y Hy; apply Hpq; by right).
  pose proof (Hpq x ltac:(left)). by repeat case_decide; try tauto.
Qed.

(** A frame lies outside the frames of the stack exactly when it starts outside
    its storage. *)
Lemma outside_stack limine (Hmm : memmap_ok limine) b f :
  0 < b -> b mod frameSize = 0 -> b + stack_frames limine * frameSize <= hhdm_offset limine -> f ∈ usable_frames limine ->
  in_exclude_range [MkFrameRange b (u64 (b + u64 (stack_frames limine * frameSize)))] f = false <->
  ~ (b <= f < b + 8 * Z.of_nat (List.length (usable_frames limine))).
Proof.
  intros Hb0 Hb Hend (_ & _ & Hf)%(usable_frames_elem _ _ Hmm). pose proof (mm_hhdm _ Hmm).
  destruct (stack_frames_bounds _ Hmm) as [Hn _].
  pose proof (ceil_div_bounds (Z.of_nat (List.length (usable_frames limine))) 512 ltac:(lia) ltac:(lia)) as Hc.
  change (ceil_div _ 512) with (stack_frames limine) in Hc.
  unfold in_exclude_range. simpl. rewrite orb_false_r. unfold frameSize in *. unwrap.
  apply Z.mod_divide in Hf as [x ->]; [|done]. apply Z.mod_divide in Hb as [y ->]; [|done].
  destruct (Z.leb_spec (y * 0x1000) (x * 0x1000)), (Z.ltb_spec (x * 0x1000) (y * 0x1000 + stack_frames limine * 0x1000));
    simpl; split; intros; try done; lia.
Qed.

(** C2. Initialising the frame allocator panics exactly when no usable entry of
    the memory map has room for a pointer per usable frame.  Otherwise the free
    stack lies at the start of the first entry that has, and holds every usable
    frame except the ones it occupies itself, in order and without duplicates; no
    free frame overlaps the storage of the stack, and nothing outside that
    storage has been written. *)
Theorem frame_allocator_init_correct limine st :
  memmap_ok limine -> memmap_sorted limine ->
  match filter (holds_stack limine) (memory_map limine) with
  | [] => frame_allocator_init limine st =
      Panic "not enough contiguous space for the free stack frame allocator"
  | e :: _ => exists st',
      let b := entry_base e in
      let storage_end := b + 8 * Z.of_nat (List.length (usable_frames limine)) in
      frame_allocator_init limine st = Done st' /\
      allocator_ok limine st' /\
      (forall a, in_storage st' a <-> b <= a < storage_end) /\
      free_frames limine st' = filter (fun f => ~ (b <= f < storage_end)) (usable_frames limine) /\
      NoDup (free_frames limine st') /\
      (forall f a, f ∈ free_frames limine st' -> f <= a < f + frameSize -> ~ in_storage st' a) /\
      (forall a, ~ in_storage st' a -> load8 (ram st') a = load8 (ram st) a)
  end.
Proof.
  intros Hmm Hsort. pose proof (reserve_first_fit limine Hmm) as Hb.
  destruct (filter (holds_stack limine) (memory_map limine)) as [|e es] eqn:Hes.
  { unfold frame_allocator_init. rewrite get_num_allocatable_frames_eq by done.
    fold (stack_frames limine). by rewrite Hb. }
  assert (He : holds_stack limine e /\ e ∈ memory_map limine)
    by (apply (proj1 (list_elem_of_filter _ _ _)); rewrite Hes; by left).
  destruct He as [[Ht _] He]. pose proof (mm_usable _ Hmm) as Hu. rewrite Forall_forall in Hu.
  destruct (Hu e He) as [(Hb0 & _ & Hbal & _) _]; [by apply Z.eqb_eq|].
  set (b := entry_base e) in *.
  destruct (init_state_ok limine ∅ b Hmm (eq_sym Hb) ltac:(lia)) as (_ & _ & _ & Hend).
  destruct (frame_allocator_init_done limine st b Hmm (eq_sym Hb) ltac:(lia)) as (st' & Hi & Hf & Hok & Hst & Hm).
  destruct (stack_frames_bounds _ Hmm) as [Hn Hcap].
  assert (Hin : forall a, in_storage st' a <-> b <= a < b + 8 * Z.of_nat (List.length (usable_frames limine))).
  { intros a. unfold storage in Hst. unfold in_storage. destruct (free_stack st') as [s|]; [|done]. by injection Hst as -> ->. }
  assert (Hfilter : free_frames limine st' =
    filter (fun f => ~ (b <= f < b + 8 * Z.of_nat (List.length (usable_frames limine)))) (usable_frames limine)).
  { rewrite Hf. apply filter_ext_elem. intros f Hfu. by apply (outside_stack limine Hmm). }
  exists st'. split; [done|]. split; [done|]. split; [done|]. split; [done|]. split; [|split; [|done]].
  - rewrite Hfilter. apply NoDup_filter, usable_frames_NoDup; done.
  - intros f a Hfin Ha. rewrite Hf in Hfin. apply initial_free_frames_elem in Hfin as [Hu' Hout]; try done; [|lia].
    destruct (usable_frames_elem _ _ Hmm Hu') as (_ & _ & Hfal).
    rewrite Hin. destruct (page_apart _ _ _ Hfal Hbal Hout); unfold frameSize in *; lia.
Qed.

(** A small machine: one entry of eight usable frames and one of three
    bootloader-reclaimable frames. *)
Definition demo_limine : limine_features :=
  Limine [MemmapEntry 0x10000 0x8000 0; MemmapEntry 0x20000 0x3000 5]
    0xffff800000000000 0x7c2a000.

Lemma demo_memmap_ok : memmap_ok demo_limine.
Proof.
  split; [|vm_compute; intuition congruence|vm_compute; done].
  unfold demo_limine; repeat constructor; vm_compute; intuition congruence.
Defined.

Lemma demo_memmap_sorted : memmap_sorted demo_limine.
Proof. vm_compute. repeat constructor. Defined.

Lemma frame_allocator_init_correct_witness :
  exists st', frame_allocator_init demo_limine (KMem ∅ None) = Done st' /\
    free_frames demo_limine st' =
      [0x11000; 0x12000; 0x13000; 0x14000; 0x15000; 0x16000; 0x17000].
Proof.
  destruct (frame_allocator_init_correct demo_limine (KMem ∅ None)
    demo_memmap_ok demo_memmap_sorted) as (st' & Hi & _ & _ & Hf & _).
  exists st'. split; [exact Hi|]. rewrite Hf. vm_compute. reflexivity.
Defined.

(** ** The allocator and its clients

    [out] is the multiset of frames handed out and not yet returned.  Clients
    allocate, return a frame they hold (the header's precondition of
    [deallocate_frame]), and write into the frames they hold. *)
Section Clients.
Context (limine : limine_features).

Definition in_frame (f a : Z) : Prop := f <= a < f + frameSize.

Inductive client_step : kmem * list Z -> kmem * list Z -> Prop :=
| client_alloc st st' f out :
    allocate_frame limine st = Done (f, st') ->
    client_step (st, out) (st', f :: out)
| client_free st st' f out1 out2 :
    deallocate_frame limine f st = Done st' ->
    client_step (st, out1 ++ f :: out2) (st', out1 ++ out2)
| client_write st m' out :
    (forall a, (forall f, f ∈ out -> ~ in_frame f a) -> load8 m' a = load8 (ram st) a) ->
    client_step (st, out) (KMem m' (free_stack st), out).

Definition client_inv (all : list Z) (s : kmem * list Z) : Prop :=
  allocator_ok limine (fst s) /\
  free_frames limine (fst s) ++ snd s ≡ₚ all /\
  Z.of_nat (List.length all) <= capacity (fst s) /\
  (forall f, f ∈ all -> 0 <= f < 2 ^ 64) /\
  (forall f a, f ∈ all -> in_frame f a -> ~ in_storage (fst s) a).

Lemma client_inv_step all s s' : client_inv all s -> client_step s s' -> client_inv all s'.
Proof.
  intros (Hok & Hperm & Hcap & Hrange & Hdis) Hstep.
  destruct Hstep as [st st' f out Ha|st st' f out1 out2 Hd|st m' out Hw];
    unfold client_inv in *; simpl in *.
  - destruct (list_snoc_cases (free_frames limine st)) as [He|(l & x & He)].
    { by rewrite allocate_frame_empty in Ha. }
    destruct (allocate_frame_spec limine st l x) as (st1 & Ha1 & _ & Hl & Hok1 & Hst1);
      [done|done|].
    rewrite Ha in Ha1. injection Ha1 as <- <-.
    rewrite Hl. split; [done|]. split.
    { rewrite <-Hperm, He, <-app_assoc. done. }
    unfold capacity in *. rewrite Hst1. split; [done|]. split; [done|].
    intros g a Hg Hin. rewrite (in_storage_eq st) by done. eauto.
  - assert (Hf : f ∈ all) by (rewrite <-Hperm; set_solver).
    assert (Hroom : Z.of_nat (List.length (free_frames limine st)) < capacity st).
    { eapply Z.lt_le_trans; [|exact Hcap]. rewrite <-Hperm, !length_app. simpl. lia. }
    destruct (free_stack_push_spec limine st f Hok) as (st1 & Hd1 & Hl & Hok1 & Hst1 & _);
      [auto|done|].
    unfold deallocate_frame in Hd. rewrite Hd in Hd1. injection Hd1 as <-.
    rewrite Hl. split; [done|]. split.
    { rewrite <-Hperm, <-app_assoc. simpl. by rewrite Permutation_middle. }
    unfold capacity in *. rewrite Hst1. split; [done|]. split; [done|].
    intros g a Hg Hin. rewrite (in_storage_eq st) by done. eauto.
  - assert (Hsame : storage_same st m').
    { intros a Ha. apply Hw. intros f Hf Hin. eapply Hdis; [|done|done].
      rewrite <-Hperm. set_solver. }
    split; [done|]. rewrite free_frames_same by done. done.
Qed.

Lemma client_inv_steps all s s' :
  client_inv all s -> rtc client_step s s' -> client_inv all s'.
Proof. intros Hi Hs. induction Hs; eauto using client_inv_step. Qed.

Lemma init_client_inv st st' b :
  memmap_ok limine -> b = manually_reserve_contiguous_frames limine (stack_frames limine) ->
  b <> 0 -> frame_allocator_init limine st = Done st' ->
  client_inv (initial_free_frames limine b) (st', []).
Proof.
  intros Hmm Hb Hb0 Hi.
  destruct (frame_allocator_init_done limine st b Hmm Hb Hb0)
    as (st1 & Hi1 & Hf & Hok & Hst & _).
  rewrite Hi in Hi1. injection Hi1 as <-.
  destruct (init_state_ok limine ∅ b Hmm Hb Hb0) as (_ & Hb1 & Hbal & Hend).
  destruct (stack_frames_bounds _ Hmm). pose proof (mm_hhdm _ Hmm).
  unfold client_inv. simpl. rewrite app_nil_r, Hf.
  split; [done|]. split; [done|]. split.
  { rewrite <-Hf. by apply free_frames_length. }
  split; intros f.
  - intros [Hu _]%initial_free_frames_elem; try done.
    apply usable_frames_elem in Hu as (?&?&?); [|done]. unfold frameSize in *. lia.
  - intros a [Hu Hout]%initial_free_frames_elem Ha; try done.
    destruct (usable_frames_elem _ _ Hmm Hu) as (_ & _ & Hfal). unfold in_frame in *.
    destruct (page_apart _ _ _ Hfal Hbal Hout);
      unfold in_storage, storage in *; destruct (free_stack st'); naive_solver lia.
Qed.
End Clients.

(** C3. Whatever the clients of the allocator do after initialisation
    (allocate, return frames they hold, write anywhere in the frames they
    hold), the free frames and the frames handed out are always together exactly
    the frames initialisation left free, each once: no frame is ever handed out
    twice, none is lost, and no client write reaches the free list. *)
Theorem frame_clients_partition limine st st0 st' out :
  memmap_ok limine -> memmap_sorted limine ->
  frame_allocator_init limine st = Done st0 ->
  rtc (client_step limine) (st0, []) (st', out) ->
  allocator_ok limine st' /\
  free_frames limine st' ++ out ≡ₚ free_frames limine st0 /\
  NoDup (free_frames limine st' ++ out) /\
  available_frames st' =
    Done (Z.of_nat (List.length (free_frames limine st0)) - Z.of_nat (List.length out)).
Proof.
  intros Hmm Hsort Hi Hsteps.
  pose (b := manually_reserve_contiguous_frames limine (stack_frames limine)).
  assert (Hb0 : b <> 0).
  { intros Hb. unfold frame_allocator_init in Hi.
    rewrite get_num_allocatable_frames_eq in Hi by done.
    fold (stack_frames limine) b in Hi. by rewrite Hb in Hi. }
  destruct (frame_allocator_init_done limine st b Hmm eq_refl Hb0) as (st1 & Hi1 & Hf & _).
  rewrite Hi in Hi1. injection Hi1 as <-.
  pose proof (init_client_inv _ _ _ b Hmm eq_refl Hb0 Hi) as Hinv.
  destruct (client_inv_steps _ _ _ _ Hinv Hsteps) as (Hok & Hperm & _). simpl in *.
  rewrite Hf. split; [done|]. split; [done|]. split.
  - rewrite Hperm. apply NoDup_filter, usable_frames_NoDup; done.
  - rewrite (available_frames_spec limine) by done. f_equal.
    rewrite <-Hperm, length_app. lia.
Qed.

(** The frames of the entries the boot loader used. *)
Abbreviation reclaimable := (fun e => entry_type e =? LIMINE_MEMMAP_BOOTLOADER_RECLAIMABLE).

Lemma frames_of_range use entries f :
  Forall (fun e => use e = true -> entry_ok e) entries -> f ∈ frames_of use entries ->
  0 <= f < 2 ^ 64.
Proof.
  intros Hent Hin. unfold frames_of in Hin. rewrite list_elem_of_In, in_concat in Hin.
  destruct Hin as (l & Hl & Hfl). apply list_elem_of_In, list_elem_of_fmap in Hl as (e & -> & He).
  apply list_elem_of_filter in He as [Ha He]. apply list_elem_of_In in Hfl.
  rewrite Forall_forall in Hent. pose proof (Hent _ He Ha) as Hek.
  pose proof (entry_frames_bounds _ _ Hek Hfl). destruct Hek. unfold frameSize in *. lia.
Qed.

Lemma free_limine_bootloader_memory_done limine st :
  allocator_ok limine st ->
  Forall (fun e => reclaimable e = true -> entry_ok e) (memory_map limine) ->
  exists st', free_limine_bootloader_memory limine st = Done st' /\
    allocator_ok limine st' /\ storage st' = storage st /\
    free_frames limine st' =
      take (Z.to_nat (capacity st))
        (free_frames limine st ++ frames_of reclaimable (memory_map limine)) /\
    (forall a, ~ in_storage st a -> load8 (ram st') a = load8 (ram st) a).
Proof.
  intros Hok Hent.
  pose (P := fun l st1 => allocator_ok limine st1 /\ storage st1 = storage st /\
    free_frames limine st1 = take (Z.to_nat (capacity st)) (free_frames limine st ++ l) /\
    (forall a, ~ in_storage st a -> load8 (ram st1) a = load8 (ram st) a)).
  destruct (for_entries_spec P reclaimable (fun st frame => deallocate_frame limine frame st)
    (memory_map limine) [] st) as (st' & Hl & HP); [done| | |].
  - intros l1 f l2 st1 Heq (Hok1 & Hst1 & Hf1 & Hm1).
    assert (Hcap : capacity st1 = capacity st) by (unfold capacity; by rewrite Hst1).
    pose proof (free_frames_length _ _ Hok1) as Hle.
    assert (Hrange : 0 <= f < 2 ^ 64).
    { apply (frames_of_range _ _ f Hent). simpl in Heq. rewrite Heq. set_solver. }
    unfold deallocate_frame.
    destruct (decide (Z.of_nat (List.length (free_frames limine st1)) = capacity st1)) as [Hfull|Hroom].
    + exists st1. rewrite free_stack_push_full by done. split; [done|].
      split; [done|]. split; [done|]. split; [|done]. rewrite Hf1, app_assoc.
      rewrite (take_app_le (_ ++ l1)); [done|]. rewrite Hf1 in Hfull. rewrite length_take in Hfull. lia.
    + destruct (free_stack_push_spec limine st1 f Hok1) as (st2 & -> & Hf2 & Hok2 & Hst2 & Hm2);
        [done|lia|].
      exists st2. split; [done|]. split; [done|]. split; [congruence|]. split.
      * rewrite Hf2, Hf1. rewrite Hf1, length_take in Hroom, Hle.
        rewrite !(take_ge _ (Z.to_nat (capacity st))); [by rewrite app_assoc| |];
          rewrite ?length_app in *; simpl; lia.
      * intros a Ha. rewrite Hm2, Hm1; [done|done|].
        by rewrite (in_storage_eq st st1 a).
  - unfold P. split; [done|]. split; [done|]. split; [|done]. rewrite app_nil_r, take_ge; [done|].
    pose proof (free_frames_length _ _ Hok). lia.
  - destruct HP as (? & ? & ? & ?). eauto 6.
Qed.

(** C22. The frames of the boot loader are pushed on a stack whose capacity was
    fixed from the usable frames only, so reclaiming keeps only as many of them
    as the stack has room for and silently loses the rest. *)
Theorem free_limine_bootloader_memory_spec limine st :
  allocator_ok limine st ->
  Forall (fun e => reclaimable e = true -> entry_ok e) (memory_map limine) ->
  exists st', free_limine_bootloader_memory limine st = Done st' /\
    allocator_ok limine st' /\ storage st' = storage st /\
    free_frames limine st' =
      take (Z.to_nat (capacity st))
        (free_frames limine st ++ frames_of reclaimable (memory_map limine)).
Proof.
  intros Hok Hent.
  destruct (free_limine_bootloader_memory_done limine st Hok Hent) as (st' & ? & ? & ? & ? & _).
  eauto.
Qed.

(** The demo machine after initialisation. *)
Definition demo_init : kmem :=
  match frame_allocator_init demo_limine (KMem ∅ None) with
  | Done st => st
  | _ => KMem ∅ None
  end.

Lemma demo_init_eq : frame_allocator_init demo_limine (KMem ∅ None) = Done demo_init.
Proof. vm_compute. reflexivity. Defined.

Lemma demo_init_stack : free_stack demo_init = Some (MkStack 0x10000 8 7).
Proof. vm_compute. reflexivity. Defined.

Lemma demo_init_ok : allocator_ok demo_limine demo_init.
Proof.
  unfold allocator_ok. rewrite demo_init_stack.
  split; vm_compute; intuition congruence.
Defined.

(** ... and after one more allocation. *)
Definition demo_alloc : kmem := KMem (ram demo_init) (stack_pop <$> free_stack demo_init).

Lemma demo_alloc_eq : allocate_frame demo_limine demo_init = Done (0x17000, demo_alloc).
Proof. vm_compute. reflexivity. Defined.

Lemma frame_clients_partition_witness :
  NoDup (free_frames demo_limine demo_alloc ++ [0x17000]) /\
  available_frames demo_alloc = Done 6.
Proof.
  destruct (frame_clients_partition demo_limine (KMem ∅ None) demo_init demo_alloc [0x17000]
    demo_memmap_ok demo_memmap_sorted demo_init_eq) as (_ & _ & Hn & Ha).
  - apply rtc_once. apply client_alloc, demo_alloc_eq.
  - split; [exact Hn|]. rewrite Ha. vm_compute. reflexivity.
Defined.

Lemma free_limine_bootloader_memory_spec_witness :
  exists st', free_limine_bootloader_memory demo_limine demo_init = Done st' /\
    free_frames demo_limine st' =
      [0x11000; 0x12000; 0x13000; 0x14000; 0x15000; 0x16000; 0x17000; 0x20000].
Proof.
  destruct (free_limine_bootloader_memory_spec demo_limine demo_init demo_init_ok)
    as (st' & Hf & _ & _ & Hl).
  - repeat constructor; vm_compute; intuition congruence.
  - exists st'. split; [exact Hf|]. rewrite Hl. vm_compute. reflexivity.
Defined.
