(* ===== verification/Frame.v ===== *)
(** * Frame: a physical frame held by an object (src/Frame.cpp, Frame.h)

    The constructor takes a frame from the allocator and the destructor returns
    it.  The class declares no copy constructor, so the compiler supplies one
    that copies the address. *)

From Stdlib Require Import ZArith Lia String.
From stdpp Require Import base gmap list list_numbers.
From S2P Require Import Prelude Memory FrameAllocator.
#[local] Open Scope Z_scope.

Record Frame := MkFrame { address_ : Z }.

Section Frame.
Context (limine : limine_features).
Implicit Types st : kmem.

Definition Frame_construct st : outcome (Frame * kmem) :=
  p ← allocate_frame limine st; Done (MkFrame (fst p), snd p).

Definition Frame_destruct (this : Frame) st : outcome kmem :=
  deallocate_frame limine (address_ this) st.

Definition address (this : Frame) : Z := address_ this.

(** The copy constructor that the compiler supplies. *)
Definition Frame_copy (other : Frame) : Frame := MkFrame (address_ other).

(** [{ Frame frame; body(frame); }]: the lifetime of a local object. *)
Definition frame_scope (body : Frame -> kmem -> outcome kmem) st : outcome kmem :=
  p ← Frame_construct st;
  st ← body (fst p) (snd p);
  Frame_destruct (fst p) st.

(** What a block does to the allocator when it returns the frames it takes. *)
Definition balanced (body : Frame -> kmem -> outcome kmem) : Prop :=
  forall this st, allocator_ok limine st -> exists st', body this st = Done st' /\
    free_frames limine st' = free_frames limine st /\
    allocator_ok limine st' /\ storage st' = storage st.

(** Frames are physical addresses and the stack has the room that the frames
    taken from it leave. *)
Lemma Frame_construct_spec st l f :
  allocator_ok limine st -> free_frames limine st = l ++ [f] ->
  exists st', Frame_construct st = Done (MkFrame f, st') /\ free_frames limine st' = l /\
    allocator_ok limine st' /\ storage st' = storage st.
Proof.
  intros Hok Hl. unfold Frame_construct.
  destruct (allocate_frame_spec _ _ _ _ Hok Hl) as (st' & -> & _ & ? & ? & ?).
  by exists st'.
Qed.

Lemma free_frames_capacity st :
  allocator_ok limine st -> Z.of_nat (List.length (free_frames limine st)) <= capacity st.
Proof.
  unfold allocator_ok, free_frames, capacity, storage.
  destruct (free_stack st) as [s|]; [|done]. simpl. intros Hok.
  pose proof (stack_size_ok _ _ Hok). rewrite stack_contents_length; lia.
Qed.

(** A scope gives its frame back: the free frames after it are those before. *)
Lemma frame_scope_spec body st l f :
  balanced body -> allocator_ok limine st -> 0 <= f < 2 ^ 64 ->
  free_frames limine st = l ++ [f] ->
  exists st', frame_scope body st = Done st' /\
    free_frames limine st' = free_frames limine st /\
    allocator_ok limine st' /\ storage st' = storage st.
Proof.
  intros Hbody Hok Hf Hl. unfold frame_scope.
  destruct (Frame_construct_spec st l f Hok Hl) as (st1 & -> & Hl1 & Hok1 & Hst1). simpl.
  destruct (Hbody (MkFrame f) st1 Hok1) as (st2 & -> & Hl2 & Hok2 & Hst2). simpl.
  pose proof (free_frames_capacity _ Hok) as Hcap.
  rewrite Hl, length_app in Hcap. simpl in Hcap.
  destruct (free_stack_push_spec limine st2 f Hok2 Hf) as (st3 & ? & Hl3 & Hok3 & Hst3 & _).
  { unfold capacity in *. rewrite Hl2, Hl1, Hst2, Hst1. lia. }
  exists st3. split; [done|]. rewrite Hl3, Hl2, Hl1, Hl. split; [done|]. split; [done|].
  by rewrite Hst3, Hst2.
Qed.

(** A copy and its original are both destroyed at the end of their scopes: the
    frame is then free twice, and two later objects hold the same frame. *)
Lemma copied_frame_freed_twice st l g f :
  allocator_ok limine st -> 0 <= f < 2 ^ 64 -> free_frames limine st = (l ++ [g]) ++ [f] ->
  exists st1 st2, Frame_construct st = Done (MkFrame f, st1) /\
    free_frames limine st1 = l ++ [g] /\
    (exists st', Frame_construct st1 = Done (MkFrame g, st') /\
       (st' ← Frame_destruct (Frame_copy (MkFrame f)) st'; Frame_destruct (MkFrame f) st') = Done st2) /\
    free_frames limine st2 = l ++ [f; f].
Proof.
  intros Hok Hf Hl. pose proof (free_frames_capacity _ Hok) as Hcap.
  rewrite Hl, !length_app in Hcap. simpl in Hcap.
  destruct (Frame_construct_spec _ _ _ Hok Hl) as (st1 & Hc1 & Hl1 & Hok1 & Hst1).
  destruct (Frame_construct_spec _ _ _ Hok1 Hl1) as (st' & Hc' & Hl' & Hok' & Hst').
  destruct (free_stack_push_spec limine st' f Hok' Hf) as (st3 & Hp & Hl3 & Hok3 & Hst3 & _).
  { unfold capacity in *. rewrite Hl', Hst', Hst1. lia. }
  destruct (free_stack_push_spec limine st3 f Hok3 Hf) as (st4 & Hq & Hl4 & _).
  { unfold capacity in *. rewrite Hl3, Hl', Hst3, Hst', Hst1, length_app. simpl. lia. }
  exists st1, st4. split; [done|]. split; [done|]. split.
  - exists st'. split; [done|]. unfold Frame_destruct, deallocate_frame, Frame_copy. simpl.
    by rewrite Hp.
  - by rewrite Hl4, Hl3, Hl', <-app_assoc.
Qed.
End Frame.

(** Two frames taken in nested scopes from the initial allocator differ. *)
Example nested_scopes :
  frame_scope demo_limine (fun outer st =>
    frame_scope demo_limine (fun inner st =>
      if address outer =? address inner then Panic "same frame" else Done st) st) demo_init
  = Done demo_init.
Proof. vm_compute. reflexivity. Qed.
