(* ===== verification/PageTree.v ===== *)
(** * The page tree

    [PageTreeNode] (src/PageTreeNode.cpp) and [PageTree] (src/PageTree.cpp): the
    four-level x86-64 page table the kernel builds in physical frames and walks
    through the higher-half direct map.  [mmu_translate] is the processor's walk
    of the same tables (docs/paging.md, Intel SDM vol. 3A chapter 4): what the
    tree is for.  The theorems relate the two: what the kernel maps is what the
    processor translates, and nothing else moves. *)

From Stdlib Require Import ZArith Lia String Btauto.
From stdpp Require Import base gmap list list_numbers numbers strings.
From S2P Require Import Prelude Memory FrameAllocator.
#[local] Open Scope Z_scope.
#[local] Set Warnings "-clear-no-such-hyp".

(** enum class PageFlags : uint64_t (include/kernel/paging.h) *)
Module PageFlags.
Definition None : Z := 0.
Definition Present : Z := 1.
Definition Write : Z := 2.
Definition User : Z := 4.
Definition WriteThrough : Z := 8.
Definition CacheDisable : Z := 16.
Definition ExecuteDisable : Z := 0x8000000000000000.
(** The bits that combinations of the enumerators can have. *)
Definition all : Z := 0x800000000000001f.
End PageFlags.

(** operator| on PageFlags *)
Definition PageFlags_or (a b : Z) : Z := Z.lor a b.

(** struct PageTranslation *)
Record PageTranslation := MkTranslation { physical_address : Z; tr_flags : Z }.

Section PageTree.
Context (limine : limine_features).

(** ** class PageTreeNode: [uint64_t entries_[512]] at address [this] *)

Definition entry_address (this index : Z) : Z := phys limine (u64 (this + 8 * index)).

Definition PageTreeNode_construct (m : mem) (this : Z) : mem :=
  zero_words 512 m (phys limine this).

(** [entry & (0xffffffff << 12)]: the literal is a 32-bit unsigned integer and
    so is the shifted mask. *)
Definition get_child_address (m : mem) (this index : Z) : Z :=
  Z.land (load64 m (entry_address this index)) (u32 (Z.shiftl 0xffffffff 12)).

(** [entry &= (~0xffffffff) << 12]: the complement of the 32-bit literal is 0. *)
Definition set_child_address (m : mem) (this index address : Z) : mem :=
  let entry := load64 m (entry_address this index) in
  let entry := Z.land entry (u32 (Z.shiftl (u32 (Z.lnot 0xffffffff)) 12)) in
  store64 m (entry_address this index) (Z.lor entry address).

Definition add_child_flags (m : mem) (this index flags : Z) : mem :=
  let entry := load64 m (entry_address this index) in
  store64 m (entry_address this index)
    (Z.lor entry (PageFlags_or flags PageFlags.Present)).

(** [~(0xff)] is an [int], converted to 64 bits with its sign. *)
Definition set_child_flags (m : mem) (this index flags : Z) : mem :=
  let entry := load64 m (entry_address this index) in
  let m := store64 m (entry_address this index) (Z.land entry (u64 (Z.lnot 0xff))) in
  add_child_flags m this index flags.

Definition get_child_flags (m : mem) (this index : Z) : Z :=
  Z.land (load64 m (entry_address this index)) 0xff.

(** ** class PageTree: [root] is the pointer [root_] *)

Definition get_table_index (virtual_address depth : Z) : outcome Z :=
  index_start ←
    match depth with
    | 0 => Done 39
    | 1 => Done 30
    | 2 => Done 21
    | 3 => Done 12
    | _ => Panic "unrecognized page tree depth"
    end;
  Done (u16 (Z.land (Z.shiftr virtual_address index_start) 0x1ff)).

Definition max_depth : Z := 3.

(** One iteration of the loop of [map_page_to_frame]: [curr] is the node
    reached so far. *)
Definition map_level (page flags depth : Z) (s : kmem * Z) : outcome (kmem * Z) :=
  let '(st, curr) := s in
  child_index ← get_table_index page depth;
  let child_address := get_child_address (ram st) curr child_index in
  let next := kernel_physical_to_virtual limine child_address in
  s ← (if child_address =? 0 then
         a ← allocate_frame limine st;
         let '(new_node_frame, st) := a : Z * kmem in
         let new_node_frame_virtual := kernel_physical_to_virtual limine new_node_frame in
         let m := PageTreeNode_construct (ram st) new_node_frame_virtual in
         let m := set_child_address m curr child_index new_node_frame in
         let m := set_child_flags m curr child_index flags in
         Done (KMem m (free_stack st), new_node_frame_virtual)
       else Done (st, next));
  let '(st, next) := s : kmem * Z in
  let m := set_child_flags (ram st) curr child_index flags in
  Done (KMem m (free_stack st), next).

Definition map_page_to_frame (root page frame flags : Z) (st : kmem) : outcome kmem :=
  s ← for_upto (Z.to_nat max_depth) 0 (map_level page flags) (st, root);
  let '(st, curr) := s : kmem * Z in
  child_index ← get_table_index page max_depth;
  let m := set_child_address (ram st) curr child_index frame in
  let m := set_child_flags m curr child_index flags in
  Done (KMem m (free_stack st)).

(** One iteration of the loop of [get_translation]; [None] is the early return. *)
Definition walk_level (m : mem) (virtual_address depth : Z) (curr : option Z)
    : outcome (option Z) :=
  match curr with
  | None => Done None
  | Some curr =>
      child_index ← get_table_index virtual_address depth;
      let child_address := get_child_address m curr child_index in
      let next := kernel_physical_to_virtual limine child_address in
      if child_address =? 0 then Done None else Done (Some next)
  end.

Definition get_translation (m : mem) (root virtual_address : Z) : outcome PageTranslation :=
  curr ← for_upto (Z.to_nat max_depth) 0 (walk_level m virtual_address) (Some root);
  match curr with
  | None => Done (MkTranslation 0 PageFlags.None)
  | Some curr =>
      child_index ← get_table_index virtual_address max_depth;
      let frame_address := get_child_address m curr child_index in
      let flags := get_child_flags m curr child_index in
      Done (MkTranslation frame_address flags)
  end.
End PageTree.

#[global] Arguments get_table_index : simpl never.

(** ** The processor's page walk

    Four-level paging of the tables at physical address [cr3].  A walk faults
    when an entry is not present; an entry with the page-size bit does not
    occur in this kernel and is not followed.  The result carries the
    conjunction of the R/W bits. *)
Definition table_index (va : Z) (depth : nat) : Z :=
  Z.land (Z.shiftr va (39 - 9 * Z.of_nat depth)) 0x1ff.

Definition entry_frame (e : Z) : Z := Z.land e 0xffffffffff000.

Fixpoint mmu_walk (m : mem) (table va : Z) (levels depth : nat) : option (Z * bool) :=
  match levels with
  | O => Some (table, true)
  | S levels =>
      let e := load64 m (table + 8 * table_index va depth) in
      if Z.testbit e 0 && (negb (Z.testbit e 7) || (levels =? 0)%nat)
      then '(f, w) ← mmu_walk m (entry_frame e) va levels (S depth);
           Some (f, Z.testbit e 1 && w)
      else None
  end.

Definition mmu_translate (m : mem) (cr3 va : Z) : option Z :=
  '(f, _) ← mmu_walk m cr3 va 4 0; Some (f + va mod pageSize).

Definition mmu_writable (m : mem) (cr3 va : Z) : bool :=
  match mmu_walk m cr3 va 4 0 with Some (_, w) => w | None => false end.

(** The frame of the table that the processor reaches from [table] through the
    entries with the indices [p]. *)
Fixpoint table_at (m : mem) (table : Z) (p : list Z) : option Z :=
  match p with
  | [] => Some table
  | i :: p =>
      let e := load64 m (table + 8 * i) in
      if Z.testbit e 0 && negb (Z.testbit e 7) then table_at m (entry_frame e) p else None
  end.

(** The positions of tables: at most three 9-bit indices below the root. *)
Definition table_path (p : list Z) : Prop :=
  (List.length p <= 3)%nat /\ Forall (fun i => 0 <= i < 512) p.

(** Frame [f] is the root or one of the tables below it. *)
Definition is_table (m : mem) (root f : Z) : Prop :=
  exists p, table_path p /\ table_at m root p = Some f.

(** Two addresses are in the same page: they agree on bits 12 to 47. *)
Definition page_index (va : Z) : Z := Z.land (Z.shiftr va 12) (Z.ones 36).

(** ** Page-table entries

    Every entry the kernel writes is a page-aligned address combined with
    enumerators of [PageFlags]; the two parts do not overlap. *)
Definition page_flags (fl : Z) : Prop := 0 <= fl /\ Z.ldiff fl PageFlags.all = 0.

Definition page_aligned (a : Z) : Prop := 0 <= a < 2 ^ 52 /\ a mod 0x1000 = 0.

#[export] Instance page_flags_dec fl : Decision (page_flags fl).
Proof. unfold page_flags. apply _. Defined.
#[export] Instance page_aligned_dec a : Decision (page_aligned a).
Proof. unfold page_aligned. apply _. Defined.

Lemma page_flags_bit fl i :
  page_flags fl -> 0 <= i -> Z.testbit fl i = true -> i < 5 \/ i = 63.
Proof.
  intros [_ Hfl] Hi Hb.
  assert (Hd : Z.testbit (Z.ldiff fl PageFlags.all) i = false) by (rewrite Hfl; apply Z.bits_0).
  rewrite Z.ldiff_spec, Hb in Hd. simpl in Hd. apply negb_false_iff in Hd.
  unfold PageFlags.all in Hd.
  replace 0x800000000000001f with (Z.lor (Z.ones 5) (Z.shiftl 1 63)) in Hd by done.
  rewrite Z.lor_spec, testbit_ones_ltb, Z.shiftl_spec in Hd by lia.
  apply orb_prop in Hd as [?%Z.ltb_lt|Hd]; [lia|].
  right. destruct (decide (i = 63)); [done|].
  destruct (decide (i < 63)); [rewrite Z.testbit_neg_r in Hd by lia; done|].
  by rewrite (testbit_high 1 1) in Hd by lia.
Qed.

Lemma page_flags_range fl : page_flags fl -> 0 <= fl < 2 ^ 64.
Proof.
  intros Hfl. split; [apply Hfl|]. apply bounded_of_testbit; [done|apply Hfl|].
  intros i Hi. destruct (Z.testbit fl i) eqn:Hb; [|done].
  apply page_flags_bit in Hb; [|done|lia]. lia.
Qed.

Lemma page_flags_iff fl :
  page_flags fl <-> 0 <= fl /\ forall i, 0 <= i -> Z.testbit fl i = true -> i < 5 \/ i = 63.
Proof.
  split.
  - intros Hfl. split; [apply Hfl|]. intros i. by apply page_flags_bit.
  - intros [Hnn Hb]. split; [done|]. apply Z.bits_inj'. intros i Hi.
    rewrite Z.ldiff_spec, Z.bits_0. destruct (Z.testbit fl i) eqn:Hf; [|done]. simpl.
    apply negb_false_iff. destruct (Hb i Hi Hf) as [Hlt| ->]; [|done].
    assert (i = 0 \/ i = 1 \/ i = 2 \/ i = 3 \/ i = 4) as Hc by lia.
    by repeat destruct Hc as [-> |Hc]; subst.
Qed.

Lemma page_flags_lor a b : page_flags a -> page_flags b -> page_flags (Z.lor a b).
Proof.
  rewrite !page_flags_iff. intros [Ha Ha'] [Hb Hb'].
  split; [by apply Z.lor_nonneg|]. intros i Hi. rewrite Z.lor_spec. intros Ho%orb_prop.
  naive_solver.
Qed.

Lemma page_flags_land a b : page_flags a -> 0 <= b -> page_flags (Z.land a b).
Proof.
  rewrite !page_flags_iff. intros [Ha Ha'] Hb.
  split; [apply Z.land_nonneg; by left|]. intros i Hi. rewrite Z.land_spec.
  intros [? _]%andb_prop. auto.
Qed.

Lemma page_flags_present : page_flags PageFlags.Present.
Proof. split; done. Qed.
#[export] Hint Resolve page_flags_lor page_flags_land page_flags_present : zbit.

Lemma page_aligned_bit a i :
  page_aligned a -> 0 <= i -> Z.testbit a i = true -> 12 <= i < 52.
Proof.
  intros [Hr Ha] Hi Hb. change 0x1000 with (2 ^ 12) in Ha.
  destruct (Z.lt_ge_cases i 12).
  - assert (Z.testbit (a mod 2 ^ 12) i = true) as Hc by (rewrite Z.mod_pow2_bits_low; done).
    rewrite Ha, Z.bits_0 in Hc. done.
  - destruct (Z.lt_ge_cases i 52); [lia|]. rewrite (testbit_high a 52) in Hb by done. done.
Qed.

(** The entry for address [a] with flags [x]. *)
Definition pte (a x : Z) : Z := Z.lor a x.

(** Case analysis on one bit of an entry. *)
Ltac pte_bits Ha Hx i :=
  let Ba := fresh "Ba" in let Bx := fresh "Bx" in
  pose proof (page_aligned_bit _ i Ha) as Ba;
  pose proof (page_flags_bit _ i Hx) as Bx;
  specialize (Ba ltac:(lia)); specialize (Bx ltac:(lia)).
Ltac pte_solve :=
  simpl; try done; exfalso;
  repeat match goal with
  | H : true = true -> _ |- _ => specialize (H eq_refl)
  | H : false = true -> _ |- _ => clear H
  end; lia.

Lemma land_window e lo n i :
  0 <= lo -> 0 <= n -> 0 <= i ->
  Z.testbit (Z.land e (Z.shiftl (Z.ones n) lo)) i = Z.testbit e i && (lo <=? i) && (i <? lo + n).
Proof.
  intros Hlo Hn Hi. rewrite Z.land_spec, Z.shiftl_spec by lia.
  destruct (Z.leb_spec lo i); simpl.
  - rewrite testbit_ones_ltb by lia. rewrite andb_true_r. f_equal.
    destruct (Z.ltb_spec (i - lo) n), (Z.ltb_spec i (lo + n)); lia || done.
  - rewrite (Z.testbit_neg_r _ (i - lo)) by lia. by rewrite !andb_false_r.
Qed.

Lemma pte_frame a x : page_aligned a -> page_flags x -> entry_frame (pte a x) = a.
Proof.
  intros Ha Hx. unfold entry_frame, pte.
  change 0xffffffffff000 with (Z.shiftl (Z.ones 40) 12).
  apply Z.bits_inj'. intros i Hi. rewrite land_window, Z.lor_spec by lia.
  pte_bits Ha Hx i. destruct (Z.leb_spec 12 i), (Z.ltb_spec i (12 + 40)),
    (Z.testbit a i), (Z.testbit x i); pte_solve.
Qed.

(** The kernel's own mask keeps bits 12 to 31 only. *)
Definition child_mask : Z := u32 (Z.shiftl 0xffffffff 12).

Lemma pte_child a x :
  page_aligned a -> page_flags x -> Z.land (pte a x) child_mask = Z.land a child_mask.
Proof.
  intros Ha Hx. unfold pte. change child_mask with (Z.shiftl (Z.ones 20) 12).
  apply Z.bits_inj'. intros i Hi. rewrite !land_window, Z.lor_spec by lia.
  pte_bits Ha Hx i. destruct (Z.leb_spec 12 i), (Z.ltb_spec i (12 + 20)),
    (Z.testbit a i), (Z.testbit x i); pte_solve.
Qed.

Lemma child_mask_small a : page_aligned a -> a < 2 ^ 32 -> Z.land a child_mask = a.
Proof.
  intros Ha Hlt. change child_mask with (Z.shiftl (Z.ones 20) 12).
  apply Z.bits_inj'. intros i Hi. rewrite land_window by lia.
  pose proof (page_aligned_bit _ i Ha Hi) as Ba.
  destruct (Z.testbit a i) eqn:Hb; [|done]. destruct (Ba eq_refl). simpl.
  destruct (Z.leb_spec 12 i); [|lia]. simpl. apply Z.ltb_lt.
  destruct (Z.lt_ge_cases i (12 + 20)); [done|].
  by rewrite (testbit_high a 32) in Hb by (destruct Ha; lia).
Qed.

Lemma child_mask_mod a : page_aligned a -> Z.land a child_mask = a mod 2 ^ 32.
Proof.
  intros Ha. change (Z.land a child_mask = wrap 32 a).
  change child_mask with (Z.shiftl (Z.ones 20) 12). apply Z.bits_inj'. intros i Hi.
  rewrite land_window, testbit_wrap by lia. pose proof (page_aligned_bit a i Ha Hi) as Hb.
  destruct (Z.testbit a i) eqn:Hai; [|by rewrite andb_false_r]. specialize (Hb eq_refl).
  destruct (Z.leb_spec 12 i), (Z.ltb_spec i (12 + 20)), (Z.ltb_spec i 32); lia || done.
Qed.

Lemma pte_low a x : page_aligned a -> page_flags x -> Z.land (pte a x) 0xff = Z.land x 0xff.
Proof.
  intros Ha Hx. unfold pte. change 0xff with (Z.shiftl (Z.ones 8) 0).
  apply Z.bits_inj'. intros i Hi. rewrite !land_window, Z.lor_spec by lia.
  pte_bits Ha Hx i. destruct (Z.leb_spec 0 i), (Z.ltb_spec i (0 + 8)),
    (Z.testbit a i), (Z.testbit x i); pte_solve.
Qed.

Lemma pte_bit_low a x i : page_aligned a -> 0 <= i < 12 -> Z.testbit (pte a x) i = Z.testbit x i.
Proof.
  intros Ha Hi. unfold pte. rewrite Z.lor_spec.
  destruct (Z.testbit a i) eqn:Hb; [|done]. apply page_aligned_bit in Hb; [lia|done|lia].
Qed.

Lemma pte_range a x : page_aligned a -> page_flags x -> 0 <= pte a x < 2 ^ 64.
Proof.
  intros Ha Hx. apply lor_range; [done| |by apply page_flags_range]. destruct Ha. lia.
Qed.

(** Clearing the low byte and adding flags keeps the address; the flags beyond
    the low byte accumulate. *)
Definition flags_after (x fl : Z) : Z :=
  Z.lor (Z.land x (u64 (Z.lnot 0xff))) (PageFlags_or fl PageFlags.Present).

Lemma pte_set_flags a x fl :
  page_aligned a -> page_flags x ->
  Z.lor (Z.land (pte a x) (u64 (Z.lnot 0xff))) (PageFlags_or fl PageFlags.Present) =
  pte a (flags_after x fl).
Proof.
  intros Ha Hx. unfold pte, flags_after. rewrite (Z.lor_assoc a). f_equal.
  change (u64 (Z.lnot 0xff)) with (Z.shiftl (Z.ones 56) 8).
  apply Z.bits_inj'. intros i Hi. rewrite Z.lor_spec, !land_window, Z.lor_spec by lia.
  pte_bits Ha Hx i. destruct (Z.leb_spec 8 i), (Z.ltb_spec i (8 + 56)),
    (Z.testbit a i), (Z.testbit x i); pte_solve.
Qed.

Lemma flags_after_ok x fl : page_flags x -> page_flags fl -> page_flags (flags_after x fl).
Proof. intros. unfold flags_after, PageFlags_or. apply page_flags_lor; [|auto with zbit]. apply page_flags_land; [done|vm_compute; done]. Qed.

Lemma flags_after_bit x fl i :
  0 <= i < 8 -> Z.testbit (flags_after x fl) i = Z.testbit fl i || (i =? 0).
Proof.
  intros Hi. unfold flags_after, PageFlags_or, PageFlags.Present.
  change (u64 (Z.lnot 0xff)) with (Z.shiftl (Z.ones 56) 8).
  rewrite !Z.lor_spec, land_window by lia. destruct (Z.leb_spec 8 i); [lia|].
  rewrite andb_false_r. simpl.
  assert (i = 0 \/ i = 1 \/ i = 2 \/ i = 3 \/ i = 4 \/ i = 5 \/ i = 6 \/ i = 7) as Hc by lia.
  by repeat destruct Hc as [-> |Hc]; subst.
Qed.

Lemma flags_after_present x fl : Z.testbit (flags_after x fl) 0 = true.
Proof. rewrite flags_after_bit by lia. by rewrite orb_true_r. Qed.

Lemma flags_after_low x fl :
  page_flags fl -> Z.land (flags_after x fl) 0xff = Z.land (Z.lor fl 1) 0xff.
Proof.
  intros Hfl. change 0xff with (Z.shiftl (Z.ones 8) 0).
  apply Z.bits_inj'. intros i Hi. rewrite !land_window by lia.
  destruct (Z.ltb_spec i (0 + 8)); [|by rewrite !andb_false_r].
  rewrite flags_after_bit by lia. rewrite Z.lor_spec. do 3 f_equal.
Qed.

(** ** Nodes in memory *)

(** The kernel reads node addresses through a 32-bit mask and uses 0 for "no
    node": nodes have to live in nonzero frames below 4 GiB. *)
Definition frame_ok (f : Z) : Prop := 0 < f /\ f mod 0x1000 = 0 /\ f + 0x1000 <= 2 ^ 32.

#[export] Instance frame_ok_dec f : Decision (frame_ok f).
Proof. unfold frame_ok. apply _. Defined.

Definition hhdm_ok (limine : limine_features) : Prop :=
  2 ^ 32 <= hhdm_offset limine <= 2 ^ 64 - 2 ^ 32.

(** Entry [i] of the node in frame [f]. *)
Definition node_entry (m : mem) (f i : Z) : Z := load64 m (f + 8 * i).

Lemma frame_ok_aligned f : frame_ok f -> page_aligned f /\ f < 2 ^ 32.
Proof. unfold frame_ok, page_aligned. intros (? & ? & ?). split; [split; [lia|done]|lia]. Qed.

Lemma frames_apart f g : frame_ok f -> frame_ok g -> f <> g -> f + 0x1000 <= g \/ g + 0x1000 <= f.
Proof.
  intros (_ & Hf & _) (_ & Hg & _) Hne.
  apply Z.mod_divide in Hf as [x ->]; [|done]. apply Z.mod_divide in Hg as [y ->]; [|done]. lia.
Qed.

Lemma land_1ff x : Z.land x 0x1ff = x mod 512.
Proof. change 0x1ff with (Z.ones 9). by rewrite Z.land_ones. Qed.

Lemma table_index_range va d : 0 <= table_index va d < 512.
Proof. unfold table_index. rewrite land_1ff. apply Z.mod_pos_bound. done. Qed.

Lemma get_table_index_eq va (d : nat) :
  (d <= 3)%nat -> get_table_index va (Z.of_nat d) = Done (table_index va d).
Proof.
  intros Hd. assert (d = 0 \/ d = 1 \/ d = 2 \/ d = 3)%nat as Hc by lia.
  unfold get_table_index, table_index.
  assert (Hr : forall k, u16 (Z.land (Z.shiftr va k) 0x1ff) = Z.land (Z.shiftr va k) 0x1ff).
  { intros k. apply wrap_id. rewrite land_1ff.
    pose proof (Z.mod_pos_bound (Z.shiftr va k) 512). lia. }
  repeat destruct Hc as [-> |Hc]; subst; simpl; rewrite ?bind_done, Hr; done.
Qed.

(** The four indices determine bits 12 to 47 and conversely. *)
Lemma page_index_indices va va' :
  page_index va = page_index va' <->
  forall d, (d <= 3)%nat -> table_index va d = table_index va' d.
Proof.
  unfold page_index, table_index. split.
  - intros Heq d Hd. apply Z.bits_inj'. intros i Hi.
    rewrite !Z.land_spec, !Z.shiftr_spec by done. change 0x1ff with (Z.ones 9).
    rewrite testbit_ones_ltb by lia. destruct (Z.ltb_spec i 9); [|by rewrite !andb_false_r].
    rewrite !andb_true_r.
    apply (f_equal (fun z => Z.testbit z (i + (39 - 9 * Z.of_nat d) - 12))) in Heq.
    rewrite !Z.land_spec, !Z.shiftr_spec, testbit_ones_ltb in Heq by lia.
    destruct (Z.ltb_spec (i + (39 - 9 * Z.of_nat d) - 12) 36); [|lia].
    rewrite !andb_true_r in Heq.
    by replace (i + (39 - 9 * Z.of_nat d) - 12 + 12) with (i + (39 - 9 * Z.of_nat d)) in Heq by lia.
  - intros Hall. apply Z.bits_inj'. intros i Hi.
    rewrite !Z.land_spec, !Z.shiftr_spec, testbit_ones_ltb by lia.
    destruct (Z.ltb_spec i 36); [|by rewrite !andb_false_r]. rewrite !andb_true_r.
    pose proof (Z.div_mod i 9 ltac:(done)). pose proof (Z.mod_pos_bound i 9 ltac:(done)).
    specialize (Hall (Z.to_nat (3 - i / 9)) ltac:(lia)).
    apply (f_equal (fun z => Z.testbit z (i mod 9))) in Hall.
    rewrite !Z.land_spec, !Z.shiftr_spec in Hall by lia.
    change 0x1ff with (Z.ones 9) in Hall. rewrite testbit_ones_ltb in Hall by lia.
    destruct (Z.ltb_spec (i mod 9) 9); [|lia]. rewrite !andb_true_r in Hall.
    replace (i mod 9 + (39 - 9 * Z.of_nat (Z.to_nat (3 - i / 9)))) with (i + 12) in Hall by lia.
    done.
Qed.

Section Nodes.
Context (limine : limine_features) (Hhhdm : hhdm_ok limine).

Abbreviation virt f := (kernel_physical_to_virtual limine f).

Lemma phys_virt f : 0 <= f < 2 ^ 32 -> phys limine (virt f) = f.
Proof.
  intros Hf. unfold phys, kernel_physical_to_virtual. destruct Hhhdm.
  rewrite wrap_id by lia. destruct (Z.leb_spec (hhdm_offset limine) (f + hhdm_offset limine)); lia.
Qed.

Lemma entry_address_eq f i :
  frame_ok f -> 0 <= i < 512 -> entry_address limine (virt f) i = f + 8 * i.
Proof.
  intros (? & _ & ?) Hi. unfold entry_address, phys, kernel_physical_to_virtual. destruct Hhhdm.
  rewrite (wrap_id 64 (f + _)), wrap_id by lia.
  destruct (Z.leb_spec (hhdm_offset limine) (f + hhdm_offset limine + 8 * i)); lia.
Qed.

Lemma get_child_address_eq m f i :
  frame_ok f -> 0 <= i < 512 ->
  get_child_address limine m (virt f) i = Z.land (node_entry m f i) child_mask.
Proof. intros. unfold get_child_address. by rewrite entry_address_eq. Qed.

Lemma get_child_flags_eq m f i :
  frame_ok f -> 0 <= i < 512 ->
  get_child_flags limine m (virt f) i = Z.land (node_entry m f i) 0xff.
Proof. intros. unfold get_child_flags. by rewrite entry_address_eq. Qed.

(** [m'] is [m] with entry [i] of node [f] set to [e]. *)
Definition entry_set (m m' : mem) (f i e : Z) : Prop :=
  node_entry m' f i = e /\ same_outside (f + 8 * i) (f + 8 * i + 8) m m'.

Lemma set_child_flags_spec m f i a x fl :
  frame_ok f -> 0 <= i < 512 -> page_aligned a -> page_flags x -> page_flags fl ->
  node_entry m f i = pte a x ->
  entry_set m (set_child_flags limine m (virt f) i fl) f i (pte a (flags_after x fl)).
Proof.
  intros Hf Hi Ha Hx Hfl He. unfold set_child_flags, add_child_flags, entry_set, node_entry in *.
  rewrite entry_address_eq by done. rewrite He. split.
  - rewrite !load64_store64_eq.
    rewrite (wrap_id 64 (Z.land _ _)) by (apply land_range_l; [lia|by apply pte_range]).
    rewrite pte_set_flags by done. apply wrap_id, pte_range, flags_after_ok; done.
  - etrans; apply store64_outside.
Qed.

Lemma set_child_address_spec m f i a :
  frame_ok f -> 0 <= i < 512 -> page_aligned a ->
  entry_set m (set_child_address limine m (virt f) i a) f i (pte a 0).
Proof.
  intros Hf Hi Ha. unfold set_child_address, entry_set, node_entry.
  rewrite entry_address_eq by done. split; [|apply store64_outside].
  rewrite load64_store64_eq. change (u32 (Z.shiftl (u32 (Z.lnot 0xffffffff)) 12)) with 0.
  rewrite Z.land_0_r, Z.lor_0_l. unfold pte. rewrite Z.lor_0_r.
  apply wrap_id. destruct Ha. lia.
Qed.

Lemma entry_set_trans m1 m2 m3 f i e1 e2 :
  entry_set m1 m2 f i e1 -> entry_set m2 m3 f i e2 -> entry_set m1 m3 f i e2.
Proof. intros [_ H1] [H2 H3]. split; [done|by etrans]. Qed.

(** The pair of calls that writes a fresh entry. *)
Lemma set_address_flags_spec m f i a fl :
  frame_ok f -> 0 <= i < 512 -> page_aligned a -> page_flags fl ->
  entry_set m (set_child_flags limine (set_child_address limine m (virt f) i a) (virt f) i fl)
    f i (pte a (flags_after 0 fl)).
Proof.
  intros Hf Hi Ha Hfl. pose proof (set_child_address_spec m f i a Hf Hi Ha) as H1.
  eapply entry_set_trans; [done|]. apply set_child_flags_spec; try done. apply H1.
Qed.

Lemma entry_set_other m m' f i e g j :
  frame_ok f -> frame_ok g -> 0 <= i < 512 -> 0 <= j < 512 -> entry_set m m' f i e ->
  (f, i) <> (g, j) -> node_entry m' g j = node_entry m g j.
Proof.
  intros Hf Hg Hi Hj [_ Hout] Hne. unfold node_entry.
  eapply load_outside; [done|]. destruct (decide (f = g)) as [->|Hfg].
  - assert (i <> j) by congruence. lia.
  - destruct (frames_apart _ _ Hf Hg Hfg); lia.
Qed.

Lemma construct_spec m f :
  frame_ok f ->
  (forall i, 0 <= i < 512 -> node_entry (PageTreeNode_construct limine m (virt f)) f i = 0) /\
  same_outside f (f + 0x1000) m (PageTreeNode_construct limine m (virt f)).
Proof.
  intros (? & _ & ?). unfold PageTreeNode_construct, node_entry. rewrite phys_virt by lia. split.
  - intros i Hi. apply zero_words_load. lia.
  - apply (zero_words_outside 512).
Qed.
End Nodes.

(** ** The tree as a finite map

    [G] records which physical frame holds the node reached by a path of table
    indices; the empty path is the root.  [tree_ok] says that memory holds
    exactly this tree: distinct paths have distinct frames, a node's entry is
    zero where the tree has no child, and holds the child's address and a
    present flag where it has one. *)
Definition path (va : Z) (n : nat) : list Z := table_index va <$> seq 0 n.

Lemma path_S va n : path va (S n) = path va n ++ [table_index va n].
Proof. unfold path. by rewrite seq_S, fmap_app. Qed.

Lemma path_length va n : List.length (path va n) = n.
Proof. unfold path. by rewrite length_fmap, length_seq. Qed.

Definition entry_for (e a : Z) : Prop :=
  exists x, page_flags x /\ Z.testbit x 0 = true /\ e = pte a x.

Record tree_ok (m : mem) (root : Z) (G : gmap (list Z) Z) : Prop := {
  tree_root : G !! [] = Some root;
  tree_frame p f : G !! p = Some f -> frame_ok f;
  tree_inj p q f : G !! p = Some f -> G !! q = Some f -> p = q;
  tree_prefix p i f : G !! (p ++ [i]) = Some f -> is_Some (G !! p);
  tree_child p f i :
    G !! p = Some f -> (List.length p < 3)%nat -> 0 <= i < 512 ->
    match G !! (p ++ [i]) with
    | None => node_entry m f i = 0
    | Some c => entry_for (node_entry m f i) c
    end;
  tree_leaf p f i :
    G !! p = Some f -> List.length p = 3%nat -> 0 <= i < 512 ->
    node_entry m f i = 0 \/ exists a, page_aligned a /\ entry_for (node_entry m f i) a
}.

(** The last-level entry that governs an address; 0 when there is no node. *)
Definition leaf_entry (m : mem) (G : gmap (list Z) Z) (va : Z) : Z :=
  match G !! path va 3 with
  | Some g => node_entry m g (table_index va 3)
  | None => 0
  end.

Section Tree.
Context (m : mem) (root : Z) (G : gmap (list Z) Z) (Htree : tree_ok m root G).

Lemma tree_path_None va n : G !! path va n = None -> G !! path va (S n) = None.
Proof.
  intros Hn. destruct (G !! path va (S n)) as [f|] eqn:Hf; [|done].
  rewrite path_S in Hf. apply (tree_prefix _ _ _ Htree) in Hf as [g Hg]. congruence.
Qed.

(** Writing an entry of a node leaves every other entry of the tree alone. *)
Lemma tree_other_entry m' p f i e q g j :
  G !! p = Some f -> G !! q = Some g -> 0 <= i < 512 -> 0 <= j < 512 ->
  entry_set m m' f i e -> (p, i) <> (q, j) -> node_entry m' g j = node_entry m g j.
Proof.
  intros Hp Hq Hi Hj Hset Hne.
  eapply (entry_set_other m m' f i e g j); try done; [by eapply tree_frame..|].
  intros [= -> ->]. apply Hne. f_equal. by eapply tree_inj.
Qed.

Lemma tree_set_child m' p f i c e :
  G !! p = Some f -> (List.length p < 3)%nat -> 0 <= i < 512 ->
  G !! (p ++ [i]) = Some c -> entry_for e c -> entry_set m m' f i e ->
  tree_ok m' root G /\ forall va, leaf_entry m' G va = leaf_entry m G va.
Proof.
  intros Hp Hlen Hi Hc He Hset. split.
  - split; try apply Htree.
    + intros q g j Hq Hql Hj. destruct (decide ((p, i) = (q, j))) as [[= <- <-]|Hne].
      * assert (f = g) as <- by congruence. rewrite Hc. destruct Hset as [-> _]. done.
      * rewrite (tree_other_entry m' p f i e q g j) by done.
        by eapply tree_child.
    + intros q g j Hq Hql Hj. rewrite (tree_other_entry m' p f i e q g j); try done.
      * by eapply tree_leaf.
      * intros [= -> ->]. lia.
  - intros va. unfold leaf_entry. destruct (G !! path va 3) as [g|] eqn:Hg; [|done].
    apply (tree_other_entry m' p f i e (path va 3)); try done; [apply table_index_range|].
    intros [= -> _]. rewrite path_length in Hlen. lia.
Qed.

Lemma tree_set_leaf m' va f e a :
  G !! path va 3 = Some f -> page_aligned a -> entry_for e a ->
  entry_set m m' f (table_index va 3) e ->
  tree_ok m' root G /\
  forall va', leaf_entry m' G va' =
    if decide (page_index va' = page_index va) then e else leaf_entry m G va'.
Proof.
  intros Hp Ha He Hset. pose proof (table_index_range va 3) as Hi. split.
  - split; try apply Htree.
    + intros q g j Hq Hql Hj.
      rewrite (tree_other_entry m' (path va 3) f (table_index va 3) e q g j); try done.
      * by eapply tree_child.
      * intros [= <- _]. rewrite path_length in Hql. lia.
    + intros q g j Hq Hql Hj.
      destruct (decide ((path va 3, table_index va 3) = (q, j))) as [[= <- <-]|Hne].
      * assert (f = g) as <- by congruence. destruct Hset as [-> _]. eauto.
      * rewrite (tree_other_entry m' (path va 3) f (table_index va 3) e q g j); try done.
        by eapply tree_leaf.
  - intros va'. unfold leaf_entry. case_decide as Hpage.
    + rewrite page_index_indices in Hpage.
      assert (path va' 3 = path va 3) as ->.
      { unfold path. apply list_fmap_ext. intros n x [-> ?]%lookup_seq. apply Hpage. lia. }
      rewrite Hp, Hpage by lia. apply Hset.
    + destruct (G !! path va' 3) as [g|] eqn:Hg; [|done].
      apply (tree_other_entry m' (path va 3) f (table_index va 3) e (path va' 3)); try done;
        [apply table_index_range|].
      intros [= H0 H1 H2 H3]. apply Hpage, page_index_indices. intros d Hd.
      destruct d as [|[|[|[|d]]]]; [done..|lia].
Qed.

(** A new, zeroed node hung into an empty entry. *)
Lemma tree_add_child m1 m2 p f i c e :
  G !! p = Some f -> (List.length p < 3)%nat -> 0 <= i < 512 ->
  G !! (p ++ [i]) = None -> frame_ok c -> (forall q, G !! q <> Some c) ->
  entry_for e c ->
  (forall j, 0 <= j < 512 -> node_entry m1 c j = 0) -> same_outside c (c + 0x1000) m m1 ->
  entry_set m1 m2 f i e ->
  tree_ok m2 root (<[p ++ [i] := c]> G) /\
  (forall va, leaf_entry m2 (<[p ++ [i] := c]> G) va = leaf_entry m G va) /\
  (forall q g j, G !! q = Some g -> 0 <= j < 512 -> (p, i) <> (q, j) ->
     node_entry m2 g j = node_entry m g j).
Proof.
  intros Hp Hlen Hi Hnone Hc Hfresh He Hzero Hout Hset.
  assert (Hpf : frame_ok f) by (by eapply tree_frame).
  assert (Hfc : f <> c) by (intros ->; by eapply Hfresh).
  assert (Hnew : forall j, 0 <= j < 512 -> node_entry m2 c j = 0).
  { intros j Hj. rewrite (entry_set_other m1 m2 f i e c j) by (done || congruence). auto. }
  assert (Hold : forall q g j, G !! q = Some g -> 0 <= j < 512 -> (p, i) <> (q, j) ->
    node_entry m2 g j = node_entry m g j).
  { intros q g j Hq Hj Hne.
    assert (frame_ok g) by (by eapply tree_frame). assert (g <> c) by (intros ->; by eapply Hfresh).
    rewrite (entry_set_other m1 m2 f i e g j); try done.
    - unfold node_entry. eapply load_outside; [done|].
      destruct (frames_apart g c) as [|]; try done; lia.
    - intros [= -> ->]. apply Hne. f_equal. by eapply tree_inj. }
  assert (Hpi : forall q : list Z, q <> q ++ [i]).
  { intros q Heq. apply (f_equal List.length) in Heq. rewrite length_app in Heq. simpl in Heq. lia. }
  split.
  - split.
    + rewrite lookup_insert_ne by (intros Hbad; by destruct p). apply Htree.
    + intros q g [[_ <-]|[_ Hq]]%lookup_insert_Some; [done|by eapply tree_frame].
    + intros q q' g [[<- <-]|[Hne Hq]]%lookup_insert_Some [[<- Hg]|[Hne' Hq']]%lookup_insert_Some;
        try done; subst; try (by exfalso; eapply Hfresh); by eapply tree_inj.
    + intros q j g [[Heq _]|[_ Hq]]%lookup_insert_Some.
      * apply app_inj_tail in Heq as [<- <-]. rewrite lookup_insert_ne by (symmetry; auto). eauto.
      * destruct (decide (q = p ++ [i])) as [->|]; [rewrite lookup_insert_eq; eauto|].
        rewrite lookup_insert_ne by done. by eapply tree_prefix.
    + intros q g j [[<- <-]|[Hne Hq]]%lookup_insert_Some Hql Hj.
      * rewrite lookup_insert_ne by (intros Heq; apply (f_equal List.length) in Heq;
          rewrite !length_app in Heq; simpl in Heq; lia).
        destruct (G !! ((p ++ [i]) ++ [j])) eqn:Hbad; [|auto].
        apply (tree_prefix _ _ _ Htree) in Hbad as [? ?]. congruence.
      * destruct (decide ((p, i) = (q, j))) as [[= <- <-]|Hne'].
        { rewrite lookup_insert_eq. assert (f = g) as <- by congruence.
          destruct Hset as [-> _]. done. }
        rewrite lookup_insert_ne by (intros [-> ->]%app_inj_tail; done).
        rewrite (Hold q g j) by done. by eapply tree_child.
    + intros q g j [[<- <-]|[Hne Hq]]%lookup_insert_Some Hql Hj; [left; auto|].
      rewrite (Hold q g j); [by eapply tree_leaf|done|done|]. intros [= -> ->]. lia.
  - split; [|exact Hold]. intros va. unfold leaf_entry. destruct (decide (path va 3 = p ++ [i])) as [Heq|Hne].
    + rewrite Heq, lookup_insert_eq, Hnone. apply Hnew, table_index_range.
    + rewrite lookup_insert_ne by done. destruct (G !! path va 3) as [g|] eqn:Hg; [|done].
      apply (Hold (path va 3)); [done|apply table_index_range|].
      intros [= -> _]. rewrite path_length in Hlen. lia.
Qed.
End Tree.

(** ** The two walks, on the tree *)
Section Walks.
Context (limine : limine_features) (Hhhdm : hhdm_ok limine).
Context (m : mem) (root : Z) (G : gmap (list Z) Z) (Htree : tree_ok m root G).
Abbreviation virt f := (kernel_physical_to_virtual limine f).

Lemma entry_for_child e c : entry_for e c -> frame_ok c -> Z.land e child_mask = c.
Proof.
  intros (x & Hx & _ & ->) Hc. destruct (frame_ok_aligned _ Hc).
  rewrite pte_child by done. by apply child_mask_small.
Qed.

(** What the kernel's loop finds at one level of the tree. *)
Lemma child_address_eq p f i :
  G !! p = Some f -> (List.length p < 3)%nat -> 0 <= i < 512 ->
  get_child_address limine m (virt f) i = default 0 (G !! (p ++ [i])).
Proof.
  intros Hp Hlen Hi. assert (frame_ok f) by (by eapply tree_frame).
  rewrite get_child_address_eq by done.
  pose proof (tree_child _ _ _ Htree p f i Hp Hlen Hi) as Hc.
  destruct (G !! (p ++ [i])) as [c|] eqn:HG; simpl.
  - apply entry_for_child; [done|by eapply tree_frame].
  - by rewrite Hc.
Qed.

Lemma child_nonzero p c : G !! p = Some c -> (c =? 0) = false.
Proof. intros Hc%(tree_frame _ _ _ Htree). apply Z.eqb_neq. destruct Hc. lia. Qed.

Lemma walk_level_spec va (d : nat) :
  (d < 3)%nat ->
  walk_level limine m va (Z.of_nat d) ((fun f => virt f) <$> G !! path va d) =
    Done ((fun f => virt f) <$> G !! path va (S d)).
Proof.
  intros Hd. destruct (G !! path va d) as [f|] eqn:Hf; simpl.
  - rewrite get_table_index_eq, bind_done by lia.
    rewrite (child_address_eq (path va d)); [|done|rewrite path_length; lia|apply table_index_range].
    rewrite path_S. destruct (G !! (path va d ++ [table_index va d])) as [c|] eqn:Hc; simpl.
    + by rewrite (child_nonzero _ _ Hc).
    + done.
  - by rewrite (tree_path_None _ _ _ Htree).
Qed.

Lemma get_translation_eq va :
  get_translation limine m (virt root) va =
    Done (MkTranslation (Z.land (leaf_entry m G va) child_mask) (Z.land (leaf_entry m G va) 0xff)).
Proof.
  unfold get_translation.
  destruct (for_upto_total (fun d s => s = (fun f => virt f) <$> G !! path va (Z.to_nat d))
    (walk_level limine m va) (Z.to_nat max_depth) 0 (Some (virt root))) as (s & -> & ->).
  - change (path va (Z.to_nat 0)) with (@nil Z). by rewrite (tree_root _ _ _ Htree).
  - intros d s Hd ->. change (Z.of_nat (Z.to_nat max_depth)) with 3 in Hd.
    destruct (Z_of_nat_complete d) as [n ->]; [lia|].
    rewrite Nat2Z.id, walk_level_spec by lia. eexists. split; [done|].
    by replace (Z.to_nat (Z.of_nat n + 1)) with (S n) by lia.
  - rewrite bind_done. change (Z.to_nat (0 + _)) with 3%nat. unfold leaf_entry.
    destruct (G !! path va 3) as [g|] eqn:Hg; cbn [fmap option_fmap option_map]; [|done].
    assert (frame_ok g) by (by eapply tree_frame).
    change max_depth with (Z.of_nat 3). rewrite get_table_index_eq, bind_done by lia.
    rewrite get_child_address_eq, get_child_flags_eq by (done || apply table_index_range). done.
Qed.

Lemma entry_for_walk e a :
  entry_for e a -> page_aligned a ->
  Z.testbit e 0 = true /\ Z.testbit e 7 = false /\ entry_frame e = a.
Proof.
  intros (x & Hx & Hp & ->) Ha. rewrite !pte_bit_low by (done || lia).
  split; [done|]. split; [|by apply pte_frame].
  destruct (Z.testbit x 7) eqn:Hb; [|done]. apply page_flags_bit in Hb; [lia|done|lia].
Qed.

(** The processor's walk follows the tree down to the last level. *)
Lemma mmu_walk_node va d f :
  (d <= 3)%nat -> G !! path va d = Some f ->
  match mmu_walk m f va (4 - d) d with
  | Some (a, w) => Z.testbit (leaf_entry m G va) 0 = true /\ a = entry_frame (leaf_entry m G va) /\
      (w = true -> Z.testbit (leaf_entry m G va) 1 = true)
  | None => Z.testbit (leaf_entry m G va) 0 = false
  end.
Proof.
  intros Hd Hf. remember (3 - d)%nat as k eqn:Hk. revert d f Hd Hf Hk.
  induction k as [|k IH]; intros d f Hd Hf Hk.
  - assert (d = 3%nat) as -> by lia. simpl. unfold leaf_entry. rewrite Hf.
    change (load64 m (f + 8 * table_index va 3)) with (node_entry m f (table_index va 3)).
    rewrite orb_true_r, andb_true_r.
    destruct (Z.testbit (node_entry m f (table_index va 3)) 0) eqn:Hb; simpl; rewrite ?Hb; [|done].
    split; [done|]. split; [done|]. by rewrite andb_true_r.
  - replace (4 - d)%nat with (S (4 - S d)) by lia. simpl mmu_walk.
    change (load64 m (f + 8 * table_index va d)) with (node_entry m f (table_index va d)).
    pose proof (tree_child _ _ _ Htree (path va d) f (table_index va d) Hf) as Hc.
    rewrite path_length in Hc. specialize (Hc ltac:(lia) (table_index_range va d)).
    rewrite <-path_S in Hc. destruct (G !! path va (S d)) as [c|] eqn:HG.
    + assert (frame_ok c) by (by eapply tree_frame).
      destruct (entry_for_walk _ _ Hc) as (-> & -> & ->); [by apply frame_ok_aligned|]. simpl.
      specialize (IH (S d) c ltac:(lia) HG ltac:(lia)).
      replace (4 - S d)%nat with (3 - d)%nat in IH by lia.
      destruct (mmu_walk m c va (3 - d) (S d)) as [[a w]|]; [|done].
      destruct IH as (? & ? & Hw). split; [done|]. split; [done|]. intros [_ ?]%andb_prop. by apply Hw.
    + rewrite Hc. simpl. unfold leaf_entry.
      assert (HN : forall n, (S d <= n)%nat -> G !! path va n = None).
      { induction 1; [done|]. by apply (tree_path_None _ _ _ Htree). }
      by rewrite HN by lia.
Qed.

Lemma mmu_translate_eq va :
  mmu_translate m root va =
    if Z.testbit (leaf_entry m G va) 0
    then Some (entry_frame (leaf_entry m G va) + va mod pageSize) else None.
Proof.
  unfold mmu_translate.
  pose proof (mmu_walk_node va 0 root ltac:(lia) (tree_root _ _ _ Htree)) as Hw.
  change (4 - 0)%nat with 4%nat in Hw.
  destruct (mmu_walk m root va 4 0) as [[a w]|]; simpl; [destruct Hw as (-> & -> & _)|rewrite Hw]; done.
Qed.

Lemma tree_None_app (q p : list Z) : G !! q = None -> G !! (q ++ p) = None.
Proof.
  intros Hq. induction p as [|i p IH] using rev_ind; [by rewrite app_nil_r|].
  rewrite app_assoc. destruct (G !! ((q ++ p) ++ [i])) as [f|] eqn:Hf; [|done].
  apply (tree_prefix _ _ _ Htree) in Hf as [g Hg]. congruence.
Qed.

(** The processor's tables are the nodes of the tree. *)
Lemma table_at_node (p : list Z) : forall (q : list Z) f,
  G !! q = Some f -> (List.length q + List.length p <= 3)%nat -> Forall (fun i => 0 <= i < 512) p ->
  table_at m f p = G !! (q ++ p).
Proof.
  induction p as [|i p IH]; intros q f Hq Hlen Hp; [by rewrite app_nil_r|].
  apply Forall_cons in Hp as [Hi Hp]. simpl in Hlen |- *.
  pose proof (tree_child _ _ _ Htree q f i Hq ltac:(lia) Hi) as Hc.
  change (load64 m (f + 8 * i)) with (node_entry m f i).
  replace (q ++ i :: p) with ((q ++ [i]) ++ p) by by rewrite <-app_assoc.
  destruct (G !! (q ++ [i])) as [c|] eqn:HG.
  - assert (frame_ok c) by (by eapply tree_frame).
    destruct (entry_for_walk _ _ Hc) as (-> & -> & ->); [by apply frame_ok_aligned|]. simpl.
    apply IH; [done| |done]. rewrite length_app. simpl. lia.
  - rewrite Hc. simpl. symmetry. by apply tree_None_app.
Qed.

Lemma table_at_eq p : table_path p -> table_at m root p = G !! p.
Proof. intros [Hlen Hp]. apply (table_at_node p []); [apply Htree|simpl; lia|done]. Qed.

(** A page whose leaf entry is read-only is not writable. *)
Lemma not_writable_leaf va :
  Z.testbit (leaf_entry m G va) 1 = false -> mmu_writable m root va = false.
Proof.
  intros Hl. unfold mmu_writable.
  pose proof (mmu_walk_node va 0 root ltac:(lia) (tree_root _ _ _ Htree)) as Hw.
  change (4 - 0)%nat with 4%nat in Hw.
  destruct (mmu_walk m root va 4 0) as [[a w]|]; [|done]. destruct w; [|done].
  destruct Hw as (_ & _ & Hw). rewrite Hl in Hw. by specialize (Hw eq_refl).
Qed.
End Walks.

(** ** The tree, the allocator and memory together *)
Record sys_ok (limine : limine_features) (st : kmem) (root : Z) (G : gmap (list Z) Z) : Prop := {
  sys_tree : tree_ok (ram st) root G;
  sys_alloc : allocator_ok limine st;
  sys_free : Forall frame_ok (free_frames limine st);
  sys_nodup : NoDup (free_frames limine st);
  sys_fresh p f : G !! p = Some f -> f ∉ free_frames limine st;
  sys_apart f a :
    f ∈ free_frames limine st \/ (exists p, G !! p = Some f) -> in_frame f a -> ~ in_storage st a
}.

(** The state in which the kernel maps pages: the page tree is well formed and
    its nodes, the free frames and the storage of the free stack are disjoint. *)
Definition page_tree_ok (limine : limine_features) (st : kmem) (root : Z) : Prop :=
  exists G, sys_ok limine st root G.

(** The effect of one level on the entries of the tree: entry [i] of the node at
    [p] now has the write permission of [fl], the others are as before. *)
Definition level_set (m m' : mem) (G : gmap (list Z) Z) (p : list Z) (f i fl : Z) : Prop :=
  Z.testbit (node_entry m' f i) 1 = Z.testbit fl 1 /\
  forall q g j, G !! q = Some g -> 0 <= j < 512 -> (p, i) <> (q, j) ->
    node_entry m' g j = node_entry m g j.

(** Only bytes of the nodes of [G] differ. *)
Definition outside_tree (G : gmap (list Z) Z) (m m' : mem) : Prop :=
  forall a, (forall p f, G !! p = Some f -> ~ in_frame f a) -> load8 m' a = load8 m a.

Lemma outside_tree_refl G m : outside_tree G m m.
Proof. done. Qed.

Lemma outside_tree_trans G G' m m1 m2 :
  G ⊆ G' -> outside_tree G m m1 -> outside_tree G' m1 m2 -> outside_tree G' m m2.
Proof.
  intros HG H1 H2 a Ha. rewrite H2 by done. apply H1. intros p f Hp. apply (Ha p).
  by eapply lookup_weaken.
Qed.

Lemma outside_tree_page G p f m m' :
  G !! p = Some f -> same_outside f (f + 0x1000) m m' -> outside_tree G m m'.
Proof.
  intros Hp Hout a Ha. apply Hout. specialize (Ha p f Hp). unfold in_frame, frameSize in Ha. lia.
Qed.

Section System.
Context (limine : limine_features) (Hhhdm : hhdm_ok limine).
Abbreviation virt f := (kernel_physical_to_virtual limine f).

(** Writes confined to one node of the tree, or to the newly allocated frame,
    do not touch the allocator. *)
Lemma sys_storage_same st root G m' f :
  sys_ok limine st root G ->
  f ∈ free_frames limine st \/ (exists p, G !! p = Some f) ->
  same_outside f (f + 0x1000) (ram st) m' -> storage_same st m'.
Proof.
  intros Hsys Hf Hout a Ha. apply Hout.
  destruct (Z.lt_ge_cases a f); [by left|]. destruct (Z.lt_ge_cases a (f + 0x1000)); [|by right].
  exfalso. by apply (sys_apart _ _ _ _ Hsys f a).
Qed.

Lemma entry_set_page m m' f i e :
  0 <= i < 512 -> entry_set m m' f i e -> same_outside f (f + 0x1000) m m'.
Proof. intros Hi [_ Hout]. eapply same_outside_weaken; [| |done]; lia. Qed.

Lemma sys_update st root G m' :
  sys_ok limine st root G -> storage_same st m' -> tree_ok m' root G ->
  sys_ok limine (KMem m' (free_stack st)) root G /\
  free_frames limine (KMem m' (free_stack st)) = free_frames limine st.
Proof.
  intros Hsys Hsame Htree.
  assert (Hfr : free_frames limine (KMem m' (free_stack st)) = free_frames limine st)
    by (apply free_frames_same; [apply Hsys|done]).
  split; [|done]. split; rewrite ?Hfr; simpl; try apply Hsys. done.
Qed.

(** [set_child_flags] on an entry that has a child. *)
Lemma sys_set_flags st root G p f i c fl :
  sys_ok limine st root G -> G !! p = Some f -> (List.length p < 3)%nat -> 0 <= i < 512 ->
  G !! (p ++ [i]) = Some c -> page_flags fl ->
  let st' := KMem (set_child_flags limine (ram st) (virt f) i fl) (free_stack st) in
  sys_ok limine st' root G /\ free_frames limine st' = free_frames limine st /\
  (forall va, leaf_entry (ram st') G va = leaf_entry (ram st) G va) /\
  level_set (ram st) (ram st') G p f i fl /\ outside_tree G (ram st) (ram st').
Proof.
  intros Hsys Hp Hlen Hi Hc Hfl st'. pose proof (sys_tree _ _ _ _ Hsys) as Htree.
  pose proof (tree_child _ _ _ Htree p f i Hp Hlen Hi) as He. rewrite Hc in He.
  destruct He as (x & Hx & Hx0 & He).
  assert (frame_ok f) by (by eapply tree_frame). assert (frame_ok c) as Hcf by (by eapply tree_frame).
  destruct (frame_ok_aligned _ Hcf) as [Hca _].
  pose proof (set_child_flags_spec limine Hhhdm (ram st) f i c x fl) as Hset.
  specialize (Hset ltac:(done) Hi Hca Hx Hfl He).
  destruct (tree_set_child _ _ _ Htree _ p f i c _ Hp Hlen Hi Hc
    (ex_intro _ _ (conj (flags_after_ok x fl Hx Hfl) (conj (flags_after_present x fl) eq_refl)))
    Hset) as [Htree' Hleaf].
  assert (level_set (ram st) (ram st') G p f i fl).
  { split; [|intros q g j Hq Hj Hne; by eapply (tree_other_entry _ _ _ Htree _ p f i)].
    destruct Hset as [Hset _]. simpl. rewrite Hset.
    rewrite (pte_bit_low c) by (assumption || lia). rewrite flags_after_bit by lia. by rewrite orb_false_r. }
  destruct (sys_update st root G _ Hsys (sys_storage_same _ _ _ _ f Hsys (or_intror (ex_intro _ p Hp))
    (entry_set_page _ _ _ _ _ Hi Hset)) Htree').
  pose proof (outside_tree_page G p f _ _ Hp (entry_set_page _ _ _ _ _ Hi Hset)). done.
Qed.

(** Zeroing a free frame and linking it leaves the stack of free frames alone. *)
Lemma sys_new_node_storage st st1 root G p f i c m1 m2 e :
  sys_ok limine st root G -> G !! p = Some f -> 0 <= i < 512 -> c ∈ free_frames limine st ->
  ram st1 = ram st -> storage st1 = storage st ->
  same_outside c (c + 0x1000) (ram st) m1 -> entry_set m1 m2 f i e -> storage_same st1 m2.
Proof.
  intros Hsys Hp Hi Hc Hram Hst Hout [_ Hset] a Ha. rewrite (in_storage_eq st) in Ha by done.
  assert (Hap : storage_same st m1) by (apply (sys_storage_same _ root G _ c); auto).
  rewrite Hram, <-Hap by done. apply Hset.
  destruct (Z.lt_ge_cases a (f + 8 * i)); [by left|].
  destruct (Z.lt_ge_cases a (f + 8 * i + 8)); [|by right]. exfalso.
  eapply (sys_apart _ _ _ _ Hsys f a); [eauto| |done]. unfold in_frame, frameSize. lia.
Qed.

(** A free frame becomes a node. *)
Lemma sys_take_node st st' root G q c l :
  sys_ok limine st root G -> tree_ok (ram st') root (<[q := c]> G) -> allocator_ok limine st' ->
  free_frames limine st = l ++ [c] -> free_frames limine st' = l -> storage st' = storage st ->
  sys_ok limine st' root (<[q := c]> G).
Proof.
  intros Hsys Htree Hok Hfree Hl Hst.
  pose proof (sys_nodup _ _ _ _ Hsys) as Hnd. rewrite Hfree in Hnd.
  apply NoDup_app in Hnd as (Hnd & Hcl & _).
  pose proof (sys_free _ _ _ _ Hsys) as Hff. rewrite Hfree in Hff. apply Forall_app in Hff as [Hff _].
  split; rewrite ?Hl; try done.
  - intros q' g [[_ <-]|[_ Hq]]%lookup_insert_Some Hin.
    + eapply Hcl; [done|]. by apply list_elem_of_singleton.
    + eapply (sys_fresh _ _ _ _ Hsys); [done|]. rewrite Hfree. set_solver.
  - intros g a Hg Hin Hs. apply (in_storage_eq st st' a Hst) in Hs.
    eapply (sys_apart _ _ _ _ Hsys g a); [|done|done].
    destruct Hg as [Hg|[q' [[_ <-]|[_ Hq]]%lookup_insert_Some]]; [..|by right; eauto];
      left; rewrite Hfree; set_solver.
Qed.

(** The allocating branch: the new node is zeroed and linked. *)
Lemma sys_new_node st st1 root G p f i c fl l :
  sys_ok limine st root G -> G !! p = Some f -> (List.length p < 3)%nat -> 0 <= i < 512 ->
  G !! (p ++ [i]) = None -> page_flags fl -> free_frames limine st = l ++ [c] ->
  ram st1 = ram st -> free_frames limine st1 = l -> allocator_ok limine st1 ->
  storage st1 = storage st ->
  let m := PageTreeNode_construct limine (ram st1) (virt c) in
  let m := set_child_address limine m (virt f) i c in
  let st' := KMem (set_child_flags limine m (virt f) i fl) (free_stack st1) in
  let G' := <[p ++ [i] := c]> G in
  sys_ok limine st' root G' /\ free_frames limine st' = l /\ storage st' = storage st /\
  (forall va, leaf_entry (ram st') G' va = leaf_entry (ram st) G va) /\
  level_set (ram st) (ram st') G p f i fl /\ outside_tree G' (ram st) (ram st').
Proof.
  intros Hsys Hp Hlen Hi Hnone Hfl Hfree Hram Hl Hok1 Hst1 m1 m2 st' G'.
  pose proof (sys_tree _ _ _ _ Hsys) as Htree.
  assert (Hcin : c ∈ free_frames limine st) by (rewrite Hfree; set_solver).
  assert (frame_ok f) by (by eapply tree_frame).
  assert (Hcf : frame_ok c) by (eapply Forall_forall; [apply Hsys|done]).
  destruct (frame_ok_aligned _ Hcf) as [Hca _].
  assert (Hfresh : forall q, G !! q <> Some c) by (intros q Hq; by eapply (sys_fresh _ _ _ _ Hsys)).
  destruct (construct_spec limine Hhhdm (ram st1) c Hcf) as [Hzero Hout]. fold m1 in Hzero, Hout.
  pose proof (set_address_flags_spec limine Hhhdm m1 f i c fl ltac:(done) Hi Hca Hfl) as Hset.
  fold m2 in Hset.
  destruct (tree_add_child _ _ _ Htree m1 (ram st') p f i c (pte c (flags_after 0 fl)))
    as (Htree' & Hleaf & Hold); try done.
  { exists (flags_after 0 fl). split; [by apply flags_after_ok|].
    split; [apply flags_after_present|done]. }
  { by rewrite <-Hram. }
  assert (Hsame : storage_same st1 (ram st')).
  { eapply (sys_new_node_storage st st1 root G p f i c m1 _ _ Hsys Hp Hi Hcin Hram Hst1); [by rewrite <-Hram|exact Hset]. }
  assert (Hfr : free_frames limine st' = l).
  { rewrite <-Hl. by apply free_frames_same. }
  assert (level_set (ram st) (ram st') G p f i fl).
  { split; [|done]. destruct Hset as [Hset' _]. simpl. rewrite Hset'.
    rewrite (pte_bit_low c) by (assumption || lia).
    rewrite flags_after_bit by lia. by rewrite orb_false_r. }
  assert (outside_tree G' (ram st) (ram st')).
  { assert (Hf : G' !! p = Some f).
    { unfold G'. rewrite lookup_insert_ne; [done|]. intros He. apply (f_equal List.length) in He.
      rewrite length_app in He. simpl in He. lia. }
    eapply (outside_tree_trans G'); [done| |].
    - apply (outside_tree_page G' (p ++ [i]) c); [apply lookup_insert_eq|]. by rewrite <-Hram.
    - exact (outside_tree_page G' p f _ _ Hf (entry_set_page _ _ _ _ _ Hi Hset)). }
  split; [|split; [done|split; [done|split; [exact Hleaf|split; done]]]].
  apply (sys_take_node st st' root G (p ++ [i]) c l); done.
Qed.
End System.

(** [G'] has the nodes of [G] and one new node in each of the frames [used]. *)
Definition grows (G G' : gmap (list Z) Z) (used : list Z) : Prop :=
  size G' = (size G + List.length used)%nat /\
  forall p f, G' !! p = Some f -> G !! p = Some f \/ f ∈ used.

Lemma grows_nil G : grows G G [].
Proof. split; [simpl; lia|by left]. Qed.

Lemma grows_insert G p c : G !! p = None -> grows G (<[p := c]> G) [c].
Proof.
  intros Hp. split; [rewrite map_size_insert_None by done; simpl; lia|].
  intros q f [[_ <-]|[_ Hq]]%lookup_insert_Some; [right; set_solver|by left].
Qed.

Lemma grows_trans G G1 G2 used1 used2 :
  grows G G1 used1 -> grows G1 G2 used2 -> grows G G2 (used2 ++ used1).
Proof.
  intros [Hs1 H1] [Hs2 H2]. split; [rewrite length_app; lia|].
  intros p f [Hp|Hf]%H2; [|right; set_solver]. apply H1 in Hp as [?|?]; [by left|right; set_solver].
Qed.

Section MapPage.
Context (limine : limine_features) (Hhhdm : hhdm_ok limine).
Abbreviation virt f := (kernel_physical_to_virtual limine f).

(** One iteration of the loop of [map_page_to_frame]: it takes a frame exactly
    when the child is missing. *)
Lemma map_level_spec st root G page fl d f :
  sys_ok limine st root G -> page_flags fl -> (d < 3)%nat -> G !! path page d = Some f ->
  (size ({[path page (S d)]} ∪ dom G) <= size G + List.length (free_frames limine st))%nat ->
  exists st' G' c used, map_level limine page fl (Z.of_nat d) (st, virt f) = Done (st', virt c) /\
    sys_ok limine st' root G' /\ G ⊆ G' /\ G' !! path page (S d) = Some c /\
    dom G' = {[path page (S d)]} ∪ dom G /\ grows G G' used /\
    free_frames limine st = free_frames limine st' ++ used /\
    storage st' = storage st /\
    (forall va, leaf_entry (ram st') G' va = leaf_entry (ram st) G va) /\
    level_set (ram st) (ram st') G (path page d) f (table_index page d) fl /\
    outside_tree G' (ram st) (ram st').
Proof.
  intros Hsys Hfl Hd Hf Hroom. pose proof (sys_tree _ _ _ _ Hsys) as Htree.
  pose proof (table_index_range page d) as Hi.
  assert (Hlen : (List.length (path page d) < 3)%nat) by (rewrite path_length; lia).
  unfold map_level. rewrite get_table_index_eq, bind_done by lia.
  rewrite (child_address_eq _ Hhhdm _ _ _ Htree (path page d)) by done.
  rewrite path_S. destruct (G !! (path page d ++ [table_index page d])) as [c|] eqn:Hc; cbn [default from_option].
  - unfold id. rewrite (child_nonzero _ _ _ Htree _ _ Hc), bind_done.
    destruct (sys_set_flags _ Hhhdm _ _ _ _ _ _ _ _ Hsys Hf Hlen Hi Hc Hfl) as (Hsys' & Hfr & Hleaf & Hlev & Hout).
    eexists _, G, c, []. split; [done|]. rewrite Hfr, app_nil_r.
    split_and!; try assumption; try reflexivity; [|apply grows_nil].
    apply elem_of_dom_2 in Hc. set_solver.
  - rewrite Z.eqb_refl.
    assert (Hnew : path page (S d) ∉ dom G) by (rewrite path_S; by apply not_elem_of_dom).
    rewrite size_union, size_singleton, size_dom in Hroom by set_solver.
    destruct (list_snoc_cases (free_frames limine st)) as [He|(l & c & He)].
    { rewrite He in Hroom. simpl in Hroom. lia. }
    destruct (allocate_frame_spec _ _ _ _ (sys_alloc _ _ _ _ Hsys) He)
      as (st1 & -> & Hram & Hl & Hok1 & Hst1). rewrite !bind_done.
    destruct (sys_new_node _ Hhhdm st st1 root G _ _ _ c fl l Hsys Hf Hlen Hi Hc Hfl He Hram Hl Hok1 Hst1)
      as (Hsys' & Hfr & Hst' & Hleaf & Hlev & Hout).
    match type of Hsys' with sys_ok _ ?s _ ?g => set (st2 := s) in *; set (G' := g) in * end.
    assert (Hc' : G' !! (path page d ++ [table_index page d]) = Some c) by apply lookup_insert_eq.
    assert (HG : G ⊆ G') by (by apply insert_subseteq).
    assert (Hf' : G' !! path page d = Some f) by (by eapply lookup_weaken).
    destruct (sys_set_flags _ Hhhdm _ _ _ _ _ _ _ _ Hsys' Hf' Hlen Hi Hc' Hfl)
      as (Hsys2 & Hfr2 & Hleaf2 & Hlev2 & Hout2).
    eexists _, G', c, [c]. split; [done|]. rewrite Hfr2, Hfr, He.
    split_and!; try assumption; try reflexivity.
    + unfold G'. by rewrite dom_insert_L.
    + by apply grows_insert.
    + intros va. by rewrite Hleaf2.
    + destruct Hlev as [_ Hlev], Hlev2 as [Hb Hlev2]. split; [done|].
      intros q g j Hq Hj Hne. rewrite (Hlev2 q g j); [by apply (Hlev q g j)|by eapply lookup_weaken|done|done].
    + eapply (outside_tree_trans G'); [done|exact Hout|exact Hout2].
Qed.

(** The entries on the path of [page], down to level [n], carry the write
    permission of [fl]. *)
Definition path_writable (m : mem) (G : gmap (list Z) Z) (page fl : Z) (n : nat) : Prop :=
  forall d, (d < n)%nat -> exists f, G !! path page d = Some f /\
    Z.testbit (node_entry m f (table_index page d)) 1 = Z.testbit fl 1.

Lemma path_writable_step m m' G G' page fl d f :
  path_writable m G page fl d -> G !! path page d = Some f -> G ⊆ G' ->
  level_set m m' G (path page d) f (table_index page d) fl ->
  path_writable m' G' page fl (S d).
Proof.
  intros Hpw Hf HG [Hb Hold] k Hk. destruct (decide (k = d)) as [->|].
  - exists f. split; [by eapply lookup_weaken|done].
  - destruct (Hpw k) as (g & Hg & Hgb); [lia|]. exists g.
    split; [by eapply lookup_weaken|]. rewrite (Hold (path page k)); [done|done| |].
    + apply table_index_range.
    + intros [= Heq _]. apply (f_equal List.length) in Heq. rewrite !path_length in Heq. lia.
Qed.

(** Entries off the first [n] levels of the path of [page] are as before. *)
Definition entries_kept (m m' : mem) (G : gmap (list Z) Z) (page : Z) (n : nat) : Prop :=
  forall q g j, G !! q = Some g -> 0 <= j < 512 ->
    (forall d, (d < n)%nat -> (q, j) <> (path page d, table_index page d)) ->
    node_entry m' g j = node_entry m g j.

Lemma entries_kept_step m m1 m2 G G1 page fl d f :
  entries_kept m m1 G page d -> G ⊆ G1 ->
  level_set m1 m2 G1 (path page d) f (table_index page d) fl ->
  entries_kept m m2 G page (S d).
Proof.
  intros Hk HG [_ Hlev] q g j Hq Hj Hne. rewrite (Hlev q g j).
  - apply (Hk q g j Hq Hj). intros d' Hd'. apply Hne. lia.
  - by eapply lookup_weaken.
  - done.
  - intros Heq. by apply (Hne d ltac:(lia)).
Qed.

(** Mapping another page does not disturb a path that carries the same write
    permission, or that starts at another top-level entry. *)
Lemma path_writable_kept m m' G G' page page' fl fl' :
  path_writable m G page fl 4 -> G ⊆ G' -> entries_kept m m' G page' 4 ->
  path_writable m' G' page' fl' 4 ->
  Z.testbit fl 1 = Z.testbit fl' 1 \/ table_index page 0 <> table_index page' 0 ->
  path_writable m' G' page fl 4.
Proof.
  intros Hpw HG Hk Hpw' Hc d Hd. destruct (Hpw d Hd) as (f & Hf & Hb).
  exists f. split; [by eapply lookup_weaken|].
  destruct (decide (path page (S d) = path page' (S d))) as [Heq|Hne].
  - destruct Hc as [Hc|Hc]; [|unfold path in Heq; cbn [seq] in Heq; rewrite !fmap_cons in Heq; congruence].
    rewrite !path_S in Heq. apply app_inj_tail in Heq as [Hp Hi].
    destruct (Hpw' d Hd) as (f' & Hf' & Hb'). rewrite <-Hp in Hf'.
    assert (f' = f) as -> by (eapply lookup_weaken in Hf; [|done]; congruence). congruence.
  - rewrite (Hk (path page d) f); [done|done|apply table_index_range|].
    intros d' Hd' [= Hp Hi]. assert (d' = d) as ->.
    { apply (f_equal List.length) in Hp. by rewrite !path_length in Hp. }
    apply Hne. by rewrite !path_S, Hp, Hi.
Qed.

(** The nodes on the way to [page], the root apart. *)
Definition prefixes (page : Z) : gset (list Z) := list_to_set (path page <$> seq 1 3).

Lemma path_table_path va n : (n <= 3)%nat -> table_path (path va n).
Proof.
  intros Hn. split; [by rewrite path_length|]. unfold path. apply Forall_fmap, Forall_forall.
  intros k _. apply table_index_range.
Qed.

Lemma prefixes_table_path page p : p ∈ prefixes page -> table_path p.
Proof.
  unfold prefixes. rewrite elem_of_list_to_set, list_elem_of_fmap. intros (k & -> & Hk%elem_of_seq).
  apply path_table_path. lia.
Qed.

Lemma prefixes_size page : (size (prefixes page) <= 3)%nat.
Proof. unfold prefixes. etrans; [apply size_list_to_set_le|]. by rewrite length_fmap. Qed.

(** The next table on a path is among the tables of the page. *)
Lemma path_room (page : Z) (n : nat) (D : gset (list Z)) :
  (n < 3)%nat ->
  (size ({[path page (S n)]} ∪ (list_to_set (path page <$> seq 1 n) ∪ D)) <= size (prefixes page ∪ D))%nat.
Proof.
  intros Hn. apply subseteq_size. unfold prefixes. intros p.
  rewrite !elem_of_union, elem_of_singleton, !elem_of_list_to_set, !list_elem_of_fmap.
  intros [->|[(k & -> & Hk%elem_of_seq)|Hp]]; [left|left|by right];
    eexists; (split; [reflexivity|]); apply elem_of_seq; lia.
Qed.

(** The whole loop: every level exists afterwards, and every frame taken is a
    node that was missing. *)
Lemma map_levels_spec st root G page fl :
  sys_ok limine st root G -> page_flags fl ->
  (size (prefixes page ∪ dom G) <= size G + List.length (free_frames limine st))%nat ->
  exists st' G' g used,
    for_upto (Z.to_nat max_depth) 0 (map_level limine page fl) (st, virt root) = Done (st', virt g) /\
    sys_ok limine st' root G' /\ G' !! path page 3 = Some g /\
    G ⊆ G' /\ dom G' = prefixes page ∪ dom G /\ grows G G' used /\
    free_frames limine st = free_frames limine st' ++ used /\
    storage st' = storage st /\
    (forall va, leaf_entry (ram st') G' va = leaf_entry (ram st) G va) /\
    path_writable (ram st') G' page fl 3 /\ entries_kept (ram st) (ram st') G page 3 /\
    outside_tree G' (ram st) (ram st').
Proof.
  intros Hsys Hfl Hroom.
  pose (I := fun (d : Z) (s : kmem * Z) => exists G' g used,
    snd s = virt g /\ sys_ok limine (fst s) root G' /\ G' !! path page (Z.to_nat d) = Some g /\
    G ⊆ G' /\ dom G' = list_to_set (path page <$> seq 1 (Z.to_nat d)) ∪ dom G /\
    grows G G' used /\
    free_frames limine st = free_frames limine (fst s) ++ used /\ storage (fst s) = storage st /\
    (forall va, leaf_entry (ram (fst s)) G' va = leaf_entry (ram st) G va) /\
    path_writable (ram (fst s)) G' page fl (Z.to_nat d) /\
    entries_kept (ram st) (ram (fst s)) G page (Z.to_nat d) /\
    outside_tree G' (ram st) (ram (fst s))).
  destruct (for_upto_total I (map_level limine page fl) (Z.to_nat max_depth) 0 (st, virt root))
    as ([st' cur] & Hdone & G' & g & used & Hcur & Hsys' & Hg & HG & Hdom & Hsz & Hfr & Hst & Hleaf & Hpw & Hkept & Hout).
  - exists G, root, []. rewrite app_nil_r. simpl. split_and!; try done.
    + apply (tree_root _ _ _ (sys_tree _ _ _ _ Hsys)).
    + set_solver.
    + apply grows_nil.
    + intros d Hd. lia.
  - intros d [st1 cur] Hd
      (G1 & g1 & used1 & Hcur & Hsys1 & Hg1 & HG1 & Hdom1 & Hsz1 & Hfr1 & Hst1 & Hleaf1 & Hpw1 & Hk1 & Hout1).
    simpl in *. change (Z.of_nat (Z.to_nat max_depth)) with 3 in Hd. rewrite Hcur.
    destruct (Z_of_nat_complete d) as [n ->]; [lia|]. rewrite Nat2Z.id in *.
    destruct (map_level_spec st1 root G1 page fl n g1) as
      (st2 & G2 & c & used2 & Hm & Hsys2 & HG2 & Hc & Hdom2 & Hsz2 & Hfr2 & Hst2 & Hleaf2 & Hlev & Hout2);
      try done; [lia| |].
    { rewrite Hfr1, length_app in Hroom. pose proof (proj1 Hsz1). rewrite Hdom1.
      pose proof (path_room page n (dom G) ltac:(lia)). lia. }
    eexists. split; [exact Hm|]. exists G2, c, (used2 ++ used1). simpl.
    replace (Z.to_nat (Z.of_nat n + 1)) with (S n) by lia.
    split_and!; try done.
    + by etrans.
    + rewrite Hdom2, Hdom1, seq_S, fmap_app. change (1 + n)%nat with (S n). cbn [fmap list_fmap].
      apply set_eq. intros p. rewrite !elem_of_union, !elem_of_list_to_set, elem_of_app,
        list_elem_of_singleton, elem_of_singleton. tauto.
    + by eapply grows_trans.
    + by rewrite Hfr1, Hfr2, <-app_assoc.
    + congruence.
    + intros va. by rewrite Hleaf2.
    + by eapply path_writable_step.
    + by eapply entries_kept_step.
    + by eapply outside_tree_trans.
  - simpl in *. subst cur. exists st', G', g, used. by split_and!.
Qed.

Definition leaf_flags (fl : Z) : Z := flags_after 0 fl.

(** The whole of [map_page_to_frame]. *)
Lemma map_page_spec st root G page frame fl :
  sys_ok limine st root G -> page_flags fl -> page_aligned frame ->
  (size (prefixes page ∪ dom G) <= size G + List.length (free_frames limine st))%nat ->
  exists st' G' used, map_page_to_frame limine (virt root) page frame fl st = Done st' /\
    sys_ok limine st' root G' /\
    G ⊆ G' /\ dom G' = prefixes page ∪ dom G /\ grows G G' used /\
    free_frames limine st = free_frames limine st' ++ used /\ storage st' = storage st /\
    (forall va, leaf_entry (ram st') G' va =
       if decide (page_index va = page_index page) then pte frame (leaf_flags fl)
       else leaf_entry (ram st) G va) /\
    path_writable (ram st') G' page fl 4 /\ entries_kept (ram st) (ram st') G page 4 /\
    outside_tree G' (ram st) (ram st').
Proof.
  intros Hsys Hfl Ha Hroom.
  destruct (map_levels_spec st root G page fl Hsys Hfl Hroom)
    as (st1 & G1 & g & used & Hdone & Hsys1 & Hg & HG & Hdom & Hsz & Hfr & Hst & Hleaf & Hpw & Hkept & Hout).
  pose proof (sys_tree _ _ _ _ Hsys1) as Htree.
  assert (frame_ok g) by (by eapply tree_frame). pose proof (table_index_range page 3) as Hi.
  pose proof (set_address_flags_spec limine Hhhdm (ram st1) g (table_index page 3) frame fl
    ltac:(done) Hi Ha Hfl) as Hset.
  destruct (tree_set_leaf _ _ _ Htree _ page g _ frame Hg Ha
    (ex_intro _ _ (conj (flags_after_ok 0 fl ltac:(done) Hfl) (conj (flags_after_present 0 fl) eq_refl)))
    Hset) as [Htree' Hleaf'].
  destruct (sys_update _ st1 root G1 _ Hsys1
    (sys_storage_same _ _ _ _ _ g Hsys1 (or_intror (ex_intro _ _ Hg)) (entry_set_page _ _ _ _ _ Hi Hset))
    Htree') as [Hsys' Hfr'].
  eexists _, G1, used. split.
  { unfold map_page_to_frame. rewrite Hdone, bind_done.
    change max_depth with (Z.of_nat 3). rewrite get_table_index_eq, bind_done by lia. done. }
  split; [done|]. split; [done|]. split; [done|]. split; [done|].
  rewrite Hfr'. split; [done|]. split; [done|]. split.
  - intros va. simpl. rewrite Hleaf'. case_decide; [done|]. apply Hleaf.
  - assert (Hlev : level_set (ram st1)
      (set_child_flags limine (set_child_address limine (ram st1) (virt g) (table_index page 3) frame)
        (virt g) (table_index page 3) fl) G1 (path page 3) g (table_index page 3) fl).
    { split.
      - destruct Hset as [Hset _]. rewrite Hset, pte_bit_low, flags_after_bit by (done || lia).
        by rewrite orb_false_r.
      - intros q h j Hq Hj Hne. by eapply (tree_other_entry _ _ _ Htree _ (path page 3) g (table_index page 3)). }
    split; [eapply path_writable_step; [exact Hpw|done|done|exact Hlev]|].
    split; [eapply entries_kept_step; [exact Hkept|done|exact Hlev]|].
    eapply (outside_tree_trans G1); [done|exact Hout|].
    exact (outside_tree_page G1 _ g _ _ Hg (entry_set_page _ _ _ _ _ Hi Hset)).
Qed.
End MapPage.

(** Three free frames are always enough: the levels below the root. *)
Lemma room_of_three (G : gmap (list Z) Z) page n :
  (3 <= n)%nat -> (size (prefixes page ∪ dom G) <= size G + n)%nat.
Proof.
  intros Hn. pose proof (prefixes_size page).
  rewrite size_union_alt, <-(size_dom G).
  assert (size (dom G ∖ prefixes page) <= size (dom G))%nat by (apply subseteq_size; set_solver).
  lia.
Qed.

(** ** Writability along a walk *)
Lemma mmu_walk_S m table va levels depth :
  mmu_walk m table va (S levels) depth =
    let e := load64 m (table + 8 * table_index va depth) in
    if Z.testbit e 0 && (negb (Z.testbit e 7) || (levels =? 0)%nat)
    then '(f, w) ← mmu_walk m (entry_frame e) va levels (S depth);
         Some (f, Z.testbit e 1 && w)
    else None.
Proof. done. Qed.

Section Writable.
Context (limine : limine_features) (m : mem) (root : Z) (G : gmap (list Z) Z)
  (Htree : tree_ok m root G).

Lemma mmu_walk_writable page fl d f :
  path_writable m G page fl 4 -> (d <= 3)%nat -> G !! path page d = Some f ->
  Z.testbit (leaf_entry m G page) 0 = true ->
  exists a, mmu_walk m f page (4 - d) d = Some (a, Z.testbit fl 1).
Proof.
  intros Hpw Hd Hf Hleaf. remember (3 - d)%nat as k eqn:Hk. revert d f Hd Hf Hk.
  induction k as [|k IH]; intros d f Hd Hf Hk;
    destruct (Hpw d ltac:(lia)) as (f' & Hf' & Hb); rewrite Hf in Hf'; injection Hf' as <-.
  - assert (d = 3%nat) as -> by lia. simpl. unfold leaf_entry in Hleaf. rewrite Hf in Hleaf.
    unfold node_entry in Hb, Hleaf. rewrite Hleaf, orb_true_r, Hb. simpl.
    rewrite andb_true_r. eauto.
  - replace (4 - d)%nat with (S (4 - S d)) by lia. simpl mmu_walk.
    change (load64 m (f + 8 * table_index page d)) with (node_entry m f (table_index page d)).
    destruct (Hpw (S d) ltac:(lia)) as (c & Hc & _).
    pose proof (tree_child _ _ _ Htree (path page d) f (table_index page d) Hf) as He.
    rewrite path_length in He. specialize (He ltac:(lia) (table_index_range page d)).
    rewrite <-path_S, Hc in He.
    assert (frame_ok c) by (by eapply tree_frame).
    destruct (entry_for_walk _ _ He) as (-> & -> & ->); [by apply frame_ok_aligned|].
    destruct (IH (S d) c ltac:(lia) Hc ltac:(lia)) as (a & Ha).
    replace (4 - S d)%nat with (3 - d)%nat in Ha by lia. simpl. rewrite Ha. simpl.
    rewrite Hb. exists a. by destruct (Z.testbit fl 1).
Qed.

Lemma mmu_writable_top va w a :
  mmu_walk m root va 4 0 = Some (a, w) ->
  w = true -> Z.testbit (node_entry m root (table_index va 0)) 1 = true.
Proof.
  change 4%nat with (S 3). rewrite mmu_walk_S.
  change (load64 m (root + 8 * table_index va 0)) with (node_entry m root (table_index va 0)).
  cbv zeta. destruct (_ && _); [|done].
  destruct (mmu_walk m (entry_frame (node_entry m root (table_index va 0))) va 3 1)
    as [[b w']|]; simpl; [|intros ?; discriminate].
  intros [= <- <-]. by intros [? _]%andb_prop.
Qed.
End Writable.

(** A page tree with a root and nothing else. *)
Lemma sys_ok_fresh limine st st1 l root :
  hhdm_ok limine -> allocator_ok limine st ->
  free_frames limine st = l ++ [root] -> Forall frame_ok (free_frames limine st) ->
  NoDup (free_frames limine st) ->
  (forall f a, f ∈ free_frames limine st -> in_frame f a -> ~ in_storage st a) ->
  allocate_frame limine st = Done (root, st1) ->
  let m := PageTreeNode_construct limine (ram st1) (kernel_physical_to_virtual limine root) in
  sys_ok limine (KMem m (free_stack st1)) root {[ [] := root ]} /\
  free_frames limine (KMem m (free_stack st1)) = l /\
  (forall va, leaf_entry m {[ [] := root ]} va = 0).
Proof.
  intros Hhhdm Hok Hfree Hff Hnd Hap Halloc m.
  destruct (allocate_frame_spec _ _ _ _ Hok Hfree) as (st1' & Ha & Hram & Hl & Hok1 & Hst1).
  rewrite Halloc in Ha. injection Ha as <-.
  assert (Hroot : root ∈ free_frames limine st) by (rewrite Hfree; set_solver).
  assert (Hrf : frame_ok root) by (by eapply Forall_forall in Hff).
  destruct (construct_spec limine Hhhdm (ram st1) root Hrf) as [Hzero Hout]. fold m in Hzero, Hout.
  assert (Hsame : storage_same st1 m).
  { intros a Ha. apply Hout. destruct (Z.lt_ge_cases a root); [by left|].
    destruct (Z.lt_ge_cases a (root + 0x1000)); [|by right].
    exfalso. apply (in_storage_eq st st1 a Hst1) in Ha. by eapply Hap. }
  assert (Hfr : free_frames limine (KMem m (free_stack st1)) = l).
  { rewrite <-Hl. by apply free_frames_same. }
  assert (Hnil : forall (p : list Z) f, ({[ [] := root ]} : gmap (list Z) Z) !! p = Some f ->
    p = [] /\ f = root) by (by intros p f [<- <-]%lookup_singleton_Some).
  split; [|split; [done|]].
  - rewrite Hfree in Hff, Hnd. apply Forall_app in Hff as [Hff _].
    apply NoDup_app in Hnd as (Hnd & Hlr & _).
    split; rewrite ?Hfr; try done.
    + split.
      * apply lookup_singleton_eq.
      * by intros p f [-> ->]%Hnil.
      * by intros p q f [-> ->]%Hnil [-> _]%Hnil.
      * intros p i f [Hbad _]%Hnil. by destruct p.
      * intros p f i [-> ->]%Hnil _ Hi. rewrite lookup_singleton_ne by done. by apply Hzero.
      * by intros p f i [-> _]%Hnil.
    + intros p f [-> ->]%Hnil Hin. eapply Hlr; [done|]. by apply list_elem_of_singleton.
    + intros f a Hf Hin Hs. apply (in_storage_eq st _ a Hst1) in Hs.
      eapply (Hap f a); [|done|done]. rewrite Hfree.
      destruct Hf as [Hf|[p [_ ->]%Hnil]]; set_solver.
  - intros va. unfold leaf_entry. by rewrite lookup_singleton_ne.
Qed.

(** C1. Mapping a page makes the processor translate exactly that page to the
    given frame, with exactly the given write permission, and leaves the
    translation of every address of every other page unchanged; the tree stays
    well formed and disjoint from the free frames and the allocator's storage. *)
Theorem map_page_to_frame_correct limine st root page frame flags :
  hhdm_ok limine -> page_tree_ok limine st root ->
  page_flags flags -> page_aligned frame ->
  (3 <= List.length (free_frames limine st))%nat ->
  exists st',
    map_page_to_frame limine (kernel_physical_to_virtual limine root) page frame flags st = Done st' /\
    page_tree_ok limine st' root /\
    (forall va, mmu_translate (ram st') root va =
       if decide (page_index va = page_index page) then Some (frame + va mod pageSize)
       else mmu_translate (ram st) root va) /\
    mmu_writable (ram st') root page = Z.testbit flags 1 /\
    (exists used, free_frames limine st = free_frames limine st' ++ used).
Proof.
  intros Hhhdm [G Hsys] Hfl Ha Hroom.
  destruct (map_page_spec limine Hhhdm st root G page frame flags Hsys Hfl Ha (room_of_three G page _ Hroom))
    as (st' & G' & used & Hdone & Hsys' & _ & _ & _ & Hfr & _ & Hleaf & Hpw & _).
  pose proof (sys_tree _ _ _ _ Hsys) as Ht. pose proof (sys_tree _ _ _ _ Hsys') as Ht'.
  assert (He : entry_for (pte frame (leaf_flags flags)) frame).
  { eexists. split; [|split; [|done]]; [by apply flags_after_ok|apply flags_after_present]. }
  destruct (entry_for_walk _ _ He Ha) as (Hp & _ & Hef).
  exists st'. split; [done|]. split; [by exists G'|]. split; [|split; [|eauto]].
  - intros va. rewrite (mmu_translate_eq _ _ _ Ht'), (mmu_translate_eq _ _ _ Ht), Hleaf.
    case_decide; [by rewrite Hp, Hef|done].
  - destruct (mmu_walk_writable _ _ _ Ht' page flags 0 root Hpw ltac:(lia) (tree_root _ _ _ Ht'))
      as (a & Hw).
    { rewrite Hleaf, decide_True by done. done. }
    unfold mmu_writable. change (4 - 0)%nat with 4%nat in Hw. by rewrite Hw.
Qed.

(** The two walks, compared. *)
Lemma translation_cases limine st root va :
  hhdm_ok limine -> page_tree_ok limine st root ->
  exists t, get_translation limine (ram st) (kernel_physical_to_virtual limine root) va = Done t /\
    match mmu_translate (ram st) root va with
    | None => t = MkTranslation 0 PageFlags.None
    | Some pa =>
        let frame := pa - va mod pageSize in
        Z.testbit (tr_flags t) 0 = true /\
        physical_address t = frame mod 2 ^ 32 /\
        (physical_address t = frame <-> pa < 2 ^ 32)
    end.
Proof.
  intros Hhhdm [G Hsys]. pose proof (sys_tree _ _ _ _ Hsys) as Ht.
  rewrite (get_translation_eq limine Hhhdm _ _ _ Ht). eexists. split; [done|].
  rewrite (mmu_translate_eq _ _ _ Ht).
  assert (Hcase : leaf_entry (ram st) G va = 0 \/
    exists a, page_aligned a /\ entry_for (leaf_entry (ram st) G va) a).
  { unfold leaf_entry. destruct (G !! path va 3) as [g|] eqn:Hg; [|by left].
    eapply tree_leaf; [done|done|by rewrite path_length|apply table_index_range]. }
  destruct Hcase as [-> |(a & Ha & He)]; [done|].
  destruct (entry_for_walk _ _ He Ha) as (-> & _ & ->). simpl.
  replace (a + va mod pageSize - va mod pageSize) with a by lia.
  destruct He as (x & Hx & Hx0 & ->). rewrite pte_low, pte_child by done. split; [|split].
  - rewrite Z.land_spec, Hx0. done.
  - by apply child_mask_mod.
  - rewrite child_mask_mod by done. destruct Ha as [Har Ham]. apply Z.mod_divide in Ham as [y ->]; [|done].
    pose proof (Z.mod_pos_bound va pageSize ltac:(done)). unfold pageSize in *.
    split; intros Hlt; [|apply Z.mod_small; lia].
    pose proof (Z.mod_pos_bound (y * 0x1000) (2 ^ 32) ltac:(done)). lia.
Qed.

(** C5. The kernel's own walk agrees with the processor's: [get_translation]
    reports 0 exactly for the addresses the processor faults on, and otherwise
    the frame the processor uses, cut to its low 32 bits (so the two agree on
    every frame below 4 GiB, and only on those). *)
Theorem get_translation_refines_mmu limine st root va :
  hhdm_ok limine -> page_tree_ok limine st root ->
  exists t, get_translation limine (ram st) (kernel_physical_to_virtual limine root) va = Done t /\
    match mmu_translate (ram st) root va with
    | None => t = MkTranslation 0 PageFlags.None
    | Some pa =>
        let frame := pa - va mod pageSize in
        Z.testbit (tr_flags t) 0 = true /\
        physical_address t = frame mod 2 ^ 32 /\
        (physical_address t = frame <-> pa < 2 ^ 32)
    end.
Proof. apply translation_cases. Qed.

(** C24. [map_page_to_frame] replaces the flags of the intermediate entries it
    passes instead of adding to them: mapping one page without write permission
    takes the write permission away from every page below the same top-level
    entry, whatever it was mapped with. *)
Theorem map_page_revokes_write limine st root page frame flags st' va :
  hhdm_ok limine -> page_tree_ok limine st root ->
  page_flags flags -> page_aligned frame ->
  (3 <= List.length (free_frames limine st))%nat ->
  map_page_to_frame limine (kernel_physical_to_virtual limine root) page frame flags st = Done st' ->
  Z.testbit flags 1 = false -> table_index va 0 = table_index page 0 ->
  mmu_writable (ram st') root va = false.
Proof.
  intros Hhhdm [G Hsys] Hfl Ha Hroom Hmap Hnw Hidx.
  destruct (map_page_spec limine Hhhdm st root G page frame flags Hsys Hfl Ha (room_of_three G page _ Hroom))
    as (st1 & G' & used & Hdone & Hsys' & _ & _ & _ & _ & _ & _ & Hpw & _).
  rewrite Hmap in Hdone. injection Hdone as <-.
  destruct (Hpw 0%nat ltac:(lia)) as (f & Hf & Hb).
  rewrite (tree_root _ _ _ (sys_tree _ _ _ _ Hsys') : G' !! path page 0 = Some root) in Hf.
  injection Hf as <-. unfold mmu_writable.
  destruct (mmu_walk (ram st') root va 4 0) as [[a w]|] eqn:Hw; [|done].
  destruct w; [|done]. apply mmu_writable_top in Hw; [|done]. congruence.
Qed.

(** ** A concrete page tree *)
Lemma demo_hhdm_ok : hhdm_ok demo_limine.
Proof. split; vm_compute; congruence. Defined.

Lemma demo_free_frames : free_frames demo_limine demo_init =
  [0x11000; 0x12000; 0x13000; 0x14000; 0x15000; 0x16000] ++ [0x17000].
Proof. vm_compute. reflexivity. Defined.

Lemma demo_apart f a :
  f ∈ free_frames demo_limine demo_init -> in_frame f a -> ~ in_storage demo_init a.
Proof.
  rewrite demo_free_frames. intros Hf Hin. unfold in_storage. rewrite demo_init_stack. simpl.
  assert (0x11000 <= f).
  { clear Hin. revert f Hf. apply Forall_forall. by apply (bool_decide_unpack _). }
  unfold in_frame in Hin. lia.
Qed.

Definition demo_root : Z := 0x17000.

Definition demo_tree : kmem :=
  KMem (PageTreeNode_construct demo_limine (ram demo_alloc)
          (kernel_physical_to_virtual demo_limine demo_root)) (free_stack demo_alloc).

Lemma demo_page_tree_ok : page_tree_ok demo_limine demo_tree demo_root.
Proof.
  exists {[ [] := demo_root ]}.
  apply (sys_ok_fresh demo_limine demo_init demo_alloc
    [0x11000; 0x12000; 0x13000; 0x14000; 0x15000; 0x16000]).
  - apply demo_hhdm_ok.
  - apply demo_init_ok.
  - apply demo_free_frames.
  - rewrite demo_free_frames. by apply (bool_decide_unpack _).
  - rewrite demo_free_frames. by apply (bool_decide_unpack _).
  - apply demo_apart.
  - apply demo_alloc_eq.
Defined.

Lemma demo_tree_frames : List.length (free_frames demo_limine demo_tree) = 6%nat.
Proof. vm_compute. reflexivity. Defined.

Lemma map_page_to_frame_correct_witness :
  exists st', map_page_to_frame demo_limine (kernel_physical_to_virtual demo_limine demo_root)
      0xffff800000005000 0x5000 PageFlags.Write demo_tree = Done st' /\
    mmu_translate (ram st') demo_root 0xffff800000005123 = Some 0x5123.
Proof.
  destruct (map_page_to_frame_correct demo_limine demo_tree demo_root 0xffff800000005000 0x5000
    PageFlags.Write demo_hhdm_ok demo_page_tree_ok) as (st' & Hm & _ & Ht & _).
  - split; done.
  - split; done.
  - rewrite demo_tree_frames. lia.
  - exists st'. split; [exact Hm|]. rewrite Ht. vm_compute. reflexivity.
Defined.

Lemma get_translation_refines_mmu_witness :
  exists t, get_translation demo_limine (ram demo_tree)
      (kernel_physical_to_virtual demo_limine demo_root) 0x1234567 = Done t /\
    t = MkTranslation 0 0.
Proof.
  destruct (get_translation_refines_mmu demo_limine demo_tree demo_root 0x1234567
    demo_hhdm_ok demo_page_tree_ok) as (t & Ht & Hmatch).
  exists t. split; [exact Ht|]. revert Hmatch.
  replace (mmu_translate (ram demo_tree) demo_root 0x1234567) with (@None Z)
    by (vm_compute; reflexivity).
  intros ->. reflexivity.
Defined.

Lemma map_page_revokes_write_witness :
  exists st', map_page_to_frame demo_limine (kernel_physical_to_virtual demo_limine demo_root)
      0x400000 0x9000 PageFlags.None demo_tree = Done st' /\
    mmu_writable (ram st') demo_root 0x5123 = false.
Proof.
  destruct (is_done_inv (map_page_to_frame demo_limine
    (kernel_physical_to_virtual demo_limine demo_root) 0x400000 0x9000 PageFlags.None demo_tree))
    as [st' Hm]; [vm_compute; reflexivity|].
  exists st'. split; [exact Hm|].
  apply (map_page_revokes_write demo_limine demo_tree demo_root 0x400000 0x9000 PageFlags.None
    st' 0x5123 demo_hhdm_ok demo_page_tree_ok).
  - split; vm_compute; congruence.
  - repeat split; vm_compute; congruence.
  - rewrite demo_tree_frames. lia.
  - exact Hm.
  - reflexivity.
  - reflexivity.
Defined.
