(* ===== verification/Paging.v ===== *)
(** * Virtual memory set-up

    src/paging.cpp: page arithmetic, mapping of address ranges, the mappings the
    kernel starts with, and the virtual ranges it leaves to the heap.  A range
    is mapped one page at a time through [PageTree]; the theorems say what the
    processor translates afterwards and how many frames were spent. *)

From Stdlib Require Import ZArith Lia String Btauto Sorted.
From stdpp Require Import base gmap list list_numbers numbers strings.
From S2P Require Import Prelude Memory FrameAllocator PageTree.
#[local] Open Scope Z_scope.
#[local] Set Warnings "-clear-no-such-hyp".

(** struct MemoryRegion, struct PageRange (include/kernel/paging.h) *)
Record MemoryRegion := MkRegion { region_base : Z; region_size : Z }.
Record PageRange := MkPageRange { first_page : Z; last_page : Z }.

(** struct Mapping *)
Record Mapping := MkMapping {
  from_virtual : MemoryRegion;
  to_physical : Z;
  map_flags : Z
}.

(** The addresses the linker script defines. *)
Record linker_symbols := MkSymbols {
  kernel_readonly_start : Z;
  kernel_readonly_end : Z;
  kernel_rw_start : Z;
  kernel_rw_end : Z
}.

(** [page_tree] (the root pointer the Optional holds) and the page-table base
    register, next to the state of the frame allocator. *)
Record vm_state := VM {
  vm_mem : kmem;
  page_tree : option Z;
  ptbr : Z
}.

(** ** Page arithmetic *)

Definition page_floor (address : Z) : Z := u64 (address - address mod pageSize).

Definition page_ceil (address : Z) : Z :=
  if address mod pageSize =? 0 then address
  else if UINT64_MAX - pageSize <? address then address
  else page_floor (u64 (address + pageSize)).

Definition get_page_range (virtual_base length : Z) : PageRange :=
  let first := page_floor virtual_base in
  let last :=
    if u64 (page_floor UINT64_MAX - length) <? virtual_base
    then page_floor UINT64_MAX
    else page_ceil (u64 (virtual_base + length)) in
  MkPageRange first last.

(** The number of pages of a range. *)
Definition num_pages (r : PageRange) : Z := u64 (last_page r - first_page r) / pageSize.

Section Paging.
Context (limine : limine_features) (symbols : linker_symbols).

(** ** The mappings the kernel starts with *)

Definition initial_mappings : list Mapping :=
  [ MkMapping (MkRegion 0x1000 0x100000000) 0x1000 PageFlags.Write;
    MkMapping (MkRegion (hhdm_offset limine) 0x100000000) 0x0 PageFlags.Write;
    MkMapping (MkRegion (kernel_readonly_start symbols)
                 (u64 (kernel_readonly_end symbols - kernel_readonly_start symbols)))
      (physical_base limine) PageFlags.None;
    MkMapping (MkRegion (kernel_rw_start symbols)
                 (u64 (kernel_rw_end symbols - kernel_rw_start symbols)))
      (u64 (physical_base limine + (kernel_readonly_end symbols - kernel_readonly_start symbols)))
      PageFlags.Write ].

Definition non_canonical : MemoryRegion := MkRegion 0x800000000000 0xffff000000000000.

(** The array initialiser: the identity map, the hole, the other mappings. *)
Definition unavailable_virtual_memory_ranges : list MemoryRegion :=
  match from_virtual <$> initial_mappings with
  | identity :: rest => identity :: non_canonical :: rest
  | [] => [non_canonical]
  end.

(** [page_tree->...] *)
Definition with_page_tree {A} (st : vm_state) (f : Z -> outcome A) : outcome A :=
  match page_tree st with
  | None => Undefined "page_tree: dereference of an empty Optional"
  | Some root => f root
  end.

(** ** Mapping a range

    The fuel is the number of pages plus one; the loops take one step per page. *)

Definition add_mapping_step (flags : Z) (s : vm_state * Z * Z) : outcome (vm_state * Z * Z) :=
  let '(st, page, frame) := s in
  with_page_tree st (fun root =>
    k ← map_page_to_frame limine root page frame flags (vm_mem st);
    Done (VM k (page_tree st) (ptbr st), u64 (page + pageSize), u64 (frame + frameSize))).

Definition paging_add_mapping (virtual_base physical_base length flags : Z) (st : vm_state)
    : outcome vm_state :=
  let r := get_page_range virtual_base length in
  s ← while (Z.to_nat (num_pages r) + 2) (fun s : vm_state * Z * Z => snd (fst s) <? last_page r)
        (add_mapping_step flags) (st, first_page r, page_floor physical_base);
  Done (fst (fst s)).

Definition allocate_and_map_step (flags : Z) (s : vm_state * Z) : outcome (vm_state * Z) :=
  let '(st, page) := s in
  a ← allocate_frame limine (vm_mem st);
  let '(frame, k) := a : Z * kmem in
  st ← paging_add_mapping page frame pageSize flags (VM k (page_tree st) (ptbr st));
  Done (st, u64 (page + pageSize)).

Definition paging_allocate_and_map (virtual_base length flags : Z) (st : vm_state)
    : outcome vm_state :=
  let r := get_page_range virtual_base length in
  s ← while (Z.to_nat (num_pages r) + 2) (fun s : vm_state * Z => negb (snd s =? last_page r))
        (allocate_and_map_step flags) (st, first_page r);
  Done (fst s).

Definition paging_get_translation (virtual_address : Z) (st : vm_state) : outcome PageTranslation :=
  with_page_tree st (fun root => get_translation limine (ram (vm_mem st)) root virtual_address).

(** ** paging_init *)

Fixpoint add_mappings (l : list Mapping) (st : vm_state) : outcome vm_state :=
  match l with
  | [] => Done st
  | mp :: l =>
      st ← paging_add_mapping (region_base (from_virtual mp)) (to_physical mp)
             (region_size (from_virtual mp)) (map_flags mp) st;
      add_mappings l st
  end.

Definition add_initial_mappings (st : vm_state) : outcome vm_state :=
  add_mappings initial_mappings st.

Definition paging_init (st : vm_state) : outcome vm_state :=
  a ← allocate_frame limine (vm_mem st);
  let '(pml4_table_frame, k) := a : Z * kmem in
  let virtual_pml4_table_frame := kernel_physical_to_virtual limine pml4_table_frame in
  let m := PageTreeNode_construct limine (ram k) virtual_pml4_table_frame in
  let st := VM (KMem m (free_stack k)) (Some virtual_pml4_table_frame) (ptbr st) in
  st ← add_initial_mappings st;
  let st := VM (vm_mem st) (page_tree st) pml4_table_frame in
  k ← free_limine_bootloader_memory limine (vm_mem st);
  Done (VM k (page_tree st) (ptbr st)).

(** ** paging_get_initial_free_regions

    The array has 16 entries; storing past it is undefined behaviour, which the
    guard lets happen for index 16. *)
Definition free_regions_capacity : Z := 16.

Definition free_region_step (s : list MemoryRegion * Z) (unavailable : MemoryRegion)
    : outcome (list MemoryRegion * Z) :=
  let '(free_regions, base) := s in
  let unavailable_end := u64 (region_base unavailable + region_size unavailable) in
  let i := Z.of_nat (List.length free_regions) in
  if region_base unavailable <=? base then Done (free_regions, Z.max base unavailable_end)
  else if free_regions_capacity <? i then Panic "exceeded number of supported free regions (16)"
  else if i =? free_regions_capacity then Undefined "free_regions: index out of range"
  else Done (free_regions ++ [MkRegion base (region_base unavailable - base)], unavailable_end).

Fixpoint free_regions_loop (l : list MemoryRegion) (s : list MemoryRegion * Z)
    : outcome (list MemoryRegion * Z) :=
  match l with
  | [] => Done s
  | r :: l => s ← free_region_step s r; free_regions_loop l s
  end.

(** The entries of the array that were not stored keep their initial value. *)
Definition paging_get_initial_free_regions : outcome (list MemoryRegion) :=
  s ← free_regions_loop unavailable_virtual_memory_ranges ([], 0x1000);
  Done (fst s ++ replicate (16 - List.length (fst s)) (MkRegion 0 0)).
End Paging.

#[global] Arguments page_floor : simpl never.
#[global] Arguments page_ceil : simpl never.
#[global] Arguments num_pages : simpl never.
#[global] Arguments get_page_range : simpl never.
#[global] Arguments paging_add_mapping : simpl never.

(** ** Page arithmetic: what the ranges are *)
Lemma page_floor_eq a : 0 <= a < 2 ^ 64 -> page_floor a = pageSize * (a / pageSize).
Proof.
  intros Ha. unfold page_floor, pageSize. pose proof (Z.div_mod a 0x1000 ltac:(done)).
  pose proof (Z.mod_pos_bound a 0x1000 ltac:(done)). unwrap. lia.
Qed.

Lemma page_floor_bounds a :
  0 <= a < 2 ^ 64 ->
  page_floor a mod pageSize = 0 /\ page_floor a <= a < page_floor a + pageSize /\
  0 <= page_floor a <= 2 ^ 64 - pageSize.
Proof.
  intros Ha. rewrite page_floor_eq by done. unfold pageSize.
  pose proof (Z.div_mod a 0x1000 ltac:(done)). pose proof (Z.mod_pos_bound a 0x1000 ltac:(done)).
  split; [by rewrite Z.mul_comm, Z_mod_mult|]. lia.
Qed.

Lemma page_ceil_bounds a :
  0 <= a <= 2 ^ 64 - pageSize ->
  page_ceil a mod pageSize = 0 /\ page_ceil a - pageSize < a <= page_ceil a /\
  0 <= page_ceil a <= 2 ^ 64 - pageSize.
Proof.
  unfold page_ceil, UINT64_MAX, pageSize. intros Ha.
  destruct (Z.eqb_spec (a mod 0x1000) 0) as [Hz|Hz]; [split; [done|lia]|].
  destruct (Z.ltb_spec (2 ^ 64 - 1 - 0x1000) a) as [Hov|Hov].
  { exfalso. assert (a = 2 ^ 64 - 0x1000) as -> by lia. done. }
  rewrite (wrap_id 64 (a + 0x1000)) by lia.
  destruct (page_floor_bounds (a + 0x1000)) as (Hm & Hb & Hr); [lia|].
  unfold pageSize in *. split; [done|].
  pose proof (Z.div_mod a 0x1000 ltac:(done)). pose proof (Z.mod_pos_bound a 0x1000 ltac:(done)).
  assert (page_floor (a + 0x1000) <> a + 0x1000); [|lia]. intros Heq. rewrite Heq in Hm.
  apply Hz. rewrite <-Hm. by rewrite <-(Z_mod_plus_full a 1 0x1000).
Qed.

(** A range that does not wrap around the address space. *)
Definition range_ok (virtual_base length : Z) : Prop :=
  0 <= virtual_base < 2 ^ 64 /\ 0 <= length <= 2 ^ 64 - pageSize.

#[export] Instance range_ok_dec vb len : Decision (range_ok vb len).
Proof. unfold range_ok. apply _. Defined.

Lemma get_page_range_bounds vb len :
  range_ok vb len ->
  let r := get_page_range vb len in
  first_page r mod pageSize = 0 /\ last_page r mod pageSize = 0 /\
  0 <= first_page r <= last_page r /\ last_page r <= 2 ^ 64 - pageSize /\
  first_page r = page_floor vb /\
  (vb + len <= 2 ^ 64 - pageSize -> last_page r - pageSize < vb + len <= last_page r) /\
  (2 ^ 64 - pageSize < vb + len -> last_page r = 2 ^ 64 - pageSize).
Proof.
  intros [Hvb Hlen] r. destruct (page_floor_bounds vb Hvb) as (Hfm & Hfb & Hfr).
  subst r. unfold get_page_range. cbn [first_page last_page].
  replace (page_floor UINT64_MAX) with (2 ^ 64 - pageSize) by reflexivity.
  rewrite (wrap_id 64 (2 ^ 64 - pageSize - len)) by (unfold pageSize in *; lia).
  split; [done|]. destruct (Z.ltb_spec (2 ^ 64 - pageSize - len) vb) as [Hov|Hov].
  - split; [done|]. unfold pageSize in *. repeat split; lia.
  - rewrite (wrap_id 64 (vb + len)) by (unfold pageSize in *; lia).
    destruct (page_ceil_bounds (vb + len)) as (Hcm & Hcb & Hcr); [lia|].
    split; [done|]. unfold pageSize in *.
    apply Z.mod_divide in Hfm as [x Hx]; [|done]. apply Z.mod_divide in Hcm as [y Hy]; [|done].
    repeat split; lia.
Qed.

Lemma num_pages_eq vb len :
  range_ok vb len ->
  last_page (get_page_range vb len) =
    first_page (get_page_range vb len) + pageSize * num_pages (get_page_range vb len) /\
  0 <= num_pages (get_page_range vb len) < 2 ^ 52.
Proof.
  intros Hr. destruct (get_page_range_bounds vb len Hr) as (Hf & Hl & Hb & Hmax & _).
  unfold num_pages. set (r := get_page_range vb len) in *. unfold pageSize in *.
  apply Z.mod_divide in Hf as [x Hx]; [|done]. apply Z.mod_divide in Hl as [y Hy]; [|done].
  unwrap. replace (last_page r - first_page r) with ((y - x) * 0x1000) by lia.
  rewrite Z.div_mul by done. lia.
Qed.

(** ** Pages of a range and the tables they need *)

(** How many pages [va]'s page is after [page], in the 48-bit address space. *)
Definition page_offset (page va : Z) : Z := (page_index va - page_index page) mod 2 ^ 36.

Lemma page_index_eq va : page_index va = (va / pageSize) mod 2 ^ 36.
Proof. unfold page_index. by rewrite Z.land_ones, Z.shiftr_div_pow2 by done. Qed.

Lemma page_index_range va : 0 <= page_index va < 2 ^ 36.
Proof. rewrite page_index_eq. by apply Z.mod_pos_bound. Qed.

Lemma page_offset_range page va : 0 <= page_offset page va < 2 ^ 36.
Proof. by apply Z.mod_pos_bound. Qed.

Lemma page_offset_self page va : page_offset page va = 0 <-> page_index va = page_index page.
Proof.
  unfold page_offset. pose proof (page_index_range va). pose proof (page_index_range page).
  split; intros Heq; [|by rewrite Heq, Z.sub_diag].
  apply Z.mod_divide in Heq as [k Hk]; [|done]. assert (k = 0) by lia. lia.
Qed.

Lemma page_offset_next page va :
  page_offset (page + pageSize) va = (page_offset page va - 1) mod 2 ^ 36.
Proof.
  unfold page_offset. rewrite !page_index_eq. unfold pageSize.
  replace (page + 0x1000) with (page + 1 * 0x1000) by lia. rewrite Z.div_add by done.
  rewrite <-!Zminus_mod, Zminus_mod_idemp_l. f_equal. lia.
Qed.

(** The address [i] pages further on has offset [i]. *)
Lemma page_offset_add page i x :
  0 <= i < 2 ^ 36 -> page mod pageSize = 0 -> 0 <= x < pageSize ->
  page_offset page (page + pageSize * i + x) = i.
Proof.
  intros Hi Hp Hx. unfold page_offset. rewrite !page_index_eq. unfold pageSize in *.
  apply Z.mod_divide in Hp as [y ->]; [|done].
  replace (y * 0x1000 + 0x1000 * i + x) with (x + (y + i) * 0x1000) by lia.
  rewrite Z.div_add, (Z.div_small x), Z.div_mul by lia. rewrite <-Zminus_mod.
  replace (0 + (y + i) - y) with i by lia. by apply Z.mod_small.
Qed.

(** The table nodes, the root apart, of [n] consecutive pages. *)
Fixpoint range_prefixes (n : nat) (page : Z) : gset (list Z) :=
  match n with
  | O => ∅
  | S n => prefixes page ∪ range_prefixes n (page + pageSize)
  end.

Lemma elem_of_range_prefixes n page p :
  p ∈ range_prefixes n page <->
  exists i, 0 <= i < Z.of_nat n /\ p ∈ prefixes (page + pageSize * i).
Proof.
  revert page. induction n as [|n IH]; intros page; cbn [range_prefixes].
  { split; [by intros ?%elem_of_empty|]. intros (i & Hi & _). lia. }
  rewrite elem_of_union, IH. unfold pageSize. split.
  - intros [Hp|(i & Hi & Hp)].
    + exists 0. split; [lia|]. by replace (page + 0x1000 * 0) with page by lia.
    + exists (i + 1). split; [lia|]. by replace (page + 0x1000 * (i + 1)) with (page + 0x1000 + 0x1000 * i) by lia.
  - intros (i & Hi & Hp). destruct (decide (i = 0)) as [->|].
    + left. by replace (page + 0x1000 * 0) with page in Hp by lia.
    + right. exists (i - 1). split; [lia|].
      by replace (page + 0x1000 + 0x1000 * (i - 1)) with (page + 0x1000 * i) by lia.
Qed.

Lemma range_table_path n page p : p ∈ range_prefixes n page -> table_path p.
Proof. intros (i & _ & Hp)%elem_of_range_prefixes. by eapply prefixes_table_path. Qed.

(** The tables that [n] consecutive pages need and the processor does not find. *)
Definition missing_tables (m : mem) (root : Z) (n : nat) (page : Z) : gset (list Z) :=
  filter (fun p => table_at m root p = None) (range_prefixes n page).

Lemma missing_tables_eq m root G n page :
  tree_ok m root G -> missing_tables m root n page = range_prefixes n page ∖ dom G.
Proof.
  intros Ht. apply set_eq. intros p. unfold missing_tables.
  rewrite elem_of_filter, elem_of_difference, not_elem_of_dom.
  assert (He : p ∈ range_prefixes n page -> table_at m root p = G !! p).
  { intros Hp. eapply table_at_eq; [done|]. by eapply range_table_path. }
  split; [intros [H1 H2]; rewrite <-He by done|intros [H1 H2]; rewrite He by done]; done.
Qed.

(** The address bits below level [d]. *)
Abbreviation level_shift d := (48 - 9 * Z.of_nat d).

Lemma path_level va d :
  (d <= 3)%nat -> path va d = path (2 ^ level_shift d * (va / 2 ^ level_shift d)) d.
Proof.
  intros Hd. unfold path. apply list_fmap_ext. intros i k Hk%lookup_seq.
  destruct Hk as [-> Hk]. unfold table_index. f_equal.
  assert (0 <= level_shift d <= 39 - 9 * Z.of_nat (0 + i)) by lia.
  replace (39 - 9 * Z.of_nat (0 + i))
    with (level_shift d + (39 - 9 * Z.of_nat (0 + i) - level_shift d)) by lia.
  rewrite <-!Z.shiftr_shiftr by lia. f_equal.
  rewrite !Z.shiftr_div_pow2 by lia. symmetry. rewrite (Z.mul_comm (2 ^ _)).
  apply Z.div_mul, Z.pow_nonzero; lia.
Qed.

(** At most this many nodes at level [d], for [n] consecutive pages. *)
Definition level_tables (n : Z) (d : nat) : Z := pageSize * (n - 2) / 2 ^ level_shift d + 2.

(** An upper bound on the tables that mapping [n] consecutive pages can need:
    one page table per 2 MiB, one directory per 1 GiB, one directory-pointer
    table per 512 GiB, and partial ones at the ends. *)
Definition tables_for (n : Z) : Z := level_tables n 1 + level_tables n 2 + level_tables n 3.

Lemma level_width d : (d <= 3)%nat -> exists k, 0 < k /\ 2 ^ level_shift d = 0x1000 * (512 * k).
Proof.
  intros Hd. exists (2 ^ (27 - 9 * Z.of_nat d)). split; [apply Z.pow_pos_nonneg; lia|].
  change 0x1000 with (2 ^ 12). change 512 with (2 ^ 9). rewrite <-!Z.pow_add_r by lia. f_equal. lia.
Qed.

Lemma level_tables_nonneg n d : (d <= 3)%nat -> 0 <= n -> 0 <= level_tables n d.
Proof.
  intros Hd Hn. unfold level_tables, pageSize. destruct (level_width d Hd) as (k & Hk & ->).
  assert (-1 <= 0x1000 * (n - 2) / (0x1000 * (512 * k))); [|lia]. apply Z.div_le_lower_bound; lia.
Qed.

Definition level_nodes (page n : Z) (d : nat) : list (list Z) :=
  (fun t => path (2 ^ level_shift d * (page / 2 ^ level_shift d + t)) d) <$>
    seqZ 0 (level_tables n d).

Lemma level_nodes_covers page n d i :
  page mod pageSize = 0 -> (d <= 3)%nat -> 0 <= i < n ->
  path (page + pageSize * i) d ∈ level_nodes page n d.
Proof.
  intros Hp Hd Hi. unfold level_nodes, level_tables. rewrite path_level by done.
  destruct (level_width d Hd) as (k & Hk & ->). set (w := 0x1000 * (512 * k)).
  unfold pageSize in *. assert (0 < w) by lia.
  apply list_elem_of_fmap. exists ((page + 0x1000 * i) / w - page / w).
  split; [f_equal; f_equal; lia|]. apply elem_of_seqZ.
  assert (page / w <= (page + 0x1000 * i) / w) by (apply Z.div_le_mono; lia).
  assert ((page + 0x1000 * i) / w <= page / w + (0x1000 * (n - 2) / w + 1)); [|lia].
  apply Z.lt_succ_r, Z.div_lt_upper_bound; [done|].
  pose proof (Z.div_mod page w ltac:(lia)) as Hdm. pose proof (Z.mod_pos_bound page w ltac:(lia)).
  pose proof (Z.div_mod (0x1000 * (n - 2)) w ltac:(lia)).
  pose proof (Z.mod_pos_bound (0x1000 * (n - 2)) w ltac:(lia)).
  apply Z.mod_divide in Hp as [y Hy]; [|done].
  assert (page mod w <= w - 0x1000); [|lia].
  assert (page mod w = 0x1000 * (y - 512 * k * (page / w))) as Hx by lia.
  assert (y - 512 * k * (page / w) < 512 * k) by lia. lia.
Qed.

Lemma range_prefixes_size n page :
  page mod pageSize = 0 -> Z.of_nat (size (range_prefixes n page)) <= tables_for (Z.of_nat n).
Proof.
  intros Hal. set (N := Z.of_nat n).
  assert (Hsub : range_prefixes n page ⊆
    list_to_set (level_nodes page N 1 ++ level_nodes page N 2 ++ level_nodes page N 3)).
  { intros p (i & Hi & Hp)%elem_of_range_prefixes. apply elem_of_list_to_set.
    unfold prefixes in Hp. rewrite elem_of_list_to_set, list_elem_of_fmap in Hp.
    destruct Hp as (k & -> & Hk%elem_of_seq). rewrite !elem_of_app.
    assert (k = 1 \/ k = 2 \/ k = 3)%nat as [-> |[-> | ->]] by lia.
    - left. apply level_nodes_covers; [done|lia|done].
    - right; left. apply level_nodes_covers; [done|lia|done].
    - right; right. apply level_nodes_covers; [done|lia|done]. }
  apply subseteq_size in Hsub.
  pose proof (size_list_to_set_le (level_nodes page N 1 ++ level_nodes page N 2 ++ level_nodes page N 3)).
  unfold tables_for. rewrite !length_app in *. unfold level_nodes in *.
  rewrite !length_fmap, !length_seqZ in *.
  pose proof (level_tables_nonneg N 1 ltac:(lia) ltac:(lia)).
  pose proof (level_tables_nonneg N 2 ltac:(lia) ltac:(lia)).
  pose proof (level_tables_nonneg N 3 ltac:(lia) ltac:(lia)). lia.
Qed.

(** Enough free frames for the tables of a range. *)
Lemma range_room (G : gmap (list Z) Z) n page free :
  page mod pageSize = 0 -> tables_for (Z.of_nat n) <= Z.of_nat free ->
  (size (range_prefixes n page ∪ dom G) <= size G + free)%nat.
Proof.
  intros Hp Hf. pose proof (range_prefixes_size n page Hp).
  rewrite size_union_alt, <-(size_dom G).
  assert (size (dom G ∖ range_prefixes n page) <= size (dom G))%nat
    by (apply subseteq_size; pure_set). lia.
Qed.

(** ** Mapping a range: the invariant of the loops *)
Section MapRange.
Context (limine : limine_features) (Hhhdm : hhdm_ok limine).
Abbreviation virt f := (kernel_physical_to_virtual limine f).

(** [st'] is [st] with [n] pages from [page] on mapped to the frames from
    [frame] on, at the cost of the frames [used] for new tables. *)
Record mapped_range (root : Z) (st : kmem) (G : gmap (list Z) Z) (page frame fl : Z) (n : nat)
    (st' : kmem) (G' : gmap (list Z) Z) (used : list Z) : Prop := {
  mr_sys : sys_ok limine st' root G';
  mr_sub : G ⊆ G';
  mr_dom : dom G' = range_prefixes n page ∪ dom G;
  mr_grows : grows G G' used;
  mr_free : free_frames limine st = free_frames limine st' ++ used;
  mr_storage : storage st' = storage st;
  mr_leaf va : leaf_entry (ram st') G' va =
    if page_offset page va <? Z.of_nat n
    then pte (frame + pageSize * page_offset page va) (leaf_flags fl)
    else leaf_entry (ram st) G va;
  mr_write i : 0 <= i < Z.of_nat n -> path_writable (ram st') G' (page + pageSize * i) fl 4;
  mr_kept page' fl' : path_writable (ram st) G page' fl' 4 ->
    Z.testbit fl' 1 = Z.testbit fl 1 \/
    (forall i, 0 <= i < Z.of_nat n -> table_index page' 0 <> table_index (page + pageSize * i) 0) ->
    path_writable (ram st') G' page' fl' 4;
  mr_outside : outside_tree G' (ram st) (ram st')
}.

Lemma mapped_range_nil root st G page frame fl :
  sys_ok limine st root G -> mapped_range root st G page frame fl 0 st G [].
Proof.
  intros Hsys. split; try done.
  - simpl. by rewrite union_empty_l_L.
  - apply grows_nil.
  - by rewrite app_nil_r.
  - intros va. pose proof (page_offset_range page va). by rewrite (proj2 (Z.ltb_ge _ _)) by lia.
  - intros i Hi. lia.
Qed.

(** The pages of a range do not alias one another. *)
Lemma range_page_distinct page i j :
  page mod pageSize = 0 -> 0 <= i < 2 ^ 36 -> 0 <= j < 2 ^ 36 ->
  page_index (page + pageSize * i) = page_index (page + pageSize * j) -> i = j.
Proof.
  intros Hp Hi Hj Heq.
  rewrite <-(page_offset_add page i 0), <-(page_offset_add page j 0) by (done || unfold pageSize; lia).
  unfold page_offset. by rewrite !Z.add_0_r, Heq.
Qed.

Lemma mapped_range_cons root st G page frame fl n st1 G1 used1 st' G' used :
  Z.of_nat n < 2 ^ 36 ->
  sys_ok limine st1 root G1 -> G ⊆ G1 -> dom G1 = prefixes page ∪ dom G ->
  grows G G1 used1 ->
  free_frames limine st = free_frames limine st1 ++ used1 -> storage st1 = storage st ->
  (forall va, leaf_entry (ram st1) G1 va =
     if decide (page_index va = page_index page) then pte frame (leaf_flags fl)
     else leaf_entry (ram st) G va) ->
  path_writable (ram st1) G1 page fl 4 -> entries_kept (ram st) (ram st1) G page 4 ->
  outside_tree G1 (ram st) (ram st1) ->
  mapped_range root st1 G1 (page + pageSize) (frame + pageSize) fl n st' G' used ->
  mapped_range root st G page frame fl (S n) st' G' (used ++ used1).
Proof.
  intros Hn Hsys1 HG1 Hdom1 Hsz1 Hfr1 Hst1 Hleaf1 Hpw1 Hk1 Hout1 [Hsys HG Hdom Hsz Hfr Hst Hleaf Hpw Hk Hout].
  assert (Hidx : forall i, page + pageSize + pageSize * i = page + pageSize * (i + 1)) by (intros; lia).
  split; try done.
  - by etrans.
  - rewrite Hdom, Hdom1. cbn [range_prefixes].
    rewrite union_assoc_L, (union_comm_L (range_prefixes n _)). done.
  - by eapply grows_trans.
  - by rewrite Hfr1, Hfr, app_assoc.
  - congruence.
  - intros va. rewrite Hleaf, Hleaf1, page_offset_next.
    pose proof (page_offset_range page va) as Hr.
    destruct (decide (page_offset page va = 0)) as [Hz|Hz].
    + rewrite Hz. change ((0 - 1) mod 2 ^ 36) with (2 ^ 36 - 1).
      rewrite (proj2 (Z.ltb_ge _ _)), (proj2 (Z.ltb_lt _ _)) by lia.
      rewrite decide_True by (by apply page_offset_self). f_equal. unfold pageSize. lia.
    + rewrite (Z.mod_small (page_offset page va - 1)) by lia.
      rewrite decide_False by (by intros H%page_offset_self).
      rewrite Nat2Z.inj_succ.
      destruct (Z.ltb_spec (page_offset page va - 1) (Z.of_nat n)),
        (Z.ltb_spec (page_offset page va) (Z.succ (Z.of_nat n))); try lia.
      f_equal. lia.
  - intros i Hi. destruct (decide (i = 0)) as [->|].
    + rewrite Z.mul_0_r, Z.add_0_r. apply Hk; [done|by left].
    + replace (page + pageSize * i) with (page + pageSize + pageSize * (i - 1)) by lia.
      apply Hpw. lia.
  - intros page' fl' Hp' Hne. apply Hk.
    + eapply path_writable_kept; [exact Hp'|done|exact Hk1|exact Hpw1|].
      destruct Hne as [Hne|Hne]; [by left|right].
      specialize (Hne 0 ltac:(lia)). by rewrite Z.mul_0_r, Z.add_0_r in Hne.
    + destruct Hne as [Hne|Hne]; [by left|right]. intros i Hi. rewrite Hidx. apply Hne. lia.
  - exact (outside_tree_trans G1 G' _ _ _ HG Hout1 Hout).
Qed.

Lemma add_mapping_step_eq fl k r pt page frame k1 :
  map_page_to_frame limine r page frame fl k = Done k1 ->
  add_mapping_step limine fl (VM k (Some r) pt, page, frame) =
    Done (VM k1 (Some r) pt, u64 (page + pageSize), u64 (frame + frameSize)).
Proof. intros Hm. unfold add_mapping_step, with_page_tree. simpl. by rewrite Hm. Qed.

Lemma map_range_loop n fuel root st pt G page frame fl last :
  sys_ok limine (vm_mem st) root G -> page_tree st = Some (virt root) -> ptbr st = pt ->
  page_flags fl -> page mod pageSize = 0 -> 0 <= page -> last = page + pageSize * Z.of_nat n ->
  last <= 2 ^ 64 - pageSize -> Z.of_nat n <= 2 ^ 36 ->
  0 <= frame -> frame mod pageSize = 0 -> frame + pageSize * Z.of_nat n <= 2 ^ 52 ->
  (size (range_prefixes n page ∪ dom G) <=
    size G + List.length (free_frames limine (vm_mem st)))%nat ->
  (n < fuel)%nat ->
  exists k' G' used frame',
    while fuel (fun s : vm_state * Z * Z => snd (fst s) <? last) (add_mapping_step limine fl)
      (st, page, frame) = Done (VM k' (Some (virt root)) pt, last, frame') /\
    mapped_range root (vm_mem st) G page frame fl n k' G' used.
Proof.
  revert fuel st G page frame. induction n as [|n IH];
    intros fuel [k ? ?] G page frame Hsys Hpt Hp Hfl Hpm Hp0 -> Hmax Hn Hf0 Hfm Hf52 Hroom Hfuel;
    simpl in Hpt, Hp, Hsys, Hroom; subst; (destruct fuel as [|fuel]; [lia|]); rewrite while_unfold; simpl fst; simpl snd.
  { rewrite (proj2 (Z.ltb_ge _ _)) by lia. exists k, G, [], frame.
    split; [by rewrite Z.mul_0_r, Z.add_0_r|]. by apply mapped_range_nil. }
  rewrite (proj2 (Z.ltb_lt _ _)) by (unfold pageSize; lia).
  unfold pageSize in *.
  assert (Hpa : page_aligned frame) by (split; [lia|done]).
  assert (Hroom1 : (size (prefixes page ∪ dom G) <= size G + List.length (free_frames limine k))%nat).
  { etrans; [|exact Hroom]. apply subseteq_size. pure_set. }
  destruct (map_page_spec limine Hhhdm k root G page frame fl Hsys Hfl Hpa Hroom1)
    as (k1 & G1 & used1 & Hmap & Hsys1 & HG1 & Hdom1 & Hsz1 & Hfr1 & Hst1 & Hleaf1 & Hpw1 & Hk1 & Hout1).
  rewrite (add_mapping_step_eq _ _ _ _ _ _ _ Hmap), bind_done.
  unfold pageSize, frameSize. unwrap.
  destruct (IH fuel (VM k1 (Some (virt root)) pt) G1 (page + 0x1000) (frame + 0x1000))
    as (k' & G' & used & frame' & Hw & Hmr); try done; try lia.
  - by rewrite <-Z.add_mod_idemp_l, Hpm.
  - by rewrite <-Z.add_mod_idemp_l, Hfm.
  - simpl vm_mem. rewrite Hfr1, length_app in Hroom. pose proof (proj1 Hsz1).
    assert (size (range_prefixes n (page + 0x1000) ∪ dom G1) <=
      size (prefixes page ∪ range_prefixes n (page + 0x1000) ∪ dom G))%nat; [|lia].
    apply subseteq_size. rewrite Hdom1. pure_set.
  - exists k', G', (used ++ used1), frame'. split.
    + exact Hw.
    + eapply mapped_range_cons; try done. lia.
Qed.

(** What [paging_add_mapping] does to the tree. *)
Lemma paging_add_mapping_spec root st pt G vb pb len fl :
  sys_ok limine (vm_mem st) root G -> page_tree st = Some (virt root) -> ptbr st = pt ->
  page_flags fl -> range_ok vb len ->
  let n := num_pages (get_page_range vb len) in
  n <= 2 ^ 36 -> 0 <= pb < 2 ^ 64 -> page_floor pb + pageSize * n <= 2 ^ 52 ->
  (size (range_prefixes (Z.to_nat n) (page_floor vb) ∪ dom G) <=
    size G + List.length (free_frames limine (vm_mem st)))%nat ->
  exists k' G' used, paging_add_mapping limine vb pb len fl st = Done (VM k' (Some (virt root)) pt) /\
    mapped_range root (vm_mem st) G (page_floor vb) (page_floor pb) fl (Z.to_nat n) k' G' used.
Proof.
  intros Hsys Hpt Hp Hfl Hr n Hn Hpb H52 Hroom.
  destruct (get_page_range_bounds vb len Hr) as (Hfm & _ & Hb & Hmax & Hfirst & _).
  destruct (num_pages_eq vb len Hr) as [Hlast Hnr]. fold n in Hlast, Hnr.
  destruct (page_floor_bounds pb Hpb) as (Hpm & _ & Hp0). rewrite Hfirst in *.
  destruct (map_range_loop (Z.to_nat n) (Z.to_nat n + 2) root st pt G (page_floor vb) (page_floor pb) fl
    (last_page (get_page_range vb len))) as (k' & G' & used & frame' & Hw & Hmr);
    rewrite ?Z2Nat.id by lia; try done; try lia.
  exists k', G', used. split; [|done]. unfold paging_add_mapping. fold n. rewrite Hfirst, Hw. done.
Qed.

(** The nodes a range needs, counted against the nodes there were. *)
Lemma range_tables G G' n page used :
  page mod pageSize = 0 -> dom G' = range_prefixes n page ∪ dom G -> grows G G' used ->
  Z.of_nat (List.length used) <= tables_for (Z.of_nat n).
Proof.
  intros Hp Hdom [Hsize _]. pose proof (range_room G n page (Z.to_nat (tables_for (Z.of_nat n))) Hp) as Hr.
  pose proof (range_prefixes_size n page Hp). rewrite <-Hdom, size_dom, Hsize in Hr. lia.
Qed.

(** Each missing table costs one frame. *)
Lemma range_missing m root G G' n page used :
  tree_ok m root G -> dom G' = range_prefixes n page ∪ dom G -> grows G G' used ->
  List.length used = size (missing_tables m root n page).
Proof.
  intros Ht Hdom [Hsize _]. rewrite (missing_tables_eq m root G n page Ht).
  pose proof (f_equal size Hdom) as Hd. rewrite size_dom, union_comm_L, size_union_alt, size_dom in Hd.
  lia.
Qed.

(** Tables stay where they are; a new one is in a frame of [used]. *)
Lemma tables_kept m m' root G G' p f :
  tree_ok m root G -> tree_ok m' root G' -> G ⊆ G' -> table_path p ->
  table_at m root p = Some f -> table_at m' root p = Some f.
Proof.
  intros Ht Ht' HG Hp. rewrite (table_at_eq m root G Ht p Hp), (table_at_eq m' root G' Ht' p Hp).
  intros Hf. by eapply lookup_weaken.
Qed.

Lemma tables_new m m' root G G' used f :
  tree_ok m root G -> tree_ok m' root G' -> grows G G' used -> is_table m' root f ->
  is_table m root f \/ f ∈ used.
Proof.
  intros Ht Ht' [_ Hg] (p & Hp & Hf). rewrite (table_at_eq m' root G' Ht' p Hp) in Hf.
  destruct (Hg p f Hf) as [Hf'|]; [left|by right].
  exists p. by rewrite (table_at_eq m root G Ht p Hp).
Qed.

Lemma table_not_free st root G f :
  sys_ok limine st root G -> is_table (ram st) root f -> f ∉ free_frames limine st.
Proof.
  intros Hsys (p & Hp & Hf). rewrite (table_at_eq _ _ G (sys_tree _ _ _ _ Hsys) p Hp) in Hf.
  by eapply sys_fresh.
Qed.

Lemma mapped_range_used root st G page frame fl n st' G' used :
  page mod pageSize = 0 -> mapped_range root st G page frame fl n st' G' used ->
  Z.of_nat (List.length used) <= tables_for (Z.of_nat n).
Proof. intros Hp Hmr. by eapply range_tables; [|apply Hmr|apply Hmr]. Qed.

(** ** A list of mappings *)
Definition map_base (mp : Mapping) : Z := page_floor (region_base (from_virtual mp)).
Definition map_pages (mp : Mapping) : Z :=
  num_pages (get_page_range (region_base (from_virtual mp)) (region_size (from_virtual mp))).

Record mapping_ok (mp : Mapping) : Prop := {
  mo_range : range_ok (region_base (from_virtual mp)) (region_size (from_virtual mp));
  mo_pages : map_pages mp <= 2 ^ 36;
  mo_phys : 0 <= to_physical mp < 2 ^ 64;
  mo_frames : page_floor (to_physical mp) + pageSize * map_pages mp <= 2 ^ 52;
  mo_flags : page_flags (map_flags mp)
}.

(** The mapping of a list that decides an address: the last one that covers it. *)
Definition covers (mp : Mapping) (va : Z) : bool := page_offset (map_base mp) va <? map_pages mp.

Fixpoint last_mapping (l : list Mapping) (va : Z) : option (Z * Z) :=
  match l with
  | [] => None
  | mp :: l =>
      match last_mapping l va with
      | Some r => Some r
      | None =>
          if covers mp va
          then Some (page_floor (to_physical mp) + pageSize * page_offset (map_base mp) va, map_flags mp)
          else None
      end
  end.

Definition tables_for_all (l : list Mapping) : Z :=
  foldr (fun mp n => tables_for (map_pages mp) + n) 0 l.

Lemma tables_for_nonneg n : 0 <= n -> 0 <= tables_for n.
Proof.
  intros Hn. unfold tables_for. pose proof (level_tables_nonneg n 1 ltac:(lia) Hn).
  pose proof (level_tables_nonneg n 2 ltac:(lia) Hn).
  pose proof (level_tables_nonneg n 3 ltac:(lia) Hn). lia.
Qed.

Lemma map_pages_nonneg mp : mapping_ok mp -> 0 <= map_pages mp.
Proof. intros Hmp. apply (num_pages_eq _ _ (mo_range _ Hmp)). Qed.

Lemma tables_for_all_cons mp l :
  tables_for_all (mp :: l) = tables_for (map_pages mp) + tables_for_all l.
Proof. done. Qed.

Lemma tables_for_all_nonneg l : Forall mapping_ok l -> 0 <= tables_for_all l.
Proof.
  induction 1 as [|mp l Hmp _ IH]; [done|].
  rewrite tables_for_all_cons. pose proof (tables_for_nonneg _ (map_pages_nonneg _ Hmp)). lia.
Qed.

(** The pages of [mp] do not share a top-level entry with the pages of [mp'],
    or ask for the same write permission. *)
Definition compatible (mp mp' : Mapping) : Prop :=
  Z.testbit (map_flags mp) 1 = Z.testbit (map_flags mp') 1 \/
  forall i j, 0 <= i < map_pages mp -> 0 <= j < map_pages mp' ->
    table_index (map_base mp + pageSize * i) 0 <> table_index (map_base mp' + pageSize * j) 0.

Definition pages_writable (m : mem) (G : gmap (list Z) Z) (mp : Mapping) : Prop :=
  forall i, 0 <= i < map_pages mp ->
    path_writable m G (map_base mp + pageSize * i) (map_flags mp) 4.

Lemma pages_writable_kept root st G mp mp' st' G' used :
  pages_writable (ram st) G mp -> compatible mp mp' -> 0 <= map_pages mp' ->
  mapped_range root st G (map_base mp') (page_floor (to_physical mp')) (map_flags mp')
    (Z.to_nat (map_pages mp')) st' G' used ->
  pages_writable (ram st') G' mp.
Proof.
  intros Hpw Hc H0 Hmr i Hi. apply (mr_kept _ _ _ _ _ _ _ _ _ _ Hmr); [by apply Hpw|].
  destruct Hc as [Hc|Hc]; [by left|right]. intros j Hj. rewrite Z2Nat.id in Hj by done. by apply Hc.
Qed.

Lemma add_mappings_spec l : forall root st pt G,
  sys_ok limine (vm_mem st) root G -> page_tree st = Some (virt root) -> ptbr st = pt ->
  Forall mapping_ok l ->
  tables_for_all l <= Z.of_nat (List.length (free_frames limine (vm_mem st))) ->
  exists k' G' used, add_mappings limine l st = Done (VM k' (Some (virt root)) pt) /\
    sys_ok limine k' root G' /\ grows G G' used /\
    free_frames limine (vm_mem st) = free_frames limine k' ++ used /\
    Z.of_nat (List.length used) <= tables_for_all l /\ storage k' = storage (vm_mem st) /\
    (forall va, leaf_entry (ram k') G' va =
       match last_mapping l va with
       | Some (frame, fl) => pte frame (leaf_flags fl)
       | None => leaf_entry (ram (vm_mem st)) G va
       end) /\
    (forall l1 mp l2, l = l1 ++ mp :: l2 -> Forall (compatible mp) l2 ->
       pages_writable (ram k') G' mp) /\
    (forall mp, pages_writable (ram (vm_mem st)) G mp -> Forall (compatible mp) l ->
       pages_writable (ram k') G' mp) /\
    G ⊆ G' /\ outside_tree G' (ram (vm_mem st)) (ram k').
Proof.
  induction l as [|mp l IH]; intros root st pt G Hsys Hpt Hp Hl Hroom.
  { exists (vm_mem st), G, []. rewrite app_nil_r. destruct st; simpl in *; subst.
    split_and!; try done; [apply grows_nil|]. by intros [|] ? ? ?. }
  apply Forall_cons in Hl as [Hmp Hl]. rewrite tables_for_all_cons in Hroom.
  pose proof (map_pages_nonneg _ Hmp) as H0. pose proof (tables_for_nonneg _ H0).
  pose proof (tables_for_all_nonneg _ Hl). destruct (Hmp) as [Hr Hn Hpb H52 Hfl].
  destruct (page_floor_bounds _ (proj1 Hr)) as (Hvm & _).
  destruct (paging_add_mapping_spec root st pt G (region_base (from_virtual mp)) (to_physical mp)
    (region_size (from_virtual mp)) (map_flags mp)) as (k1 & G1 & used1 & Hadd & Hmr); try done.
  { apply range_room; [done|]. fold (map_pages mp). rewrite Z2Nat.id by done. lia. }
  fold (map_pages mp) (map_base mp) in Hmr. pose proof (mapped_range_used _ _ _ _ _ _ _ _ _ _ Hvm Hmr) as Hu.
  rewrite Z2Nat.id in Hu by done. pose proof (mr_free _ _ _ _ _ _ _ _ _ _ Hmr) as Hfr1.
  destruct (IH root (VM k1 (Some (virt root)) pt) pt G1)
    as (k' & G' & used & Hl' & Hsys' & Hgr & Hfr & Hu' & Hst & Hleaf & Hpw & Hkeep & HG & Hout);
    try eassumption; try reflexivity.
  { apply Hmr. } { simpl. rewrite Hfr1, length_app in Hroom. lia. }
  exists k', G', (used ++ used1). simpl vm_mem in *. split; [|split; [done|split; [|split_and!]]]; try done.
  - cbn [add_mappings]. by rewrite Hadd, bind_done, Hl'.
  - eapply grows_trans; [apply Hmr|done].
  - by rewrite Hfr1, Hfr, app_assoc.
  - rewrite length_app. rewrite tables_for_all_cons. lia.
  - rewrite Hst. apply Hmr.
  - intros va. rewrite Hleaf. cbn [last_mapping]. destruct (last_mapping l va) as [[f fl]|]; [done|].
    rewrite (mr_leaf _ _ _ _ _ _ _ _ _ _ Hmr). unfold covers. rewrite Z2Nat.id by done.
    by destruct (_ <? _).
  - intros [|mp1 l1] mp2 l2 [= <- ->] Hc; [|by eapply Hpw].
    apply Hkeep; [|done]. intros i Hi. apply (mr_write _ _ _ _ _ _ _ _ _ _ Hmr).
    by rewrite Z2Nat.id.
  - intros mp' Hw [Hc Hcl]%Forall_cons. apply Hkeep; [|done]. by eapply pages_writable_kept.
  - etrans; [apply Hmr|done].
  - eapply outside_tree_trans; [exact HG|apply Hmr|exact Hout].
Qed.

(** ** Allocating frames for a range *)
Lemma sys_alloc_frame st root G l f :
  sys_ok limine st root G -> free_frames limine st = l ++ [f] ->
  exists st1, allocate_frame limine st = Done (f, st1) /\ ram st1 = ram st /\
    storage st1 = storage st /\ free_frames limine st1 = l /\ sys_ok limine st1 root G /\
    frame_ok f /\ (f ∉ l) /\ forall p, G !! p <> Some f.
Proof.
  intros Hsys Hf. destruct (allocate_frame_spec _ _ _ _ (sys_alloc _ _ _ _ Hsys) Hf)
    as (st1 & Ha & Hram & Hl & Hok & Hst).
  assert (Hin : f ∈ free_frames limine st) by (rewrite Hf; set_solver).
  pose proof (sys_nodup _ _ _ _ Hsys) as Hnd. rewrite Hf in Hnd. apply NoDup_app in Hnd as (Hnd & Hfl & _).
  exists st1. split; [done|]. split; [done|]. split; [done|]. split; [done|]. split.
  - split; rewrite ?Hl, ?Hram; try apply Hsys; try done.
    + pose proof (sys_free _ _ _ _ Hsys) as Hff. rewrite Hf in Hff. by apply Forall_app in Hff as [? _].
    + intros p g Hg Hgl. eapply (sys_fresh _ _ _ _ Hsys); [exact Hg|]. rewrite Hf. set_solver.
    + intros g a Hg Ha' Hs. rewrite (in_storage_eq st st1 a) in Hs by done.
      eapply (sys_apart _ _ _ _ Hsys g a); [|done|done].
      destruct Hg as [Hg|Hg]; [left; rewrite Hf; set_solver|by right].
  - split; [by eapply Forall_forall; [apply Hsys|]|]. split.
    + intros Hin'. by apply (Hfl f Hin'), list_elem_of_singleton.
    + intros p Hp. by apply (sys_fresh _ _ _ _ Hsys p f Hp).
Qed.

(** One page at an aligned address is exactly one page. *)
Lemma one_page page :
  page mod pageSize = 0 -> 0 <= page -> page + pageSize <= 2 ^ 64 - pageSize ->
  range_ok page pageSize /\ page_floor page = page /\ num_pages (get_page_range page pageSize) = 1.
Proof.
  intros Hp H0 Hmax. assert (Hr : range_ok page pageSize) by (unfold range_ok, pageSize in *; lia).
  split; [done|]. destruct (get_page_range_bounds page pageSize Hr) as (_ & _ & _ & _ & Hf & Hl & _).
  destruct (num_pages_eq page pageSize Hr) as [Hn _]. specialize (Hl Hmax).
  assert (Hfl : page_floor page = page).
  { rewrite page_floor_eq by (unfold pageSize in *; lia). apply Z.mod_divide in Hp as [y ->]; [|done].
    rewrite Z.div_mul by done. lia. }
  split; [done|]. rewrite Hf, Hfl in Hn. unfold pageSize in *. lia.
Qed.

(** [st'] is [st] with the frames [fs] behind the pages from [page] on. *)
Record allocated_range (root : Z) (st : kmem) (G : gmap (list Z) Z) (page fl : Z) (fs : list Z)
    (st' : kmem) (G' : gmap (list Z) Z) (tables : list Z) : Prop := {
  ar_sys : sys_ok limine st' root G';
  ar_sub : G ⊆ G';
  ar_free : exists used : list Z,
    free_frames limine st = free_frames limine st' ++ used /\ used ≡ₚ tables ++ fs;
  ar_dom : dom G' = range_prefixes (List.length fs) page ∪ dom G;
  ar_grows : grows G G' tables;
  ar_storage : storage st' = storage st;
  ar_leaf va : leaf_entry (ram st') G' va =
    match fs !! Z.to_nat (page_offset page va) with
    | Some f => pte f (leaf_flags fl)
    | None => leaf_entry (ram st) G va
    end;
  ar_write i : 0 <= i < Z.of_nat (List.length fs) ->
    path_writable (ram st') G' (page + pageSize * i) fl 4;
  ar_kept page' fl' : path_writable (ram st) G page' fl' 4 -> Z.testbit fl' 1 = Z.testbit fl 1 ->
    path_writable (ram st') G' page' fl' 4;
  ar_outside : outside_tree G' (ram st) (ram st')
}.

Lemma allocated_range_cons root st G page fl f st1 st2 G2 used l st' G' fs tables :
  Z.of_nat (List.length fs) < 2 ^ 36 ->
  free_frames limine st = l ++ [f] -> ram st1 = ram st -> storage st1 = storage st ->
  free_frames limine st1 = l ->
  mapped_range root st1 G page f fl 1 st2 G2 used ->
  allocated_range root st2 G2 (page + pageSize) fl fs st' G' tables ->
  allocated_range root st G page fl (f :: fs) st' G' (tables ++ used).
Proof.
  intros Hlen Hf Hram Hst Hl Hmr [Hsys HG Hfree Hdom Hgr Hst' Hleaf Hw Hk Hout].
  destruct Hmr as [_ HG2 Hdom2 Hgr2 Hfr2 Hst2 Hleaf2 Hw2 Hk2 Hout2]. split; try done.
  - by etrans.
  - destruct Hfree as (u & Hfree & Hu). exists (u ++ used ++ [f]). split.
    + by rewrite Hf, <-Hl, Hfr2, Hfree, <-!app_assoc.
    + rewrite Hu, <-!app_assoc. apply Permutation_app_head.
      rewrite (Permutation_app_comm fs), <-app_assoc. by apply Permutation_app_head.
  - rewrite Hdom, Hdom2. cbn [List.length range_prefixes].
    rewrite union_assoc_L, (union_comm_L (range_prefixes _ _)). by rewrite union_empty_r_L.
  - by eapply grows_trans.
  - congruence.
  - intros va. rewrite Hleaf, page_offset_next, Hleaf2, Hram. pose proof (page_offset_range page va).
    destruct (decide (page_offset page va = 0)) as [Hz|Hz].
    + rewrite Hz. simpl. rewrite lookup_ge_None_2; [|change ((0 - 1) mod 2 ^ 36) with (2 ^ 36 - 1); lia].
      f_equal. unfold pageSize. lia.
    + rewrite (Z.mod_small (page_offset page va - 1)) by lia.
      replace (Z.to_nat (page_offset page va)) with (S (Z.to_nat (page_offset page va - 1))) by lia.
      simpl. rewrite (proj2 (Z.ltb_ge _ _)) by lia. done.
  - intros i Hi. simpl in Hi. destruct (decide (i = 0)) as [->|].
    + apply Hk; [|done]. apply Hw2. lia.
    + replace (page + pageSize * i) with (page + pageSize + pageSize * (i - 1)) by lia. apply Hw. lia.
  - intros page' fl' Hp Hb. apply Hk; [|done]. apply Hk2; [by rewrite Hram|by left].
  - rewrite <-Hram. by eapply outside_tree_trans.
Qed.

Lemma allocated_range_nil root st G page fl :
  sys_ok limine st root G -> allocated_range root st G page fl [] st G [].
Proof.
  intros Hsys. split; try done; [exists []; by rewrite app_nil_r|simpl; pure_set|apply grows_nil|].
  intros i Hi. simpl in Hi. lia.
Qed.

Lemma allocated_range_used root st G page fl fs st' G' tables :
  page mod pageSize = 0 -> allocated_range root st G page fl fs st' G' tables ->
  Z.of_nat (List.length tables) <= tables_for (Z.of_nat (List.length fs)).
Proof. intros Hp Har. by eapply range_tables; [|apply Har|apply Har]. Qed.

Lemma allocate_and_map_step_eq fl k r pt page f k1 st2 :
  allocate_frame limine k = Done (f, k1) ->
  paging_add_mapping limine page f pageSize fl (VM k1 r pt) = Done st2 ->
  allocate_and_map_step limine fl (VM k r pt, page) = Done (st2, u64 (page + pageSize)).
Proof. intros Ha Hm. unfold allocate_and_map_step. cbn [vm_mem page_tree ptbr].
  by rewrite Ha, bind_done, Hm. Qed.

Lemma page_floor_start f : 0 <= f < 2 ^ 64 -> f mod pageSize = 0 -> page_floor f = f.
Proof.
  intros Hf Hm. rewrite page_floor_eq by lia. unfold pageSize in *. apply Z.mod_divide in Hm as [y ->]; [|done].
  rewrite Z.div_mul by done. lia.
Qed.

(** The tables of a range are those of its first page and those of the rest. *)
Lemma prefixes_room (n : nat) (page : Z) (D : gset (list Z)) :
  (size D <= size (prefixes page ∪ range_prefixes n (page + pageSize) ∪ D) /\
   size (prefixes page ∪ ∅ ∪ D) <= size (prefixes page ∪ range_prefixes n (page + pageSize) ∪ D) /\
   size (range_prefixes n (page + pageSize) ∪ (prefixes page ∪ ∅ ∪ D)) <=
     size (prefixes page ∪ range_prefixes n (page + pageSize) ∪ D))%nat.
Proof. split_and!; apply subseteq_size; pure_set. Qed.

Lemma allocate_and_map_loop n fuel root pt G page fl last : forall k,
  sys_ok limine k root G -> page_flags fl -> page mod pageSize = 0 -> 0 <= page ->
  last = page + pageSize * Z.of_nat n -> last <= 2 ^ 64 - pageSize -> Z.of_nat n <= 2 ^ 36 ->
  (size (range_prefixes n page ∪ dom G) + n <=
    size G + List.length (free_frames limine k))%nat ->
  (n < fuel)%nat ->
  exists k' G' fs tables, List.length fs = n /\
    while fuel (fun s : vm_state * Z => negb (snd s =? last)) (allocate_and_map_step limine fl)
      (VM k (Some (virt root)) pt, page) = Done (VM k' (Some (virt root)) pt, last) /\
    allocated_range root k G page fl fs k' G' tables.
Proof.
  revert fuel G page. induction n as [|n IH];
    intros fuel G page k Hsys Hfl Hpm Hp0 Hlast Hmax Hn Hroom Hfuel;
    (destruct fuel as [|fuel]; [lia|]); rewrite while_unfold; simpl snd.
  { rewrite (proj2 (Z.eqb_eq _ _)) by lia. exists k, G, [], [].
    split; [done|]. split; [simpl; repeat f_equal; lia|]. by apply allocated_range_nil. }
  rewrite (proj2 (Z.eqb_neq _ _)) by (unfold pageSize in *; lia). simpl negb.
  rewrite Nat2Z.inj_succ in Hlast, Hn. cbn [range_prefixes] in Hroom.
  destruct (list_snoc_cases (free_frames limine k)) as [He|(l & f & Hf)].
  { exfalso. rewrite He in Hroom. simpl in Hroom.
    pose proof (prefixes_room n page (dom G)) as (Hd & _). rewrite size_dom in Hd. lia. }
  destruct (sys_alloc_frame k root G l f Hsys Hf) as (k1 & Ha & Hram & Hst & Hl & Hsys1 & Hfok & _).
  destruct (one_page page Hpm Hp0 ltac:(unfold pageSize in *; lia)) as (Hr1 & Hfl1 & Hn1).
  destruct (frame_ok_aligned _ Hfok) as [[Hfr0 Hfm] Hf32].
  destruct (paging_add_mapping_spec root (VM k1 (Some (virt root)) pt) pt G page f pageSize fl)
    as (k2 & G2 & used & Hadd & Hmr); rewrite ?Hn1; try eassumption; try reflexivity.
  - lia.
  - lia.
  - rewrite page_floor_eq by lia. pose proof (Z.mul_div_le f pageSize). unfold pageSize in *.
    destruct Hfok. lia.
  - change (Z.to_nat 1) with 1%nat. cbn [range_prefixes vm_mem]. rewrite Hl, Hfl1.
    rewrite Hf, length_app in Hroom. simpl in Hroom.
    pose proof (prefixes_room n page (dom G)) as (_ & Hd & _). lia.
  - simpl vm_mem in Hmr. rewrite Hn1, Hfl1, page_floor_start in Hmr by (done || lia).
    change (Z.to_nat 1) with 1%nat in Hmr.
    destruct (IH fuel G2 (page + pageSize) k2)
      as (k' & G' & fs & tables & Hlen & Hw & Har); try eassumption; try (apply Hmr).
    + by rewrite <-Z.add_mod_idemp_l, Hpm.
    + unfold pageSize in *. lia.
    + lia.
    + lia.
    + pose proof (mr_free _ _ _ _ _ _ _ _ _ _ Hmr) as Hfr2. rewrite Hl in Hfr2.
      rewrite Hf, Hfr2, !length_app in Hroom. simpl in Hroom.
      pose proof (proj1 (mr_grows _ _ _ _ _ _ _ _ _ _ Hmr)).
      rewrite (mr_dom _ _ _ _ _ _ _ _ _ _ Hmr). cbn [range_prefixes].
      pose proof (prefixes_room n page (dom G)) as (_ & _ & Hd). lia.
    + lia.
    + exists k', G', (f :: fs), (tables ++ used). split; [simpl; lia|]. split.
      * rewrite (allocate_and_map_step_eq _ _ _ _ _ _ _ _ Ha Hadd), bind_done. rewrite (wrap_id 64 (page + pageSize)) by (unfold pageSize in *; lia).
        exact Hw.
      * eapply (allocated_range_cons root k G page fl f k1 k2 G2); try done. lia.
Qed.

Lemma paging_allocate_and_map_spec root k pt G vb len fl :
  sys_ok limine k root G -> page_flags fl -> range_ok vb len ->
  let n := num_pages (get_page_range vb len) in
  n <= 2 ^ 36 ->
  n + tables_for n <= Z.of_nat (List.length (free_frames limine k)) ->
  exists k' G' fs tables, Z.of_nat (List.length fs) = n /\
    paging_allocate_and_map limine vb len fl (VM k (Some (virt root)) pt) =
      Done (VM k' (Some (virt root)) pt) /\
    allocated_range root k G (page_floor vb) fl fs k' G' tables.
Proof.
  intros Hsys Hfl Hr n Hn Hroom.
  destruct (get_page_range_bounds vb len Hr) as (Hfm & _ & Hb & Hmax & Hfirst & _).
  destruct (num_pages_eq vb len Hr) as [Hlast Hnr]. fold n in Hlast, Hnr. rewrite Hfirst in *.
  pose proof (tables_for_nonneg n ltac:(lia)).
  destruct (allocate_and_map_loop (Z.to_nat n) (Z.to_nat n + 2) root pt G (page_floor vb) fl
    (last_page (get_page_range vb len)) k) as (k' & G' & fs & tables & Hlen & Hw & Har);
    rewrite ?Z2Nat.id by lia; try done; try lia.
  - assert (size (range_prefixes (Z.to_nat n) (page_floor vb) ∪ dom G) <=
      size G + (List.length (free_frames limine k) - Z.to_nat n))%nat; [|lia].
    apply range_room; [done|]. rewrite Z2Nat.id by lia. lia.
  - exists k', G', fs, tables. split; [lia|]. split; [|done].
    unfold paging_allocate_and_map. fold n. by rewrite Hfirst, Hw.
Qed.
End MapRange.

(** The processor's view of a range whose leaf entries are known. *)
Lemma translate_leaf m root G va frame fl :
  tree_ok m root G -> page_flags fl -> page_aligned frame ->
  leaf_entry m G va = pte frame (leaf_flags fl) ->
  mmu_translate m root va = Some (frame + va mod pageSize).
Proof.
  intros Ht Hfl Ha Hl. rewrite (mmu_translate_eq _ _ _ Ht), Hl.
  assert (He : entry_for (pte frame (leaf_flags fl)) frame).
  { eexists. split; [|split; [|done]]; [by apply flags_after_ok|apply flags_after_present]. }
  by destruct (entry_for_walk _ _ He Ha) as (-> & _ & ->).
Qed.

Lemma translate_same m m' root G G' va :
  tree_ok m root G -> tree_ok m' root G' -> leaf_entry m' G' va = leaf_entry m G va ->
  mmu_translate m' root va = mmu_translate m root va.
Proof. intros Ht Ht' Hl. by rewrite (mmu_translate_eq _ _ _ Ht), (mmu_translate_eq _ _ _ Ht'), Hl. Qed.

Lemma writable_page m root G page fl frame :
  tree_ok m root G -> path_writable m G page fl 4 ->
  leaf_entry m G page = pte frame (leaf_flags fl) -> page_aligned frame -> page_flags fl ->
  mmu_writable m root page = Z.testbit fl 1.
Proof.
  intros Ht Hpw Hl Ha Hfl.
  destruct (mmu_walk_writable _ _ _ Ht page fl 0 root Hpw ltac:(lia) (tree_root _ _ _ Ht)) as (a & Hw).
  { rewrite Hl, pte_bit_low by (done || lia). apply flags_after_present. }
  unfold mmu_writable. change (4 - 0)%nat with 4%nat in Hw. by rewrite Hw.
Qed.

Lemma offset_in_page page i x :
  page mod pageSize = 0 -> 0 <= x < pageSize -> (page + pageSize * i + x) mod pageSize = x.
Proof.
  intros Hp Hx. apply Z.mod_divide in Hp as [y ->]; [|done].
  replace (y * pageSize + pageSize * i + x) with (x + (y + i) * pageSize) by lia.
  rewrite Z_mod_plus_full. by apply Z.mod_small.
Qed.

(** A physical range below 2^52 made of aligned frames. *)
Lemma frame_at_aligned frame n i :
  0 <= frame -> frame mod pageSize = 0 -> frame + pageSize * n <= 2 ^ 52 -> 0 <= i < n ->
  page_aligned (frame + pageSize * i).
Proof.
  intros H0 Hm H52 Hi. unfold page_aligned. split; [unfold pageSize in *; lia|].
  pose proof (offset_in_page frame i 0 Hm) as Ho. rewrite Z.add_0_r in Ho. by apply Ho.
Qed.

Lemma mapped_range_translate limine root st G page frame fl n st' G' used va :
  sys_ok limine st root G ->
  mapped_range limine root st G page frame fl n st' G' used -> page_flags fl ->
  0 <= frame -> frame mod pageSize = 0 -> frame + pageSize * Z.of_nat n <= 2 ^ 52 ->
  mmu_translate (ram st') root va =
    if page_offset page va <? Z.of_nat n
    then Some (frame + pageSize * page_offset page va + va mod pageSize)
    else mmu_translate (ram st) root va.
Proof.
  intros Hsys Hmr Hfl H0 Hm H52. pose proof (sys_tree _ _ _ _ (mr_sys _ _ _ _ _ _ _ _ _ _ _ Hmr)) as Ht'.
  pose proof (mr_leaf _ _ _ _ _ _ _ _ _ _ _ Hmr va) as Hleaf. pose proof (page_offset_range page va).
  destruct (Z.ltb_spec (page_offset page va) (Z.of_nat n)).
  - apply (translate_leaf _ _ _ _ _ fl Ht' Hfl); [|done]. eapply frame_at_aligned; [done..|lia].
  - by eapply translate_same; [apply Hsys| |].
Qed.

(** C4. Mapping a virtual range to a physical range translates every address of
    the range's pages to the corresponding address of the frames, with exactly
    the requested write permission, keeps every other translation and every page
    table, and takes exactly one frame off the free list per page table that the
    processor does not find: none when all of them are there, and never more
    than [tables_for] the number of pages. *)
Theorem paging_add_mapping_correct limine st root vb pb len fl :
  let n := num_pages (get_page_range vb len) in
  hhdm_ok limine -> page_tree_ok limine (vm_mem st) root ->
  page_tree st = Some (kernel_physical_to_virtual limine root) -> page_flags fl ->
  range_ok vb len -> n <= 2 ^ 36 -> 0 <= pb < 2 ^ 64 -> page_floor pb + pageSize * n <= 2 ^ 52 ->
  tables_for n <= Z.of_nat (List.length (free_frames limine (vm_mem st))) ->
  exists st', paging_add_mapping limine vb pb len fl st = Done st' /\
    page_tree_ok limine (vm_mem st') root /\
    page_tree st' = page_tree st /\ ptbr st' = ptbr st /\
    (forall va, mmu_translate (ram (vm_mem st')) root va =
       if page_offset (page_floor vb) va <? n
       then Some (page_floor pb + pageSize * page_offset (page_floor vb) va + va mod pageSize)
       else mmu_translate (ram (vm_mem st)) root va) /\
    (forall i, 0 <= i < n ->
       mmu_writable (ram (vm_mem st')) root (page_floor vb + pageSize * i) = Z.testbit fl 1) /\
    (forall p f, table_path p -> table_at (ram (vm_mem st)) root p = Some f ->
       table_at (ram (vm_mem st')) root p = Some f) /\
    (exists used : list Z, free_frames limine (vm_mem st) = free_frames limine (vm_mem st') ++ used /\
       List.length used =
         size (missing_tables (ram (vm_mem st)) root (Z.to_nat n) (page_floor vb)) /\
       (forall f, is_table (ram (vm_mem st')) root f ->
          is_table (ram (vm_mem st)) root f \/ f ∈ used) /\
       Z.of_nat (List.length used) <= tables_for n).
Proof.
  intros n Hhhdm [G Hsys] Hpt Hfl Hr Hn Hpb H52 Hroom.
  destruct (num_pages_eq vb len Hr) as [_ Hn0]. fold n in Hn0.
  destruct (page_floor_bounds pb Hpb) as (Hpm & _ & Hp0 & _).
  destruct (page_floor_bounds vb (proj1 Hr)) as (Hvm & _ & _).
  destruct (paging_add_mapping_spec limine Hhhdm root st (ptbr st) G vb pb len fl)
    as (k' & G' & used & Hadd & Hmr); try done.
  { apply range_room; [done|]. fold n. rewrite Z2Nat.id by lia. lia. }
  fold n in Hmr. eexists. split; [exact Hadd|]. cbn [vm_mem page_tree ptbr].
  assert (Htr := fun va => mapped_range_translate _ _ _ _ _ _ _ _ _ _ _ va Hsys Hmr Hfl Hp0 Hpm).
  rewrite Z2Nat.id in Htr by lia.
  split; [exists G'; apply Hmr|]. split; [done|]. split; [done|]. split; [auto|]. split.
  - intros i Hi. eapply (writable_page _ _ G'); [apply Hmr|apply (mr_write _ _ _ _ _ _ _ _ _ _ _ Hmr); lia| | |done].
    + rewrite (mr_leaf _ _ _ _ _ _ _ _ _ _ _ Hmr).
      pose proof (page_offset_add (page_floor vb) i 0 ltac:(lia) Hvm ltac:(done)) as Ho.
      rewrite Z.add_0_r in Ho. rewrite Ho, (proj2 (Z.ltb_lt _ _)) by lia. done.
    + by eapply frame_at_aligned.
  - destruct Hmr as [Hsys' HG Hdom Hgr Hfree _ _ _ _ _].
    pose proof (sys_tree _ _ _ _ Hsys) as Ht. pose proof (sys_tree _ _ _ _ Hsys') as Ht'.
    split; [intros p f; by apply (tables_kept _ _ root G G')|].
    exists used. split; [done|]. split; [by eapply range_missing|].
    split; [intros f; by apply (tables_new _ _ root G G')|].
    rewrite <-(Z2Nat.id n) by lia. by eapply range_tables.
Qed.

(** The contract of [paging_allocate_and_map], for its callers. *)
Lemma paging_allocate_and_map_done limine st root vb len fl :
  let n := num_pages (get_page_range vb len) in
  hhdm_ok limine -> page_tree_ok limine (vm_mem st) root ->
  page_tree st = Some (kernel_physical_to_virtual limine root) -> page_flags fl ->
  range_ok vb len -> n <= 2 ^ 36 ->
  n + tables_for n <= Z.of_nat (List.length (free_frames limine (vm_mem st))) ->
  exists st' fs tables, paging_allocate_and_map limine vb len fl st = Done st' /\
    page_tree_ok limine (vm_mem st') root /\ page_tree st' = page_tree st /\ ptbr st' = ptbr st /\
    (exists used : list Z,
       free_frames limine (vm_mem st) = free_frames limine (vm_mem st') ++ used /\ used ≡ₚ tables ++ fs) /\
    NoDup fs /\
    (forall f, f ∈ fs ->
       (f ∉ free_frames limine (vm_mem st')) /\ ~ is_table (ram (vm_mem st')) root f) /\
    List.length tables =
      size (missing_tables (ram (vm_mem st)) root (Z.to_nat n) (page_floor vb)) /\
    (forall i f, fs !! i = Some f ->
       mmu_writable (ram (vm_mem st')) root (page_floor vb + pageSize * Z.of_nat i) = Z.testbit fl 1) /\
    Z.of_nat (List.length fs) = n /\
    (forall va, mmu_translate (ram (vm_mem st')) root va =
       match fs !! Z.to_nat (page_offset (page_floor vb) va) with
       | Some f => Some (f + va mod pageSize)
       | None => mmu_translate (ram (vm_mem st)) root va
       end).
Proof.
  intros n Hhhdm [G Hsys] Hpt Hfl Hr Hn Hroom. destruct st as [k t p]. cbn [vm_mem page_tree ptbr] in *. subst t.
  destruct (paging_allocate_and_map_spec limine Hhhdm root k p G vb len fl Hsys Hfl Hr Hn Hroom)
    as (k' & G' & fs & tables & Hlen & Hdone & Har). fold n in Hlen.
  destruct (page_floor_bounds vb (proj1 Hr)) as (Hvm & _ & _).
  pose proof (ar_free _ _ _ _ _ _ _ _ _ _ Har) as (used & Hfree & Hused).
  pose proof (sys_nodup _ _ _ _ Hsys) as Hnd.
  rewrite Hfree, Hused in Hnd. apply NoDup_app in Hnd as (_ & Hd1 & Hnd).
  apply NoDup_app in Hnd as (_ & Hd2 & Hnd).
  assert (Hok : forall f, f ∈ fs -> frame_ok f /\ page_aligned f /\ f ∈ free_frames limine k).
  { intros f Hf. assert (f ∈ free_frames limine k) as Hin by (rewrite Hfree, Hused; set_solver).
    assert (frame_ok f) as Hfo by (eapply Forall_forall; [apply (sys_free _ _ _ _ Hsys)|done]).
    split; [done|]. split; [by apply frame_ok_aligned|done]. }
  eexists _, fs, tables. split; [exact Hdone|]. cbn [vm_mem page_tree ptbr].
  assert (Htree' := sys_tree _ _ _ _ (ar_sys _ _ _ _ _ _ _ _ _ _ Har)).
  split; [exists G'; apply Har|]. split; [done|]. split; [done|]. split; [by exists used|].
  split; [done|]. split.
  { intros f Hf. split.
    - intros Hin. apply (Hd1 f Hin). set_solver.
    - intros Htab. apply (tables_new (ram k) _ root G G' tables) in Htab;
        [|apply Hsys|done|apply Har].
      destruct Htab as [Htab|Htab]; [|by apply (Hd2 f)].
      apply (table_not_free limine k root G f Hsys Htab). by apply Hok. }
  split.
  { rewrite (range_missing (ram k) root G G' (List.length fs) (page_floor vb) tables);
      [|apply Hsys|apply Har|apply Har]. f_equal. f_equal. lia. }
  split; [|split; [done|]].
  - intros i f Hf. pose proof (lookup_lt_Some _ _ _ Hf).
    eapply (writable_page _ _ G' _ _ f); [done| | | |done].
    + apply (ar_write _ _ _ _ _ _ _ _ _ _ Har). lia.
    + rewrite (ar_leaf _ _ _ _ _ _ _ _ _ _ Har).
      pose proof (page_offset_add (page_floor vb) (Z.of_nat i) 0 ltac:(lia) Hvm ltac:(done)) as Ho.
      rewrite Z.add_0_r in Ho. by rewrite Ho, Nat2Z.id, Hf.
    + by eapply Hok, list_elem_of_lookup_2.
  - intros va. pose proof (ar_leaf _ _ _ _ _ _ _ _ _ _ Har va) as Hleaf.
    destruct (fs !! Z.to_nat (page_offset (page_floor vb) va)) as [f|] eqn:Hf.
    + apply (translate_leaf _ _ _ _ _ fl Htree' Hfl); [by eapply Hok, list_elem_of_lookup_2|done].
    + eapply translate_same; [apply (sys_tree _ _ _ _ Hsys)|done|done].
Qed.

(** C23. Allocating and mapping a range puts one freshly allocated frame behind
    each of its pages: the frames are distinct, none of them stays free and none of them
    is the frame of a page table, old or new; beyond them, one frame per missing
    page table leaves the free list; the pages have the requested write
    permission, and every other translation is kept. *)
Theorem paging_allocate_and_map_correct limine st root vb len fl :
  let n := num_pages (get_page_range vb len) in
  hhdm_ok limine -> page_tree_ok limine (vm_mem st) root ->
  page_tree st = Some (kernel_physical_to_virtual limine root) -> page_flags fl ->
  range_ok vb len -> n <= 2 ^ 36 ->
  n + tables_for n <= Z.of_nat (List.length (free_frames limine (vm_mem st))) ->
  exists st' fs tables, paging_allocate_and_map limine vb len fl st = Done st' /\
    page_tree_ok limine (vm_mem st') root /\ page_tree st' = page_tree st /\ ptbr st' = ptbr st /\
    (exists used : list Z,
       free_frames limine (vm_mem st) = free_frames limine (vm_mem st') ++ used /\ used ≡ₚ tables ++ fs) /\
    NoDup fs /\
    (forall f, f ∈ fs ->
       (f ∉ free_frames limine (vm_mem st')) /\ ~ is_table (ram (vm_mem st')) root f) /\
    List.length tables =
      size (missing_tables (ram (vm_mem st)) root (Z.to_nat n) (page_floor vb)) /\
    (forall i f, fs !! i = Some f ->
       mmu_writable (ram (vm_mem st')) root (page_floor vb + pageSize * Z.of_nat i) = Z.testbit fl 1) /\
    Z.of_nat (List.length fs) = n /\
    (forall va, mmu_translate (ram (vm_mem st')) root va =
       match fs !! Z.to_nat (page_offset (page_floor vb) va) with
       | Some f => Some (f + va mod pageSize)
       | None => mmu_translate (ram (vm_mem st)) root va
       end).
Proof. exact (paging_allocate_and_map_done limine st root vb len fl). Qed.

(** ** Initialisation *)

(** The allocator as [frame_allocator_init] leaves it, and boot-loader frames
    that are separate from it. *)
Record boot_ready (limine : limine_features) (k : kmem) : Prop := {
  br_alloc : allocator_ok limine k;
  br_entries : Forall (fun e => reclaimable e = true -> entry_ok e) (memory_map limine);
  br_frames : Forall frame_ok (free_frames limine k ++ frames_of reclaimable (memory_map limine));
  br_nodup : NoDup (free_frames limine k ++ frames_of reclaimable (memory_map limine));
  br_apart f a : f ∈ free_frames limine k ++ frames_of reclaimable (memory_map limine) ->
    in_frame f a -> ~ in_storage k a
}.

(** Memory that agrees on the nodes holds the same tree. *)
Lemma tree_ok_same m m' root G :
  tree_ok m root G ->
  (forall p f i, G !! p = Some f -> 0 <= i < 512 -> node_entry m' f i = node_entry m f i) ->
  tree_ok m' root G /\ forall va, leaf_entry m' G va = leaf_entry m G va.
Proof.
  intros Ht Hs. split.
  - split; try apply Ht.
    + intros p f i Hp Hl Hi. rewrite (Hs p f i) by done. by apply (tree_child _ _ _ Ht p f i).
    + intros p f i Hp Hl Hi. rewrite (Hs p f i) by done. by apply (tree_leaf _ _ _ Ht p f i).
  - intros va. unfold leaf_entry. destruct (G !! path va 3) as [f|] eqn:Hf; [|done].
    apply (Hs _ _ _ Hf), table_index_range.
Qed.

(** Writes into the storage of the free stack leave the tree alone. *)
Lemma node_entry_storage limine st root G m' p f i :
  sys_ok limine st root G -> G !! p = Some f -> 0 <= i < 512 ->
  (forall a, ~ in_storage st a -> load8 m' a = load8 (ram st) a) ->
  node_entry m' f i = node_entry (ram st) f i.
Proof.
  intros Hsys Hp Hi Hm. apply load_same. intros a Ha. apply Hm.
  apply (sys_apart _ _ _ _ Hsys f); [by right; exists p|]. unfold in_frame, frameSize.
  assert (Z.of_nat 8 = 8) by done. lia.
Qed.

Lemma sys_reclaim limine st root G :
  sys_ok limine st root G ->
  Forall (fun e => reclaimable e = true -> entry_ok e) (memory_map limine) ->
  let rec := frames_of reclaimable (memory_map limine) in
  Forall frame_ok rec -> NoDup (free_frames limine st ++ rec) ->
  (forall p f, G !! p = Some f -> f ∉ rec) ->
  (forall f a, f ∈ rec -> in_frame f a -> ~ in_storage st a) ->
  exists st', free_limine_bootloader_memory limine st = Done st' /\ sys_ok limine st' root G /\
    free_frames limine st' = take (Z.to_nat (capacity st)) (free_frames limine st ++ rec) /\
    (forall va, leaf_entry (ram st') G va = leaf_entry (ram st) G va) /\
    (forall mp, pages_writable (ram st) G mp -> pages_writable (ram st') G mp) /\
    storage st' = storage st /\
    (forall a, ~ in_storage st a -> load8 (ram st') a = load8 (ram st) a).
Proof.
  intros Hsys Hent rec Hff Hnd Hnew Hap.
  destruct (free_limine_bootloader_memory_done limine st (sys_alloc _ _ _ _ Hsys) Hent)
    as (st' & Hdone & Hok & Hst & Hfr & Hm). fold rec in Hfr.
  assert (Hn := fun p f i Hp Hi => node_entry_storage limine st root G (ram st') p f i Hsys Hp Hi Hm).
  destruct (tree_ok_same _ (ram st') _ _ (sys_tree _ _ _ _ Hsys) Hn) as [Ht Hleaf].
  assert (Hsub : forall f, f ∈ free_frames limine st' -> f ∈ free_frames limine st \/ f ∈ rec).
  { intros f Hf. rewrite Hfr in Hf. apply elem_of_app. by apply subseteq_take in Hf. }
  exists st'. split; [done|]. split; [|split; [done|split; [done|split; [|split; [done|exact Hm]]]]].
  - split; try done.
    + pose proof (sys_free _ _ _ _ Hsys) as Hfree. rewrite Forall_forall in *.
      intros f [Hf|Hf]%Hsub; auto.
    + rewrite Hfr. rewrite <-(take_drop (Z.to_nat (capacity st)) (_ ++ _)) in Hnd.
      by apply NoDup_app in Hnd as [? _].
    + intros p f Hp [Hf|Hf]%Hsub; [by eapply (sys_fresh _ _ _ _ Hsys)|by eapply Hnew].
    + intros f a Hf Hin Hs. rewrite (in_storage_eq st st' a) in Hs by done.
      destruct Hf as [[Hf|Hf]%Hsub|Hf]; [|by eapply Hap|];
        by eapply (sys_apart _ _ _ _ Hsys f a); auto.
  - intros mp Hw i Hi d Hd. destruct (Hw i Hi d Hd) as (f & Hf & Hb). exists f. split; [done|].
    rewrite (Hn _ _ _ Hf); [done|apply table_index_range].
Qed.

Lemma mapping_frame mp i :
  mapping_ok mp -> 0 <= i < map_pages mp ->
  page_aligned (page_floor (to_physical mp) + pageSize * i).
Proof.
  intros Hmp Hi. destruct (page_floor_bounds _ (mo_phys _ Hmp)) as (Hm & _ & H0 & _).
  eapply frame_at_aligned; [done..|apply (mo_frames _ Hmp)|done].
Qed.

Lemma mapping_page mp i :
  mapping_ok mp -> 0 <= i < map_pages mp ->
  covers mp (map_base mp + pageSize * i) = true /\
  page_offset (map_base mp) (map_base mp + pageSize * i) = i.
Proof.
  intros Hmp Hi. pose proof (mo_pages _ Hmp).
  destruct (page_floor_bounds _ (proj1 (mo_range _ Hmp))) as (Hm & _).
  pose proof (page_offset_add (map_base mp) i 0 ltac:(lia) Hm ltac:(done)) as Ho.
  rewrite Z.add_0_r in Ho. unfold covers. rewrite Ho. split; [lia|done].
Qed.

Lemma last_mapping_ok l va frame fl :
  Forall mapping_ok l -> last_mapping l va = Some (frame, fl) -> page_aligned frame /\ page_flags fl.
Proof.
  intros Hl. revert frame fl. induction Hl as [|mp l Hmp _ IH]; intros frame fl; simpl; [done|].
  destruct (last_mapping l va) as [[]|]; [intros [= <- <-]; by apply IH|].
  destruct (covers mp va) eqn:Hc; [|discriminate]. intros [= <- <-].
  split; [|apply Hmp]. apply mapping_frame; [done|].
  unfold covers in Hc. pose proof (page_offset_range (map_base mp) va). lia.
Qed.

Lemma last_mapping_app l1 mp l2 va :
  last_mapping l2 va = None ->
  last_mapping (l1 ++ mp :: l2) va =
    if covers mp va
    then Some (page_floor (to_physical mp) + pageSize * page_offset (map_base mp) va, map_flags mp)
    else last_mapping l1 va.
Proof.
  intros Hl. induction l1 as [|mp1 l1 IH]; simpl.
  - rewrite Hl. by destruct (covers mp va).
  - rewrite IH. by destruct (covers mp va).
Qed.

(** What [paging_init] does to the nodes of the tree, the free frames and memory. *)
Lemma paging_init_done limine symbols st l root :
  let k := vm_mem st in
  let maps := initial_mappings limine symbols in
  hhdm_ok limine -> boot_ready limine k -> Forall mapping_ok maps ->
  free_frames limine k = l ++ [root] ->
  tables_for_all maps <= Z.of_nat (List.length l) ->
  exists k' G used l', paging_init limine symbols st =
      Done (VM k' (Some (kernel_physical_to_virtual limine root)) root) /\
    sys_ok limine k' root G /\
    (forall va, leaf_entry (ram k') G va =
       match last_mapping maps va with Some (frame, fl) => pte frame (leaf_flags fl) | None => 0 end) /\
    (forall l1 mp l2, maps = l1 ++ mp :: l2 -> Forall (compatible mp) l2 -> pages_writable (ram k') G mp) /\
    Z.of_nat (List.length used) <= tables_for_all maps /\ l = l' ++ used /\
    free_frames limine k' = take (Z.to_nat (capacity k)) (l' ++ frames_of reclaimable (memory_map limine)) /\
    (forall p f, G !! p = Some f -> f ∈ free_frames limine k) /\ storage k' = storage k /\
    (forall a, ~ in_storage k a -> (forall f, f ∈ free_frames limine k -> ~ in_frame f a) ->
       load8 (ram k') a = load8 (ram k) a).
Proof.
  intros k maps Hhhdm [Hok Hent Hff Hnd Hap] Hmaps Hfree Hroom.
  rewrite Forall_app in Hff. destruct Hff as [Hff Hrec].
  pose proof Hnd as (Hnd1 & Hdis & _)%NoDup_app.
  destruct (allocate_frame_spec _ _ _ _ Hok Hfree) as (k1 & Ha & Hram1 & _ & _ & Hst1).
  destruct (sys_ok_fresh limine k k1 l root Hhhdm Hok Hfree Hff Hnd1) as (Hsys & Hl & Hzero); [|done|].
  { intros f a Hf. apply Hap, elem_of_app. by left. }
  assert (Hroot : root ∈ free_frames limine k) by (rewrite Hfree, elem_of_app, list_elem_of_singleton; auto).
  assert (Hrf : frame_ok root) by (by eapply Forall_forall in Hff).
  destruct (construct_spec limine Hhhdm (ram k1) root Hrf) as [_ Hout1].
  set (m := PageTreeNode_construct limine (ram k1) (kernel_physical_to_virtual limine root)) in *.
  set (st0 := VM (KMem m (free_stack k1)) (Some (kernel_physical_to_virtual limine root)) (ptbr st)).
  destruct (add_mappings_spec limine Hhhdm maps root st0 (ptbr st) {[ [] := root ]})
    as (k2 & G & used & Hadd & Hsys2 & [_ Hgr] & Hfr & Hu & Hst2 & Hleaf & Hpw & _ & _ & Hout2);
    try eassumption; try reflexivity.
  { simpl. rewrite Hl. exact Hroom. }
  simpl vm_mem in *. rewrite Hl in Hfr.
  assert (Hst : storage k2 = storage k) by (rewrite Hst2; exact Hst1).
  assert (Hnodes : forall p f, G !! p = Some f -> f ∈ free_frames limine k).
  { intros p f [[_ <-]%lookup_singleton_Some|Hf]%Hgr; [done|]. rewrite Hfree, Hfr, !elem_of_app. auto. }
  destruct (sys_reclaim limine k2 root G Hsys2 Hent Hrec) as (k3 & Hre & Hsys3 & Hfr3 & Hleaf3 & Hpw3 & Hst3 & Hout3).
  - rewrite Hfree, Hfr, <-!app_assoc in Hnd. rewrite !NoDup_app in Hnd. rewrite NoDup_app.
    destruct Hnd as (Hn1 & Hn2 & _ & _ & _ & _ & Hn3). split; [done|]. split; [|done].
    intros f Hf Hin. apply (Hn2 f Hf). rewrite !elem_of_app. by right; right.
  - intros p f Hf Hin. by apply (Hdis f (Hnodes p f Hf)).
  - intros f a Hf Hin Hs. rewrite (in_storage_eq k k2 a) in Hs by done.
    eapply (Hap f a); [apply elem_of_app; by right|done|done].
  - exists k3, G, used, (free_frames limine k2).
    split; [|split; [exact Hsys3|split; [|split; [|split; [exact Hu|split; [exact Hfr|split; [|split; [exact Hnodes|split; [congruence|]]]]]]]]].
    + unfold paging_init. change (vm_mem st) with k. rewrite Ha, bind_done. fold m.
      unfold add_initial_mappings. fold maps st0. rewrite Hadd, bind_done. simpl. by rewrite Hre.
    + intros va. rewrite Hleaf3, Hleaf. case_match; [done|apply Hzero].
    + intros l1 mp l2 Heq Hc. apply Hpw3. by eapply Hpw.
    + rewrite Hfr3. unfold capacity. by rewrite Hst.
    + intros a Hns Hnf. rewrite Hout3 by (by rewrite (in_storage_eq k k2)). rewrite Hout2.
      * rewrite <-Hram1. apply Hout1. specialize (Hnf root Hroot). unfold in_frame, frameSize in Hnf. lia.
      * intros p f Hp. apply Hnf. by eapply Hnodes.
Qed.

(** C9. After [paging_init] the processor runs on the new tree, and translates
    exactly what the initial mappings say, the last one winning where they
    overlap: the identity map, the higher-half direct map, and the kernel image.
    Pages mapped read-only are not writable; pages mapped writable are, unless
    a later read-only mapping shares their top-level entry.  At most one frame
    per table was spent, and boot-loader memory went back to the free list. *)
Theorem paging_init_correct limine symbols st l root :
  let k := vm_mem st in
  let maps := initial_mappings limine symbols in
  hhdm_ok limine -> boot_ready limine k -> Forall mapping_ok maps ->
  free_frames limine k = l ++ [root] ->
  tables_for_all maps <= Z.of_nat (List.length l) ->
  exists st' used, paging_init limine symbols st = Done st' /\
    ptbr st' = root /\ page_tree st' = Some (kernel_physical_to_virtual limine root) /\
    page_tree_ok limine (vm_mem st') root /\
    (forall va, match last_mapping maps va with
       | Some (frame, fl) =>
           mmu_translate (ram (vm_mem st')) root va = Some (frame + va mod pageSize) /\
           (Z.testbit fl 1 = false -> mmu_writable (ram (vm_mem st')) root va = false)
       | None => mmu_translate (ram (vm_mem st')) root va = None
       end) /\
    (forall l1 mp l2 i, maps = l1 ++ mp :: l2 -> Forall (compatible mp) l2 ->
       0 <= i < map_pages mp -> last_mapping l2 (map_base mp + pageSize * i) = None ->
       mmu_writable (ram (vm_mem st')) root (map_base mp + pageSize * i) =
         Z.testbit (map_flags mp) 1) /\
    Z.of_nat (List.length used) <= tables_for_all maps /\
    exists l', l = l' ++ used /\ free_frames limine (vm_mem st') =
      take (Z.to_nat (capacity k)) (l' ++ frames_of reclaimable (memory_map limine)).
Proof.
  intros k maps Hhhdm Hready Hmaps Hfree Hroom.
  destruct (paging_init_done limine symbols st l root Hhhdm Hready Hmaps Hfree Hroom)
    as (k' & G & used & l' & Hd & Hsys & Hleaf & Hpw & Hu & Hl & Hfr & _).
  fold k in Hfr. fold maps in Hleaf, Hpw, Hu. pose proof (sys_tree _ _ _ _ Hsys) as Ht.
  eexists _, used. split; [exact Hd|]. cbn [ptbr page_tree vm_mem].
  split; [done|split; [done|split; [by exists G|split; [|split; [|split; [done|by exists l']]]]]].
  - intros va. specialize (Hleaf va). destruct (last_mapping maps va) as [[frame fl]|] eqn:Hlast.
    + destruct (last_mapping_ok _ _ _ _ Hmaps Hlast) as [Hfa Hfl].
      split; [by eapply translate_leaf|]. intros Hw. eapply not_writable_leaf; [done|].
      rewrite Hleaf, pte_bit_low by (exact Hfa || lia). unfold leaf_flags.
      rewrite flags_after_bit, Hw by lia. reflexivity.
    + by rewrite (mmu_translate_eq _ _ _ Ht), Hleaf.
  - intros l1 mp l2 i Heq Hc Hi Hlast.
    assert (Hmp : mapping_ok mp).
    { rewrite Heq in Hmaps. apply Forall_app in Hmaps as [_ Hmaps]. by apply Forall_cons in Hmaps as [? _]. }
    destruct (mapping_page _ i Hmp Hi) as [Hcov Hoff].
    eapply (writable_page _ _ G); [done|by eapply Hpw| | |apply Hmp].
    + rewrite Hleaf, Heq, (last_mapping_app _ _ _ _ Hlast), Hcov. done.
    + rewrite Hoff. eapply mapping_frame; [done|lia].
Qed.

(** The memory map a machine with its memory below 4 GiB is started with. *)
Record boot_memmap (limine : limine_features) : Prop := {
  bm_ok : memmap_ok limine;
  bm_sorted : memmap_sorted limine;
  bm_entries : Forall (fun e => reclaimable e = true -> entry_ok e) (memory_map limine);
  bm_low : Forall (fun e => is_allocatable e = true \/ reclaimable e = true ->
    0 < entry_base e /\ entry_base e + entry_length e <= 2 ^ 32) (memory_map limine);
  bm_nodup : NoDup (frames_of reclaimable (memory_map limine));
  bm_apart e e' : e ∈ memory_map limine -> e' ∈ memory_map limine ->
    is_allocatable e = true -> reclaimable e' = true ->
    entry_base e + entry_length e <= entry_base e' \/ entry_base e' + entry_length e' <= entry_base e
}.

Lemma frames_of_elem use entries f :
  f ∈ frames_of use entries -> exists e, e ∈ entries /\ use e = true /\ f ∈ entry_frames e.
Proof.
  unfold frames_of. rewrite list_elem_of_In, in_concat. intros (l & Hl & Hfl).
  apply list_elem_of_In, list_elem_of_fmap in Hl as (e & -> & He).
  apply list_elem_of_filter in He as [Hu He]. exists e. split; [done|]. split; [done|]. by apply list_elem_of_In.
Qed.

(** The byte at [a] belongs to an entry that is put to this use. *)
Definition in_entry (limine : limine_features) (use : limine_memmap_entry -> bool) (a : Z) : Prop :=
  exists e, e ∈ memory_map limine /\ use e = true /\ entry_base e <= a < entry_base e + entry_length e.

Section BootMemmap.
Context (limine : limine_features) (Hbm : boot_memmap limine).

(** A frame of a usable or reclaimable entry lies inside it. *)
Lemma boot_frame use f :
  (forall e, use e = true -> is_allocatable e = true \/ reclaimable e = true) ->
  f ∈ frames_of use (memory_map limine) ->
  exists e, e ∈ memory_map limine /\ use e = true /\ frame_ok f /\
    entry_base e <= f /\ f + frameSize <= entry_base e + entry_length e.
Proof.
  intros Huse (e & He & Hu & Hf)%frames_of_elem. exists e. split; [done|]. split; [done|].
  assert (Hok : entry_ok e).
  { pose proof (mm_usable _ (bm_ok _ Hbm)) as H1. pose proof (bm_entries _ Hbm) as H2.
    rewrite Forall_forall in H1, H2. destruct (Huse e Hu) as [Ha|Ha]; [exact (proj1 (H1 e He Ha))|exact (H2 e He Ha)]. }
  pose proof (bm_low _ Hbm) as H3. rewrite Forall_forall in H3. destruct (H3 e He (Huse e Hu)) as [Hb Hh].
  pose proof (entry_frames_bounds _ _ Hok Hf). unfold frame_ok, frameSize in *. repeat split; lia.
Qed.

Lemma boot_ready_init st b :
  b = manually_reserve_contiguous_frames limine (stack_frames limine) -> b <> 0 ->
  exists k, frame_allocator_init limine st = Done k /\ boot_ready limine k /\
    free_frames limine k = initial_free_frames limine b /\
    (forall a, ~ in_entry limine is_allocatable a -> ~ in_storage k a /\ load8 (ram k) a = load8 (ram st) a) /\
    storage k = Some (b, Z.of_nat (List.length (usable_frames limine))) /\
    (forall a, in_storage k a -> in_entry limine is_allocatable a).
Proof.
  intros Hb Hb0. pose proof (bm_ok _ Hbm) as Hmm.
  destruct (frame_allocator_init_done limine st b Hmm Hb Hb0) as (k & Hi & Hf & Hok & Hst & Hram).
  destruct (init_state_ok limine ∅ b Hmm Hb Hb0) as (_ & _ & Hbal & _).
  destruct (stack_frames_bounds _ Hmm) as [Hsf Hcap].
  assert (Hu : forall f, f ∈ initial_free_frames limine b -> f ∈ usable_frames limine).
  { intros f Hin. unfold initial_free_frames in Hin. by apply list_elem_of_filter in Hin as [_ ?]. }
  destruct (reserve_from_spec (memory_map limine) (stack_frames limine)) as (es & Hes & Hal & Hbe & Hlen);
    [|done|by rewrite Hb in Hb0|].
  { eapply Forall_impl; [apply (mm_usable _ Hmm)|]. simpl. naive_solver. }
  assert (Hbs : b = entry_base es) by (rewrite Hb; unfold manually_reserve_contiguous_frames; by rewrite <-Hbe).
  assert (Hins : forall a, in_storage k a -> b <= a < b + entry_length es).
  { intros a Hs. unfold in_storage, storage in *. destruct (free_stack k) as [s|]; simpl in *; [|done].
    injection Hst as Hs1 Hs2. rewrite Hs1, Hs2 in Hs. lia. }
  exists k. split; [done|]. split; [split; [done|apply Hbm| | |]|split; [done|]].
  - rewrite Hf. apply Forall_forall. intros f [Hin|Hin]%elem_of_app.
    + by destruct (boot_frame is_allocatable f ltac:(auto) (Hu f Hin)) as (_ & _ & _ & ? & _).
    + by destruct (boot_frame reclaimable f ltac:(auto) Hin) as (_ & _ & _ & ? & _).
  - rewrite Hf. apply NoDup_app. split; [|split; [|apply Hbm]].
    + apply NoDup_filter, usable_frames_NoDup; apply Hbm.
    + intros f Hin Hin'.
      destruct (boot_frame is_allocatable f ltac:(auto) (Hu f Hin)) as (e & He & Ha & _ & H1 & H2).
      destruct (boot_frame reclaimable f ltac:(auto) Hin') as (e' & He' & Ha' & _ & H1' & H2').
      destruct (bm_apart _ Hbm e e' He He' Ha Ha'); unfold frameSize in *; lia.
  - intros f a Hif Ha Hs. rewrite Hf in Hif. apply elem_of_app in Hif as [Hif|Hif].
    + apply initial_free_frames_elem in Hif as [Huf Hout]; try done.
      destruct (usable_frames_elem _ _ Hmm Huf) as (_ & _ & Hfal).
      unfold in_storage, storage in *. destruct (free_stack k) as [s|]; simpl in *; [|done].
      injection Hst as Hs1 Hs2. rewrite Hs1, Hs2 in Hs.
      destruct (page_apart _ _ _ Hfal Hbal Hout); unfold in_frame, frameSize in *; lia.
    + destruct (boot_frame reclaimable f ltac:(auto) Hif) as (e' & He' & Ha' & _ & H1 & H2).
      apply Hins in Hs. destruct (bm_apart _ Hbm es e' Hes He' Hal Ha'); unfold in_frame, frameSize in *; lia.
  - assert (Hin : forall a, in_storage k a -> in_entry limine is_allocatable a).
    { intros a Hs%Hins. exists es. rewrite <-Hbs. auto. }
    split; [|by split]. intros a Hna. split; [by intros Hs%Hin|]. apply Hram. by intros Hs%Hin.
Qed.
End BootMemmap.

(** [get_page_range] covers exactly the pages that a region of memory
    touches, apart from the last page of the address space, which no range
    ever reaches; it never wraps around. *)
Theorem get_page_range_covers vb len page :
  range_ok vb len -> 0 < len -> 0 <= page -> page mod pageSize = 0 ->
  let r := get_page_range vb len in
  first_page r <= page < last_page r <->
    vb < page + pageSize /\ page < vb + len /\ page < 2 ^ 64 - pageSize.
Proof.
  intros Hr Hlen Hp0 Hpm r. destruct (get_page_range_bounds vb len Hr) as (Hf & Hl & Hb & Hmax & Hfl & Hin & Hout).
  fold r in Hf, Hl, Hb, Hmax, Hfl, Hin, Hout. destruct Hr as [Hvb Hlen'].
  destruct (page_floor_bounds vb Hvb) as (_ & Hfb & _). rewrite <-Hfl in Hfb.
  unfold pageSize in *. apply Z.mod_divide in Hpm as [y ->]; [|done].
  apply Z.mod_divide in Hf as [x Hx]; [|done]. apply Z.mod_divide in Hl as [z Hz]; [|done].
  destruct (Z.le_gt_cases (vb + len) (2 ^ 64 - 0x1000)); lia.
Qed.

(** ** The virtual ranges left to the heap *)
Definition in_region (r : MemoryRegion) (a : Z) : Prop :=
  region_base r <= a < region_base r + region_size r.

Definition region_end (r : MemoryRegion) : Z := region_base r + region_size r.

Definition region_ok (r : MemoryRegion) : Prop :=
  0 <= region_base r /\ 0 <= region_size r /\ region_end r < 2 ^ 64.

#[export] Instance region_ok_dec r : Decision (region_ok r).
Proof. unfold region_ok. apply _. Defined.

(** The free regions found so far: below [base] they are what the ranges seen
    leave, and they end before any range still to come begins. *)
Record regions_inv (seen todo free : list MemoryRegion) (base : Z) : Prop := {
  ri_base : 0x1000 <= base < 2 ^ 64;
  ri_end : forall u, u ∈ seen -> region_end u <= base;
  ri_free : forall r, r ∈ free -> 0x1000 <= region_base r /\ 0 < region_size r /\ region_end r <= base /\
    forall u, u ∈ todo -> region_end r <= region_base u;
  ri_split : forall a, 0x1000 <= a < base ->
    (exists r, r ∈ free /\ in_region r a) <-> ~ exists u, u ∈ seen /\ in_region u a;
  ri_len : (List.length free <= List.length seen)%nat
}.

Lemma exists_snoc {A} (P : A -> Prop) (l : list A) x :
  (exists v, v ∈ l ++ [x] /\ P v) <-> (exists v, v ∈ l /\ P v) \/ P x.
Proof. setoid_rewrite elem_of_app. setoid_rewrite list_elem_of_singleton. naive_solver. Qed.

(** The free regions found so far lie below [base] and apart from what comes. *)
Lemma regions_inv_free seen u todo free base a :
  regions_inv seen (u :: todo) free base -> (exists r, r ∈ free /\ in_region r a) ->
  0x1000 <= a < base /\ ~ in_region u a.
Proof.
  intros [_ _ Hfree _ _] (r & Hr & Hin). destruct (Hfree r Hr) as (? & ? & ? & Ht). specialize (Ht u ltac:(by left)).
  unfold in_region, region_end in *. lia.
Qed.

Lemma regions_inv_end seen u todo free base base' :
  regions_inv seen (u :: todo) free base -> base <= base' -> region_end u <= base' ->
  forall v, v ∈ seen ++ [u] -> region_end v <= base'.
Proof.
  intros Hinv Hb Hu v [Hv| ->%list_elem_of_singleton]%elem_of_app; [|done].
  pose proof (ri_end _ _ _ _ Hinv v Hv). lia.
Qed.

(** A region that starts at or below [base] leaves no room before it. *)
Lemma regions_inv_skip seen u todo free base :
  regions_inv seen (u :: todo) free base -> region_ok u -> region_base u <= base ->
  regions_inv (seen ++ [u]) todo free (Z.max base (region_end u)).
Proof.
  intros Hinv (Hu0 & Hus & Hue) Hle. pose proof (fun a => regions_inv_free _ _ _ _ _ a Hinv) as Hbelow.
  split.
  - pose proof (ri_base _ _ _ _ Hinv). lia.
  - eapply regions_inv_end; [exact Hinv|lia|lia].
  - intros r Hr. destruct (ri_free _ _ _ _ Hinv r Hr) as (? & ? & ? & Ht). split_and!; try lia.
    intros v Hv. apply Ht. by right.
  - intros a Ha. rewrite exists_snoc. destruct (Z.lt_ge_cases a base) as [Hlt|Hge].
    + rewrite (ri_split _ _ _ _ Hinv) by lia. split; [|tauto]. intros Hno [|Hu]; [done|].
      apply (ri_split _ _ _ _ Hinv) in Hno; [|lia]. by apply Hbelow in Hno as [_ ?].
    + split; [intros Hf%Hbelow; lia|]. intros Hno. exfalso. apply Hno. right. unfold in_region, region_end in *. lia.
  - pose proof (ri_len _ _ _ _ Hinv). rewrite length_app. lia.
Qed.

(** What lies between [base] and a region above it is free. *)
Lemma regions_inv_add seen u todo free base :
  regions_inv seen (u :: todo) free base -> region_ok u -> base < region_base u ->
  Forall (fun u' => region_base u <= region_base u') todo ->
  regions_inv (seen ++ [u]) todo (free ++ [MkRegion base (region_base u - base)]) (region_end u).
Proof.
  intros Hinv (Hu0 & Hus & Hue) Hgt Hsorted. pose proof (fun a => regions_inv_free _ _ _ _ _ a Hinv) as Hbelow.
  rewrite Forall_forall in Hsorted. pose proof (ri_base _ _ _ _ Hinv).
  assert (Hub : region_base u <= region_end u) by (unfold region_end; lia). split.
  - lia.
  - eapply regions_inv_end; [exact Hinv|lia|lia].
  - intros r [Hr| ->%list_elem_of_singleton]%elem_of_app.
    + destruct (ri_free _ _ _ _ Hinv r Hr) as (? & ? & ? & Ht). split_and!; try lia. intros v Hv. apply Ht. by right.
    + unfold region_end. simpl. split_and!; try lia. intros v Hv. pose proof (Hsorted _ Hv). lia.
  - intros a Ha. rewrite !exists_snoc.
    assert (Hseen : (exists v, v ∈ seen /\ in_region v a) -> a < base).
    { intros (v & Hv & Hin). pose proof (ri_end _ _ _ _ Hinv v Hv). unfold in_region, region_end in *. lia. }
    unfold in_region at 2 4. simpl. destruct (Z.lt_ge_cases a base) as [Hlt|Hge].
    + rewrite (ri_split _ _ _ _ Hinv) by lia. split; [|tauto]. intros [Hno|?]; [|lia]. intros [?|?]; [done|lia].
    + split; [intros [Hf%Hbelow|Hn]; [lia|]; intros [?%Hseen|?]; lia|]. intros Hno. right.
      destruct (Z.lt_ge_cases a (region_base u)); [lia|]. exfalso. apply Hno. right. unfold region_end in *. lia.
  - pose proof (ri_len _ _ _ _ Hinv). rewrite !length_app. simpl. lia.
Qed.

Lemma regions_inv_step seen u todo free base :
  regions_inv seen (u :: todo) free base -> region_ok u ->
  Forall (fun u' => region_base u <= region_base u') todo ->
  (List.length seen < 16)%nat ->
  exists free' base', free_region_step (free, base) u = Done (free', base') /\
    regions_inv (seen ++ [u]) todo free' base'.
Proof.
  intros Hinv Hu Hsorted H16. pose proof (ri_len _ _ _ _ Hinv) as Hlen.
  unfold free_region_step. change (u64 _) with (wrap 64 (region_end u)). rewrite (wrap_id 64)
    by (destruct Hu as (? & ? & ?); unfold region_end in *; lia).
  destruct (Z.leb_spec (region_base u) base) as [Hle|Hgt].
  - eexists free, _. split; [done|]. by apply regions_inv_skip.
  - rewrite (proj2 (Z.ltb_ge _ _)), (proj2 (Z.eqb_neq _ _)) by (unfold free_regions_capacity; lia).
    eexists _, _. split; [done|]. by apply regions_inv_add.
Qed.

Lemma free_regions_loop_spec todo : forall seen free base,
  regions_inv seen todo free base -> Forall region_ok todo ->
  StronglySorted (fun u u' => region_base u <= region_base u') todo ->
  (List.length seen + List.length todo <= 16)%nat ->
  exists free' base', free_regions_loop todo (free, base) = Done (free', base') /\
    regions_inv (seen ++ todo) [] free' base'.
Proof.
  induction todo as [|u todo IH]; intros seen free base Hinv Hok Hs Hlen.
  { exists free, base. by rewrite app_nil_r. }
  apply Forall_cons in Hok as [Hu Hok]. apply StronglySorted_inv in Hs as [Hs Hall].
  simpl in Hlen.
  destruct (regions_inv_step _ _ _ _ _ Hinv Hu Hall ltac:(lia)) as (free1 & base1 & Hstep & Hinv1).
  destruct (IH _ _ _ Hinv1 Hok Hs) as (free' & base' & Hl & Hinv').
  { rewrite length_app. simpl. lia. }
  exists free', base'. cbn [free_regions_loop]. rewrite Hstep, bind_done. split; [done|].
  by rewrite <-app_assoc in Hinv'.
Qed.

(** C29. The regions handed to the heap: when the unavailable ranges are sorted
    by address, as the array initialiser relies on, the search finds regions
    that never touch an unavailable range, and together with the unavailable
    ranges they cover every address from 0x1000 up to the end of the last
    range; the rest of the array stays empty. *)
Theorem paging_get_initial_free_regions_correct limine symbols :
  let ranges := unavailable_virtual_memory_ranges limine symbols in
  Forall region_ok ranges ->
  StronglySorted (fun u u' => region_base u <= region_base u') ranges ->
  exists free, paging_get_initial_free_regions limine symbols =
      Done (free ++ replicate (16 - List.length free) (MkRegion 0 0)) /\
    (List.length free <= 5)%nat /\
    Forall (fun r => 0x1000 <= region_base r /\ 0 < region_size r) free /\
    (forall r a u, r ∈ free -> in_region r a -> u ∈ ranges -> ~ in_region u a) /\
    (forall a u, u ∈ ranges -> 0x1000 <= a < region_end u ->
       (exists r, r ∈ free /\ in_region r a) \/ (exists u', u' ∈ ranges /\ in_region u' a)).
Proof.
  intros ranges Hok Hs.
  destruct (free_regions_loop_spec ranges [] [] 0x1000) as (free & base & Hl & [Hb Hend Hfree Hsplit Hlen]); try done.
  - split; try done.
    + intros u Hu. by apply elem_of_nil in Hu.
    + intros r Hr. by apply elem_of_nil in Hr.
    + intros a Ha. lia.
  - simpl. lia.
  - exists free. split; [unfold paging_get_initial_free_regions; fold ranges; by rewrite Hl|].
    split; [exact Hlen|]. split; [|split].
    + apply Forall_forall. intros r Hr. by destruct (Hfree r Hr) as (? & ? & _).
    + intros r a u Hr Hin Hu Hin'. destruct (Hfree r Hr) as (? & ? & ? & _). unfold in_region, region_end in *.
      apply (proj1 (Hsplit a ltac:(lia))); [by exists r|by exists u].
    + intros a u Hu Ha. destruct (Z.le_gt_cases (region_end u) base) as [Hle|Hgt].
      * destruct (existsb (fun u' => (region_base u' <=? a) && (a <? region_end u')) ranges) eqn:Hex.
        -- right. apply existsb_exists in Hex as (u' & Hu' & Hin). exists u'.
           split; [by apply list_elem_of_In|]. unfold in_region, region_end in *. lia.
        -- left. apply Hsplit; [lia|]. intros (u' & Hu' & Hin). simpl in Hu'.
           apply not_true_iff_false in Hex. apply Hex, existsb_exists. exists u'.
           split; [by apply list_elem_of_In|]. unfold in_region, region_end in *. lia.
      * pose proof (Hend u Hu). lia.
Qed.

(** ** A concrete machine

    32 MiB of usable memory, three boot-loader frames, and a kernel image of
    four read-only and six read/write pages. *)
Definition boot_limine : limine_features :=
  Limine [MemmapEntry 0x100000 0x7f00000 0; MemmapEntry 0x8000000 0x40000 5]
    0xffff800000000000 0x9000000.

Definition boot_symbols : linker_symbols :=
  MkSymbols 0xffffffff80000000 0xffffffff80004000 0xffffffff80004000 0xffffffff80009800.

Definition demo_vm : vm_state :=
  VM demo_tree (Some (kernel_physical_to_virtual demo_limine demo_root)) demo_root.

Lemma paging_add_mapping_correct_witness :
  exists st', paging_add_mapping demo_limine 0x7123 0x9000 0x1000 PageFlags.Write demo_vm = Done st' /\
    mmu_translate (ram (vm_mem st')) demo_root 0x8456 = Some 0xa456.
Proof.
  destruct (paging_add_mapping_correct demo_limine demo_vm demo_root 0x7123 0x9000 0x1000 PageFlags.Write)
    as (st' & Hd & _ & _ & _ & Ht & _).
  - exact demo_hhdm_ok.
  - exact demo_page_tree_ok.
  - reflexivity.
  - split; vm_compute; congruence.
  - apply (bool_decide_unpack _). vm_compute. exact I.
  - vm_compute. congruence.
  - split; vm_compute; congruence.
  - vm_compute. congruence.
  - simpl vm_mem. rewrite demo_tree_frames. vm_compute. congruence.
  - exists st'. split; [exact Hd|]. rewrite Ht. vm_compute. reflexivity.
Defined.

Lemma paging_allocate_and_map_correct_witness :
  exists st' (fs : list Z), paging_allocate_and_map demo_limine 0x5000 0x1000 PageFlags.Write demo_vm = Done st' /\
    List.length fs = 1%nat.
Proof.
  destruct (paging_allocate_and_map_correct demo_limine demo_vm demo_root 0x5000 0x1000 PageFlags.Write)
    as (st' & fs & tables & Hd & _ & _ & _ & _ & _ & _ & _ & _ & Hlen & _).
  - exact demo_hhdm_ok.
  - exact demo_page_tree_ok.
  - reflexivity.
  - split; vm_compute; congruence.
  - apply (bool_decide_unpack _). vm_compute. exact I.
  - vm_compute. congruence.
  - simpl vm_mem. rewrite demo_tree_frames. vm_compute. congruence.
  - exists st', fs. split; [exact Hd|].
    replace (num_pages (get_page_range 0x5000 0x1000)) with 1 in Hlen by (vm_compute; reflexivity). lia.
Defined.

Lemma get_page_range_covers_witness : first_page (get_page_range 0x7ff8 0x10) <= 0x8000 < 0x9000.
Proof.
  split; [|lia]. apply (get_page_range_covers 0x7ff8 0x10 0x8000).
  - apply (bool_decide_unpack _). vm_compute. exact I.
  - lia.
  - lia.
  - reflexivity.
  - unfold pageSize. lia.
Defined.

Lemma paging_get_initial_free_regions_correct_witness :
  exists free, paging_get_initial_free_regions boot_limine boot_symbols =
    Done (free ++ replicate (16 - List.length free) (MkRegion 0 0)) /\
    (List.length free <= 5)%nat.
Proof.
  destruct (paging_get_initial_free_regions_correct boot_limine boot_symbols) as (free & Hd & Hlen & _).
  - apply (bool_decide_unpack _). vm_compute. exact I.
  - repeat constructor; vm_compute; congruence.
  - exists free. split; [exact Hd|exact Hlen].
Defined.

Example boot_free_regions :
  paging_get_initial_free_regions boot_limine boot_symbols =
    Done (MkRegion 0x100001000 0x7ffefffff000 :: MkRegion 0xffff800100000000 0x7ffe80000000
      :: replicate 14 (MkRegion 0 0)).
Proof. vm_compute. reflexivity. Qed.

Lemma boot_usable :
  usable_frames boot_limine = (fun i => 0x100000 + 0x1000 * i) <$> seqZ 0 32512.
Proof.
  unfold usable_frames, frames_of.
  assert (Hf : filter (fun e => is_allocatable e = true) (memory_map boot_limine) = [MemmapEntry 0x100000 0x7f00000 0])
    by reflexivity.
  rewrite Hf. cbn [fmap list_fmap concat]. rewrite app_nil_r. unfold entry_frames.
  cbn [entry_base entry_length]. change (0x7f00000 / frameSize) with 32512. reflexivity.
Qed.

Lemma boot_usable_length : Z.of_nat (List.length (usable_frames boot_limine)) = 32512.
Proof. rewrite boot_usable, length_fmap, length_seqZ. lia. Qed.

Lemma boot_stack_frames : stack_frames boot_limine = 64.
Proof. unfold stack_frames. rewrite boot_usable_length. reflexivity. Qed.

Lemma boot_memmap_ok : boot_memmap boot_limine.
Proof.
  split.
  - split; [|vm_compute; intuition congruence|rewrite boot_usable_length; lia].
    unfold boot_limine; repeat constructor; vm_compute; intuition congruence.
  - vm_compute. repeat constructor.
  - repeat constructor; vm_compute; intuition congruence.
  - repeat constructor; vm_compute; intuition congruence.
  - apply (bool_decide_unpack _). vm_compute. exact I.
  - simpl. intros e e' He He'. rewrite !list_elem_of_In in He, He'. simpl in He, He'.
    destruct He as [<-|[<-|[]]], He' as [<-|[<-|[]]]; vm_compute; try congruence; left; congruence.
Defined.

Lemma boot_mappings_ok : Forall mapping_ok (initial_mappings boot_limine boot_symbols).
Proof.
  repeat apply Forall_cons_2; try apply Forall_nil_2.
  all: split; [repeat split; vm_compute; congruence|vm_compute; congruence|split; vm_compute; congruence
    |vm_compute; congruence|split; vm_compute; congruence].
Defined.

Lemma boot_stack_base :
  manually_reserve_contiguous_frames boot_limine (stack_frames boot_limine) = 0x100000.
Proof. rewrite boot_stack_frames. reflexivity. Defined.

Lemma filter_all {A} (P : A -> Prop) `{!forall x, Decision (P x)} (l : list A) : Forall P l -> filter P l = l.
Proof. induction 1 as [|x l Hx _ IH]; [done|]. by rewrite filter_cons_True, IH. Qed.

Lemma boot_frames_length :
  Z.of_nat (List.length (initial_free_frames boot_limine 0x100000)) = 32448.
Proof.
  unfold initial_free_frames. rewrite boot_stack_frames, boot_usable.
  change (seqZ 0 32512) with (seqZ 0 (64 + 32448)). rewrite seqZ_app, fmap_app, filter_app by lia.
  change (0 + 64) with 64. rewrite length_app.
  rewrite (filter_all _ (_ <$> seqZ 64 32448)).
  - rewrite length_fmap, length_seqZ. vm_compute (List.length (filter _ (_ <$> seqZ 0 64))). lia.
  - apply Forall_fmap, Forall_forall. intros i Hi%elem_of_seqZ. unfold in_exclude_range. cbn [existsb begin end_].
    change (u64 (0x100000 + u64 (64 * frameSize))) with 0x140000.
    change (((0x100000 <=? 0x100000 + 0x1000 * i) && (0x100000 + 0x1000 * i <? 0x140000)) || false = false).
    rewrite (proj2 (Z.ltb_ge (0x100000 + 0x1000 * i) 0x140000)) by lia. by rewrite andb_false_r.
Qed.

Lemma paging_init_correct_witness :
  exists k st' root, frame_allocator_init boot_limine (KMem ∅ None) = Done k /\
    paging_init boot_limine boot_symbols (VM k None 0) = Done st' /\ ptbr st' = root /\
    mmu_translate (ram (vm_mem st')) root 0xffffffff80004123 = Some 0x9004123 /\
    mmu_writable (ram (vm_mem st')) root 0xffffffff80000123 = false.
Proof.
  destruct (boot_ready_init boot_limine boot_memmap_ok (KMem ∅ None) 0x100000) as (k & Hi & Hr & Hf & _).
  { symmetry. exact boot_stack_base. } { discriminate. }
  pose proof boot_frames_length as Hlen. rewrite <-Hf in Hlen.
  destruct (list_snoc_cases (free_frames boot_limine k)) as [He|(l & root & He)].
  { rewrite He in Hlen. discriminate. }
  rewrite He, length_app, Nat2Z.inj_add in Hlen. change (Z.of_nat (List.length [root])) with 1 in Hlen.
  destruct (paging_init_correct boot_limine boot_symbols (VM k None 0) l root)
    as (st' & used & Hd & Hp & _ & _ & Ht & _).
  - split; vm_compute; congruence.
  - exact Hr.
  - exact boot_mappings_ok.
  - exact He.
  - assert (Z.of_nat (List.length l) = 32447) as -> by lia. vm_compute. congruence.
  - exists k, st', root. split; [exact Hi|]. split; [exact Hd|]. split; [exact Hp|]. split.
    + pose proof (Ht 0xffffffff80004123) as H1.
      replace (last_mapping (initial_mappings boot_limine boot_symbols) 0xffffffff80004123)
        with (Some (0x9004000, 2)) in H1 by (vm_compute; reflexivity). exact (proj1 H1).
    + pose proof (Ht 0xffffffff80000123) as H1.
      replace (last_mapping (initial_mappings boot_limine boot_symbols) 0xffffffff80000123)
        with (Some (0x9000000, 0)) in H1 by (vm_compute; reflexivity). exact (proj2 H1 eq_refl).
Defined.
