(* ===== verification/KernelMemory.v ===== *)
(** * Kernel memory while the kernel runs

    What the layers above the page tree rely on: the tree, the frame allocator
    and the page-table base register agree ([kernel_memory]), and a part of
    physical memory that the kernel only reads (the ACPI tables) is never
    written.  [frame_allocator_init] followed by [paging_init] establishes this,
    mapping and allocating pages preserve it. *)

From Stdlib Require Import ZArith Lia String.
From stdpp Require Import base gmap list list_numbers numbers strings.
From S2P Require Import Prelude Memory FrameAllocator PageTree Paging.
#[local] Open Scope Z_scope.

(** What the processor makes of an address. *)
Definition vm_translate (st : vm_state) (va : Z) : option Z :=
  mmu_translate (ram (vm_mem st)) (ptbr st) va.

(** ** Mapping a device page *)
Lemma map_device_page_sys limine st root G vb pb fl :
  hhdm_ok limine -> sys_ok limine (vm_mem st) root G ->
  page_tree st = Some (kernel_physical_to_virtual limine root) -> page_flags fl ->
  0 <= vb -> vb mod pageSize = 0 -> vb + pageSize <= 2 ^ 64 - pageSize ->
  0 <= pb -> pb mod pageSize = 0 -> pb + pageSize <= 2 ^ 52 ->
  tables_for 1 <= Z.of_nat (List.length (free_frames limine (vm_mem st))) ->
  exists st' G' used, paging_add_mapping limine vb pb pageSize fl st = Done st' /\
    sys_ok limine (vm_mem st') root G' /\ page_tree st' = page_tree st /\ ptbr st' = ptbr st /\
    free_frames limine (vm_mem st) = free_frames limine (vm_mem st') ++ used /\
    Z.of_nat (List.length used) <= tables_for 1 /\ grows G G' used /\
    storage (vm_mem st') = storage (vm_mem st) /\
    outside_tree G' (ram (vm_mem st)) (ram (vm_mem st')) /\
    (forall va, mmu_translate (ram (vm_mem st')) root va =
       if page_offset vb va =? 0 then Some (pb + va mod pageSize)
       else mmu_translate (ram (vm_mem st)) root va).
Proof.
  intros Hhhdm Hsys Hpt Hfl Hv0 Hvm Hvmax Hp0 Hpm H52 Hroom.
  destruct (one_page vb Hvm Hv0 Hvmax) as (Hr & Hf & Hn).
  assert (Hpf : page_floor pb = pb) by (unfold page_floor; rewrite Hpm, Z.sub_0_r; apply wrap_id; unfold pageSize in *; lia).
  assert (Hpb : 0 <= pb < 2 ^ 64) by (unfold pageSize in *; lia).
  destruct (paging_add_mapping_spec limine Hhhdm root st (ptbr st) G vb pb pageSize fl)
    as (k' & G' & used & Hadd & Hmr); rewrite ?Hn, ?Hf, ?Hpf, ?Z.mul_1_r; try done; try lia.
  { apply range_room; [done|]. exact Hroom. }
  rewrite Hn, Hf, Hpf in Hmr. change (Z.to_nat 1) with 1%nat in Hmr.
  eexists _, G', used. split; [exact Hadd|]. simpl.
  split; [apply Hmr|]. split; [done|]. split; [done|]. split; [apply Hmr|].
  split; [by apply (mapped_range_used _ _ _ _ _ _ _ _ _ _ _ Hvm Hmr)|].
  split; [apply Hmr|]. split; [apply Hmr|]. split; [apply Hmr|].
  intros va. rewrite (mapped_range_translate _ _ _ _ _ _ _ _ _ _ _ va Hsys Hmr Hfl Hp0 Hpm)
    by (change (Z.of_nat 1) with 1; lia).
  pose proof (page_offset_range vb va) as Hrg. change (Z.of_nat 1) with 1.
  destruct (Z.ltb_spec (page_offset vb va) 1), (Z.eqb_spec (page_offset vb va) 0); try lia; [|done].
  rewrite e. f_equal. lia.
Qed.

Lemma map_device_page limine st root vb pb fl :
  hhdm_ok limine -> page_tree_ok limine (vm_mem st) root ->
  page_tree st = Some (kernel_physical_to_virtual limine root) -> page_flags fl ->
  0 <= vb -> vb mod pageSize = 0 -> vb + pageSize <= 2 ^ 64 - pageSize ->
  0 <= pb -> pb mod pageSize = 0 -> pb + pageSize <= 2 ^ 52 ->
  tables_for 1 <= Z.of_nat (List.length (free_frames limine (vm_mem st))) ->
  exists st' used, paging_add_mapping limine vb pb pageSize fl st = Done st' /\
    page_tree_ok limine (vm_mem st') root /\ page_tree st' = page_tree st /\ ptbr st' = ptbr st /\
    free_frames limine (vm_mem st) = free_frames limine (vm_mem st') ++ used /\
    Z.of_nat (List.length used) <= tables_for 1 /\
    (forall va, mmu_translate (ram (vm_mem st')) root va =
       if page_offset vb va =? 0 then Some (pb + va mod pageSize)
       else mmu_translate (ram (vm_mem st)) root va).
Proof.
  intros Hhhdm [G Hsys] Hpt Hfl Hv0 Hvm Hvmax Hp0 Hpm H52 Hroom.
  destruct (map_device_page_sys limine st root G vb pb fl) as (st' & G' & used & Hd & Hs & H1 & H2 & H3 & H4 & _ & _ & _ & H5);
    try done.
  exists st', used. split; [done|]. split; [by exists G'|]. done.
Qed.

Lemma page_start va off :
  va mod pageSize = 0 -> 0 <= off < pageSize -> page_offset va (va + off) = 0 /\ (va + off) mod pageSize = off.
Proof.
  intros Hv Ho. pose proof (page_offset_add va 0 off ltac:(lia) Hv Ho) as Hz.
  pose proof (offset_in_page va 0 off Hv Ho) as Hm. by rewrite Z.mul_0_r, Z.add_0_r in Hz, Hm.
Qed.

Lemma device_page_translate st st' root vb pb off :
  (forall va, mmu_translate (ram (vm_mem st')) root va =
       if page_offset vb va =? 0 then Some (pb + va mod pageSize)
       else mmu_translate (ram (vm_mem st)) root va) ->
  vb mod pageSize = 0 -> 0 <= off < pageSize ->
  mmu_translate (ram (vm_mem st')) root (vb + off) = Some (pb + off).
Proof.
  intros Ht Hv Ho. destruct (page_start vb off Hv Ho) as [Hz Hm]. by rewrite Ht, Hz, Hm.
Qed.

(** The frames that the next [n] allocations hand out: the free list is a stack
    whose top is its end. *)
Definition next_frames (n : Z) (l : list Z) : list Z := drop (List.length l - Z.to_nat n) l.

Lemma next_frames_free n (l : list Z) f : f ∈ next_frames n l -> f ∈ l.
Proof. apply subseteq_drop. Qed.

Lemma next_frames_app n n' (l used : list Z) :
  0 <= n' -> n' + Z.of_nat (List.length used) <= n -> next_frames n' l ++ used ⊆ next_frames n (l ++ used).
Proof.
  intros Hn Hu f. unfold next_frames. rewrite length_app, drop_app_le, !elem_of_app by lia.
  intros [Hf|Hf]; [left|by right].
  replace (List.length l - Z.to_nat n')%nat with
    ((List.length l + List.length used - Z.to_nat n) +
     ((List.length l - Z.to_nat n') - (List.length l + List.length used - Z.to_nat n)))%nat in Hf by lia.
  rewrite <-drop_drop in Hf. by apply subseteq_drop in Hf.
Qed.

Lemma next_frames_weaken n n' (l : list Z) : n' <= n -> next_frames n' l ⊆ next_frames n l.
Proof.
  intros Hn f Hf. destruct (decide (0 <= n')) as [H0|H0].
  - pose proof (next_frames_app n n' l [] H0 ltac:(simpl; lia)) as Hs. rewrite !app_nil_r in Hs. by apply Hs.
  - unfold next_frames in Hf. rewrite drop_ge in Hf by lia. by apply not_elem_of_nil in Hf.
Qed.

(** ** The invariant *)
Section KernelMemory.
Context (limine : limine_features) (Hhhdm : hhdm_ok limine) (root : Z).
(** The physical bytes that are only read, and the memory they are from. *)
Context (area : Z -> Prop) (m0 : mem).
Implicit Types st : vm_state.

(** [n] frames at least are free, and the next [n] to be handed out are not in
    that part of memory; the frames below them may be. *)
Record memory_inv (n : Z) st (G : gmap (list Z) Z) : Prop := {
  km_sys : sys_ok limine (vm_mem st) root G;
  km_tree : page_tree st = Some (kernel_physical_to_virtual limine root);
  km_root : ptbr st = root;
  km_bytes a : area a -> load8 (ram (vm_mem st)) a = load8 m0 a;
  km_nodes a p f : area a -> G !! p = Some f -> ~ in_frame f a;
  km_free a f : area a -> f ∈ next_frames n (free_frames limine (vm_mem st)) -> ~ in_frame f a;
  km_storage a : area a -> ~ in_storage (vm_mem st) a;
  km_frames : n <= Z.of_nat (List.length (free_frames limine (vm_mem st)))
}.

Definition kernel_memory (n : Z) st : Prop := exists G, memory_inv n st G.

Lemma kernel_memory_weaken n n' st : n' <= n -> kernel_memory n st -> kernel_memory n' st.
Proof.
  intros Hn [G [? ? ? ? ? Hf ? ?]]. exists G. split; try done; [|lia].
  intros a f Ha Hin. apply (Hf a f Ha). by eapply next_frames_weaken.
Qed.

(** The bytes of that part of memory are as they were. *)
Lemma kernel_memory_bytes n st a : kernel_memory n st -> area a -> load8 (ram (vm_mem st)) a = load8 m0 a.
Proof. intros [G Hinv]. apply Hinv. Qed.

Lemma kernel_memory_tree n st : kernel_memory n st -> page_tree_ok limine (vm_mem st) root.
Proof. intros [G Hinv]. exists G. apply Hinv. Qed.

Lemma kernel_memory_frame n st f :
  kernel_memory n st -> f ∈ free_frames limine (vm_mem st) -> frame_ok f.
Proof. intros [G Hinv] Hf. pose proof (sys_free _ _ _ _ (km_sys _ _ _ Hinv)) as Hff. rewrite Forall_forall in Hff. auto. Qed.

(** The invariant after an operation that took frames and wrote page tables. *)
Lemma memory_inv_step n n' st st' G G' tables (used : list Z) :
  memory_inv n st G -> sys_ok limine (vm_mem st') root G' ->
  page_tree st' = page_tree st -> ptbr st' = ptbr st -> storage (vm_mem st') = storage (vm_mem st) -> grows G G' tables ->
  outside_tree G' (ram (vm_mem st)) (ram (vm_mem st')) ->
  free_frames limine (vm_mem st) = free_frames limine (vm_mem st') ++ used ->
  (forall f, f ∈ tables -> f ∈ used) ->
  0 <= n' -> n' + Z.of_nat (List.length used) <= n ->
  memory_inv n' st' G'.
Proof.
  intros [Hsys Ht Hr Hb Hn Hf Hs Hfr] Hsys' Ht' Hr' Hs' [_ Hg] Hout Hfree Hsub Hn0 Hn'.
  pose proof (next_frames_app n n' (free_frames limine (vm_mem st')) used Hn0 Hn') as Hnext.
  rewrite <-Hfree in Hnext.
  assert (Hnodes : forall a p f, area a -> G' !! p = Some f -> ~ in_frame f a).
  { intros a p f Ha [Hp|Hin]%Hg; [by eapply Hn|]. apply (Hf a f Ha), Hnext, elem_of_app. auto. }
  split; try done; [congruence|congruence| | | |].
  - intros a Ha. rewrite Hout; [by apply Hb|]. intros p f Hp. by eapply Hnodes.
  - intros a f Ha Hin. apply (Hf a f Ha), Hnext, elem_of_app. auto.
  - intros a Ha. rewrite (in_storage_eq (vm_mem st) (vm_mem st') a) by done. by apply Hs.
  - rewrite Hfree, length_app in Hfr. lia.
Qed.

(** Mapping the page of a device. *)
Lemma kernel_memory_map n st vb pb fl :
  kernel_memory (tables_for 1 + n) st -> page_flags fl ->
  0 <= vb -> vb mod pageSize = 0 -> vb + pageSize <= 2 ^ 64 - pageSize ->
  0 <= pb -> pb mod pageSize = 0 -> pb + pageSize <= 2 ^ 52 -> 0 <= n ->
  exists st', paging_add_mapping limine vb pb pageSize fl st = Done st' /\ kernel_memory n st' /\
    (forall f, f ∈ free_frames limine (vm_mem st') -> f ∈ free_frames limine (vm_mem st)) /\
    storage (vm_mem st') = storage (vm_mem st) /\
    (forall va, vm_translate st' va =
       if page_offset vb va =? 0 then Some (pb + va mod pageSize) else vm_translate st va).
Proof.
  intros [G Hinv] Hfl Hv0 Hvm Hvmax Hp0 Hpm H52 Hn. pose proof Hinv as [Hsys Ht Hr _ _ _ _ Hfr].
  destruct (map_device_page_sys limine st root G vb pb fl)
    as (st' & G' & used & Hd & Hs & Ht' & Hr' & Hfree & Hu & Hg & Hst' & Hout & Htr); try done; [lia|].
  exists st'. split; [done|]. split; [|split; [|split; [done|]]].
  - exists G'. eapply (memory_inv_step _ n _ _ G _ used used); try done. lia.
  - intros f Hf. rewrite Hfree, elem_of_app. by left.
  - intros va. unfold vm_translate. rewrite Hr', Hr. apply Htr.
Qed.

(** Putting fresh frames behind the pages of a range. *)
Lemma kernel_memory_allocate n st vb len fl :
  let k := num_pages (get_page_range vb len) in
  kernel_memory (k + tables_for k + n) st -> page_flags fl -> range_ok vb len -> k <= 2 ^ 36 -> 0 <= n ->
  exists st' fs, paging_allocate_and_map limine vb len fl st = Done st' /\ kernel_memory n st' /\
    Z.of_nat (List.length fs) = k /\ NoDup fs /\
    (forall f, f ∈ fs -> f ∈ free_frames limine (vm_mem st) /\ f ∉ free_frames limine (vm_mem st')) /\
    (forall f, f ∈ free_frames limine (vm_mem st') -> f ∈ free_frames limine (vm_mem st)) /\
    storage (vm_mem st') = storage (vm_mem st) /\
    (forall va, vm_translate st' va =
       match fs !! Z.to_nat (page_offset (page_floor vb) va) with
       | Some f => Some (f + va mod pageSize)
       | None => vm_translate st va
       end).
Proof.
  intros k [G Hinv] Hfl Hr Hk Hn. pose proof Hinv as [Hsys Ht Hroot _ _ _ _ Hfr].
  destruct (paging_allocate_and_map_spec limine Hhhdm root (vm_mem st) (ptbr st) G vb len fl)
    as (k' & G' & fs & tables & Hlen & Hd & Har); try done; [fold k; lia|].
  fold k in Hlen. rewrite <-Ht in Hd. destruct st as [km pt pr]. cbn [vm_mem page_tree ptbr] in *.
  destruct (page_floor_bounds vb (proj1 Hr)) as (Hvm & _).
  pose proof (allocated_range_used _ _ _ _ _ _ _ _ _ _ Hvm Har) as Hu. rewrite Hlen in Hu.
  destruct Har as [Hsys' HG (used & Hfree & Hused) _ Hgr Hsto Hleaf _ _ Hout].
  pose proof (sys_nodup _ _ _ _ Hsys) as Hnd. rewrite Hfree, Hused in Hnd.
  rewrite !NoDup_app in Hnd. destruct Hnd as (_ & Hn1 & _ & _ & Hndfs).
  assert (Hsub : forall f, f ∈ free_frames limine k' \/ f ∈ tables \/ f ∈ fs -> f ∈ free_frames limine km)
    by (intros f Hf; by rewrite Hfree, Hused, !elem_of_app).
  exists (VM k' pt pr), fs. split; [exact Hd|].
  split; [|split; [done|split; [done|split; [|split; [by auto|split; [exact Hsto|]]]]]].
  - exists G'. eapply (memory_inv_step _ n _ _ G _ tables used); try done; cbn [vm_mem].
    + intros f Hf. rewrite Hused, elem_of_app. by left.
    + rewrite (Permutation_length Hused), length_app. lia.
  - intros f Hf. split; [by auto|]. intros Hin. apply (Hn1 f Hin). rewrite elem_of_app. by right.
  - intros va. unfold vm_translate. cbn [vm_mem ptbr]. rewrite Hroot. specialize (Hleaf va).
    destruct (fs !! _) as [f|] eqn:Hf.
    + apply (translate_leaf _ _ G' _ _ fl); [apply Hsys'|done| |exact Hleaf].
      assert (Hin : f ∈ free_frames limine km) by (apply Hsub; right; right; by eapply list_elem_of_lookup_2).
      pose proof (sys_free _ _ _ _ Hsys) as Hff. rewrite Forall_forall in Hff. by apply frame_ok_aligned, Hff.
    + by eapply translate_same; [apply Hsys|apply Hsys'|].
Qed.

(** ** Frames that a client holds *)

(** Only bytes of frame [f] differ, which is neither a table, nor free, nor part
    of the free stack. *)
Lemma memory_inv_write n st G f m' :
  memory_inv n st G -> (forall a, in_frame f a -> ~ area a) ->
  (forall p g a, G !! p = Some g -> in_frame g a -> ~ in_frame f a) ->
  (forall a, in_frame f a -> ~ in_storage (vm_mem st) a) ->
  same_outside f (f + frameSize) (ram (vm_mem st)) m' ->
  let st' := VM (KMem m' (free_stack (vm_mem st))) (page_tree st) (ptbr st) in
  memory_inv n st' G /\ free_frames limine (vm_mem st') = free_frames limine (vm_mem st) /\
  forall va, vm_translate st' va = vm_translate st va.
Proof.
  intros [Hsys Ht Hr Hb Hn Hf Hs Hfr] Ha Hg Hst Hout st'.
  assert (Hsame : forall a, ~ in_frame f a -> load8 m' a = load8 (ram (vm_mem st)) a).
  { intros a Hna. apply Hout. unfold in_frame in Hna. lia. }
  assert (Hnode : forall p g i, G !! p = Some g -> 0 <= i < 512 -> node_entry m' g i = node_entry (ram (vm_mem st)) g i).
  { intros p g i Hp Hi. apply load_same. intros a Hai. apply Hsame, (Hg p g); [done|].
    unfold in_frame, frameSize. assert (Z.of_nat 8 = 8) by done. lia. }
  destruct (tree_ok_same _ m' _ _ (sys_tree _ _ _ _ Hsys) Hnode) as [Htree Hleaf].
  destruct (sys_update limine (vm_mem st) root G m' Hsys) as [Hsys' Hfree]; [|done|].
  { intros a Hin. apply Hsame. intros Hfa. by apply (Hst a). }
  split; [|split; [exact Hfree|]].
  - split; cbn [vm_mem page_tree ptbr st']; rewrite ?Hfree; try done.
    intros a Haa. cbn [ram]. rewrite Hsame; [by apply Hb|]. intros Hfa. by apply (Ha a).
  - intros va. unfold vm_translate. cbn [vm_mem ptbr ram st']. rewrite Hr.
    rewrite (mmu_translate_eq _ _ _ Htree), (mmu_translate_eq _ _ _ (sys_tree _ _ _ _ Hsys)). by rewrite Hleaf.
Qed.
End KernelMemory.

(** A frame taken from the allocator: from then on its bytes are like those that
    are only read, except for the holder. *)
Definition holding (area : Z -> Prop) (f : Z) : Z -> Prop := fun a => area a \/ in_frame f a.

Lemma kernel_memory_take limine (Hhhdm : hhdm_ok limine) root area m0 n st :
  kernel_memory limine root area m0 (1 + n) st -> 0 <= n ->
  exists f k, allocate_frame limine (vm_mem st) = Done (f, k) /\
    kernel_memory limine root (holding area f) (ram (vm_mem st)) n (VM k (page_tree st) (ptbr st)) /\
    (f ∈ free_frames limine (vm_mem st)) /\ ram k = ram (vm_mem st) /\ (forall a, in_frame f a -> ~ area a) /\
    (f ∉ free_frames limine k) /\ storage k = storage (vm_mem st).
Proof.
  intros [G [Hsys Ht Hr Hb Hn Hf Hs Hfr]] Hn0.
  destruct (list_snoc_cases (free_frames limine (vm_mem st))) as [Hnil|(l & f & Hl)]; [rewrite Hnil in Hfr; simpl in Hfr; lia|].
  destruct (allocate_frame_spec _ _ _ _ (sys_alloc _ _ _ _ Hsys) Hl) as (k & Ha & Hram & Hfree & Hok & Hsto).
  pose proof (sys_free _ _ _ _ Hsys) as Hff. pose proof (sys_nodup _ _ _ _ Hsys) as Hnd.
  rewrite Forall_forall in Hff. assert (Hin : f ∈ free_frames limine (vm_mem st)) by (rewrite Hl, elem_of_app, list_elem_of_singleton; auto).
  assert (Hsub : forall g, g ∈ free_frames limine k -> g ∈ free_frames limine (vm_mem st) /\ g <> f).
  { intros g. rewrite Hfree, Hl, elem_of_app. intros Hg. split; [by left|]. intros ->.
    rewrite Hl, NoDup_app in Hnd. by apply (proj1 (proj2 Hnd) f Hg), list_elem_of_singleton. }
  assert (Hnext : next_frames n (free_frames limine k) ++ [f] ⊆ next_frames (1 + n) (free_frames limine (vm_mem st))).
  { rewrite Hfree, Hl. apply next_frames_app; simpl; lia. }
  assert (Hst : forall a, in_storage k a <-> in_storage (vm_mem st) a) by (intros a; by rewrite (in_storage_eq (vm_mem st) k a)).
  assert (Hal := fun g Hg => frame_ok_aligned g (Hff g Hg)).
  exists f, k. split; [exact Ha|]. split; [|split; [exact Hin|split; [exact Hram|split; [|split; [|exact Hsto]]]]].
  - exists G. split; cbn [vm_mem page_tree ptbr]; try done.
    + split; rewrite ?Hram; try apply Hsys; try done.
      * rewrite Hfree. rewrite Hl in Hff. apply Forall_forall. intros g Hg. apply Hff, elem_of_app. by left.
      * rewrite Hfree. rewrite Hl in Hnd. by apply NoDup_app in Hnd as [? _].
      * intros p g Hp Hg. apply Hsub in Hg as [Hg _]. by eapply (sys_fresh _ _ _ _ Hsys).
      * intros g a Hg Hga. rewrite Hst. apply (sys_apart _ _ _ _ Hsys g a); [|done].
        destruct Hg as [Hg|Hg]; [left; by apply Hsub|by right].
    + intros a _. by rewrite Hram.
    + intros a p g [Haa|Hfa] Hp Hga; [by eapply Hn|].
      assert (g <> f) as Hne by (intros ->; by eapply (sys_fresh _ _ _ _ Hsys)).
      destruct (frames_apart g f (tree_frame _ _ _ (sys_tree _ _ _ _ Hsys) _ _ Hp) (Hff f Hin) Hne);
        unfold in_frame, frameSize in *; lia.
    + intros a g [Haa|Hfa] Hg Hga; [apply (Hf a g Haa); [|done]; apply Hnext, elem_of_app; by left|].
      apply next_frames_free, Hsub in Hg as [Hg Hne].
      destruct (frames_apart g f (Hff g Hg) (Hff f Hin) Hne); unfold in_frame, frameSize in *; lia.
    + intros a [Haa|Hfa]; rewrite Hst; [by apply Hs|]. apply (sys_apart _ _ _ _ Hsys f a); auto.
    + rewrite Hfree. rewrite Hl, length_app in Hfr. simpl in Hfr. lia.
  - intros a Hfa Haa. apply (Hf a f Haa); [|done]. apply Hnext, elem_of_app. right. by apply list_elem_of_singleton.
  - intros Hg. by apply Hsub in Hg as [_ Hg].
Qed.

(** The holder writes the frame and lets it go from the invariant. *)
Lemma kernel_memory_write limine root area m0 n st f m' :
  kernel_memory limine root (holding area f) m0 n st -> (forall a, in_frame f a -> ~ area a) ->
  same_outside f (f + frameSize) (ram (vm_mem st)) m' ->
  let st' := VM (KMem m' (free_stack (vm_mem st))) (page_tree st) (ptbr st) in
  kernel_memory limine root area m0 n st' /\ free_frames limine (vm_mem st') = free_frames limine (vm_mem st) /\
  forall va, vm_translate st' va = vm_translate st va.
Proof.
  intros [G Hinv] Ha Hout st'. pose proof Hinv as [Hsys Ht Hr Hb Hn Hf Hs Hfr].
  assert (Hinv0 : memory_inv limine root area m0 n st G).
  { split; try done; intros; [apply Hb|eapply Hn|eapply Hf|apply Hs]; try done; by left. }
  destruct (memory_inv_write limine root area m0 n st G f m' Hinv0 Ha) as (Hinv' & Hfree & Htr); try done.
  - intros p g a Hp Hga Hfa. by apply (Hn a p g); [right| |].
  - intros a Hfa. apply Hs. by right.
  - split; [by exists G|done].
Qed.

(** The memory that is only read may as well be the present one. *)
Lemma kernel_memory_now limine root area m0 n st :
  kernel_memory limine root area m0 n st -> kernel_memory limine root area (ram (vm_mem st)) n st.
Proof. intros [G [? ? ? ? ? ? ? ?]]. exists G. by split. Qed.

Lemma kernel_memory_rebase limine root area m0 m1 n st :
  (forall a, area a -> load8 m1 a = load8 m0 a) -> kernel_memory limine root area m1 n st ->
  kernel_memory limine root area m0 n st.
Proof. intros Hm [G [? ? ? Hb ? ? ? ?]]. exists G. split; try done. intros a Ha. by rewrite Hb, Hm. Qed.

(** The memory that is only read may be forgotten. *)
Lemma kernel_memory_forget limine root area m0 n st :
  kernel_memory limine root area m0 n st -> kernel_memory limine root (fun _ => False) ∅ n st.
Proof. intros [G [? ? ? ? ? ? ? ?]]. exists G. by split. Qed.

(** Nothing is only read. *)
Lemma kernel_memory_all limine root m0 n st :
  page_tree_ok limine (vm_mem st) root -> page_tree st = Some (kernel_physical_to_virtual limine root) ->
  ptbr st = root -> n <= Z.of_nat (List.length (free_frames limine (vm_mem st))) ->
  kernel_memory limine root (fun _ => False) m0 n st.
Proof. intros [G Hsys] Ht Hr Hn. exists G. by split. Qed.

(** ** Start-up *)

(** The byte belongs to memory that the frame allocator may hand out. *)
Definition managed_byte (limine : limine_features) (a : Z) : Prop :=
  in_entry limine is_allocatable a \/ in_entry limine reclaimable a.

(** The frames that the first [n] allocations after [paging_init] may hand out,
    [l] being free before it takes its tables from the end of [l]: the boot
    loader's frames are on top of what it leaves, as far as the stack has room. *)
Definition handed_out (limine : limine_features) (l : list Z) (n f : Z) : Prop :=
  exists l' : list Z, l' `prefix_of` l /\
    f ∈ next_frames n
      (take (List.length (usable_frames limine)) (l' ++ frames_of reclaimable (memory_map limine))).

(** Bytes that stay as they are while [n] frames are handed out: they are not in
    usable memory, and not in one of those frames. *)
Definition undisturbed (limine : limine_features) (l : list Z) (n a : Z) : Prop :=
  ~ in_entry limine is_allocatable a /\ forall f, handed_out limine l n f -> ~ in_frame f a.

Section Startup.
Context (limine : limine_features) (symbols : linker_symbols) (Hbm : boot_memmap limine).

Lemma managed_frame use f a :
  (use = is_allocatable \/ use = reclaimable) -> f ∈ frames_of use (memory_map limine) ->
  in_frame f a -> managed_byte limine a.
Proof.
  intros Huse Hf Ha. destruct (boot_frame limine Hbm use f) as (e & He & Hu & _ & H1 & H2); [|done|].
  - intros e He. destruct Huse as [-> | ->]; auto.
  - assert (in_entry limine use a) as Hin by (exists e; unfold in_frame in *; split; [done|split; [done|lia]]).
    destruct Huse as [-> | ->]; [by left|by right].
Qed.

(** Initialising the frame allocator and paging, on the memory map of a machine
    with its memory below 4 GiB. *)
Lemma kernel_memory_boot area st b l root n :
  let maps := initial_mappings limine symbols in
  hhdm_ok limine -> b = manually_reserve_contiguous_frames limine (stack_frames limine) -> b <> 0 ->
  Forall mapping_ok maps -> initial_free_frames limine b = l ++ [root] ->
  0 <= n -> n + tables_for_all maps <= Z.of_nat (List.length l) ->
  (forall a, area a -> undisturbed limine l n a) ->
  exists k st', frame_allocator_init limine (vm_mem st) = Done k /\
    paging_init limine symbols (VM k (page_tree st) (ptbr st)) = Done st' /\
    kernel_memory limine root area (ram (vm_mem st)) n st' /\
    (forall va, vm_translate st' va =
       match last_mapping maps va with Some (frame, _) => Some (frame + va mod pageSize) | None => None end) /\
    (forall f, f ∈ free_frames limine (vm_mem st') -> forall a, in_frame f a -> managed_byte limine a) /\
    storage (vm_mem st') = Some (b, Z.of_nat (List.length (usable_frames limine))) /\
    (forall a, in_storage (vm_mem st') a -> in_entry limine is_allocatable a).
Proof.
  intros maps Hh Hb Hb0 Hmaps Hl Hn0 Hn Harea.
  destruct (boot_ready_init limine Hbm (vm_mem st) b Hb Hb0) as (k & Hi & Hready & Hfree & Hmem & Hsk & Hent).
  rewrite Hl in Hfree. set (st1 := VM k (page_tree st) (ptbr st)).
  destruct (paging_init_done limine symbols st1 l root Hh Hready Hmaps Hfree)
    as (k' & G & used & l' & Hd & Hsys & Hleaf & _ & Hu & Hl' & Hfr & Hnodes & Hsto & Hout); [fold maps; lia|].
  fold maps in Hleaf, Hu. cbn [vm_mem st1] in *.
  assert (Husable : forall f a, f ∈ free_frames limine k -> in_frame f a -> in_entry limine is_allocatable a).
  { intros f a Hf Ha. rewrite Hfree, <-Hl in Hf. unfold initial_free_frames in Hf.
    apply list_elem_of_filter in Hf as [_ Hf].
    destruct (boot_frame limine Hbm is_allocatable f) as (e & He & Hue & _ & H1 & H2); [auto|done|].
    exists e. unfold in_frame in *. split; [done|split; [done|lia]]. }
  assert (Hmanaged : forall f a, f ∈ free_frames limine k -> in_frame f a -> managed_byte limine a)
    by (intros f a Hf Ha; left; by eapply Husable).
  assert (Hcapk : Z.to_nat (capacity k) = List.length (usable_frames limine))
    by (unfold capacity; rewrite Hsk; simpl; lia).
  assert (Hmanaged' : forall f a, f ∈ free_frames limine k' -> in_frame f a -> managed_byte limine a).
  { intros f a Hf. rewrite Hfr in Hf. apply subseteq_take, elem_of_app in Hf as [Hf|Hf].
    - apply Hmanaged. rewrite Hfree, Hl', !elem_of_app. auto.
    - apply (managed_frame reclaimable); [by right|exact Hf]. }
  exists k, (VM k' (Some (kernel_physical_to_virtual limine root)) root).
  assert (Hout' : forall a, area a -> ~ in_storage k a /\ load8 (ram k) a = load8 (ram (vm_mem st)) a /\
    forall f, f ∈ free_frames limine k -> ~ in_frame f a).
  { intros a Ha. destruct (Harea a Ha) as [Hnu _]. split; [by apply Hmem|]. split; [by apply Hmem|].
    intros f Hf Hin. by apply Hnu, (Husable f). }
  split; [exact Hi|split; [exact Hd|split; [|split; [|split; [|split]]]]].
  - exists G. split; cbn [vm_mem page_tree ptbr]; try done.
    + intros a Ha. destruct (Hout' a Ha) as (H1 & H2 & H3). by rewrite Hout.
    + intros a p f Ha Hp. destruct (Hout' a Ha) as (_ & _ & H3). eapply H3, Hnodes, Hp.
    + intros a f Ha Hf. destruct (Harea a Ha) as [_ Hho]. apply Hho. exists l'. split; [by exists used|].
      by rewrite <-Hcapk, <-Hfr.
    + intros a Ha. rewrite (in_storage_eq k k' a) by done. by apply Hout'.
    + rewrite Hfr, length_take, length_app.
      assert (Hcap : Z.of_nat (List.length l) <= capacity k).
      { pose proof (free_frames_length _ _ (br_alloc _ _ Hready)) as Hc.
        rewrite Hfree, length_app in Hc. lia. }
      rewrite Hl', length_app in Hn, Hcap. lia.
  - intros va. unfold vm_translate. cbn [vm_mem ptbr]. specialize (Hleaf va).
    destruct (last_mapping maps va) as [[frame fl]|] eqn:Hlast.
    + destruct (last_mapping_ok _ _ _ _ Hmaps Hlast) as [Hfa Hfl].
      by apply (translate_leaf _ _ G _ _ fl); [apply Hsys| | |].
    + by rewrite (mmu_translate_eq _ _ _ (sys_tree _ _ _ _ Hsys)), Hleaf.
  - intros f Hf a. by apply Hmanaged'.
  - cbn [vm_mem]. by rewrite Hsto.
  - intros a Ha. cbn [vm_mem] in Ha. rewrite (in_storage_eq k k' a) in Ha by done. by apply Hent.
Qed.
End Startup.
