(* ===== verification/Containers.v ===== *)
(** * Containers of the support library

    [kpp::CircularQueue] (lib/kpp/include/kpp/CircularQueue.hpp) and the
    [KeyboardBuffer] built on it (include/kernel/KeyboardBuffer.hpp),
    [kpp::Optional] (optional.hpp) and [kpp::UniquePtr] (UniquePtr.hpp).  The
    queue is related to a bounded FIFO list; the two owning containers are
    modelled over a store, because what they do to an object depends on which
    other handle refers to it. *)

From Stdlib Require Import ZArith Lia String.
From stdpp Require Import base gmap list list_numbers numbers strings.
From S2P Require Import Prelude.
#[local] Open Scope nat_scope.

(** ** kpp::CircularQueue<T, capacity> *)
Record CircularQueue (A : Type) := MkQueue {
  m_data : list A;
  m_front : nat;
  m_back : nat;
  q_size : nat
}.
Arguments MkQueue {A} m_data m_front m_back q_size.
Arguments m_data {A} q : rename.
Arguments m_front {A} q : rename.
Arguments m_back {A} q : rename.
Arguments q_size {A} q : rename.

Section CircularQueue.
Context {A : Type} (capacity : nat) (dflt : A).

(** The array is not initialised: it holds [capacity] elements of any value. *)
Definition queue_new (data : list A) : CircularQueue A := MkQueue data 0 0 0.

Definition isEmpty (q : CircularQueue A) : bool := q_size q =? 0.
Definition isFull (q : CircularQueue A) : bool := q_size q =? capacity.

Definition enqueue (item : A) (q : CircularQueue A) : CircularQueue A :=
  if isFull q then q
  else MkQueue (<[m_back q := item]> (m_data q)) (m_front q)
         ((m_back q + 1) mod capacity) (q_size q + 1).

Definition dequeue (q : CircularQueue A) : A * CircularQueue A :=
  if isEmpty q then (dflt, q)
  else (nth (m_front q) (m_data q) dflt,
        MkQueue (m_data q) ((m_front q + 1) mod capacity) (m_back q) (q_size q - 1)).

(** *** Specification: a bounded list *)

Definition slot (q : CircularQueue A) (i : nat) : nat := (m_front q + i) mod capacity.

Definition contents (q : CircularQueue A) : list A :=
  (fun i => nth (slot q i) (m_data q) dflt) <$> seq 0 (q_size q).

Record queue_ok (q : CircularQueue A) : Prop := {
  qo_cap : 0 < capacity;
  qo_data : List.length (m_data q) = capacity;
  qo_front : m_front q < capacity;
  qo_size : q_size q <= capacity;
  qo_back : m_back q = slot q (q_size q)
}.

Definition fifo_put (item : A) (l : list A) : list A :=
  if List.length l =? capacity then l else l ++ [item].

Definition fifo_get (l : list A) : A * list A :=
  match l with [] => (dflt, []) | x :: l => (x, l) end.

Lemma contents_length q : List.length (contents q) = q_size q.
Proof. unfold contents. by rewrite length_fmap, length_seq. Qed.

Lemma queue_new_ok data : 0 < capacity -> List.length data = capacity -> queue_ok (queue_new data).
Proof. intros. split; simpl; try lia. unfold slot. simpl. rewrite Nat.Div0.mod_0_l. done. Qed.

Lemma slot_lt q i : 0 < capacity -> slot q i < capacity.
Proof. intros. apply Nat.mod_upper_bound. lia. Qed.

(** Two positions of the ring that hold elements are different slots. *)
Lemma slot_inj q i j : i < capacity -> j < capacity -> slot q i = slot q j -> i = j.
Proof.
  unfold slot. intros Hi Hj Heq.
  pose proof (Nat.div_mod_eq (m_front q + i) capacity).
  pose proof (Nat.div_mod_eq (m_front q + j) capacity).
  assert ((m_front q + i) / capacity = (m_front q + j) / capacity \/
    (m_front q + i) / capacity < (m_front q + j) / capacity \/
    (m_front q + j) / capacity < (m_front q + i) / capacity) as [|[]] by lia; nia.
Qed.

Lemma enqueue_spec item q :
  queue_ok q -> queue_ok (enqueue item q) /\ contents (enqueue item q) = fifo_put item (contents q).
Proof.
  intros Hok. pose proof Hok as [Hc Hd Hf Hs Hb]. unfold enqueue, isFull, fifo_put.
  rewrite contents_length. destruct (Nat.eqb_spec (q_size q) capacity) as [Hfull|Hroom]; [done|].
  split.
  - split; simpl; try lia; [by rewrite length_insert|].
    rewrite Hb. unfold slot. simpl. rewrite Nat.Div0.add_mod_idemp_l. f_equal. lia.
  - unfold contents. cbn [q_size]. rewrite (Nat.add_1_r (q_size q)), seq_S, fmap_app. cbn [fmap list_fmap].
    simpl m_data. f_equal.
    + apply list_fmap_ext. intros i k [-> Hk]%lookup_seq.
      unfold slot. simpl. rewrite !nth_lookup, list_lookup_insert_ne; [done|].
      rewrite Hb. intros Heq. apply slot_inj in Heq; lia.
    + unfold slot. simpl. rewrite nth_lookup, Hb. unfold slot.
      rewrite list_lookup_insert_eq; [done|]. rewrite Hd. apply Nat.mod_upper_bound; lia.
Qed.

Lemma dequeue_spec q :
  queue_ok q ->
  fst (dequeue q) = fst (fifo_get (contents q)) /\
  queue_ok (snd (dequeue q)) /\ contents (snd (dequeue q)) = snd (fifo_get (contents q)).
Proof.
  intros Hok. pose proof Hok as [Hc Hd Hf Hs Hb]. unfold dequeue, isEmpty.
  destruct (Nat.eqb_spec (q_size q) 0) as [Hz|Hz].
  { assert (He : contents q = []) by (unfold contents; by rewrite Hz).
    rewrite He. simpl. split; [reflexivity|]. split; [assumption|exact He]. }
  assert (Hcons : contents q = nth (m_front q) (m_data q) dflt ::
    contents (MkQueue (m_data q) ((m_front q + 1) mod capacity) (m_back q) (q_size q - 1))).
  { unfold contents. destruct (q_size q) as [|n]; [done|]. simpl. f_equal.
    - unfold slot. rewrite Nat.add_0_r, Nat.mod_small by lia. done.
    - rewrite Nat.sub_0_r, <-seq_shift, <-list_fmap_compose. apply list_fmap_ext.
      intros i k Hk. simpl. unfold slot. simpl. rewrite Nat.Div0.add_mod_idemp_l.
      do 2 f_equal. lia. }
  rewrite Hcons. simpl. split; [done|]. split; [|done]. split; simpl; try lia.
  - apply Nat.mod_upper_bound. lia.
  - unfold slot. simpl. rewrite Nat.Div0.add_mod_idemp_l, Hb. unfold slot. f_equal. lia.
Qed.

(** Operations and what they return. *)
Inductive queue_op := Enqueue (item : A) | Dequeue.

Definition queue_step (q : CircularQueue A) (o : queue_op) : CircularQueue A * list A :=
  match o with
  | Enqueue item => (enqueue item q, [])
  | Dequeue => let '(x, q) := dequeue q in (q, [x])
  end.

Definition fifo_step (l : list A) (o : queue_op) : list A * list A :=
  match o with
  | Enqueue item => (fifo_put item l, [])
  | Dequeue => let '(x, l) := fifo_get l in (l, [x])
  end.

Fixpoint run_ops {S} (step : S -> queue_op -> S * list A) (s : S) (ops : list queue_op) : S * list A :=
  match ops with
  | [] => (s, [])
  | o :: ops =>
      let '(s, out) := step s o in
      let '(s, outs) := run_ops step s ops in (s, out ++ outs)
  end.

Lemma run_ops_refines ops q :
  queue_ok q ->
  queue_ok (fst (run_ops queue_step q ops)) /\
  run_ops fifo_step (contents q) ops =
    (contents (fst (run_ops queue_step q ops)), snd (run_ops queue_step q ops)).
Proof.
  revert q. induction ops as [|o ops IH]; intros q Hok; [done|].
  cbn [run_ops]. assert (Hstep : queue_ok (fst (queue_step q o)) /\
    fifo_step (contents q) o = (contents (fst (queue_step q o)), snd (queue_step q o))).
  { destruct o as [item|]; simpl.
    - destruct (enqueue_spec item q Hok) as [? ->]. done.
    - destruct (dequeue_spec q Hok) as (Hx & Hok' & Hl).
      destruct (dequeue q) as [x q']. destruct (fifo_get (contents q)) as [y l]. simpl in *. by subst. }
  destruct Hstep as [Hok' ->]. destruct (queue_step q o) as [q' out]. simpl in *.
  destruct (IH q' Hok') as [Hok'' ->]. by destruct (run_ops queue_step q' ops).
Qed.
End CircularQueue.
Arguments queue_op A : clear implicits.

(** C28. The circular queue is a bounded FIFO: any sequence of operations on a
    fresh queue returns what the same operations return on a list that takes
    new elements at the end, ignores them when it holds [capacity] elements,
    gives elements from the front and gives the default value when empty. *)
Theorem circular_queue_refines_fifo {A} capacity (dflt : A) data ops :
  0 < capacity -> List.length data = capacity ->
  snd (run_ops (queue_step capacity dflt) (queue_new data) ops) =
    snd (run_ops (fifo_step capacity dflt) [] ops) /\
  contents capacity dflt (fst (run_ops (queue_step capacity dflt) (queue_new data) ops)) =
    fst (run_ops (fifo_step capacity dflt) [] ops).
Proof.
  intros Hc Hd. destruct (run_ops_refines capacity dflt ops (queue_new data)) as [_ Hrun].
  { by apply queue_new_ok. }
  assert (Hnil : contents capacity dflt (queue_new data) = []) by done.
  rewrite Hnil in Hrun. by rewrite Hrun.
Qed.

Lemma circular_queue_refines_fifo_witness :
  snd (run_ops (queue_step 2 0) (queue_new [7; 7])
    [Enqueue 1; Enqueue 2; Enqueue 3; Dequeue; Enqueue 4; Dequeue; Dequeue; Dequeue]) = [1; 2; 4; 0].
Proof.
  destruct (circular_queue_refines_fifo 2 0 [7; 7]
    [Enqueue 1; Enqueue 2; Enqueue 3; Dequeue; Enqueue 4; Dequeue; Dequeue; Dequeue]) as [H _].
  - lia.
  - reflexivity.
  - rewrite H. reflexivity.
Defined.

(** ** KeyboardBuffer *)

(** enum class Key: the printable keys are their ASCII codes. *)
Module Key.
Definition None : Z := 0.
Definition backspace : Z := 8.
Definition tab : Z := 9.
Definition enter : Z := 10.
Definition escape : Z := 27.
Definition UpArrow : Z := 0x100.
Definition DownArrow : Z := 0x101.
Definition LeftArrow : Z := 0x102.
Definition RightArrow : Z := 0x103.
End Key.

Abbreviation KeyboardBuffer := (CircularQueue Z).
Definition s_maxSize : nat := 256.

Definition KeyboardBuffer_new : KeyboardBuffer := queue_new (replicate s_maxSize 0%Z).
Definition KeyboardBuffer_put (c : Z) (b : KeyboardBuffer) : KeyboardBuffer := enqueue s_maxSize c b.
Definition KeyboardBuffer_get (b : KeyboardBuffer) : Z * KeyboardBuffer := dequeue s_maxSize Key.None b.
Definition KeyboardBuffer_hasData (b : KeyboardBuffer) : bool := negb (isEmpty b).

(** The keys waiting, oldest first. *)
Definition pending (b : KeyboardBuffer) : list Z := contents s_maxSize Key.None b.
Definition keyboard_ok (b : KeyboardBuffer) : Prop := queue_ok s_maxSize b.

Lemma keyboard_new_ok : keyboard_ok KeyboardBuffer_new.
Proof. apply queue_new_ok; [unfold s_maxSize; lia|apply length_replicate]. Qed.

Lemma keyboard_put_spec c b :
  keyboard_ok b -> keyboard_ok (KeyboardBuffer_put c b) /\
    pending (KeyboardBuffer_put c b) = fifo_put s_maxSize c (pending b).
Proof. apply enqueue_spec. Qed.

Lemma keyboard_get_spec b :
  keyboard_ok b ->
  fst (KeyboardBuffer_get b) = fst (fifo_get Key.None (pending b)) /\
  keyboard_ok (snd (KeyboardBuffer_get b)) /\
  pending (snd (KeyboardBuffer_get b)) = snd (fifo_get Key.None (pending b)).
Proof. apply dequeue_spec. Qed.

Lemma keyboard_fill_ok keys :
  let b := foldl (fun b k => KeyboardBuffer_put k b) KeyboardBuffer_new keys in
  keyboard_ok b /\ pending b = take s_maxSize keys.
Proof.
  induction keys as [|k keys [Hok IH]] using rev_ind; [split; [apply keyboard_new_ok|done]|].
  cbv zeta. rewrite foldl_app. cbn [foldl].
  destruct (keyboard_put_spec k _ Hok) as [Hok' Hp]. split; [done|].
  rewrite Hp, IH. unfold fifo_put. rewrite length_take.
  destruct (Nat.eqb_spec (Nat.min s_maxSize (List.length keys)) s_maxSize) as [Hf|Hr].
  - rewrite take_app_le; [done|lia].
  - rewrite take_ge by lia. symmetry. apply take_ge. rewrite length_app. simpl. lia.
Qed.

Lemma keyboard_fill keys :
  pending (foldl (fun b k => KeyboardBuffer_put k b) KeyboardBuffer_new keys) = take s_maxSize keys.
Proof. apply keyboard_fill_ok. Qed.

(** When the buffer is full the keys typed later are the ones that are
    lost: however many keys arrive, the first 256 are kept in order. *)
Theorem keyboard_overflow_drops_newest keys :
  let b := foldl (fun b k => KeyboardBuffer_put k b) KeyboardBuffer_new keys in
  keyboard_ok b /\ pending b = take s_maxSize keys /\
  (keys <> [] -> KeyboardBuffer_hasData b = true).
Proof.
  pose proof (keyboard_fill_ok keys) as Hinv.
  cbv zeta in *. destruct Hinv as [Hok Hp]. split; [done|]. split; [done|].
  intros Hne. unfold KeyboardBuffer_hasData, isEmpty.
  rewrite <-(contents_length s_maxSize Key.None). fold (pending (foldl (fun b k => KeyboardBuffer_put k b) KeyboardBuffer_new keys)).
  rewrite Hp, length_take. destruct keys; [done|]. simpl. done.
Qed.

Lemma keyboard_overflow_drops_newest_witness :
  KeyboardBuffer_hasData (KeyboardBuffer_put 97%Z KeyboardBuffer_new) = true.
Proof.
  destruct (keyboard_overflow_drops_newest [97%Z]) as (_ & _ & H). apply H. discriminate.
Defined.

(** ** kpp::Optional<T>

    The Optionals of the program are named by numbers.  [buffer] is the object
    living in the storage, if one has been constructed there and not destroyed;
    reading storage without a living object is undefined.  The world counts the
    constructor and destructor calls of [T]. *)
Record Optional (A : Type) := MkOptional { buffer : option A; is_present : bool }.
Arguments MkOptional {A} buffer is_present.
Arguments buffer {A} o : rename.
Arguments is_present {A} o : rename.

Record opt_world (A : Type) := OptWorld {
  objects : gmap nat (Optional A);
  constructed : nat;
  destroyed : nat
}.
Arguments OptWorld {A} objects constructed destroyed.
Arguments objects {A} w : rename.
Arguments constructed {A} w : rename.
Arguments destroyed {A} w : rename.

Section Optional.
Context {A : Type} (moved : A -> A).

(** [Optional()] *)
Definition opt_empty : Optional A := MkOptional None false.
Definition opt_new : opt_world A := OptWorld ∅ 0 0.

Definition opt_at (w : opt_world A) (i : nat) : Optional A := default opt_empty (objects w !! i).

(** [operator bool] and [operator!] *)
Definition opt_has_value (i : nat) (w : opt_world A) : bool := is_present (opt_at w i).

(** [operator*] and [operator->] *)
Definition opt_deref (i : nat) (w : opt_world A) : outcome A :=
  match buffer (opt_at w i) with
  | Some v => Done v
  | None => Undefined "Optional: no object in the buffer"
  end.

Definition opt_reset (i : nat) (w : opt_world A) : opt_world A :=
  if is_present (opt_at w i)
  then OptWorld (<[i := opt_empty]> (objects w)) (constructed w) (S (destroyed w))
  else w.

(** The constructor arguments are references: they are read after the old
    value has been destroyed. *)
Definition opt_emplace (i : nat) (arg : opt_world A -> outcome A) (w : opt_world A)
    : outcome (opt_world A) :=
  let w := if is_present (opt_at w i) then opt_reset i w else w in
  v ← arg w;
  Done (OptWorld (<[i := MkOptional (Some v) true]> (objects w)) (S (constructed w)) (destroyed w)).

(** [operator=(Nullopt_t)] *)
Definition opt_assign_nullopt (i : nat) (w : opt_world A) : opt_world A := opt_reset i w.

(** [operator=(const Optional &)] *)
Definition opt_copy_assign (i other : nat) (w : opt_world A) : outcome (opt_world A) :=
  if is_present (opt_at w other) then opt_emplace i (opt_deref other) w
  else Done (opt_reset i w).

(** [operator=(Optional &&)]: the source keeps a moved-from value. *)
Definition opt_move_assign (i other : nat) (w : opt_world A) : outcome (opt_world A) :=
  if is_present (opt_at w other) then
    w ← opt_emplace i (opt_deref other) w;
    v ← opt_deref other w;
    Done (OptWorld (<[other := MkOptional (Some (moved v)) true]> (objects w))
            (constructed w) (destroyed w))
  else Done (opt_reset i w).

(** [operator=(U &&value)] *)
Definition opt_assign (i : nat) (value : A) (w : opt_world A) : outcome (opt_world A) :=
  let w := if is_present (opt_at w i) then opt_reset i w else w in
  opt_emplace i (fun _ => Done value) w.

Inductive opt_op :=
| OptReset (i : nat)
| OptNull (i : nat)
| OptEmplace (i : nat) (v : A)
| OptAssign (i : nat) (v : A)
| OptCopy (i other : nat)
| OptMove (i other : nat).

Definition opt_step (o : opt_op) (w : opt_world A) : outcome (opt_world A) :=
  match o with
  | OptReset i => Done (opt_reset i w)
  | OptNull i => Done (opt_assign_nullopt i w)
  | OptEmplace i v => opt_emplace i (fun _ => Done v) w
  | OptAssign i v => opt_assign i v w
  | OptCopy i other => opt_copy_assign i other w
  | OptMove i other => opt_move_assign i other w
  end.

(** *** Specification: a partial map *)
Definition opt_spec (o : opt_op) (f : gmap nat A) : gmap nat A :=
  match o with
  | OptReset i | OptNull i => delete i f
  | OptEmplace i v | OptAssign i v => <[i := v]> f
  | OptCopy i other => match f !! other with Some v => <[i := v]> f | None => delete i f end
  | OptMove i other =>
      match f !! other with Some v => <[other := moved v]> (<[i := v]> f) | None => delete i f end
  end.

(** Assigning an Optional that holds a value to itself. *)
Definition self_assign (o : opt_op) (f : gmap nat A) : Prop :=
  match o with
  | OptCopy i other | OptMove i other => i = other /\ is_Some (f !! other)
  | _ => False
  end.

(** The world holds exactly the values of [f], and the objects alive are the
    values held. *)
Record opt_rel (w : opt_world A) (f : gmap nat A) : Prop := {
  or_value i : opt_at w i = match f !! i with Some v => MkOptional (Some v) true | None => opt_empty end;
  or_count : constructed w = destroyed w + size f
}.

Lemma opt_rel_new : opt_rel opt_new ∅.
Proof. split; [done|]. simpl. by rewrite map_size_empty. Qed.

Lemma opt_at_insert objs c d i j o :
  opt_at (OptWorld (<[i := o]> objs) c d) j = if decide (i = j) then o else opt_at (OptWorld objs c d) j.
Proof. unfold opt_at. simpl. rewrite lookup_insert. by case_decide. Qed.

Lemma opt_at_counts objs c d c' d' j : opt_at (OptWorld objs c d) j = opt_at (OptWorld objs c' d') j.
Proof. done. Qed.

Lemma opt_reset_spec i w f :
  opt_rel w f -> opt_rel (opt_reset i w) (delete i f).
Proof.
  intros [Hv Hc]. unfold opt_reset. rewrite Hv. destruct (f !! i) as [v|] eqn:Hf; simpl.
  - split.
    + intros j. rewrite opt_at_insert, lookup_delete.
      case_decide; subst; [done|]. destruct w as [objs c d]. rewrite <-(Hv j). done.
    + simpl. rewrite Hc, map_size_delete, Hf. assert (size f <> 0); [|lia].
      intros He%map_size_empty_inv. by rewrite He in Hf.
  - rewrite delete_id by done. done.
Qed.

Lemma opt_emplace_spec i arg w f v :
  opt_rel w f -> arg (opt_reset i w) = Done v ->
  exists w', opt_emplace i arg w = Done w' /\ opt_rel w' (<[i := v]> f).
Proof.
  intros Hrel Harg. pose proof (opt_reset_spec i w f Hrel) as [Hv Hc]. unfold opt_emplace.
  assert (Hw : (if is_present (opt_at w i) then opt_reset i w else w) = opt_reset i w).
  { unfold opt_reset. by destruct (is_present (opt_at w i)). }
  rewrite Hw, Harg, bind_done. eexists. split; [done|]. split.
  - intros j. rewrite opt_at_insert, lookup_insert. case_decide; [done|].
    destruct (opt_reset i w) as [objs c d]. simpl. rewrite (opt_at_counts _ _ _ c d), Hv.
    by rewrite lookup_delete_ne.
  - simpl. rewrite Hc. rewrite map_size_delete, map_size_insert.
    destruct (f !! i) as [u|] eqn:Hf; simpl; [|lia].
    assert (size f <> 0); [|lia]. intros He%map_size_empty_inv. by rewrite He in Hf.
Qed.

(** Reading another Optional after the target's old value is gone. *)
Lemma opt_deref_reset i other w f v :
  opt_rel w f -> i <> other -> f !! other = Some v -> opt_deref other (opt_reset i w) = Done v.
Proof.
  intros Hrel Hne Hf. pose proof (opt_reset_spec i w f Hrel) as [Hv _].
  unfold opt_deref. rewrite Hv, lookup_delete_ne by done. by rewrite Hf.
Qed.

Lemma opt_step_spec o w f :
  opt_rel w f -> ~ self_assign o f ->
  exists w', opt_step o w = Done w' /\ opt_rel w' (opt_spec o f).
Proof.
  intros Hrel Hself. destruct o as [i|i|i v|i v|i other|i other]; simpl in *.
  - eexists. split; [done|]. by apply opt_reset_spec.
  - eexists. split; [done|]. by apply opt_reset_spec.
  - by apply opt_emplace_spec.
  - unfold opt_assign. replace (if is_present (opt_at w i) then opt_reset i w else w) with (opt_reset i w)
      by (unfold opt_reset; by destruct (is_present (opt_at w i))).
    destruct (opt_emplace_spec i (fun _ => Done v) (opt_reset i w) (delete i f) v) as (w' & -> & Hr);
      [by apply opt_reset_spec|done|]. exists w'. by rewrite insert_delete_eq in Hr.
  - unfold opt_copy_assign. rewrite (or_value _ _ Hrel other).
    destruct (f !! other) as [v|] eqn:Hf; simpl; [|eexists; split; [done|by apply opt_reset_spec]].
    apply opt_emplace_spec; [done|]. eapply opt_deref_reset; [done| |done].
    intros ->. apply Hself. by split; [|exists v].
  - unfold opt_move_assign. rewrite (or_value _ _ Hrel other).
    destruct (f !! other) as [v|] eqn:Hf; simpl; [|eexists; split; [done|by apply opt_reset_spec]].
    assert (i <> other) by (intros ->; apply Hself; by split; [|exists v]).
    destruct (opt_emplace_spec i (opt_deref other) w f v) as (w' & -> & [Hv Hc]);
      [done|by eapply opt_deref_reset|].
    rewrite bind_done. unfold opt_deref. rewrite Hv, lookup_insert_ne, Hf by done. simpl.
    eexists. split; [done|]. split.
    + intros j. rewrite opt_at_insert. destruct (decide (other = j)) as [<-|Hne];
        [by rewrite lookup_insert_eq|]. rewrite (lookup_insert_ne _ other) by done.
      destruct w' as [objs c d]. rewrite <-Hv. done.
    + simpl. rewrite Hc, (map_size_insert other), lookup_insert_ne, Hf by done. done.
Qed.

(** Copying or moving an Optional onto itself destroys the value first and then
    reads it. *)
Lemma opt_self_assign o w f :
  opt_rel w f -> self_assign o f ->
  opt_step o w = Undefined "Optional: no object in the buffer".
Proof.
  intros Hrel Hself.
  assert (Hem : forall i, is_Some (f !! i) ->
    opt_emplace i (opt_deref i) w = Undefined "Optional: no object in the buffer").
  { intros i [v Hf]. unfold opt_emplace, opt_reset. rewrite (or_value _ _ Hrel i), Hf. simpl.
    unfold opt_deref. by rewrite opt_at_insert, decide_True. }
  destruct o as [i|i|i v|i v|i other|i other]; simpl in *; try done;
    destruct Hself as [-> Hs]; pose proof (or_value _ _ Hrel other) as Ho;
    pose proof (Hem other Hs) as He; destruct Hs as [v Hf]; rewrite Hf in Ho;
    unfold opt_copy_assign, opt_move_assign; rewrite Ho; simpl; by rewrite He.
Qed.

(** A program that uses Optionals: it ends in a defined state exactly when no
    operation is a self-assignment. *)
Fixpoint opt_run (ops : list opt_op) (w : opt_world A) : outcome (opt_world A) :=
  match ops with [] => Done w | o :: ops => w ← opt_step o w; opt_run ops w end.

Fixpoint no_self_assign (ops : list opt_op) (f : gmap nat A) : Prop :=
  match ops with [] => True | o :: ops => ~ self_assign o f /\ no_self_assign ops (opt_spec o f) end.
End Optional.
Arguments opt_op A : clear implicits.

(** C30. Optionals implement a partial map, as long as no Optional that holds a
    value is assigned to itself: the operations succeed, lookups give the last
    value stored, and exactly the values held are alive - nothing is leaked and
    nothing destroyed twice.  A self-assignment reads a destroyed object. *)
Theorem optional_refines_partial_map {A} (moved : A -> A) ops :
  no_self_assign moved ops ∅ ->
  (exists w, opt_run moved ops opt_new = Done w /\
     let f := foldl (fun f o => opt_spec moved o f) ∅ ops in
     (forall i, opt_has_value i w = bool_decide (is_Some (f !! i)) /\
        forall v, f !! i = Some v -> opt_deref i w = Done v) /\
     constructed w = destroyed w + size f) /\
  forall o w f, opt_rel w f -> self_assign o f ->
    opt_step moved o w = Undefined "Optional: no object in the buffer".
Proof.
  intros Hns. split; [|by intros; eapply opt_self_assign].
  assert (Hgen : forall w f, opt_rel w f -> no_self_assign moved ops f ->
    exists w', opt_run moved ops w = Done w' /\ opt_rel w' (foldl (fun f o => opt_spec moved o f) f ops)).
  { clear Hns. induction ops as [|o ops IH]; intros w f Hrel Hns; [by exists w|].
    destruct Hns as [Ho Hns]. destruct (opt_step_spec moved o w f Hrel Ho) as (w1 & Hs & Hrel1).
    destruct (IH w1 _ Hrel1 Hns) as (w' & Hr & Hrel'). exists w'. split; [|done].
    cbn [opt_run]. by rewrite Hs. }
  destruct (Hgen _ _ opt_rel_new Hns) as (w & Hr & [Hv Hc]). exists w. split; [done|]. cbv zeta.
  split; [|done]. intros i. unfold opt_has_value, opt_deref. rewrite Hv.
  destruct (foldl _ ∅ ops !! i) as [v|]; simpl; [|by split].
  split; [done|]. by intros u [= ->].
Qed.

Lemma optional_refines_partial_map_witness :
  exists w, opt_run (fun x => x) [OptEmplace 0 5; OptCopy 1 0; OptReset 0] opt_new = Done w /\
    opt_deref 1 w = Done 5.
Proof.
  destruct (optional_refines_partial_map (fun x => x) [OptEmplace 0 5; OptCopy 1 0; OptReset 0])
    as [(w & Hr & Hv & _) _].
  - repeat split; simpl; intros H; try exact H. destruct H; discriminate.
  - exists w. split; [exact Hr|]. destruct (Hv 1) as [_ H]. apply H. reflexivity.
Defined.

(** ** kpp::UniquePtr<Resource>

    Pointers are numbers, 0 is the null pointer.  [alive] are the objects whose
    destructor has not run; [allocated] the blocks [new] has returned.  The
    class calls the destructor and never gives the block back. *)
Record up_world := UpWorld {
  handles : gmap nat nat;      (* m_resource of each UniquePtr in scope *)
  alive : gset nat;
  allocated : gset nat;
  next_block : nat
}.

Definition up_new : up_world := UpWorld ∅ ∅ ∅ 1.

(** [m_resource->~Resource()] *)
Definition up_destroy (p : nat) (w : up_world) : outcome up_world :=
  if decide (p ∈ alive w)
  then Done (UpWorld (handles w) (alive w ∖ {[p]}) (allocated w) (next_block w))
  else Undefined "UniquePtr: destructor of an object that is not alive".

(** Constructors from nothing and from a pointer *)
Definition up_construct (i p : nat) (w : up_world) : up_world :=
  UpWorld (<[i := p]> (handles w)) (alive w) (allocated w) (next_block w).

(** [makeUnique(...)] *)
Definition makeUnique (i : nat) (w : up_world) : up_world :=
  let p := next_block w in
  up_construct i p (UpWorld (handles w) ({[p]} ∪ alive w) ({[p]} ∪ allocated w) (S p)).

(** [release()] *)
Definition up_release (i : nat) (w : up_world) : nat * up_world :=
  let ptr := default 0 (handles w !! i) in
  (ptr, UpWorld (<[i := 0]> (handles w)) (alive w) (allocated w) (next_block w)).

(** [UniquePtr(UniquePtr<DerivedResource> &&source)] *)
Definition up_move_construct (i source : nat) (w : up_world) : up_world :=
  let '(p, w) := up_release source w in up_construct i p w.

(** [operator=(UniquePtr<DerivedResource> &&source)] *)
Definition up_move_assign (i source : nat) (w : up_world) : outcome up_world :=
  let p := default 0 (handles w !! i) in
  w ← (if p =? 0 then Done w else up_destroy p w);
  let '(q, w) := up_release source w in
  Done (UpWorld (<[i := q]> (handles w)) (alive w) (allocated w) (next_block w)).

(** [~UniquePtr()]; the handle leaves its scope *)
Definition up_destruct (i : nat) (w : up_world) : outcome up_world :=
  let p := default 0 (handles w !! i) in
  w ← (if p =? 0 then Done w else up_destroy p w);
  Done (UpWorld (delete i (handles w)) (alive w) (allocated w) (next_block w)).

Definition up_get (i : nat) (w : up_world) : nat := default 0 (handles w !! i).
Definition up_bool (i : nat) (w : up_world) : bool := negb (up_get i w =? 0).

Inductive up_op :=
| UpMake (i : nat)
| UpMoveConstruct (i source : nat)
| UpMoveAssign (i source : nat)
| UpDestruct (i : nat).

Definition up_step (o : up_op) (w : up_world) : outcome up_world :=
  match o with
  | UpMake i => Done (makeUnique i w)
  | UpMoveConstruct i source => Done (up_move_construct i source w)
  | UpMoveAssign i source => up_move_assign i source w
  | UpDestruct i => up_destruct i w
  end.

(** Constructors make a new handle; the other operations name handles in scope,
    and a handle is not moved onto itself. *)
Definition up_legal (o : up_op) (w : up_world) : Prop :=
  match o with
  | UpMake i => handles w !! i = None
  | UpMoveConstruct i source => handles w !! i = None /\ is_Some (handles w !! source)
  | UpMoveAssign i source => is_Some (handles w !! i) /\ is_Some (handles w !! source) /\ i <> source
  | UpDestruct i => is_Some (handles w !! i)
  end.

(** Unique ownership: the living objects are exactly the ones some handle
    holds, and no two handles hold the same one. *)
Record up_ok (w : up_world) : Prop := {
  uo_owner p : p ∈ alive w <-> p <> 0 /\ exists i, handles w !! i = Some p;
  uo_unique i j p : p <> 0 -> handles w !! i = Some p -> handles w !! j = Some p -> i = j;
  uo_blocks p : p ∈ allocated w <-> 0 < p < next_block w;
  uo_alive p : p ∈ alive w -> p ∈ allocated w;
  uo_next : 0 < next_block w
}.

Lemma up_new_ok : up_ok up_new.
Proof.
  split; unfold up_new; simpl; try set_solver; try lia.
  intros p. split; [set_solver|lia].
Qed.

Lemma up_makes_ok i w : up_ok w -> handles w !! i = None -> up_ok (makeUnique i w).
Proof.
  intros [Ho Hu Hb Ha Hn] Hi.
  assert (Hf : forall j, handles w !! j <> Some (next_block w)).
  { intros j Hj. assert (next_block w ∈ alive w) as Hal by (apply Ho; split; [lia|eauto]).
    apply Ha, Hb in Hal. lia. }
  split; unfold makeUnique, up_construct; simpl.
  - intros p. rewrite elem_of_union, elem_of_singleton, Ho. setoid_rewrite lookup_insert_Some.
    split.
    + intros [->|[Hp [j Hj]]]; [split; [lia|eauto]|]. split; [done|]. exists j. right. split; [congruence|done].
    + intros [Hp [j [[_ Heq]|[_ Hj]]]]; [by left|right; eauto].
  - intros j k p Hp. rewrite !lookup_insert_Some. naive_solver.
  - intros p. rewrite elem_of_union, elem_of_singleton, Hb. lia.
  - intros p. rewrite !elem_of_union. naive_solver.
  - lia.
Qed.

Lemma up_destroy_spec i w p :
  up_ok w -> handles w !! i = Some p ->
  exists w', (if p =? 0 then Done w else up_destroy p w) = Done w' /\
    handles w' = handles w /\ allocated w' = allocated w /\ next_block w' = next_block w /\
    (forall q, q ∈ alive w' <-> q ∈ alive w /\ q <> p).
Proof.
  intros [Ho Hu Hb Ha Hn] Hi. destruct (Nat.eqb_spec p 0) as [->|Hp].
  - exists w. split_and!; try done. intros q. split; [|tauto]. intros Hq. split; [done|].
    by apply Ho in Hq as [? _].
  - unfold up_destroy. rewrite decide_True by (apply Ho; eauto).
    eexists. split; [done|]. simpl. split_and!; try done. set_solver.
Qed.

Lemma up_step_ok o w : up_ok w -> up_legal o w ->
  exists w', up_step o w = Done w' /\ up_ok w' /\ allocated w ⊆ allocated w'.
Proof.
  intros Hok Hl. destruct o as [i|i source|i source|i]; simpl in *.
  - eexists. split; [done|]. split; [by apply up_makes_ok|]. unfold makeUnique. simpl. set_solver.
  - destruct Hl as [Hi [p Hs]]. eexists. split; [done|].
    unfold up_move_construct, up_release, up_construct. rewrite Hs. simpl. split; [|done].
    destruct Hok as [Ho Hu Hb Ha Hn]. split; simpl; try done.
    + intros q. rewrite Ho. setoid_rewrite lookup_insert_Some. setoid_rewrite lookup_insert_Some.
      split; intros [Hq [j Hj]]; (split; [done|]).
      * destruct (decide (q = p)) as [->|]; [by exists i; left|].
        exists j. right. split; [congruence|]. right. split; [congruence|done].
      * destruct Hj as [[_ <-]|[_ [[_ <-]|[_ Hj]]]]; [by exists source|done|by exists j].
    + intros j k q Hq. rewrite !lookup_insert_Some. naive_solver.
  - destruct Hl as ([p Hi] & [q Hs] & Hne). unfold up_move_assign. rewrite Hi. simpl default.
    destruct (up_destroy_spec i w p Hok Hi) as (w1 & -> & Hh & Hall & Hnb & Hal).
    rewrite bind_done. unfold up_release. rewrite Hh, Hs, Hall, Hnb. simpl.
    eexists. split; [done|]. simpl. split; [|done].
    destruct Hok as [Ho Hu Hb Ha Hn]. split; simpl; try done.
    + intros r. rewrite Hal, Ho. setoid_rewrite lookup_insert_Some. setoid_rewrite lookup_insert_Some.
      split.
      * intros [[Hr [j Hj]] Hrp]. split; [done|]. destruct (decide (r = q)) as [->|]; [by exists i; left|].
        exists j. right. split; [congruence|]. right. split; [congruence|done].
      * intros [Hr [j Hj]]. destruct Hj as [[_ <-]|[Hij [[_ <-]|[_ Hj]]]]; [|done|].
        -- split; [eauto|]. intros ->. apply Hne. by eapply Hu.
        -- split; [eauto|]. intros ->. apply Hij. by eapply Hu.
    + intros j k r Hr. rewrite !lookup_insert_Some. naive_solver.
    + intros r Hr%Hal. apply Ha, Hr.
  - destruct Hl as [p Hi]. unfold up_destruct. rewrite Hi. simpl default.
    destruct (up_destroy_spec i w p Hok Hi) as (w1 & -> & Hh & Hall & Hnb & Hal).
    rewrite bind_done, Hh, Hall, Hnb. eexists. split; [done|]. simpl. split; [|done].
    destruct Hok as [Ho Hu Hb Ha Hn]. split; simpl; try done.
    + intros r. rewrite Hal, Ho. setoid_rewrite lookup_delete_Some. split.
      * intros [[Hr [j Hj]] Hrp]. split; [done|]. exists j. split; [congruence|done].
      * intros [Hr [j [Hij Hj]]]. split; [eauto|]. intros ->. apply Hij. by eapply Hu.
    + intros j k r Hr. rewrite !lookup_delete_Some. naive_solver.
    + intros r Hr%Hal. apply Ha, Hr.
Qed.

(** Programs made of legal steps. *)
Inductive up_steps : up_world -> up_world -> Prop :=
| up_steps_refl w : up_steps w w
| up_steps_step w o w1 w2 : up_legal o w -> up_step o w = Done w1 -> up_steps w1 w2 -> up_steps w w2.

Lemma up_steps_ok w w' : up_ok w -> up_steps w w' -> up_ok w' /\ allocated w ⊆ allocated w'.
Proof.
  intros Hok Hs. induction Hs as [w|w o w1 w2 Hl Hst Hs IH]; [done|].
  destruct (up_step_ok o w Hok Hl) as (w1' & Hst' & Hok1 & Hsub). rewrite Hst in Hst'. injection Hst' as <-.
  destruct (IH Hok1) as [? ?]. split; [done|]. by etrans.
Qed.

(** C31. A UniquePtr is the only owner of its object: in every state a program
    of constructions, moves and destructions reaches, every living object has
    exactly one handle, every further step is free of double destruction, and
    when no handle is left no object is alive.  The blocks, however, stay
    allocated for ever: the destructor does not give the memory back. *)
Theorem unique_ptr_owns w :
  up_steps up_new w ->
  (forall p, p ∈ alive w <-> p <> 0 /\ exists i, handles w !! i = Some p /\
     forall j, handles w !! j = Some p -> j = i) /\
  (forall o, up_legal o w -> exists w', up_step o w = Done w' /\ allocated w ⊆ allocated w') /\
  (handles w = ∅ -> alive w = ∅) /\
  (forall p, p ∈ allocated w <-> 0 < p < next_block w).
Proof.
  intros Hs. destruct (up_steps_ok _ _ up_new_ok Hs) as [Hok _].
  pose proof Hok as [Ho Hu Hb Ha Hn]. split; [|split; [|split; [|done]]].
  - intros p. rewrite Ho. split.
    + intros [Hp [i Hi]]. split; [done|]. exists i. split; [done|]. intros j Hj. by eapply Hu.
    + intros [Hp [i [Hi _]]]. eauto.
  - intros o Hl. destruct (up_step_ok o w Hok Hl) as (w' & ? & _ & ?). eauto.
  - intros He. apply set_eq. intros p. rewrite Ho, He. split; [|set_solver].
    intros [_ [i Hi]]. by rewrite lookup_empty in Hi.
Qed.

Definition up_demo : up_world := makeUnique 0 up_new.

Lemma unique_ptr_owns_witness :
  exists w', up_step (UpDestruct 0) up_demo = Done w' /\ alive w' = ∅ /\ allocated w' = {[1]}.
Proof.
  assert (Hs : up_steps up_new up_demo).
  { apply (up_steps_step up_new (UpMake 0) up_demo up_demo); [reflexivity|reflexivity|apply up_steps_refl]. }
  destruct (unique_ptr_owns up_demo Hs) as (_ & Hstep & _).
  destruct (Hstep (UpDestruct 0)) as (w' & Hw & _).
  - exists 1. reflexivity.
  - exists w'. split; [exact Hw|]. vm_compute in Hw. injection Hw as <-. split; reflexivity.
Defined.
