(* ===== verification/Function.v ===== *)
(** * kpp::Function (lib/kpp functional.hpp)

    A Function owns, through a UniquePtr of Containers, a heap object that hides
    the type of a callable.  The constructor takes its argument by forwarding
    reference and instantiates [CallableImpl] with the deduced type: a functor
    for an rvalue, but a reference for an lvalue.  The specification is a map
    from Functions to such values. *)

From Stdlib Require Import ZArith Lia String.
From stdpp Require Import base gmap fin_map_dom list.
From S2P Require Import Prelude Containers.
#[local] Open Scope nat_scope.

Section Function.
(** The client's functors; [operator()] may change the functor it is called on. *)
Context {F A R : Type} (call_functor : F -> A -> R * F).

(** [CallableImpl<F>] and [CallableImpl<F &>], the latter with the variable that
    is referred to. *)
Inductive CallableImpl :=
| ByValue (m_callable : F)
| ByReference (m_callable : nat).

(** The UniquePtrs of all Functions, the objects on the heap, and the client's
    functor variables in scope. *)
Record world := World {
  uniq : up_world;
  objects : gmap nat CallableImpl;
  variables : gmap nat F
}.
Implicit Types w : world.

Definition with_uniq w (u : up_world) : world := World u (objects w) (variables w).

(** [m_callable(makeUnique<CallableImpl<...>>(c))]: a temporary UniquePtr, the
    move out of it, its destruction. *)
Definition emplace (i : nat) (c : CallableImpl) w : outcome world :=
  let tmp := fresh ({[i]} ∪ dom (handles (uniq w))) in
  let block := next_block (uniq w) in
  let u := up_move_construct i tmp (makeUnique tmp (uniq w)) in
  u ← up_destruct tmp u;
  Done (World u (<[block := c]> (objects w)) (variables w)).

(** [Function()] and [Function(nullptr)] *)
Definition Function_null (i : nat) w : world := with_uniq w (up_construct i 0 (uniq w)).

(** [Function(CallableType &&callable)] for an rvalue and for an lvalue *)
Definition Function_rvalue (i : nat) (f : F) w : outcome world := emplace i (ByValue f) w.
Definition Function_lvalue (i x : nat) w : outcome world := emplace i (ByReference x) w.

(** [clone()]: a new object made from the member [m_callable]. *)
Definition clone (p i : nat) w : outcome world :=
  match objects w !! p with
  | Some c => emplace i c w
  | None => Undefined "Function: no object behind the pointer"
  end.

(** [Function(const Function &source)] *)
Definition Function_copy (i source : nat) w : outcome world :=
  if up_bool source (uniq w) then clone (up_get source (uniq w)) i w
  else Done (Function_null i w).

(** [Function(Function &&source) = default] and its assignment *)
Definition Function_move (i source : nat) w : world :=
  with_uniq w (up_move_construct i source (uniq w)).

Definition Function_move_assign (i source : nat) w : outcome world :=
  u ← up_move_assign i source (uniq w); Done (with_uniq w u).

Definition Function_destruct (i : nat) w : outcome world :=
  u ← up_destruct i (uniq w); Done (with_uniq w u).

(** [m_callable(args...)] of a [CallableImpl] *)
Definition call (p : nat) (args : A) w : outcome (R * world) :=
  match objects w !! p with
  | Some (ByValue f) =>
      let '(r, f) := call_functor f args in
      Done (r, World (uniq w) (<[p := ByValue f]> (objects w)) (variables w))
  | Some (ByReference x) =>
      match variables w !! x with
      | Some f => let '(r, f) := call_functor f args in
                  Done (r, World (uniq w) (objects w) (<[x := f]> (variables w)))
      | None => Undefined "Function: dangling reference"
      end
  | None => Undefined "Function: no object behind the pointer"
  end.

(** [operator()(args...)] *)
Definition Function_call (i : nat) (args : A) w : outcome (R * world) :=
  let p := up_get i (uniq w) in
  if p =? 0 then Undefined "Function: call through a null pointer" else call p args w.

(** ** Programs over Functions *)
Inductive fn_op :=
| FnNull (i : nat)
| FnRvalue (i : nat) (f : F)
| FnLvalue (i x : nat)
| FnCopy (i source : nat)
| FnMove (i source : nat)
| FnMoveAssign (i source : nat)
| FnDestruct (i : nat)
| FnCall (i : nat) (args : A)
| FnVariable (x : nat) (f : F)
| FnLeave (x : nat).

Definition fn_step (o : fn_op) w : outcome (option R * world) :=
  match o with
  | FnNull i => Done (None, Function_null i w)
  | FnRvalue i f => w ← Function_rvalue i f w; Done (None, w)
  | FnLvalue i x => w ← Function_lvalue i x w; Done (None, w)
  | FnCopy i source => w ← Function_copy i source w; Done (None, w)
  | FnMove i source => Done (None, Function_move i source w)
  | FnMoveAssign i source => w ← Function_move_assign i source w; Done (None, w)
  | FnDestruct i => w ← Function_destruct i w; Done (None, w)
  | FnCall i args => r ← Function_call i args w; Done (Some (fst r), snd r)
  | FnVariable x f => Done (None, World (uniq w) (objects w) (<[x := f]> (variables w)))
  | FnLeave x => Done (None, World (uniq w) (objects w) (delete x (variables w)))
  end.

Fixpoint fn_run (ops : list fn_op) w : outcome (list (option R) * world) :=
  match ops with
  | [] => Done ([], w)
  | o :: ops => r ← fn_step o w; rs ← fn_run ops (snd r); Done (fst r :: fst rs, snd rs)
  end.

(** ** Specification: Functions as values *)
Definition fn_values : Type := gmap nat (option CallableImpl) * gmap nat F.
Implicit Types v : fn_values.

Definition spec_call (i : nat) (args : A) v : outcome (option R * fn_values) :=
  match mjoin (fst v !! i) with
  | None => Undefined "Function: call through a null pointer"
  | Some (ByValue f) =>
      let '(r, f) := call_functor f args in Done (Some r, (<[i := Some (ByValue f)]> (fst v), snd v))
  | Some (ByReference x) =>
      match snd v !! x with
      | Some f => let '(r, f) := call_functor f args in Done (Some r, (fst v, <[x := f]> (snd v)))
      | None => Undefined "Function: dangling reference"
      end
  end.

Definition fn_spec (o : fn_op) v : outcome (option R * fn_values) :=
  let (m, vars) := v in
  match o with
  | FnNull i => Done (None, (<[i := None]> m, vars))
  | FnRvalue i f => Done (None, (<[i := Some (ByValue f)]> m, vars))
  | FnLvalue i x => Done (None, (<[i := Some (ByReference x)]> m, vars))
  | FnCopy i source => Done (None, (<[i := mjoin (m !! source)]> m, vars))
  | FnMove i source | FnMoveAssign i source =>
      Done (None, (<[i := mjoin (m !! source)]> (<[source := None]> m), vars))
  | FnDestruct i => Done (None, (delete i m, vars))
  | FnCall i args => spec_call i args v
  | FnVariable x f => Done (None, (m, <[x := f]> vars))
  | FnLeave x => Done (None, (m, delete x vars))
  end.

Fixpoint fn_spec_run (ops : list fn_op) v : outcome (list (option R) * fn_values) :=
  match ops with
  | [] => Done ([], v)
  | o :: ops => r ← fn_spec o v; rs ← fn_spec_run ops (snd r); Done (fst r :: fst rs, snd rs)
  end.

(** Constructors make new Functions, the other operations name Functions in
    scope, and a Function is not moved onto itself. *)
Definition fn_legal (o : fn_op) v : bool :=
  let (m, _) := v in
  match o with
  | FnNull i | FnRvalue i _ | FnLvalue i _ => bool_decide (m !! i = None)
  | FnCopy i source | FnMove i source => bool_decide (m !! i = None) && bool_decide (is_Some (m !! source))
  | FnMoveAssign i source =>
      bool_decide (is_Some (m !! i)) && bool_decide (is_Some (m !! source)) && negb (i =? source)
  | FnDestruct i | FnCall i _ => bool_decide (is_Some (m !! i))
  | FnVariable _ _ | FnLeave _ => true
  end.

Fixpoint fn_all_legal (ops : list fn_op) v : bool :=
  match ops with
  | [] => true
  | o :: ops => fn_legal o v &&
      match fn_spec o v with Done (_, v) => fn_all_legal ops v | _ => true end
  end.
End Function.

(** ** The code implements the specification *)
Section FunctionSpec.
Context {F A R : Type} (call_functor : F -> A -> R * F).
Implicit Types w : world (F := F).

(** The value behind a pointer. *)
Definition pointee (objs : gmap nat (CallableImpl (F := F))) (p : nat) : option CallableImpl :=
  if p =? 0 then None else objs !! p.

Definition values w : fn_values (F := F) := (pointee (objects w) <$> handles (uniq w), variables w).

(** Ownership is unique, and the living objects have contents. *)
Record fn_ok w : Prop := {
  fo_uniq : up_ok (uniq w);
  fo_objects p : p ∈ alive (uniq w) -> is_Some (objects w !! p)
}.

Lemma fn_handle w i p : fn_ok w -> handles (uniq w) !! i = Some p -> p <> 0 ->
  p ∈ alive (uniq w) /\ p < next_block (uniq w) /\ exists c, objects w !! p = Some c.
Proof.
  intros [Hu Ho] Hi Hp. assert (Ha : p ∈ alive (uniq w)) by (apply (uo_owner _ Hu); eauto).
  split; [done|]. split; [by apply (uo_blocks _ Hu), (uo_alive _ Hu)|]. by apply Ho.
Qed.

(** Storing at a pointer that one handle holds changes the value of that Function. *)
Lemma pointee_update (h : gmap nat nat) objs i p c :
  h !! i = Some p -> p <> 0 -> (forall j, h !! j = Some p -> j = i) ->
  pointee (<[p := c]> objs) <$> h = <[i := Some c]> (pointee objs <$> h).
Proof.
  intros Hi Hp Hu. apply map_eq. intros j. unfold pointee. rewrite lookup_fmap.
  destruct (decide (j = i)) as [->|Hj].
  - rewrite lookup_insert_eq, Hi. simpl. by rewrite (proj2 (Nat.eqb_neq p 0)), lookup_insert_eq by done.
  - rewrite lookup_insert_ne, lookup_fmap by done. destruct (h !! j) as [q|] eqn:Hq; [|done]. simpl.
    assert (Hne : q <> p) by (intros ->; by apply Hj, Hu).
    by rewrite lookup_insert_ne by done.
Qed.

Lemma values_lookup w i :
  fst (values w) !! i = pointee (objects w) <$> handles (uniq w) !! i.
Proof. apply lookup_fmap. Qed.

Lemma values_fresh w i : fst (values w) !! i = None -> handles (uniq w) !! i = None.
Proof. rewrite values_lookup. by destruct (handles (uniq w) !! i). Qed.

Lemma values_scope w i : is_Some (fst (values w) !! i) ->
  exists p, handles (uniq w) !! i = Some p /\ up_get i (uniq w) = p /\ mjoin (fst (values w) !! i) = pointee (objects w) p.
Proof.
  rewrite values_lookup. unfold up_get. destruct (handles (uniq w) !! i) as [p|]; [|by intros [? ?]]. by exists p.
Qed.

(** A new object behind a new Function. *)
Lemma emplace_spec i c w :
  fn_ok w -> fst (values w) !! i = None ->
  exists w', emplace i c w = Done w' /\ fn_ok w' /\ values w' = (<[i := Some c]> (fst (values w)), variables w).
Proof.
  intros Hok Hi%values_fresh. pose proof Hok as [Hu Ho]. unfold emplace.
  set (h := handles (uniq w)) in *. set (block := next_block (uniq w)).
  assert (Htmp : fresh ({[i]} ∪ dom h) ∉ ({[i]} ∪ dom h : gset nat)) by apply is_fresh.
  set (tmp := fresh ({[i]} ∪ dom h)) in *.
  apply not_elem_of_union in Htmp as [Hti Hth%not_elem_of_dom]. rewrite not_elem_of_singleton in Hti.
  destruct (up_step_ok (UpMake tmp) (uniq w) Hu Hth) as (u1 & [= <-] & Hu1 & _).
  destruct (up_step_ok (UpMoveConstruct i tmp) _ Hu1) as (u2 & [= <-] & Hu2 & _).
  { cbn. by rewrite lookup_insert_ne, lookup_insert_eq by done. }
  destruct (up_step_ok (UpDestruct tmp) _ Hu2) as (u3 & Hd & Hu3 & _).
  { cbn. rewrite lookup_insert_ne, lookup_insert_eq by done. by eexists. }
  cbn [up_step] in Hd. rewrite Hd, bind_done. eexists. split; [reflexivity|].
  unfold up_destruct, up_move_construct, up_release, makeUnique, up_construct in Hd. cbn in Hd.
  rewrite lookup_insert_eq in Hd. cbn in Hd. rewrite lookup_insert_ne, lookup_insert_eq in Hd by done.
  cbn in Hd. injection Hd as Hd. fold h block in Hd.
  assert (Hh : handles u3 = <[i := block]> h).
  { rewrite <-Hd. cbn. apply map_eq. intros j. destruct (decide (j = tmp)) as [->|Hj].
    - by rewrite lookup_delete_eq, lookup_insert_ne by done.
    - rewrite lookup_delete_ne by done. destruct (decide (j = i)) as [->|Hji]; [by rewrite !lookup_insert_eq|].
      by rewrite !lookup_insert_ne by done. }
  assert (Hal : alive u3 = {[block]} ∪ alive (uniq w)) by (by rewrite <-Hd).
  assert (Hnew : forall j p, h !! j = Some p -> p <> block).
  { intros j p Hj ->. destruct (fn_handle w j block Hok Hj) as (_ & Hlt & _); [|unfold block in Hlt; lia].
    pose proof (uo_next _ Hu). unfold block. lia. }
  split.
  - split; [exact Hu3|]. cbn. intros p. rewrite Hal, elem_of_union, elem_of_singleton.
    destruct (decide (p = block)) as [->|Hp]; [rewrite lookup_insert_eq; eauto|].
    rewrite lookup_insert_ne by done. intros [?|?]; [done|by apply Ho].
  - unfold values. cbn. f_equal. rewrite Hh. rewrite (pointee_update _ _ i).
    + rewrite fmap_insert, insert_insert_eq. done.
    + apply lookup_insert_eq.
    + pose proof (uo_next _ Hu). unfold block. lia.
    + intros j. rewrite lookup_insert_Some. intros [[-> _]|[_ Hj]]; [done|]. by apply Hnew in Hj.
Qed.

Lemma fn_ok_uniq w u :
  fn_ok w -> up_ok u -> (forall p, p ∈ alive u -> p ∈ alive (uniq w)) -> fn_ok (with_uniq w u).
Proof. intros [Hu Ho] Hu' Ha. split; [done|]. intros p Hp. by apply Ho, Ha. Qed.

Lemma up_null_ok i u : up_ok u -> handles u !! i = None -> up_ok (up_construct i 0 u).
Proof.
  intros [Ho Hu Hb Ha Hn] Hi. split; cbn; try done.
  - intros p. rewrite Ho. setoid_rewrite lookup_insert_Some. naive_solver.
  - intros j k p Hp. rewrite !lookup_insert_Some. naive_solver.
Qed.

Lemma Function_null_spec i w :
  fn_ok w -> fst (values w) !! i = None ->
  fn_ok (Function_null i w) /\ values (Function_null i w) = (<[i := None]> (fst (values w)), variables w).
Proof.
  intros Hok Hi%values_fresh. split.
  - apply fn_ok_uniq; [done|apply up_null_ok; [apply Hok|done]|done].
  - unfold values. cbn. by rewrite fmap_insert.
Qed.

Lemma Function_copy_spec i source w :
  fn_ok w -> fst (values w) !! i = None -> is_Some (fst (values w) !! source) ->
  exists w', Function_copy i source w = Done w' /\ fn_ok w' /\
    values w' = (<[i := mjoin (fst (values w) !! source)]> (fst (values w)), variables w).
Proof.
  intros Hok Hi (p & Hs & Hg & ->)%values_scope. unfold Function_copy, up_bool. rewrite Hg.
  unfold pointee. destruct (Nat.eqb_spec p 0) as [->|Hp]; cbn [negb].
  - eexists. split; [done|]. by apply Function_null_spec.
  - destruct (fn_handle w source p Hok Hs Hp) as (_ & _ & c & Hc). unfold clone. rewrite Hc. by apply emplace_spec.
Qed.

Lemma Function_move_spec i source w :
  fn_ok w -> fst (values w) !! i = None -> is_Some (fst (values w) !! source) ->
  fn_ok (Function_move i source w) /\ values (Function_move i source w) =
    (<[i := mjoin (fst (values w) !! source)]> (<[source := None]> (fst (values w))), variables w).
Proof.
  intros Hok Hi%values_fresh (p & Hs & Hg & ->)%values_scope. split.
  - destruct (up_step_ok (UpMoveConstruct i source) (uniq w) (fo_uniq _ Hok)) as (u & [= <-] & Hu & _); [by split; [|exists p]|].
    by apply fn_ok_uniq.
  - unfold values, Function_move, up_move_construct, up_release. cbn. rewrite Hs. cbn. by rewrite !fmap_insert.
Qed.

Lemma Function_move_assign_spec i source w :
  fn_ok w -> is_Some (fst (values w) !! i) -> is_Some (fst (values w) !! source) -> i <> source ->
  exists w', Function_move_assign i source w = Done w' /\ fn_ok w' /\
    values w' = (<[i := mjoin (fst (values w) !! source)]> (<[source := None]> (fst (values w))), variables w).
Proof.
  intros Hok (q & Hi & _)%values_scope (p & Hs & Hg & ->)%values_scope Hne.
  destruct (up_step_ok (UpMoveAssign i source) (uniq w) (fo_uniq _ Hok)) as (u & Hd & Hu & _).
  { split; [by exists q|]. split; [by exists p|done]. }
  cbn [up_step] in Hd. unfold Function_move_assign. rewrite Hd, bind_done. eexists. split; [done|].
  unfold up_move_assign in Hd. rewrite Hi in Hd. cbn [default] in Hd.
  destruct (up_destroy_spec i _ q (fo_uniq _ Hok) Hi) as (u1 & Hd1 & Hh & _ & _ & Hal). cbn in Hd, Hd1.
  rewrite Hd1 in Hd. cbn in Hd. injection Hd as <-. rewrite Hh, Hs. cbn. split.
  - apply fn_ok_uniq; [done|by rewrite Hh, Hs in Hu|]. cbn. intros r Hr. by apply Hal.
  - unfold values. cbn. by rewrite !fmap_insert.
Qed.

Lemma Function_destruct_spec i w :
  fn_ok w -> is_Some (fst (values w) !! i) ->
  exists w', Function_destruct i w = Done w' /\ fn_ok w' /\ values w' = (delete i (fst (values w)), variables w).
Proof.
  intros Hok (q & Hi & _)%values_scope.
  destruct (up_step_ok (UpDestruct i) (uniq w) (fo_uniq _ Hok)) as (u & Hd & Hu & _); [by exists q|].
  cbn [up_step] in Hd. unfold Function_destruct. rewrite Hd, bind_done. eexists. split; [done|].
  unfold up_destruct in Hd. rewrite Hi in Hd.
  destruct (up_destroy_spec i _ q (fo_uniq _ Hok) Hi) as (u1 & Hd1 & Hh & _ & _ & Hal). cbn in Hd, Hd1.
  rewrite Hd1 in Hd. cbn in Hd. injection Hd as <-. split.
  - apply fn_ok_uniq; [done|done|]. cbn. intros r Hr. by apply Hal.
  - unfold values. cbn. by rewrite Hh, fmap_delete.
Qed.

Lemma Function_call_spec i args w :
  fn_ok w -> is_Some (fst (values w) !! i) ->
  match spec_call call_functor i args (values w) with
  | Done (r, v) => exists w', fn_step call_functor (FnCall i args) w = Done (r, w') /\ fn_ok w' /\ values w' = v
  | Undefined s => fn_step call_functor (FnCall i args) w = Undefined s
  | _ => False
  end.
Proof.
  intros Hok (p & Hi & Hg & Hv)%values_scope. pose proof Hok as [Hu Ho].
  cbn [fn_step]. unfold spec_call, Function_call, call. rewrite Hg, Hv. unfold pointee.
  destruct (Nat.eqb_spec p 0) as [->|Hp]; [done|].
  destruct (fn_handle w i p Hok Hi Hp) as (_ & _ & c & Hc). rewrite Hc. cbn [snd values].
  destruct c as [f|x].
  - destruct (call_functor f args) as [r f']. eexists. split; [done|]. cbn. split.
    + split; [done|]. cbn. intros q Hq. destruct (decide (q = p)) as [->|]; [rewrite lookup_insert_eq; eauto|].
      rewrite lookup_insert_ne by done. by apply Ho.
    + unfold values. cbn. f_equal. apply pointee_update; [done|done|]. intros j Hj. by eapply (uo_unique _ Hu).
  - destruct (variables w !! x) as [f|]; [|done]. destruct (call_functor f args) as [r f']. by eexists.
Qed.

Lemma fn_step_spec o w :
  fn_ok w -> fn_legal o (values w) = true ->
  match fn_spec call_functor o (values w) with
  | Done (r, v) => exists w', fn_step call_functor o w = Done (r, w') /\ fn_ok w' /\ values w' = v
  | Undefined s => fn_step call_functor o w = Undefined s
  | _ => False
  end.
Proof.
  intros Hok Hl. destruct o; cbn [fn_legal fn_spec fn_step values fst] in *;
    rewrite ?andb_true_iff, ?bool_decide_eq_true, ?negb_true_iff, ?Nat.eqb_neq in Hl.
  - destruct (Function_null_spec i w Hok Hl). by eexists.
  - destruct (emplace_spec i (ByValue f) w Hok Hl) as (w' & Hd & ? & ?). exists w'. unfold Function_rvalue. by rewrite Hd.
  - destruct (emplace_spec i (ByReference x) w Hok Hl) as (w' & Hd & ? & ?). exists w'. unfold Function_lvalue. by rewrite Hd.
  - destruct (Function_copy_spec i source w Hok) as (w' & -> & ? & ?); [apply Hl..|]. by exists w'.
  - destruct (Function_move_spec i source w Hok); [apply Hl..|]. by eexists.
  - destruct (Function_move_assign_spec i source w Hok) as (w' & -> & ? & ?); [apply Hl..|]. by exists w'.
  - destruct (Function_destruct_spec i w Hok Hl) as (w' & -> & ? & ?). by exists w'.
  - by apply Function_call_spec.
  - eexists. split; [done|]. by destruct Hok.
  - eexists. split; [done|]. by destruct Hok.
Qed.
End FunctionSpec.

(** C40. Functions are values that hold a functor, or refer to one: the results of
    every program over Functions are those of the specification, and it is
    undefined exactly when the program calls an empty Function or one whose
    functor has left its scope.  A Function made from an lvalue refers to it -
    also its copies do. *)
Theorem functions_are_values {F A R} (call_functor : F -> A -> R * F) ops :
  fn_all_legal call_functor ops (∅, ∅) = true ->
  match fn_spec_run call_functor ops (∅, ∅) with
  | Done (rs, v) => exists w, fn_run call_functor ops (World up_new ∅ ∅) = Done (rs, w) /\ fn_ok w /\ values w = v
  | Undefined s => fn_run call_functor ops (World up_new ∅ ∅) = Undefined s
  | _ => False
  end.
Proof.
  assert (Hgen : forall w, fn_ok w -> fn_all_legal call_functor ops (values w) = true ->
    match fn_spec_run call_functor ops (values w) with
    | Done (rs, v) => exists w', fn_run call_functor ops w = Done (rs, w') /\ fn_ok w' /\ values w' = v
    | Undefined s => fn_run call_functor ops w = Undefined s
    | _ => False
    end).
  { induction ops as [|o ops IH]; intros w Hok Hl; [by exists w|]. cbn [fn_all_legal fn_spec_run fn_run] in *.
    apply andb_prop in Hl as [Ho Hl]. pose proof (fn_step_spec call_functor o w Hok Ho) as Hs.
    destruct (fn_spec call_functor o (values w)) as [[r v]| | |]; [|done| |done]; [|by rewrite Hs].
    destruct Hs as (w1 & -> & Hok1 & <-). rewrite !bind_done. cbn [fst snd].
    specialize (IH w1 Hok1 Hl). destruct (fn_spec_run call_functor ops (values w1)) as [[rs v]| | |]; [|done| |done].
    - destruct IH as (w' & -> & ? & ?). by exists w'.
    - by rewrite IH. }
  intros Hl. apply (Hgen (World up_new ∅ ∅)).
  - split; [apply up_new_ok|]. cbn. set_solver.
  - unfold values. cbn. by rewrite fmap_empty.
Qed.

(** A counter: calling it adds the argument and returns the sum. *)
Definition counter (f a : nat) : nat * nat := (f + a, f + a).

(** Made from a variable, a Function and its copy count together, in the variable. *)
Lemma functions_are_values_witness :
  exists w, fn_run counter [FnVariable 7 10; FnLvalue 0 7; FnCopy 1 0; FnCall 0 1; FnCall 1 1] (World up_new ∅ ∅) =
      Done ([None; None; None; Some 11; Some 12], w) /\ variables w !! 7 = Some 12.
Proof.
  destruct (functions_are_values counter [FnVariable 7 10; FnLvalue 0 7; FnCopy 1 0; FnCall 0 1; FnCall 1 1])
    as (w & Hr & _ & Hv); [reflexivity|].
  exists w. split; [exact Hr|]. apply (f_equal snd) in Hv.
  change (snd (values w)) with (variables w) in Hv. rewrite Hv. reflexivity.
Defined.

(** Made from an rvalue, a copy counts for itself. *)
Example copies_count_apart :
  exists w, fn_run counter [FnRvalue 0 10; FnCopy 1 0; FnCall 0 1; FnCall 1 1] (World up_new ∅ ∅) =
    Done ([None; None; Some 11; Some 11], w).
Proof. eexists. vm_compute. reflexivity. Qed.
