(* ===== verification/Utilities.v ===== *)
(** * Small library templates

    lib/kpp: Array, less, max, min and abs.  The subscript
    operators of the source do no bounds check: an index outside the array is
    undefined behaviour in the model as well. *)

From Stdlib Require Import ZArith Lia String.
From stdpp Require Import base gmap list list_numbers numbers strings.
From S2P Require Import Prelude.
#[local] Open Scope Z_scope.

(** ** kpp::Array *)
Section Array.
Context {A : Type}.
Implicit Types arr : list A.

(** [arr[i]] *)
Definition array_get arr (i : Z) : outcome A :=
  if (0 <=? i) && (i <? Z.of_nat (List.length arr)) then
    match arr !! Z.to_nat i with Some x => Done x | None => Undefined "Array: index" end
  else Undefined "Array: index out of bounds".

(** [arr[i] = x] *)
Definition array_set arr (i : Z) (x : A) : outcome (list A) :=
  if (0 <=? i) && (i <? Z.of_nat (List.length arr)) then Done (<[Z.to_nat i := x]> arr)
  else Undefined "Array: index out of bounds".

Definition array_size arr : Z := Z.of_nat (List.length arr).

Lemma array_get_done arr i x :
  0 <= i -> arr !! Z.to_nat i = Some x -> array_get arr i = Done x.
Proof.
  intros Hi Hx. unfold array_get. pose proof (lookup_lt_Some _ _ _ Hx).
  rewrite (proj2 (Z.leb_le _ _)), (proj2 (Z.ltb_lt _ _)) by lia. cbn [andb]. by rewrite Hx.
Qed.

Lemma array_set_done arr i x :
  0 <= i < Z.of_nat (List.length arr) -> array_set arr i x = Done (<[Z.to_nat i := x]> arr).
Proof.
  intros Hi. unfold array_set. by rewrite (proj2 (Z.leb_le _ _)), (proj2 (Z.ltb_lt _ _)) by lia.
Qed.

Lemma array_set_inv arr i x arr' :
  array_set arr i x = Done arr' ->
  0 <= i < Z.of_nat (List.length arr) /\ arr' = <[Z.to_nat i := x]> arr.
Proof.
  unfold array_set. destruct (Z.leb_spec 0 i), (Z.ltb_spec i (Z.of_nat (List.length arr)));
    simpl; intros [=]; subst; lia || auto with lia.
Qed.

(** Consecutive stores [arr[i] = x0; arr[i + 1] = x1; ...]. *)
Fixpoint array_write arr (i : Z) (xs : list A) : outcome (list A) :=
  match xs with
  | [] => Done arr
  | x :: xs => arr ← array_set arr i x; array_write arr (i + 1) xs
  end.

Lemma array_write_done arr i xs :
  0 <= i -> i + Z.of_nat (List.length xs) <= Z.of_nat (List.length arr) ->
  array_write arr i xs =
    Done (take (Z.to_nat i) arr ++ xs ++ drop (Z.to_nat i + List.length xs) arr).
Proof.
  revert arr i. induction xs as [|x xs IH]; intros arr i Hi Hl.
  { simpl. by rewrite Nat.add_0_r, take_drop. }
  simpl in Hl. cbn [array_write]. rewrite array_set_done, bind_done by lia.
  rewrite IH by (rewrite ?length_insert; lia).
  assert (Hlt : (Z.to_nat i < List.length arr)%nat) by lia.
  f_equal. replace (Z.to_nat (i + 1)) with (S (Z.to_nat i)) by lia.
  rewrite (take_S_r _ _ x) by (by apply list_lookup_insert_eq).
  rewrite take_insert_ge, drop_insert_lt, <-app_assoc by lia. simpl.
  by rewrite Nat.add_succ_r.
Qed.
End Array.

Definition array_of {A} (xs : list A) : list A := xs.

(** ** algorithm, cmath *)
Definition less (lhs rhs : Z) : bool := lhs <? rhs.

Definition max {A} (comp : A -> A -> bool) (a b : A) : A := if comp a b then b else a.
Definition min {A} (comp : A -> A -> bool) (a b : A) : A := if comp a b then a else b.

(** On [int], where negating the least value overflows. *)
Definition abs (value : Z) : outcome Z :=
  if value <? 0 then
    if value =? - 2 ^ 31 then Undefined "kpp::abs: overflow" else Done (- value)
  else Done value.

Lemma max_less a b : max less a b = Z.max a b.
Proof. unfold max, less. destruct (Z.ltb_spec a b); lia. Qed.

Lemma min_less a b : min less a b = Z.min a b.
Proof. unfold min, less. destruct (Z.ltb_spec a b); lia. Qed.

Lemma abs_done v : - 2 ^ 31 < v -> abs v = Done (Z.abs v).
Proof.
  intros Hv. unfold abs. destruct (Z.ltb_spec v 0); [|f_equal; lia].
  rewrite (proj2 (Z.eqb_neq _ _)) by lia. f_equal. lia.
Qed.
