(* ===== verification/Descriptors.v ===== *)
(** * Segment and gate descriptors

    gdt.cpp, TableDescriptor.cpp, SegmentSelector.h and IDTStructure.cpp: the
    binary structures that the processor reads.  The specification of each is
    the processor's decoding of its bits (Intel SDM volume 3, chapters 3, 5
    and 6). *)

From Stdlib Require Import ZArith Lia String Btauto.
From stdpp Require Import base gmap list list_numbers numbers strings.
From S2P Require Import Prelude Utilities.
#[local] Open Scope Z_scope.

(** ** Global descriptor table (gdt.cpp) *)
Definition PRESENT (b : Z) : Z := Z.shiftl b 7.
Definition KERNEL_PRIVILEGE : Z := Z.shiftl 0 5.
Definition USER_PRIVILEGE : Z := Z.shiftl 3 5.
Definition SYSTEM_SEGMENT : Z := Z.shiftl 0 4.
Definition CODE_OR_DATA_SEGMENT : Z := Z.shiftl 1 4.
Definition IS_CODE_SEGMENT (b : Z) : Z := Z.shiftl b 3.
Definition DATA_GROWS_UPWARD : Z := Z.shiftl 0 2.
Definition DATA_GROWS_DOWNWARD : Z := Z.shiftl 1 2.
Definition CODE_EXACT_PRIVILEGE : Z := Z.shiftl 0 2.
Definition CODE_EQUAL_OR_LOWER_PRIVILEGE : Z := Z.shiftl 1 2.
Definition DATA_READONLY : Z := Z.shiftl 0 1.
Definition DATA_WRITABLE : Z := Z.shiftl 1 1.
Definition CODE_UNREADABLE : Z := Z.shiftl 0 1.
Definition CODE_READABLE : Z := Z.shiftl 1 1.
Definition ACCESSED (b : Z) : Z := b.
Definition BYTE_GRANULARITY : Z := Z.shiftl 0 3.
Definition PAGE_GRANULARITY : Z := Z.shiftl 1 3.
Definition PROTECTED_16 : Z := Z.shiftl 0 2.
Definition PROTECTED_32 : Z := Z.shiftl 1 2.
Definition LONG_MODE_CODE (b : Z) : Z := Z.shiftl b 1.

(** The parameters arrive as [uint64_t] and [uint8_t]. *)
Definition make_segment_descriptor (base limit access flags : Z) : Z :=
  Z.lor (Z.lor (Z.lor (Z.lor (Z.lor
    (Z.land limit 0xffff)
    (u64 (Z.shiftl (Z.land base 0xffffff) 16)))
    (u64 (Z.shiftl (u8 access) 40)))
    (u64 (Z.shiftl (Z.shiftr limit 16) 48)))
    (u64 (Z.shiftl (Z.land (u8 flags) 0xf) 52)))
    (u64 (Z.shiftl (Z.shiftr base 24) 56)).

Definition bit_or (l : list Z) : Z := foldl Z.lor 0 l.

Definition KERNEL_CODE_ACCESS : Z :=
  bit_or [PRESENT 1; KERNEL_PRIVILEGE; CODE_OR_DATA_SEGMENT; IS_CODE_SEGMENT 1;
          CODE_EXACT_PRIVILEGE; CODE_READABLE; ACCESSED 1].
Definition KERNEL_DATA_ACCESS : Z :=
  bit_or [PRESENT 1; KERNEL_PRIVILEGE; CODE_OR_DATA_SEGMENT; IS_CODE_SEGMENT 0;
          DATA_GROWS_UPWARD; DATA_WRITABLE; ACCESSED 1].
Definition USER_CODE_ACCESS : Z :=
  bit_or [PRESENT 1; USER_PRIVILEGE; CODE_OR_DATA_SEGMENT; IS_CODE_SEGMENT 1;
          CODE_EXACT_PRIVILEGE; CODE_READABLE; ACCESSED 1].
Definition USER_DATA_ACCESS : Z :=
  bit_or [PRESENT 1; USER_PRIVILEGE; CODE_OR_DATA_SEGMENT; IS_CODE_SEGMENT 0;
          DATA_GROWS_UPWARD; DATA_WRITABLE; ACCESSED 1].
Definition LONG_MODE_CODE_PAGING : Z := bit_or [PAGE_GRANULARITY; LONG_MODE_CODE 1].
Definition PROTECTED_32_PAGING : Z := bit_or [PAGE_GRANULARITY; PROTECTED_32].

Definition NULL_DESCRIPTOR : Z := 0.

Definition global_descriptor_table : list Z :=
  [ NULL_DESCRIPTOR;
    make_segment_descriptor 0 0x000fffff KERNEL_CODE_ACCESS LONG_MODE_CODE_PAGING;
    make_segment_descriptor 0 0x000fffff KERNEL_DATA_ACCESS PROTECTED_32_PAGING;
    make_segment_descriptor 0 0x000fffff USER_CODE_ACCESS LONG_MODE_CODE_PAGING;
    make_segment_descriptor 0 0x000fffff USER_DATA_ACCESS PROTECTED_32_PAGING ].

Inductive GDTSegment := seg_null | kernel_code | kernel_data | user_code | user_data.

Definition GDTSegment_value (g : GDTSegment) : Z :=
  match g with seg_null => 0 | kernel_code => 1 | kernel_data => 2 | user_code => 3 | user_data => 4 end.

(** ** Segment selectors (SegmentSelector.h) *)
Inductive PrivilegeLevel := kernel | user.
Definition PrivilegeLevel_value (p : PrivilegeLevel) : Z := match p with kernel => 0 | user => 3 end.

Inductive DescriptorTable := global | local.
Definition DescriptorTable_value (t : DescriptorTable) : Z := match t with global => 0 | local => 1 end.

Record SegmentSelector := {
  requested_privilege_level_ : PrivilegeLevel;
  table_type_ : DescriptorTable;
  gdt_segment_ : GDTSegment
}.

Definition to_uint16_t (s : SegmentSelector) : Z :=
  u16 (Z.lor (Z.lor (Z.shiftl (GDTSegment_value (gdt_segment_ s)) 3)
    (Z.shiftl (DescriptorTable_value (table_type_ s)) 2))
    (PrivilegeLevel_value (requested_privilege_level_ s))).

(** ** Table descriptors (TableDescriptor.cpp) *)
Definition TableDescriptor (size table_address : Z) : list Z :=
  let adjusted_size := u16 (u16 size - 1) in
  [ u8 adjusted_size; u8 (Z.shiftr adjusted_size 8);
    u8 table_address; u8 (Z.shiftr table_address 8);
    u8 (Z.shiftr table_address 16); u8 (Z.shiftr table_address 24);
    u8 (Z.shiftr table_address 32); u8 (Z.shiftr table_address 40);
    u8 (Z.shiftr table_address 48); u8 (Z.shiftr table_address 56) ].

(** ** Loading the registers (gdt_init, reload_segment_registers.S) *)
Record cpu := CPU {
  gdtr : Z * Z;                 (** limit, base *)
  idtr : Z * Z;
  cs : Z; ds : Z; es : Z; fs : Z; gs : Z; ss : Z
}.

(** Little-endian value of bytes. *)
Fixpoint le_value (l : list Z) : Z :=
  match l with [] => 0 | b :: l => Z.lor b (Z.shiftl (le_value l) 8) end.

(** The operand of [lgdt] and [lidt]: two bytes of limit, eight of base. *)
Definition table_register (operand : list Z) : Z * Z :=
  (le_value (take 2 operand), le_value (take 8 (drop 2 operand))).

Definition lgdt (operand : list Z) (c : cpu) : cpu :=
  CPU (table_register operand) (idtr c) (cs c) (ds c) (es c) (fs c) (gs c) (ss c).
Definition lidt (operand : list Z) (c : cpu) : cpu :=
  CPU (gdtr c) (table_register operand) (cs c) (ds c) (es c) (fs c) (gs c) (ss c).

Definition reload_segment_registers (code data : Z) (c : cpu) : cpu :=
  CPU (gdtr c) (idtr c) (u16 code) (u16 data) (u16 data) (u16 data) (u16 data) (u16 data).

(** [sizeof(global_descriptor_table)] *)
Definition gdt_size : Z := 8 * Z.of_nat (List.length global_descriptor_table).

Definition gdt_descriptor (table : Z) : list Z := TableDescriptor gdt_size table.

Definition gdt_init (table : Z) (c : cpu) : cpu :=
  reload_segment_registers (GDTSegment_value kernel_code * 8) (GDTSegment_value kernel_data * 8)
    (lgdt (gdt_descriptor table) c).

(** ** Interrupt descriptor table (IDTStructure.cpp) *)
Definition num_gates : Z := 256.
Definition gate_size : Z := 16.
Definition idt_size : Z := gate_size * num_gates.

Inductive GateType := interrupt | trap.
Definition GateType_value (t : GateType) : Z := match t with interrupt => 0xe | trap => 0xf end.

Record GateDescriptor := {
  interrupt_service_routine : Z;
  selector : SegmentSelector;
  interrupt_stack_table_offset : Z;
  gate_type : GateType;
  required_privilege : PrivilegeLevel
}.

(** The sixteen bytes stored for a gate. *)
Definition gate_bytes (g : GateDescriptor) : list Z :=
  let isr_address := interrupt_service_routine g in
  let selector_bytes := to_uint16_t (selector g) in
  [ u8 isr_address; u8 (Z.shiftr isr_address 8);
    u8 selector_bytes; u8 (Z.shiftr selector_bytes 8);
    u8 (Z.land (interrupt_stack_table_offset g) 7);
    u8 (Z.lor (Z.lor (GateType_value (gate_type g))
      (Z.shiftl (PrivilegeLevel_value (required_privilege g)) 5)) (Z.shiftl 1 7));
    u8 (Z.shiftr isr_address 16); u8 (Z.shiftr isr_address 24);
    u8 (Z.shiftr isr_address 32); u8 (Z.shiftr isr_address 40);
    u8 (Z.shiftr isr_address 48); u8 (Z.shiftr isr_address 56);
    0xca; 0xfe; 0xba; 0xbe ].

Definition load_gate_descriptor (idt : list Z) (index : Z) (g : GateDescriptor) : outcome (list Z) :=
  let base := u16 (u16 index * gate_size) in
  array_write idt base (gate_bytes g).

(** ** Specification: the processor's decoding *)

(** [n] bits of [z] from bit [lo] on. *)
Definition field (z lo n : Z) : Z := Z.land (Z.shiftr z lo) (Z.ones n).

Record segment := Segment { seg_base : Z; seg_limit : Z; seg_access : Z; seg_flags : Z }.

Definition decode_segment (d : Z) : segment :=
  Segment (Z.lor (field d 16 24) (Z.shiftl (field d 56 8) 24))
          (Z.lor (field d 0 16) (Z.shiftl (field d 48 4) 16))
          (field d 40 8) (field d 52 4).

Definition seg_present (s : segment) : bool := Z.testbit (seg_access s) 7.
Definition seg_dpl (s : segment) : Z := field (seg_access s) 5 2.

(** A 64-bit code segment: code-or-data, executable, L set and D clear. *)
Definition code64 (s : segment) : bool :=
  seg_present s && Z.testbit (seg_access s) 4 && Z.testbit (seg_access s) 3 &&
  Z.testbit (seg_flags s) 1 && negb (Z.testbit (seg_flags s) 2).

Definition writable_data (s : segment) : bool :=
  seg_present s && Z.testbit (seg_access s) 4 && negb (Z.testbit (seg_access s) 3) &&
  Z.testbit (seg_access s) 1.

(** The segment a selector names in the table behind GDTR. *)
Definition segment_at (gdtr : Z * Z) (table : list Z) (sel : Z) : option segment :=
  if Z.testbit sel 2 then None
  else if 8 * Z.shiftr sel 3 + 7 <=? gdtr.1 then decode_segment <$> table !! Z.to_nat (Z.shiftr sel 3)
  else None.

Record gate := Gate {
  gate_offset : Z; gate_selector : Z; gate_ist : Z; gate_kind : Z; gate_dpl : Z; gate_present : bool
}.

Definition byte_of (l : list Z) (i : nat) : Z := nth i l 0.

Definition decode_gate (l : list Z) : gate :=
  let b := byte_of l in
  Gate (le_value [b 0%nat; b 1%nat; b 6%nat; b 7%nat; b 8%nat; b 9%nat; b 10%nat; b 11%nat])
       (le_value [b 2%nat; b 3%nat]) (field (b 4%nat) 0 3) (field (b 5%nat) 0 5)
       (field (b 5%nat) 5 2) (Z.testbit (b 5%nat) 7).

(** The gate of vector [i] in the table. *)
Definition gate_at (idt : list Z) (i : Z) : gate :=
  decode_gate (take 16 (drop (Z.to_nat (16 * i)) idt)).

(** ** Lemmas *)
(** Bit by bit, splitting again on the bounds of nested fields. *)
Ltac segment_bits :=
  zbits; zbits_cases; try (exfalso; lia);
  repeat match goal with
  | Hi : 0 <= ?i |- context [Z.testbit _ ?j] => progress replace j with i by lia
  end; zbits_finish.

(** Fields of the parts of a descriptor. *)
Lemma field_lor a b lo n : 0 <= lo -> 0 <= n -> field (Z.lor a b) lo n = Z.lor (field a lo n) (field b lo n).
Proof. intros. unfold field. zbits. Qed.

Lemma field_shl x k lo n :
  0 <= k <= lo -> 0 <= n -> lo + n <= 64 -> field (u64 (Z.shiftl x k)) lo n = field x (lo - k) n.
Proof. intros. unfold field. zbits. Qed.

Lemma field_shl_above x k lo n : 0 <= lo -> 0 <= n -> lo + n <= k -> field (u64 (Z.shiftl x k)) lo n = 0.
Proof. intros. unfold field. zbits. Qed.

Lemma field_land_ones x w lo n :
  0 <= lo -> 0 <= n -> lo + n <= w -> field (Z.land x (Z.ones w)) lo n = field x lo n.
Proof. intros. unfold field. zbits. Qed.

Lemma field_land_above x w lo n :
  0 <= w <= lo -> 0 <= n -> field (Z.land x (Z.ones w)) lo n = 0.
Proof. intros. unfold field. zbits. Qed.

Lemma field_shr x s lo n : 0 <= lo -> 0 <= s -> field (Z.shiftr x s) lo n = field x (lo + s) n.
Proof. intros. unfold field. by rewrite Z.shiftr_shiftr, Z.add_comm by lia. Qed.

Lemma field_above x w lo n : 0 <= x < 2 ^ w -> 0 <= w <= lo -> 0 <= n -> field x lo n = 0.
Proof. intros. rewrite <-(wrap_id w x), wrap_land by lia. by apply field_land_above. Qed.

Ltac fields :=
  repeat first
    [ rewrite field_lor by lia | rewrite field_shl by lia | rewrite field_shl_above by lia
    | rewrite field_land_ones by lia | rewrite field_land_above by lia | rewrite field_shr by lia ];
  repeat match goal with
  | |- context [field ?x (?a - ?b) ?n] => let l := eval vm_compute in (a - b) in change (a - b) with l
  | |- context [field ?x (?a + ?b) ?n] => let l := eval vm_compute in (a + b) in change (a + b) with l
  end;
  rewrite ?Z.lor_0_l, ?Z.lor_0_r.

Fixpoint le_bytes (n : nat) (x : Z) : list Z :=
  match n with O => [] | S n => u8 x :: le_bytes n (Z.shiftr x 8) end.

Lemma le_value_bytes n x : le_value (le_bytes n x) = wrap (8 * Z.of_nat n) x.
Proof.
  revert x. induction n as [|n IH]; intros x; cbn [le_bytes le_value].
  { unfold wrap. by rewrite Z.mod_1_r. }
  rewrite IH, Nat2Z.inj_succ. zbits; zbits_cases; try lia; simpl; try done; f_equal; lia.
Qed.

Lemma le_bytes_8 x :
  [u8 x; u8 (Z.shiftr x 8); u8 (Z.shiftr x 16); u8 (Z.shiftr x 24); u8 (Z.shiftr x 32);
   u8 (Z.shiftr x 40); u8 (Z.shiftr x 48); u8 (Z.shiftr x 56)] = le_bytes 8 x.
Proof. cbn [le_bytes]. by rewrite !Z.shiftr_shiftr by lia. Qed.

Lemma le_value_8 x : 0 <= x < 2 ^ 64 -> le_value (le_bytes 8 x) = x.
Proof. intros Hx. rewrite le_value_bytes. by apply wrap_id. Qed.

Lemma le_value_2 x : 0 <= x < 2 ^ 16 -> le_value [u8 x; u8 (Z.shiftr x 8)] = x.
Proof.
  intros Hx. change [u8 x; u8 (Z.shiftr x 8)] with (le_bytes 2 x). rewrite le_value_bytes.
  by apply wrap_id.
Qed.

Lemma to_uint16_t_range s : 0 <= to_uint16_t s < 2 ^ 16.
Proof. by apply (wrap_range 16). Qed.

Lemma table_register_descriptor size address :
  0 <= address < 2 ^ 64 ->
  table_register (TableDescriptor size address) = (u16 (size - 1), address).
Proof.
  intros Ha. unfold table_register, TableDescriptor. cbn [take drop]. f_equal.
  - rewrite le_value_2 by (by apply (wrap_range 16)). unfold wrap. by rewrite Zminus_mod_idemp_l.
  - rewrite le_bytes_8. by apply le_value_8.
Qed.

Lemma decode_gate_bytes g :
  0 <= interrupt_service_routine g < 2 ^ 64 ->
  decode_gate (gate_bytes g) =
    Gate (interrupt_service_routine g) (to_uint16_t (selector g))
      (Z.land (interrupt_stack_table_offset g) 7) (GateType_value (gate_type g))
      (PrivilegeLevel_value (required_privilege g)) true.
Proof.
  intros Hi. unfold decode_gate, gate_bytes, byte_of. cbn [nth].
  rewrite le_bytes_8, le_value_8, le_value_2 by (done || apply to_uint16_t_range). f_equal.
  - unfold field. change 7 with (Z.ones 3). zbits.
  - by destruct (gate_type g), (required_privilege g).
  - by destruct (gate_type g), (required_privilege g).
  - by destruct (gate_type g), (required_privilege g).
Qed.

Lemma gate_bytes_length g : List.length (gate_bytes g) = 16%nat.
Proof. done. Qed.

(** Loading a gate writes the gate and nothing else. *)
Lemma load_gate_descriptor_spec idt index g :
  Z.of_nat (List.length idt) = idt_size -> 0 <= index < num_gates ->
  0 <= interrupt_service_routine g < 2 ^ 64 ->
  exists idt', load_gate_descriptor idt index g = Done idt' /\
    Z.of_nat (List.length idt') = idt_size /\
    gate_at idt' index = Gate (interrupt_service_routine g) (to_uint16_t (selector g))
      (Z.land (interrupt_stack_table_offset g) 7) (GateType_value (gate_type g))
      (PrivilegeLevel_value (required_privilege g)) true /\
    (forall j, 0 <= j < num_gates -> j <> index -> gate_at idt' j = gate_at idt j).
Proof.
  intros Hlen Hi Hr. unfold idt_size, num_gates, gate_size in *. unfold load_gate_descriptor, gate_size.
  rewrite (wrap_id 16 index), (wrap_id 16 (index * 16)) by lia.
  rewrite array_write_done by (rewrite ?gate_bytes_length; lia). rewrite gate_bytes_length.
  eexists. split; [done|].
  set (k := Z.to_nat (index * 16)).
  assert (Hk : List.length (take k idt) = k) by (rewrite length_take; lia). split; [|split].
  - rewrite !length_app, Hk, gate_bytes_length, length_drop. lia.
  - rewrite <-decode_gate_bytes by done. unfold gate_at. f_equal.
    replace (Z.to_nat (16 * index)) with k by lia.
    rewrite drop_app_ge, Hk, Nat.sub_diag, drop_0 by lia.
    rewrite take_app_le by (rewrite gate_bytes_length; lia). by apply take_ge.
  - intros j Hj Hne. unfold gate_at. f_equal. set (d := Z.to_nat (16 * j)).
    destruct (Z.lt_ge_cases j index).
    + rewrite drop_app_le by lia. rewrite take_app_le by (rewrite length_drop; lia).
      replace (drop d (take k idt)) with (take (k - d) (drop d idt)) by (rewrite take_drop_commute; do 2 f_equal; lia).
      rewrite take_take. f_equal. lia.
    + rewrite drop_app_ge, Hk by lia. rewrite drop_app_ge, gate_bytes_length by (rewrite gate_bytes_length; lia).
      rewrite drop_drop. do 2 f_equal. lia.
Qed.

(** C34. Round trip of segment descriptors: the access byte always comes back;
    base, limit and flags come back when the limit fits in 20 bits.  A longer
    limit is not cut off: its bits 20 to 23 go into the flags and its bits 24
    to 31 into the base. *)
Theorem segment_descriptor_roundtrip base limit access flags :
  0 <= base < 2 ^ 32 -> 0 <= limit < 2 ^ 64 -> 0 <= access < 2 ^ 8 ->
  let d := make_segment_descriptor base limit access flags in
  decode_segment d =
    Segment (Z.lor base (Z.shiftl (field limit 24 8) 24)) (wrap 20 limit) access
      (Z.lor (field limit 20 4) (field (u8 flags) 0 4)) /\
  (limit < 2 ^ 20 -> decode_segment d = Segment base limit access (Z.land (u8 flags) 15)).
Proof.
  intros Hb Hl Ha d.
  assert (Hd : decode_segment d = Segment (Z.lor base (Z.shiftl (field limit 24 8) 24)) (wrap 20 limit) access
      (Z.lor (field limit 20 4) (field (u8 flags) 0 4))).
  { unfold decode_segment, d, make_segment_descriptor.
    change 0xffff with (Z.ones 16). change 0xffffff with (Z.ones 24). change 0xf with (Z.ones 4).
    rewrite (wrap_id 8 access) by done. f_equal; fields.
    - rewrite (field_above access 8), Z.lor_0_l by lia. rewrite <-(wrap_id 32 base) by done.
      unfold field. segment_bits.
    - rewrite (field_above access 8), Z.lor_0_l by lia. unfold field. segment_bits.
    - rewrite <-(wrap_id 8 access) by done. unfold field. segment_bits.
    - rewrite (field_above access 8), Z.lor_0_l by lia. done. }
  split; [exact Hd|]. intros Hlim. rewrite Hd, !(field_above limit 20), (wrap_id 20) by lia.
  by rewrite Z.lor_0_r, Z.lor_0_l.
Qed.

Lemma segment_descriptor_roundtrip_witness :
  decode_segment (make_segment_descriptor 0x12345678 0xfffff 0x9b 0xa) =
    Segment 0x12345678 0xfffff 0x9b 0xa.
Proof.
  destruct (segment_descriptor_roundtrip 0x12345678 0xfffff 0x9b 0xa) as [H _].
  - lia.
  - lia.
  - lia.
  - rewrite H. vm_compute. reflexivity.
Defined.

(** After [gdt_init] the processor uses the new table: GDTR covers exactly
    the five descriptors, CS names a present 64-bit ring-0 code segment, the
    data segment registers a present writable ring-0 data segment, and every
    selector built from a named segment finds a segment of that name's kind and
    privilege. *)
Theorem gdt_init_correct table c :
  0 <= table < 2 ^ 64 ->
  let c' := gdt_init table c in
  let at_ := segment_at (gdtr c') global_descriptor_table in
  gdtr c' = (8 * 5 - 1, table) /\ idtr c' = idtr c /\
  (exists s, at_ (cs c') = Some s /\ code64 s = true /\ seg_dpl s = Z.land (cs c') 3 /\ seg_dpl s = 0) /\
  Forall (fun r => exists s, at_ r = Some s /\ writable_data s = true /\ seg_dpl s = 0)
    [ds c'; es c'; fs c'; gs c'; ss c'] /\
  (forall p, at_ (to_uint16_t {| requested_privilege_level_ := p; table_type_ := local;
                                 gdt_segment_ := kernel_code |}) = None) /\
  (forall p g, match at_ (to_uint16_t {| requested_privilege_level_ := p; table_type_ := global;
                                         gdt_segment_ := g |}) with
     | Some s =>
         match g with
         | seg_null => seg_present s = false
         | kernel_code => code64 s = true /\ seg_dpl s = 0
         | kernel_data => writable_data s = true /\ seg_dpl s = 0
         | user_code => code64 s = true /\ seg_dpl s = 3
         | user_data => writable_data s = true /\ seg_dpl s = 3
         end
     | None => False
     end).
Proof.
  intros Ht c' at_.
  assert (Hg : gdtr c' = (39, table)).
  { unfold c', gdt_init, gdt_descriptor. cbn [gdtr reload_segment_registers lgdt].
    by rewrite table_register_descriptor. }
  unfold at_. rewrite Hg. split; [done|]. split; [done|].
  assert (Hd : Forall (fun r => exists s, segment_at (39, table) global_descriptor_table r = Some s /\
    writable_data s = true /\ seg_dpl s = 0) (replicate 5 16)).
  { apply Forall_replicate. exists (Segment 0 0xfffff 0x93 0xc). split; [reflexivity|done]. }
  split; [|split; [exact Hd|split]].
  - exists (Segment 0 0xfffff 0x9b 0xa). split; [reflexivity|done].
  - by intros [].
  - intros [] []; vm_compute; auto.
Qed.

Lemma gdt_init_correct_witness :
  gdtr (gdt_init 0xffffffff80003000 (CPU (0, 0) (0, 0) 0 0 0 0 0 0)) = (39, 0xffffffff80003000).
Proof.
  destruct (gdt_init_correct 0xffffffff80003000 (CPU (0, 0) (0, 0) 0 0 0 0 0 0)) as [H _]; [lia|exact H].
Defined.

(** Loading a gate stores what the processor decodes as that gate, leaves
    every other gate as it is, keeps the size of the table, and an index of 256
    or more writes outside of the table. *)
Theorem load_gate_descriptor_correct idt index g :
  Z.of_nat (List.length idt) = idt_size -> 0 <= interrupt_service_routine g < 2 ^ 64 ->
  (0 <= index < num_gates ->
   exists idt', load_gate_descriptor idt index g = Done idt' /\
    Z.of_nat (List.length idt') = idt_size /\
    gate_at idt' index = Gate (interrupt_service_routine g) (to_uint16_t (selector g))
      (Z.land (interrupt_stack_table_offset g) 7) (GateType_value (gate_type g))
      (PrivilegeLevel_value (required_privilege g)) true /\
    (forall j, 0 <= j < num_gates -> j <> index -> gate_at idt' j = gate_at idt j)) /\
  (num_gates <= index < 2 ^ 12 -> exists w, load_gate_descriptor idt index g = Undefined w).
Proof.
  intros Hlen Hr. split; [intros Hi; by apply load_gate_descriptor_spec|]. intros Hi.
  unfold idt_size, num_gates, load_gate_descriptor, gate_size in *.
  rewrite (wrap_id 16 index), (wrap_id 16 (index * 16)) by lia.
  exists "Array: index out of bounds"%string. unfold gate_bytes. cbn [array_write]. unfold array_set.
  rewrite (proj2 (Z.ltb_ge _ _)), andb_false_r by lia. done.
Qed.

Definition demo_gate : GateDescriptor :=
  {| interrupt_service_routine := 0xffffffff80001234;
     selector := {| requested_privilege_level_ := kernel; table_type_ := global;
                    gdt_segment_ := kernel_code |};
     interrupt_stack_table_offset := 0; gate_type := trap; required_privilege := kernel |}.

Definition empty_idt : list Z := replicate (Z.to_nat idt_size) 0.

Lemma load_gate_descriptor_correct_witness :
  exists idt', load_gate_descriptor empty_idt 3 demo_gate = Done idt' /\
    gate_at idt' 3 = Gate 0xffffffff80001234 8 0 15 0 true /\ gate_present (gate_at idt' 4) = false.
Proof.
  destruct (load_gate_descriptor_correct empty_idt 3 demo_gate) as [H _].
  - vm_compute. reflexivity.
  - vm_compute. split; congruence.
  - destruct H as (idt' & Hl & _ & Hg & Hj); [unfold num_gates; lia|].
    exists idt'. split; [exact Hl|]. split; [rewrite Hg; vm_compute; reflexivity|].
    rewrite (Hj 4); [vm_compute; reflexivity|unfold num_gates; lia|lia].
Defined.
