(* ===== verification/Processor.v ===== *)
(** * Processor, interrupt controllers and keyboard controller

    processor.cpp and LocalAPIC.cpp.  The processor's special instructions and
    the devices are the client's: class [Platform] is their operations, class
    [Devices] the documented behaviour the kernel relies on (Intel SDM, 8259A
    and 8042 data sheets), with the device states defined below as the
    specification.  [pc] is a concrete machine with these devices. *)

From Stdlib Require Import ZArith Lia String.
From stdpp Require Import base gmap list list_numbers numbers strings.
From S2P Require Import Prelude Memory FrameAllocator PageTree Paging KernelMemory.
#[local] Open Scope Z_scope.

(** Instructions that reach outside the program. *)
Class Platform (H : Type) := {
  cpuid_1_edx : H -> Z;
  rdmsr : Z -> H -> Z * Z;
  wrmsr : Z -> Z -> Z -> H -> H;
  port_in : Z -> H -> Z * H;
  port_out : Z -> Z -> H -> H;
  mmio_in : Z -> H -> Z * H;
  mmio_out : Z -> Z -> H -> H;
  sti : H -> H;
  interrupt_flag : H -> bool
}.

(** The feature bits of CPUID leaf 1. *)
Module CpuIdFeature.
Inductive t :=
| ECX_SSE3 | ECX_PCLMUL | ECX_DTES64 | ECX_MONITOR | ECX_DS_CPL | ECX_VMX | ECX_SMX | ECX_EST
| ECX_TM2 | ECX_SSSE3 | ECX_CID | ECX_SDBG | ECX_FMA | ECX_CX16 | ECX_XTPR | ECX_PDCM | ECX_PCID
| ECX_DCA | ECX_SSE4_1 | ECX_SSE4_2 | ECX_X2APIC | ECX_MOVBE | ECX_POPCNT | ECX_TSC | ECX_AES
| ECX_XSAVE | ECX_OSXSAVE | ECX_AVX | ECX_F16C | ECX_RDRAND | ECX_HYPERVISOR | EDX_FPU | EDX_VME
| EDX_DE | EDX_PSE | EDX_TSC | EDX_MSR | EDX_PAE | EDX_MCE | EDX_CX8 | EDX_APIC | EDX_SEP | EDX_MTRR
| EDX_PGE | EDX_MCA | EDX_CMOV | EDX_PAT | EDX_PSE36 | EDX_PSN | EDX_CLFLUSH | EDX_DS | EDX_ACPI
| EDX_MMX | EDX_FXSR | EDX_SSE | EDX_SSE2 | EDX_SS | EDX_HTT | EDX_TM | EDX_IA64 | EDX_PBE.

Definition position (f : t) : Z :=
  match f with
  | ECX_SSE3 => 0 | ECX_PCLMUL => 1 | ECX_DTES64 => 2 | ECX_MONITOR => 3 | ECX_DS_CPL => 4
  | ECX_VMX => 5 | ECX_SMX => 6 | ECX_EST => 7 | ECX_TM2 => 8 | ECX_SSSE3 => 9
  | ECX_CID => 10 | ECX_SDBG => 11 | ECX_FMA => 12 | ECX_CX16 => 13 | ECX_XTPR => 14
  | ECX_PDCM => 15 | ECX_PCID => 17 | ECX_DCA => 18 | ECX_SSE4_1 => 19 | ECX_SSE4_2 => 20
  | ECX_X2APIC => 21 | ECX_MOVBE => 22 | ECX_POPCNT => 23 | ECX_TSC => 24 | ECX_AES => 25
  | ECX_XSAVE => 26 | ECX_OSXSAVE => 27 | ECX_AVX => 28 | ECX_F16C => 29 | ECX_RDRAND => 30
  | ECX_HYPERVISOR => 31 | EDX_FPU => 0 | EDX_VME => 1 | EDX_DE => 2 | EDX_PSE => 3
  | EDX_TSC => 4 | EDX_MSR => 5 | EDX_PAE => 6 | EDX_MCE => 7 | EDX_CX8 => 8
  | EDX_APIC => 9 | EDX_SEP => 11 | EDX_MTRR => 12 | EDX_PGE => 13 | EDX_MCA => 14
  | EDX_CMOV => 15 | EDX_PAT => 16 | EDX_PSE36 => 17 | EDX_PSN => 18 | EDX_CLFLUSH => 19
  | EDX_DS => 21 | EDX_ACPI => 22 | EDX_MMX => 23 | EDX_FXSR => 24 | EDX_SSE => 25
  | EDX_SSE2 => 26 | EDX_SS => 27 | EDX_HTT => 28 | EDX_TM => 29 | EDX_IA64 => 30
  | EDX_PBE => 31
  end.

(** The enumerators are [int]s. *)
Definition mask (f : t) : Z := i32 (Z.shiftl 1 (position f)).
End CpuIdFeature.

(** The ones that the kernel tests, all in EDX. *)
Definition EDX_MSR : Z := CpuIdFeature.mask CpuIdFeature.EDX_MSR.
Definition EDX_APIC : Z := CpuIdFeature.mask CpuIdFeature.EDX_APIC.
Definition EDX_PAT : Z := CpuIdFeature.mask CpuIdFeature.EDX_PAT.

(** The hardware, the virtual memory, and [localAPIC.baseAddress]. *)
Record machine (H : Type) := Machine { hw : H; vm : vm_state; baseAddress : Z }.
Arguments Machine {H} hw vm baseAddress.
Arguments hw {H} m.
Arguments vm {H} m.
Arguments baseAddress {H} m.

Definition with_hw {H} (m : machine H) (h : H) : machine H := Machine h (vm m) (baseAddress m).
Definition with_vm {H} (m : machine H) (v : vm_state) : machine H := Machine (hw m) v (baseAddress m).

Section Processor.
Context {H : Type} `{Platform H}.

(** ** Feature tests and model-specific registers *)
Definition hasMSR (h : H) : bool := negb (Z.land (cpuid_1_edx h) EDX_MSR =? 0).
Definition hasLocalAPIC (h : H) : bool := negb (Z.land (cpuid_1_edx h) EDX_APIC =? 0).
Definition hasPAT (h : H) : bool := negb (Z.land (cpuid_1_edx h) EDX_PAT =? 0).

Definition readMSR (msr : Z) (h : H) : outcome (Z * Z) :=
  if negb (hasMSR h) then Panic "processor does not support MSR" else Done (rdmsr msr h).

Definition writeMSR (msr low high : Z) (h : H) : outcome H :=
  if negb (hasMSR h) then Panic "processor does not support MSR" else Done (wrmsr msr low high h).

Definition localAPICBaseAddress (h : H) : outcome Z :=
  if negb (hasLocalAPIC h) then Panic "processor does not support local APIC"
  else r ← readMSR 0x1B h; Done (Z.land (fst r) 0xfffff000).

Definition hardwareEnableLocalAPICAndSetBaseAddress (physicalBaseAddress : Z) (h : H) : outcome H :=
  if negb (hasLocalAPIC h) then Panic "processor does not support local APIC"
  else
    let high := 0 in
    let ia32ApicBaseEnable := Z.shiftl 1 11 in
    let low := u32 (Z.lor (Z.land physicalBaseAddress 0xfffff000) ia32ApicBaseEnable) in
    writeMSR 0x1B low high h.

(** ** Ports *)
Definition outb (port value : Z) (h : H) : H := port_out (u16 port) (u8 value) h.
Definition inb (port : Z) (h : H) : Z * H :=
  let '(v, h) := port_in (u16 port) h in (u8 v, h).
Definition ioWait (h : H) : H := outb 0x80 0 h.

(** [outb] followed by [ioWait] *)
Definition outb_wait (port value : Z) (h : H) : H := ioWait (outb port value h).

Definition ICW1_ICW4 : Z := 0x01.
Definition ICW1_Init : Z := 0x10.
Definition ICW4_8086 : Z := 0x01.
Definition PIC1Command : Z := 0x20.
Definition PIC1Data : Z := 0x21.
Definition PIC2Command : Z := 0xA0.
Definition PIC2Data : Z := 0xA1.

Definition remapPIC (offset1 offset2 : Z) (h : H) : H :=
  let '(a1, h) := inb PIC1Data h in
  let '(a2, h) := inb PIC2Data h in
  let h := outb_wait PIC1Command (Z.lor ICW1_Init ICW1_ICW4) h in
  let h := outb_wait PIC2Command (Z.lor ICW1_Init ICW1_ICW4) h in
  let h := outb_wait PIC1Data offset1 h in
  let h := outb_wait PIC2Data offset2 h in
  let h := outb_wait PIC1Data 4 h in
  let h := outb_wait PIC2Data 2 h in
  let h := outb_wait PIC1Data ICW4_8086 h in
  let h := outb_wait PIC2Data ICW4_8086 h in
  let h := outb PIC1Data a1 h in
  outb PIC2Data a2 h.

Definition disablePIC (h : H) : H := outb 0xA1 0xff (outb 0x21 0xff h).

(** ** Keyboard controller

    [while (inb(0x64) & mask ...);] — every test reads the status port; the fuel
    is the number of reads after which the model gives up. *)
Fixpoint poll_status (fuel : nat) (again : Z -> bool) (h : H) : outcome H :=
  match fuel with
  | O => Diverged
  | S fuel =>
      let '(status, h) := inb 0x64 h in
      if again status then poll_status fuel again h else Done h
  end.

Definition input_full (status : Z) : bool := negb (Z.land status 0x02 =? 0).
Definition output_empty (status : Z) : bool := Z.land status 0x01 =? 0.

Definition initKeyboardController (fuel : nat) (h : H) : outcome H :=
  h ← poll_status fuel input_full h;
  let h := outb_wait 0x64 0xAE h in
  h ← poll_status fuel input_full h;
  let h := outb_wait 0x64 0x20 h in
  h ← poll_status fuel output_empty h;
  let '(commandByte, h) := inb 0x60 h in
  let commandByte := Z.lor commandByte 0x01 in
  let commandByte := Z.land commandByte (u8 (Z.lnot 0x10)) in
  h ← poll_status fuel input_full h;
  let h := outb_wait 0x64 0x60 h in
  h ← poll_status fuel input_full h;
  Done (outb_wait 0x60 commandByte h).

(** ** Device registers

    A device pointer is a virtual address; the access goes to the physical
    address that the current page table gives it. *)
Definition translate (m : machine H) (va : Z) : option Z :=
  mmu_translate (ram (vm_mem (vm m))) (ptbr (vm m)) va.

Definition device_store (va v : Z) (m : machine H) : outcome (machine H) :=
  match translate m va with
  | Some pa => Done (with_hw m (mmio_out pa (u32 v) (hw m)))
  | None => Undefined "page fault on a device register"
  end.

Definition device_load (va : Z) (m : machine H) : outcome (Z * machine H) :=
  match translate m va with
  | Some pa => let '(v, h) := mmio_in pa (hw m) in Done (u32 v, with_hw m h)
  | None => Undefined "page fault on a device register"
  end.

(** ** Local APIC (LocalAPIC.cpp) *)
Definition LAPIC_SPURIOUS_REGISTER : Z := 0xF0.
Definition LAPIC_EOI_REGISTER : Z := 0xB0.
Definition LAPIC_TASK_PRIORITY : Z := 0x80.

Definition lapic_write (regOffset value : Z) (m : machine H) : outcome (machine H) :=
  device_store (u64 (baseAddress m + regOffset)) value m.

Definition lapic_read (regOffset : Z) (m : machine H) : outcome (Z * machine H) :=
  device_load (u64 (baseAddress m + regOffset)) m.

Definition sendEndOfInterrupt (m : machine H) : outcome (machine H) :=
  lapic_write LAPIC_EOI_REGISTER 0 m.

(** [kernel_assert]: a failed assertion panics. *)
Definition kernel_assert (condition : bool) (msg : string) : outcome unit :=
  if condition then Done tt else Panic msg.

Definition enableAPIC (limine : limine_features) (m : machine H) : outcome (machine H) :=
  physicalAPICAddress ← localAPICBaseAddress (hw m);
  let virtualAPICAddress := kernel_physical_to_virtual limine physicalAPICAddress in
  _ ← kernel_assert (hasPAT (hw m)) "Processor does not support PAT";
  v ← paging_add_mapping limine virtualAPICAddress physicalAPICAddress pageSize
        (PageFlags_or PageFlags.Write PageFlags.CacheDisable) (vm m);
  h ← hardwareEnableLocalAPICAndSetBaseAddress physicalAPICAddress (hw m);
  let h := disablePIC h in
  let h := remapPIC 0x20 0x28 h in
  let m := Machine (sti h) v virtualAPICAddress in
  m ← lapic_write LAPIC_SPURIOUS_REGISTER 0x1FF m;
  lapic_write LAPIC_TASK_PRIORITY 0 m.
End Processor.

(** ** Device specifications *)

(** One 8259A.  [pic_icw] is the number of the initialisation word it expects
    on its data port, 0 outside of an initialisation. *)
Record pic8259 := Pic {
  pic_mask : Z; pic_vector : Z; pic_cascade : Z; pic_mode : Z; pic_icw : Z; pic_icw4 : bool
}.

Definition pic_command (v : Z) (p : pic8259) : pic8259 :=
  if Z.testbit v 4 then Pic 0 (pic_vector p) (pic_cascade p) (pic_mode p) 2 (Z.testbit v 0) else p.

Definition pic_data (v : Z) (p : pic8259) : pic8259 :=
  if pic_icw p =? 2 then Pic (pic_mask p) (Z.land v 0xf8) (pic_cascade p) (pic_mode p) 3 (pic_icw4 p)
  else if pic_icw p =? 3 then
    Pic (pic_mask p) (pic_vector p) v (pic_mode p) (if pic_icw4 p then 4 else 0) (pic_icw4 p)
  else if pic_icw p =? 4 then Pic (pic_mask p) (pic_vector p) (pic_cascade p) v 0 (pic_icw4 p)
  else Pic v (pic_vector p) (pic_cascade p) (pic_mode p) (pic_icw p) (pic_icw4 p).

(** The 8042.  It stays busy for [kb_latency] status reads after it was
    written to, and an answer appears after as many; a write while it is busy is
    lost; an answer waits until the output buffer is free. *)
Record i8042 := Kbc {
  kb_latency : nat;
  kb_busy : nat;
  kb_delay : nat;
  kb_pending : option Z;
  kb_output : option Z;
  kb_command_byte : Z;
  kb_expect : bool
}.

Definition kbc_status (k : i8042) : Z :=
  Z.lor (match kb_output k with Some _ => 1 | None => 0 end) (if (kb_busy k =? 0)%nat then 0 else 2).

Definition kbc_tick (k : i8042) : i8042 :=
  let ready := (kb_delay k =? 0)%nat && negb (bool_decide (is_Some (kb_output k))) in
  Kbc (kb_latency k) (Nat.pred (kb_busy k)) (Nat.pred (kb_delay k))
    (if ready then None else kb_pending k) (if ready then kb_pending k else kb_output k)
    (kb_command_byte k) (kb_expect k).

Definition kbc_take (k : i8042) : i8042 :=
  Kbc (kb_latency k) (kb_busy k) (kb_delay k) (kb_pending k) None (kb_command_byte k) (kb_expect k).

Definition kbc_command (v : Z) (k : i8042) : i8042 :=
  if negb (kb_busy k =? 0)%nat then k
  else
    Kbc (kb_latency k) (kb_latency k) (kb_latency k)
      (if v =? 0x20 then Some (kb_command_byte k) else kb_pending k) (kb_output k)
      (if v =? 0xAE then Z.ldiff (kb_command_byte k) 0x10 else kb_command_byte k)
      (v =? 0x60).

Definition kbc_data (v : Z) (k : i8042) : i8042 :=
  if negb (kb_busy k =? 0)%nat then k
  else
    Kbc (kb_latency k) (kb_latency k) (kb_delay k) (kb_pending k) (kb_output k)
      (if kb_expect k then v else kb_command_byte k) false.

(** The local APIC: the interrupts being serviced, and the ones sent. *)
Record lapic_state := Lapic {
  la_svr : Z; la_tpr : Z; la_icr_high : Z; la_in_service : list Z; la_sent : list (Z * Z)
}.

Definition lapic_reg_write (offset v : Z) (l : lapic_state) : lapic_state :=
  if offset =? 0xF0 then Lapic v (la_tpr l) (la_icr_high l) (la_in_service l) (la_sent l)
  else if offset =? 0x80 then Lapic (la_svr l) v (la_icr_high l) (la_in_service l) (la_sent l)
  else if offset =? 0xB0 then Lapic (la_svr l) (la_tpr l) (la_icr_high l) (tail (la_in_service l)) (la_sent l)
  else if offset =? 0x310 then Lapic (la_svr l) (la_tpr l) v (la_in_service l) (la_sent l)
  else if offset =? 0x300 then
    Lapic (la_svr l) (la_tpr l) (la_icr_high l) (la_in_service l)
      ((Z.shiftr (la_icr_high l) 24, v) :: la_sent l)
  else l.

(** An I/O APIC: register 1 holds the number of its last redirection entry. *)
Record ioapic := IoApic { io_select : Z; io_last : Z; io_regs : gmap Z Z }.

Definition ioapic_reg (a : ioapic) (r : Z) : Z :=
  if r =? 1 then Z.lor 0x20 (Z.shiftl (io_last a) 16) else default 0 (io_regs a !! r).

Definition ioapic_write (offset v : Z) (a : ioapic) : ioapic :=
  if offset =? 0 then IoApic (Z.land v 0xff) (io_last a) (io_regs a)
  else if offset =? 0x10 then IoApic (io_select a) (io_last a) (<[io_select a := v]> (io_regs a))
  else a.

(** The devices of a machine. *)
Record pc := PC {
  pc_edx : Z;
  pc_pic1 : pic8259;
  pc_pic2 : pic8259;
  pc_kbc : i8042;
  pc_apic_msr : Z * Z;
  pc_lapic : lapic_state;
  pc_ioapics : gmap Z ioapic;
  pc_if : bool
}.

Definition pc_lapic_base (d : pc) : Z := Z.land (fst (pc_apic_msr d)) 0xfffff000.

Definition pc_port_out (port v : Z) (d : pc) : pc :=
  PC (pc_edx d)
    (if port =? 0x20 then pic_command v (pc_pic1 d) else if port =? 0x21 then pic_data v (pc_pic1 d) else pc_pic1 d)
    (if port =? 0xA0 then pic_command v (pc_pic2 d) else if port =? 0xA1 then pic_data v (pc_pic2 d) else pc_pic2 d)
    (if port =? 0x64 then kbc_command v (pc_kbc d) else if port =? 0x60 then kbc_data v (pc_kbc d) else pc_kbc d)
    (pc_apic_msr d) (pc_lapic d) (pc_ioapics d) (pc_if d).

Definition pc_port_read (port : Z) (d : pc) : option Z :=
  if port =? 0x21 then Some (pic_mask (pc_pic1 d))
  else if port =? 0xA1 then Some (pic_mask (pc_pic2 d))
  else if port =? 0x64 then Some (kbc_status (pc_kbc d))
  else if port =? 0x60 then kb_output (pc_kbc d)
  else None.

Definition pc_port_in (port : Z) (d : pc) : pc :=
  PC (pc_edx d) (pc_pic1 d) (pc_pic2 d)
    (if port =? 0x64 then kbc_tick (pc_kbc d) else if port =? 0x60 then kbc_take (pc_kbc d) else pc_kbc d)
    (pc_apic_msr d) (pc_lapic d) (pc_ioapics d) (pc_if d).

Definition pc_wrmsr (msr low high : Z) (d : pc) : pc :=
  PC (pc_edx d) (pc_pic1 d) (pc_pic2 d) (pc_kbc d)
    (if msr =? 0x1B then (low, high) else pc_apic_msr d) (pc_lapic d) (pc_ioapics d) (pc_if d).

Definition pc_mmio_out (pa v : Z) (d : pc) : pc :=
  PC (pc_edx d) (pc_pic1 d) (pc_pic2 d) (pc_kbc d) (pc_apic_msr d)
    (if (pc_lapic_base d <=? pa) && (pa <? pc_lapic_base d + 0x1000)
     then lapic_reg_write (pa - pc_lapic_base d) v (pc_lapic d) else pc_lapic d)
    (alter (ioapic_write (pa mod 0x1000) v) (pa - pa mod 0x1000) (pc_ioapics d)) (pc_if d).

Definition lapic_reg_read (offset : Z) (l : lapic_state) : option Z :=
  if offset =? 0xF0 then Some (la_svr l)
  else if offset =? 0x80 then Some (la_tpr l)
  else if offset =? 0x310 then Some (la_icr_high l)
  else None.

(** The window of an I/O APIC shows the selected register; the registers of the
    local APIC read back what was written. *)
Definition pc_mmio_read (pa : Z) (d : pc) : option Z :=
  match pc_ioapics d !! (pa - pa mod 0x1000) with
  | Some a => if pa mod 0x1000 =? 0x10 then Some (ioapic_reg a (io_select a)) else None
  | None =>
      if (pc_lapic_base d <=? pa) && (pa <? pc_lapic_base d + 0x1000)
      then lapic_reg_read (pa - pc_lapic_base d) (pc_lapic d) else None
  end.

Definition pc_sti (d : pc) : pc :=
  PC (pc_edx d) (pc_pic1 d) (pc_pic2 d) (pc_kbc d) (pc_apic_msr d) (pc_lapic d) (pc_ioapics d) true.

(** Hardware that behaves like these devices. *)
Class Devices (H : Type) `{Platform H} := {
  devices : H -> pc;
  devices_edx h : cpuid_1_edx h = pc_edx (devices h);
  devices_out p v h : devices (port_out p v h) = pc_port_out p v (devices h);
  devices_in p h : devices (snd (port_in p h)) = pc_port_in p (devices h);
  devices_read p h v : pc_port_read p (devices h) = Some v -> fst (port_in p h) = v;
  devices_rdmsr h : rdmsr 0x1B h = pc_apic_msr (devices h);
  devices_wrmsr r l u h : devices (wrmsr r l u h) = pc_wrmsr r l u (devices h);
  devices_mmio_out pa v h : devices (mmio_out pa v h) = pc_mmio_out pa v (devices h);
  devices_mmio_in pa h : devices (snd (mmio_in pa h)) = devices h;
  devices_mmio_read pa h v : pc_mmio_read pa (devices h) = Some v -> fst (mmio_in pa h) = v;
  devices_sti h : devices (sti h) = pc_sti (devices h);
  devices_if h : interrupt_flag h = pc_if (devices h)
}.

(** The machine that consists of just these devices. *)
#[export] Instance pc_platform : Platform pc := {
  cpuid_1_edx := pc_edx;
  rdmsr := fun r d => if r =? 0x1B then pc_apic_msr d else (0, 0);
  wrmsr := pc_wrmsr;
  port_in := fun p d => (default 0 (pc_port_read p d), pc_port_in p d);
  port_out := pc_port_out;
  mmio_in := fun pa d => (default 0 (pc_mmio_read pa d), d);
  mmio_out := pc_mmio_out;
  sti := pc_sti;
  interrupt_flag := pc_if
}.

#[export] Program Instance pc_devices : Devices pc := { devices := fun d => d }.
Solve Obligations with (intros; simpl; by repeat match goal with H : _ = Some _ |- _ => rewrite H end).

(** ** Lemmas *)
Section DeviceLemmas.
Context {H : Type} `{Devices H}.
Implicit Types h : H.

Lemma outb_devices port v h :
  0 <= port < 2 ^ 16 -> devices (outb port v h) = pc_port_out port (u8 v) (devices h).
Proof. intros Hp. unfold outb. by rewrite devices_out, wrap_id. Qed.

Lemma pc_port_out_80 v d : pc_port_out 0x80 v d = d.
Proof. by destruct d. Qed.

Lemma outb_wait_devices port v h :
  0 <= port < 2 ^ 16 -> devices (outb_wait port v h) = pc_port_out port (u8 v) (devices h).
Proof.
  intros Hp. unfold outb_wait, ioWait. by rewrite outb_devices, pc_port_out_80, outb_devices.
Qed.

Lemma inb_devices port h v :
  0 <= port < 2 ^ 16 -> pc_port_read port (devices h) = Some v -> 0 <= v < 256 ->
  exists h', inb port h = (v, h') /\ devices h' = pc_port_in port (devices h).
Proof.
  intros Hp Hr Hv. unfold inb. rewrite (wrap_id 16) by done.
  pose proof (devices_read port h v Hr) as Hf. pose proof (devices_in port h) as Hs.
  destruct (port_in port h) as [r h']. simpl in *. subst r. rewrite wrap_id by done. eauto.
Qed.

(** Without a byte in the port, any value may be read. *)
Lemma inb_any port h :
  0 <= port < 2 ^ 16 -> exists v h', inb port h = (v, h') /\ 0 <= v < 256 /\ devices h' = pc_port_in port (devices h) /\
    forall b, pc_port_read port (devices h) = Some b -> v = u8 b.
Proof.
  intros Hp. unfold inb. rewrite (wrap_id 16) by done. pose proof (devices_in port h) as Hs.
  destruct (port_in port h) as [r h'] eqn:Hr. exists (u8 r), h'. split; [done|]. split; [apply wrap_range; done|].
  split; [exact Hs|]. intros b Hb%devices_read. by rewrite Hr in Hb; simpl in Hb; subst b.
Qed.

Definition set_pics (d : pc) (p1 p2 : pic8259) : pc :=
  PC (pc_edx d) p1 p2 (pc_kbc d) (pc_apic_msr d) (pc_lapic d) (pc_ioapics d) (pc_if d).

Lemma remapPIC_spec o1 o2 h :
  let d := devices h in
  0 <= pic_mask (pc_pic1 d) < 256 -> 0 <= pic_mask (pc_pic2 d) < 256 ->
  devices (remapPIC o1 o2 h) = set_pics d
    (Pic (pic_mask (pc_pic1 d)) (Z.land (u8 o1) 0xf8) 4 ICW4_8086 0 true)
    (Pic (pic_mask (pc_pic2 d)) (Z.land (u8 o2) 0xf8) 2 ICW4_8086 0 true).
Proof.
  intros d Hm1 Hm2. unfold remapPIC.
  destruct (inb_devices PIC1Data h (pic_mask (pc_pic1 d))) as (h1 & -> & Hd1); try done.
  destruct (inb_devices PIC2Data h1 (pic_mask (pc_pic2 d))) as (h2 & -> & Hd2); try done.
  { by rewrite Hd1. }
  rewrite !outb_devices, !outb_wait_devices by done. rewrite Hd2, Hd1. fold d.
  rewrite (wrap_id 8 (pic_mask (pc_pic1 d))), (wrap_id 8 (pic_mask (pc_pic2 d))) by done.
  generalize (u8 o1) (u8 o2) (pic_mask (pc_pic1 d)) (pic_mask (pc_pic2 d)). intros.
  destruct d. reflexivity.
Qed.

Lemma disablePIC_devices h :
  devices (disablePIC h) = pc_port_out 0xA1 0xff (pc_port_out 0x21 0xff (devices h)).
Proof. unfold disablePIC. by rewrite !outb_devices by done. Qed.
End DeviceLemmas.

(** Remapping moves the interrupts of the two controllers to the vectors
    asked for (rounded down to a multiple of eight), sets up the cascade in 8086
    mode, finishes both initialisation sequences, leaves the masks as they were
    and touches no other device; after [disablePIC] both controllers mask every
    interrupt. *)
Theorem remapPIC_correct {H} `{Devices H} (h : H) o1 o2 :
  let d := devices h in
  0 <= pic_mask (pc_pic1 d) < 256 -> 0 <= pic_mask (pc_pic2 d) < 256 ->
  pic_icw (pc_pic1 d) = 0 -> pic_icw (pc_pic2 d) = 0 ->
  0 <= o1 < 256 -> o1 mod 8 = 0 -> 0 <= o2 < 256 -> o2 mod 8 = 0 ->
  devices (remapPIC o1 o2 h) =
    set_pics d (Pic (pic_mask (pc_pic1 d)) o1 4 1 0 true) (Pic (pic_mask (pc_pic2 d)) o2 2 1 0 true) /\
  devices (remapPIC o1 o2 (disablePIC h)) =
    set_pics d (Pic 0xff o1 4 1 0 true) (Pic 0xff o2 2 1 0 true).
Proof.
  intros d Hm1 Hm2 Hi1 Hi2 Ho1 Hz1 Ho2 Hz2.
  assert (Hland : forall o, 0 <= o < 256 -> o mod 8 = 0 -> Z.land (u8 o) 0xf8 = o).
  { intros o Ho Hz. rewrite wrap_id by done. change 0xf8 with (Z.ldiff (Z.ones 8) (Z.ones 3)).
    apply Z.mod_divide in Hz as [k ->]; [|done]. rewrite <-(wrap_id 8 (k * 8)) by done.
    replace (k * 8) with (Z.shiftl k 3) by (by rewrite Z.shiftl_mul_pow2). zbits. }
  split.
  - rewrite remapPIC_spec by done. fold d. by rewrite !Hland.
  - rewrite remapPIC_spec; rewrite disablePIC_devices; fold d; unfold pc_port_out; simpl;
      unfold pic_data; rewrite ?Hi1, ?Hi2; simpl; [|lia|lia]. by rewrite !Hland.
Qed.

Lemma remapPIC_correct_witness :
  let p := Pic 0xb8 8 4 1 0 true in
  let d := PC 0 p p (Kbc 3 0 0 None None 0x47 false) (0, 0) (Lapic 0 0 0 [] []) ∅ false in
  devices (remapPIC 0x20 0x28 d) = set_pics d (Pic 0xb8 0x20 4 1 0 true) (Pic 0xb8 0x28 2 1 0 true).
Proof.
  intros p d. destruct (remapPIC_correct d 0x20 0x28) as [Hr _].
  - vm_compute. split; congruence.
  - vm_compute. split; congruence.
  - reflexivity.
  - reflexivity.
  - lia.
  - reflexivity.
  - lia.
  - reflexivity.
  - exact Hr.
Defined.

(** ** Keyboard controller *)
Definition set_kbc (d : pc) (k : i8042) : pc :=
  PC (pc_edx d) (pc_pic1 d) (pc_pic2 d) k (pc_apic_msr d) (pc_lapic d) (pc_ioapics d) (pc_if d).

(** [n] status reads. *)
Definition kbc_ticks (n : nat) (k : i8042) : i8042 :=
  let moved := bool_decide (kb_output k = None) && (kb_delay k <? n)%nat in
  Kbc (kb_latency k) (kb_busy k - n) (kb_delay k - n)
    (if moved then None else kb_pending k) (if moved then kb_pending k else kb_output k)
    (kb_command_byte k) (kb_expect k).

Lemma kbc_ticks_0 k : kbc_ticks 0 k = k.
Proof. destruct k. unfold kbc_ticks. simpl. by rewrite !Nat.sub_0_r, andb_false_r. Qed.

Lemma kbc_ticks_S n k : kbc_ticks (S n) k = kbc_ticks n (kbc_tick k).
Proof.
  destruct k as [L b dl [p|] [o|] c e]; unfold kbc_ticks, kbc_tick; simpl;
    destruct dl as [|dl]; simpl; f_equal; try lia; by repeat case_match.
Qed.

Lemma kbc_status_range k : 0 <= kbc_status k < 256.
Proof. unfold kbc_status. by destruct (kb_output k), (kb_busy k =? 0)%nat. Qed.

Lemma kbc_input_full k : input_full (kbc_status k) = negb (kb_busy k =? 0)%nat.
Proof. unfold kbc_status. by destruct (kb_output k), (kb_busy k =? 0)%nat. Qed.

Lemma kbc_output_empty k : output_empty (kbc_status k) = bool_decide (kb_output k = None).
Proof. unfold kbc_status. by destruct (kb_output k), (kb_busy k =? 0)%nat. Qed.

Section KeyboardController.
Context {H : Type} `{Devices H}.
Implicit Types h : H.

(** The machine is [d] with the keyboard controller in state [k]. *)
Definition kbc_at (d : pc) (k : i8042) (h : H) : Prop := devices h = set_kbc d k.

Lemma kbc_read_status d k h :
  kbc_at d k h -> exists h', inb 0x64 h = (kbc_status k, h') /\ kbc_at d (kbc_tick k) h'.
Proof.
  intros Hk. destruct (inb_devices 0x64 h (kbc_status k)) as (h' & Hi & Hd); [done| |apply kbc_status_range|].
  - by rewrite Hk.
  - exists h'. split; [done|]. unfold kbc_at. by rewrite Hd, Hk.
Qed.

(** Polling reads the status once more than the number of answers "again". *)
Lemma poll_status_spec again d n k h fuel :
  kbc_at d k h -> (n < fuel)%nat ->
  (forall i, (i < n)%nat -> again (kbc_status (kbc_ticks i k)) = true) ->
  again (kbc_status (kbc_ticks n k)) = false ->
  exists h', poll_status fuel again h = Done h' /\ kbc_at d (kbc_ticks (S n) k) h'.
Proof.
  revert k h fuel. induction n as [|n IH]; intros k h [|fuel] Hk Hf Hag Hst; try lia; cbn [poll_status];
    destruct (kbc_read_status d k h Hk) as (h' & -> & Hk').
  - rewrite kbc_ticks_0 in Hst. rewrite Hst. exists h'. by rewrite kbc_ticks_S, kbc_ticks_0.
  - specialize (Hag 0%nat ltac:(lia)) as Hag0. rewrite kbc_ticks_0 in Hag0. rewrite Hag0.
    destruct (IH (kbc_tick k) h' fuel) as (h2 & Hp & Hk2); [done|lia| | |].
    + intros i Hi. rewrite <-kbc_ticks_S. apply Hag. lia.
    + by rewrite <-kbc_ticks_S.
    + exists h2. split; [done|]. by rewrite kbc_ticks_S.
Qed.

Lemma poll_input_full d k h fuel :
  kbc_at d k h -> (kb_busy k < fuel)%nat ->
  exists h', poll_status fuel input_full h = Done h' /\ kbc_at d (kbc_ticks (S (kb_busy k)) k) h'.
Proof.
  intros Hk Hf. apply poll_status_spec; [done|done| |]; intros; rewrite kbc_input_full; simpl.
  - rewrite (proj2 (Nat.eqb_neq _ _)) by lia. done.
  - by rewrite Nat.sub_diag.
Qed.

(** Waiting for the answer: at once when the output buffer is full already. *)
Lemma poll_output d k h v fuel :
  kbc_at d k h -> kb_output k = None -> kb_pending k = Some v -> (kb_delay k + 1 < fuel)%nat ->
  exists h', poll_status fuel output_empty h = Done h' /\ kbc_at d (kbc_ticks (kb_delay k + 2) k) h'.
Proof.
  intros Hk Ho Hp Hf. replace (kb_delay k + 2)%nat with (S (kb_delay k + 1)) by lia.
  apply poll_status_spec; [done|done| |]; intros; rewrite kbc_output_empty; unfold kbc_ticks; simpl;
    rewrite Ho, Hp; simpl.
  - rewrite (proj2 (Nat.ltb_ge _ _)) by lia. done.
  - rewrite (proj2 (Nat.ltb_lt _ _)) by lia. done.
Qed.

Lemma poll_output_full d k h b fuel :
  kbc_at d k h -> kb_output k = Some b -> (0 < fuel)%nat ->
  exists h', poll_status fuel output_empty h = Done h' /\ kbc_at d (kbc_ticks 1 k) h'.
Proof.
  intros Hk Ho Hf. apply poll_status_spec; [done|done|lia|].
  by rewrite kbc_output_empty, kbc_ticks_0, Ho.
Qed.

Lemma kbc_at_command d k h v : kbc_at d k h -> kbc_at d (kbc_command (u8 v) k) (outb_wait 0x64 v h).
Proof. intros Hk. unfold kbc_at. by rewrite outb_wait_devices, Hk. Qed.

Lemma kbc_at_data d k h v : kbc_at d k h -> kbc_at d (kbc_data (u8 v) k) (outb_wait 0x60 v h).
Proof. intros Hk. unfold kbc_at. by rewrite outb_wait_devices, Hk. Qed.

Lemma kbc_at_take d k h v :
  kbc_at d k h -> kb_output k = Some v -> 0 <= v < 256 ->
  exists h', inb 0x60 h = (v, h') /\ kbc_at d (kbc_take k) h'.
Proof.
  intros Hk Ho Hv. destruct (inb_devices 0x60 h v) as (h' & Hi & Hd); [done| |done|].
  - by rewrite Hk.
  - exists h'. split; [done|]. unfold kbc_at. by rewrite Hd, Hk.
Qed.
End KeyboardController.

(** The command byte that [initKeyboardController] writes back. *)
Definition keyboard_enabled (c : Z) : Z := Z.land (Z.lor c 0x01) 0xEF.

(** The state the controller is left in: the byte read comes from the output
    buffer if that was full, and the answer is left behind in that case. *)
Definition kbc_after_init (k : i8042) : i8042 :=
  let c := Z.ldiff (kb_command_byte k) 0x10 in
  match kb_output k with
  | None => Kbc (kb_latency k) (kb_latency k) 0 None None (keyboard_enabled c) false
  | Some b => Kbc (kb_latency k) (kb_latency k) 0 None (Some c) (keyboard_enabled b) false
  end.

Section KeyboardInit.
Context {H : Type} `{Devices H}.

Ltac kbc_simpl :=
  unfold kbc_ticks, kbc_command, kbc_data, kbc_take; cbn -[Nat.sub Nat.ltb];
  rewrite ?Nat.sub_diag, ?(fun n => proj2 (Nat.sub_0_le n (S n)) ltac:(lia)), ?Nat.sub_0_l.

(** A poll for an empty input buffer followed by a write to a port: the state
    afterwards, given that the write happens while the controller is idle. *)
Lemma kbc_command_idle L dl p o c e v :
  kbc_command v (Kbc L 0 dl p o c e) =
  Kbc L L L (if v =? 0x20 then Some c else p) o (if v =? 0xAE then Z.ldiff c 0x10 else c) (v =? 0x60).
Proof. done. Qed.

Lemma kbc_ticks_idle n L b dl p o c e :
  (b <= n)%nat -> o <> None \/ p = None ->
  kbc_ticks n (Kbc L b dl p o c e) = Kbc L 0 (dl - n) p o c e.
Proof.
  intros Hb Hop. unfold kbc_ticks. simpl. replace (b - n)%nat with 0%nat by lia.
  destruct o; simpl; [done|]. destruct Hop as [Hn| ->]; [done|]. by case_match.
Qed.

Lemma kbc_ticks_reply n L b dl p c e :
  (b <= n)%nat -> (dl < n)%nat ->
  kbc_ticks n (Kbc L b dl p None c e) = Kbc L 0 0 None p c e.
Proof.
  intros Hb Hd. unfold kbc_ticks. simpl. rewrite (proj2 (Nat.ltb_lt _ _)) by done.
  replace (b - n)%nat with 0%nat by lia. by replace (dl - n)%nat with 0%nat by lia.
Qed.

Lemma byte_command_byte c : 0 <= c < 256 -> 0 <= Z.ldiff c 0x10 < 256.
Proof.
  intros Hc. replace (Z.ldiff c 0x10) with (Z.land c (Z.ldiff c 0x10)) by zbits.
  by apply (land_range_l _ _ 8).
Qed.

Lemma keyboard_enabled_range c : 0 <= c < 256 -> 0 <= keyboard_enabled c < 256.
Proof. intros Hc. apply (land_range_r _ _ 8); lia. Qed.

Lemma initKeyboardController_spec fuel (h : H) L b dl o c e :
  let k := Kbc L b dl None o c e in
  kbc_at (devices h) k h -> (b <= L)%nat -> (L + 2 < fuel)%nat ->
  0 <= c < 256 -> match o with Some x => 0 <= x < 256 | None => True end ->
  exists h', initKeyboardController fuel h = Done h' /\ kbc_at (devices h) (kbc_after_init k) h'.
Proof.
  intros k Hk Hb Hf Hc Ho. unfold initKeyboardController.
  pose proof (byte_command_byte c Hc) as Hc'.
  destruct (poll_input_full _ k h fuel Hk ltac:(simpl; lia)) as (h1 & -> & Hk1). rewrite bind_done.
  unfold k in Hk1. simpl kb_busy in Hk1. rewrite kbc_ticks_idle in Hk1 by (auto || lia).
  apply (kbc_at_command _ _ _ 0xAE) in Hk1. rewrite kbc_command_idle in Hk1. simpl in Hk1.
  destruct (poll_input_full _ _ _ fuel Hk1 ltac:(simpl; lia)) as (h2 & -> & Hk2). rewrite bind_done.
  simpl kb_busy in Hk2. rewrite kbc_ticks_idle in Hk2 by (auto || lia).
  apply (kbc_at_command _ _ _ 0x20) in Hk2. rewrite kbc_command_idle in Hk2. simpl in Hk2.
  assert (exists h3 x dl', poll_status fuel output_empty (outb_wait 0x64 0x20 h2) = Done h3 /\
    kbc_at (devices h) (Kbc L (L - dl') (L - dl') (match o with Some _ => Some (Z.ldiff c 0x10) | None => None end)
      (Some x) (Z.ldiff c 0x10) false) h3 /\ x = default (Z.ldiff c 0x10) o /\ 0 <= x < 256)
    as (h3 & x & dl' & -> & Hk3 & Hx & Hxr).
  { destruct o as [x|].
    - destruct (poll_output_full _ _ _ x fuel Hk2 eq_refl ltac:(lia)) as (h3 & Hp & Hk3).
      exists h3, x, 1%nat. split; [done|]. split; [exact Hk3|]. done.
    - destruct (poll_output _ _ _ (Z.ldiff c 0x10) fuel Hk2 eq_refl eq_refl ltac:(simpl; lia)) as (h3 & Hp & Hk3).
      simpl kb_delay in Hk3. rewrite kbc_ticks_reply in Hk3 by lia.
      exists h3, (Z.ldiff c 0x10), L. rewrite Nat.sub_diag. done. }
  rewrite bind_done.
  destruct (kbc_at_take _ _ _ x Hk3 eq_refl Hxr) as (h4 & -> & Hk4).
  unfold kbc_take in Hk4. cbn [kb_latency kb_busy kb_delay kb_pending kb_output kb_command_byte kb_expect] in Hk4.
  destruct (poll_input_full _ _ _ fuel Hk4 ltac:(simpl; lia)) as (h5 & -> & Hk5). rewrite bind_done.
  cbn [kb_busy] in Hk5. rewrite kbc_ticks_reply in Hk5 by lia.
  apply (kbc_at_command _ _ _ 0x60) in Hk5. rewrite kbc_command_idle in Hk5. simpl in Hk5.
  destruct (poll_input_full _ _ _ fuel Hk5 ltac:(simpl; lia)) as (h6 & -> & Hk6). rewrite bind_done.
  cbn [kb_busy] in Hk6. rewrite kbc_ticks_idle in Hk6 by (auto || lia).
  eexists. split; [reflexivity|].
  apply (kbc_at_data _ _ _ (Z.land (Z.lor x 0x01) (u8 (Z.lnot 0x10)))) in Hk6.
  change (u8 (Z.lnot 0x10)) with 0xEF in *.
  rewrite (wrap_id 8) in Hk6 by (by apply keyboard_enabled_range).
  unfold kbc_at. rewrite Hk6. f_equal. unfold kbc_after_init, k. simpl.
  replace (L - S L)%nat with 0%nat by lia. subst x. by destruct o.
Qed.
End KeyboardInit.

(** C35. The set-up of the keyboard controller terminates: each polling loop ends
    within the latency of the controller.  When the output buffer was empty, the
    controller's own command byte is written back with the keyboard interrupt
    enabled, the keyboard clock running and every other bit as before.  When an
    unread byte was waiting in the output buffer, that byte is taken for the
    command byte instead, and the command byte is left behind for the keyboard
    handler to read as a scan code. *)
Theorem initKeyboardController_correct {H} `{Devices H} fuel (h : H) :
  let k := pc_kbc (devices h) in
  kb_pending k = None -> (kb_busy k <= kb_latency k)%nat -> (kb_latency k + 2 < fuel)%nat ->
  0 <= kb_command_byte k < 256 -> (forall b, kb_output k = Some b -> 0 <= b < 256) ->
  exists h', initKeyboardController fuel h = Done h' /\
    let k' := pc_kbc (devices h') in
    devices h' = set_kbc (devices h) k' /\ kb_expect k' = false /\ kb_pending k' = None /\
    (kb_output k = None -> kb_output k' = None /\
       forall i, 0 <= i -> Z.testbit (kb_command_byte k') i =
         (i =? 0) || (negb (i =? 4) && Z.testbit (kb_command_byte k) i)) /\
    (forall b, kb_output k = Some b ->
       kb_output k' = Some (Z.ldiff (kb_command_byte k) 0x10) /\
       kb_command_byte k' = Z.land (Z.lor b 0x01) 0xEF).
Proof.
  intros k Hp Hb Hf Hc Ho. unfold k in *. destruct (pc_kbc (devices h)) as [L b dl p o c e] eqn:Hk.
  simpl in *. subst p.
  destruct (initKeyboardController_spec fuel h L b dl o c e) as (h' & Hd & Hk'); try done.
  { unfold kbc_at. rewrite <-Hk. by destruct (devices h). }
  { destruct o; [by apply Ho|done]. }
  exists h'. split; [done|]. unfold kbc_at in Hk'. rewrite Hk'. simpl.
  split; [done|]. unfold kbc_after_init. simpl. destruct o as [x|]; simpl.
  - split; [done|]. split; [done|]. split; [done|]. by intros ? [= <-].
  - split; [done|]. split; [done|]. split; [|done]. intros _. split; [done|]. intros i Hi.
    unfold keyboard_enabled. rewrite <-(wrap_id 8 c) by done.
    repeat zbits_step. destruct (Z.ltb_spec i 8); simpl.
    + assert (i = 0 \/ i = 1 \/ i = 2 \/ i = 3 \/ i = 4 \/ i = 5 \/ i = 6 \/ i = 7) as Hcs by lia.
      repeat destruct Hcs as [->|Hcs]; subst; by destruct (Z.testbit c _).
    + rewrite (testbit_high 1 8), (testbit_high 0xEF 8) by lia. simpl.
      rewrite !(proj2 (Z.eqb_neq _ _)) by lia. done.
Qed.

(** A machine with both controllers at their BIOS vectors. *)
Definition demo_pc (k : i8042) : pc :=
  let p := Pic 0xb8 8 4 1 0 true in
  PC (Z.lor (Z.lor EDX_MSR EDX_APIC) EDX_PAT) p p k (0xfee00900, 0) (Lapic 0xff 0x10 0 [] []) ∅ false.

Lemma initKeyboardController_correct_witness :
  let d := demo_pc (Kbc 3 1 0 None None 0x74 false) in
  exists d', initKeyboardController 10 d = Done d' /\ kb_command_byte (pc_kbc d') = 0x65 /\
    exists d2, initKeyboardController 10 (demo_pc (Kbc 3 1 0 None (Some 0x9c) 0x74 false)) = Done d2 /\
      kb_command_byte (pc_kbc d2) = 0x8d.
Proof.
  intros d. destruct (initKeyboardController_correct 10 d) as (d' & Hd & _).
  - reflexivity.
  - simpl. lia.
  - simpl. lia.
  - simpl. lia.
  - simpl. discriminate.
  - exists d'. split; [exact Hd|].
    assert (initKeyboardController 10 d = Done d') as Hd' by exact Hd. vm_compute in Hd'.
    injection Hd' as <-. split; [reflexivity|]. eexists. split; vm_compute; reflexivity.
Defined.

(** ** Local APIC *)
Section LocalAPIC.
Context {H : Type} `{Devices H} (limine : limine_features).

Definition has (feature : Z) (h : H) : bool := negb (Z.land (pc_edx (devices h)) feature =? 0).

Definition set_apic_msr (d : pc) (low high : Z) : pc :=
  PC (pc_edx d) (pc_pic1 d) (pc_pic2 d) (pc_kbc d) (low, high) (pc_lapic d) (pc_ioapics d) (pc_if d).

Lemma localAPICBaseAddress_spec h :
  localAPICBaseAddress h =
    if negb (has EDX_APIC h) then Panic "processor does not support local APIC"
    else if negb (has EDX_MSR h) then Panic "processor does not support MSR"
    else Done (pc_lapic_base (devices h)).
Proof.
  unfold localAPICBaseAddress, readMSR, hasLocalAPIC, hasMSR, has. rewrite devices_edx.
  by repeat case_match; simplify_eq/=; rewrite ?devices_rdmsr.
Qed.

(** The word written to IA32_APIC_BASE for a page-aligned address. *)
Definition apic_base_word (base : Z) : Z := Z.lor (Z.land base 0xfffff000) 0x800.

Lemma apic_base_word_range base : 0 <= base -> 0 <= apic_base_word base < 2 ^ 32.
Proof.
  intros Hb. unfold apic_base_word. apply lor_range; [lia| |lia]. apply (land_range_r _ _ 32); lia.
Qed.

Lemma hardwareEnable_spec base h :
  0 <= base -> has EDX_APIC h = true -> has EDX_MSR h = true ->
  exists h', hardwareEnableLocalAPICAndSetBaseAddress base h = Done h' /\
    devices h' = set_apic_msr (devices h) (apic_base_word base) 0.
Proof.
  intros Hb Ha Hm. unfold has in *.
  unfold hardwareEnableLocalAPICAndSetBaseAddress, writeMSR, hasLocalAPIC, hasMSR. rewrite devices_edx, Ha, Hm.
  eexists. split; [reflexivity|]. rewrite devices_wrmsr. unfold pc_wrmsr. simpl.
  change (Z.shiftl 1 11) with 0x800. change (wrap 32 _) with (wrap 32 (apic_base_word base)).
  by rewrite (wrap_id 32) by (by apply apic_base_word_range).
Qed.

Lemma apic_base_word_base base :
  0 <= base -> Z.land (apic_base_word base) 0xfffff000 = Z.land base 0xfffff000.
Proof.
  intros. unfold apic_base_word. rewrite Z.land_lor_distr_l.
  change (Z.land 0x800 0xfffff000) with 0. by rewrite Z.lor_0_r, <-Z.land_assoc.
Qed.
End LocalAPIC.

(** The base address of the local APIC: setting it enables the APIC and
    reading it back gives the page of the address, without its bits from 32 on;
    both panic exactly when the processor lacks a local APIC or model-specific
    registers. *)
Theorem localAPICBaseAddress_correct {H} `{Devices H} (h : H) base :
  0 <= base ->
  (is_done (localAPICBaseAddress h) = has EDX_APIC h && has EDX_MSR h) /\
  (is_done (hardwareEnableLocalAPICAndSetBaseAddress base h) = has EDX_APIC h && has EDX_MSR h) /\
  (forall h', hardwareEnableLocalAPICAndSetBaseAddress base h = Done h' ->
     localAPICBaseAddress h' = Done (base mod 2 ^ 32 - base mod 2 ^ 12) /\
     Z.testbit (fst (pc_apic_msr (devices h'))) 11 = true /\
     devices h' = set_apic_msr (devices h) (fst (pc_apic_msr (devices h'))) 0).
Proof.
  intros Hb. rewrite localAPICBaseAddress_spec.
  assert (Hd : is_done (hardwareEnableLocalAPICAndSetBaseAddress base h) = has EDX_APIC h && has EDX_MSR h).
  { unfold hardwareEnableLocalAPICAndSetBaseAddress, writeMSR, hasLocalAPIC, hasMSR, has.
    rewrite devices_edx. by destruct (Z.land (pc_edx (devices h)) EDX_APIC =? 0), (Z.land (pc_edx (devices h)) EDX_MSR =? 0). }
  split; [by destruct (has EDX_APIC h), (has EDX_MSR h)|]. split; [exact Hd|]. intros h' Hh'.
  rewrite Hh' in Hd. symmetry in Hd. apply andb_prop in Hd as [Ha Hm].
  destruct (hardwareEnable_spec base h Hb Ha Hm) as (h1 & He & Hdev).
  rewrite He in Hh'. injection Hh' as ->. rewrite localAPICBaseAddress_spec. unfold has in *.
  rewrite Hdev. simpl. rewrite Ha, Hm. simpl. split; [|split; [|done]].
  - unfold pc_lapic_base. simpl. rewrite apic_base_word_base by done. f_equal.
    assert (Hu : base mod 2 ^ 32 - base mod 2 ^ 12 = Z.land base 0xfffff000); [|done].
    change 0xfffff000 with (Z.ldiff (Z.ones 32) (Z.ones 12)).
    rewrite <-!Z.land_ones by lia. rewrite Z.sub_nocarry_ldiff.
    + zbits.
    + zbits.
  - unfold apic_base_word. rewrite Z.lor_spec. apply orb_true_r.
Qed.

Lemma localAPICBaseAddress_correct_witness :
  exists d', hardwareEnableLocalAPICAndSetBaseAddress 0xfee00123
      (demo_pc (Kbc 3 1 0 None None 0x74 false)) = Done d' /\
    localAPICBaseAddress d' = Done 0xfee00000.
Proof.
  destruct (localAPICBaseAddress_correct (demo_pc (Kbc 3 1 0 None None 0x74 false)) 0xfee00123)
    as (_ & _ & Hr); [lia|].
  eexists. split; [vm_compute; reflexivity|].
  refine (proj1 (Hr _ _)). vm_compute. reflexivity.
Defined.

(** ** The register page *)
Lemma lapic_base_range d : 0 <= pc_lapic_base d < 2 ^ 32 /\ pc_lapic_base d mod pageSize = 0.
Proof.
  unfold pc_lapic_base. split; [apply (land_range_r _ _ 32); lia|].
  unfold pageSize. change 0x1000 with (2 ^ 12). rewrite <-Z.land_ones by lia.
  rewrite <-Z.land_assoc. change (Z.land 0xfffff000 (Z.ones 12)) with 0. apply Z.land_0_r.
Qed.

Lemma lapic_page d off :
  0 <= off < pageSize -> let pa := pc_lapic_base d + off in
  pa mod 0x1000 = off /\ pa - off = pc_lapic_base d /\
  (pc_lapic_base d <=? pa) && (pa <? pc_lapic_base d + 0x1000) = true /\ pa - pc_lapic_base d = off.
Proof.
  intros Ho pa. destruct (lapic_base_range d) as [Hr Hm]. unfold pa, pageSize in *.
  split; [|split; [lia|split; [|lia]]].
  - apply Z.mod_divide in Hm as [y ->]; [|done]. rewrite Z.add_comm, Z_mod_plus_full. by apply Z.mod_small.
  - by rewrite (proj2 (Z.leb_le _ _)), (proj2 (Z.ltb_lt _ _)) by lia.
Qed.

(** Stores to a register of the local APIC at its page. *)
Lemma lapic_store {H} `{Devices H} (m : machine H) off v :
  translate m (u64 (baseAddress m + off)) = Some (pc_lapic_base (devices (hw m)) + off) ->
  0 <= off < pageSize -> pc_ioapics (devices (hw m)) !! pc_lapic_base (devices (hw m)) = None ->
  exists m', lapic_write off v m = Done m' /\ vm m' = vm m /\ baseAddress m' = baseAddress m /\
    let d := devices (hw m) in
    devices (hw m') = PC (pc_edx d) (pc_pic1 d) (pc_pic2 d) (pc_kbc d) (pc_apic_msr d)
      (lapic_reg_write off (u32 v) (pc_lapic d)) (pc_ioapics d) (pc_if d).
Proof.
  intros Ht Ho Hio. unfold lapic_write, device_store. rewrite Ht.
  eexists. split; [reflexivity|]. split; [done|]. split; [done|].
  cbn [hw with_hw]. rewrite devices_mmio_out. unfold pc_mmio_out.
  set (d := devices (hw m)) in *. destruct (lapic_page d off Ho) as (-> & -> & -> & ->).
  f_equal. by apply alter_id'.
Qed.

(** Loads give the value of the register. *)
Lemma lapic_load {H} `{Devices H} (m : machine H) off v :
  translate m (u64 (baseAddress m + off)) = Some (pc_lapic_base (devices (hw m)) + off) ->
  0 <= off < pageSize -> pc_ioapics (devices (hw m)) !! pc_lapic_base (devices (hw m)) = None ->
  lapic_reg_read off (pc_lapic (devices (hw m))) = Some v ->
  exists m', lapic_read off m = Done (u32 v, m') /\ vm m' = vm m /\ baseAddress m' = baseAddress m /\
    devices (hw m') = devices (hw m).
Proof.
  intros Ht Ho Hio Hv. unfold lapic_read, device_load. rewrite Ht.
  set (d := devices (hw m)) in *. destruct (lapic_page d off Ho) as (Hmod & Hpage & Hin & Hoff).
  pose proof (devices_mmio_read (pc_lapic_base d + off) (hw m) v) as Hread. fold d in Hread.
  unfold pc_mmio_read in Hread. rewrite Hmod, Hpage, Hio, Hin, Hoff in Hread. specialize (Hread Hv).
  pose proof (devices_mmio_in (pc_lapic_base d + off) (hw m)) as Hd.
  destruct (mmio_in (pc_lapic_base d + off) (hw m)) as [w h]. simpl in Hread, Hd. subst w.
  by eexists.
Qed.

(** Once the register page is mapped, the rest of [enableAPIC]. *)
Lemma enableAPIC_done {H} `{Devices H} limine (m : machine H) v :
  let d := devices (hw m) in
  let base := pc_lapic_base d in
  let va := kernel_physical_to_virtual limine base in
  paging_add_mapping limine va base pageSize (PageFlags_or PageFlags.Write PageFlags.CacheDisable) (vm m) = Done v ->
  (forall off, 0 <= off < pageSize -> vm_translate v (u64 (va + off)) = Some (base + off)) ->
  pc_ioapics d !! base = None -> pic_icw (pc_pic1 d) = 0 -> pic_icw (pc_pic2 d) = 0 ->
  has EDX_APIC (hw m) = true -> has EDX_MSR (hw m) = true -> has EDX_PAT (hw m) = true ->
  exists m', enableAPIC limine m = Done m' /\ vm m' = v /\ baseAddress m' = va /\
    devices (hw m') = PC (pc_edx d) (Pic 0xff 0x20 4 1 0 true) (Pic 0xff 0x28 2 1 0 true) (pc_kbc d)
      (apic_base_word base, 0)
      (Lapic 0x1ff 0 (la_icr_high (pc_lapic d)) (la_in_service (pc_lapic d)) (la_sent (pc_lapic d)))
      (pc_ioapics d) true.
Proof.
  intros d base va Hadd Hreg Hio Hi1 Hi2 Ha Hm Hp.
  destruct (lapic_base_range d) as [Hbr Hbm]. fold base in Hbr, Hbm.
  unfold enableAPIC. rewrite localAPICBaseAddress_spec, Ha, Hm. cbn [negb]. rewrite bind_done.
  fold d base. unfold hasPAT, kernel_assert. rewrite devices_edx. fold d.
  change (negb (Z.land (pc_edx d) EDX_PAT =? 0)) with (has EDX_PAT (hw m)). rewrite Hp, bind_done.
  fold va. rewrite Hadd, bind_done.
  destruct (hardwareEnable_spec base (hw m) ltac:(lia) Ha Hm) as (h1 & -> & Hd1). rewrite bind_done.
  set (h2 := sti (remapPIC 0x20 0x28 (disablePIC h1))).
  assert (Hd2 : devices h2 = PC (pc_edx d) (Pic 0xff 0x20 4 1 0 true) (Pic 0xff 0x28 2 1 0 true) (pc_kbc d)
    (apic_base_word base, 0) (pc_lapic d) (pc_ioapics d) true).
  { unfold h2. rewrite devices_sti, remapPIC_spec; rewrite disablePIC_devices, Hd1; fold d;
      unfold pc_port_out; simpl; unfold pic_data; rewrite ?Hi1, ?Hi2; simpl; done. }
  assert (Hb2 : pc_lapic_base (devices h2) = base).
  { rewrite Hd2. unfold pc_lapic_base. simpl. rewrite apic_base_word_base by lia.
    unfold base, pc_lapic_base. by rewrite <-Z.land_assoc. }
  set (m2 := Machine h2 v va).
  destruct (lapic_store m2 LAPIC_SPURIOUS_REGISTER 0x1FF) as (m3 & Hw3 & Hvm3 & Hba3 & Hd3).
  { simpl hw. rewrite Hb2. by apply Hreg. }
  { done. }
  { simpl. by rewrite Hb2, Hd2. }
  simpl in Hvm3, Hba3, Hd3. rewrite Hd2 in Hd3. simpl in Hd3.
  assert (Hb3 : pc_lapic_base (devices (hw m3)) = base) by (rewrite <-Hb2, Hd2, Hd3; done).
  destruct (lapic_store m3 LAPIC_TASK_PRIORITY 0) as (m4 & Hw4 & Hvm4 & Hba4 & Hd4).
  { unfold translate. rewrite Hb3, Hvm3, Hba3. by apply Hreg. }
  { done. }
  { by rewrite Hb3, Hd3. }
  rewrite Hd3 in Hd4. simpl in Hd4.
  rewrite Hw3, bind_done. exists m4. split; [exact Hw4|].
  split; [congruence|]. split; [congruence|exact Hd4].
Qed.

(** Enabling the local APIC: its register page is mapped (and no other
    translation changes), the enable bits in the MSR and in the spurious vector
    register are set, the spurious vector is 0xff and the task priority 0; both
    interrupt controllers are masked completely and moved to the vectors 0x20
    and 0x28; interrupts are on.  A processor without PAT is refused. *)
Theorem enableAPIC_correct {H} `{Devices H} limine (m : machine H) root :
  let d := devices (hw m) in
  let base := pc_lapic_base d in
  hhdm_ok limine -> hhdm_offset limine mod pageSize = 0 ->
  page_tree_ok limine (vm_mem (vm m)) root ->
  page_tree (vm m) = Some (kernel_physical_to_virtual limine root) -> ptbr (vm m) = root ->
  tables_for 1 <= Z.of_nat (List.length (free_frames limine (vm_mem (vm m)))) ->
  hhdm_offset limine + base + 2 * pageSize <= 2 ^ 64 -> pc_ioapics d !! base = None ->
  pic_icw (pc_pic1 d) = 0 -> pic_icw (pc_pic2 d) = 0 ->
  has EDX_APIC (hw m) = true -> has EDX_MSR (hw m) = true ->
  (has EDX_PAT (hw m) = false -> exists msg, enableAPIC limine m = Panic msg) /\
  (has EDX_PAT (hw m) = true ->
   exists m', enableAPIC limine m = Done m' /\
    page_tree_ok limine (vm_mem (vm m')) root /\ page_tree (vm m') = page_tree (vm m) /\
    ptbr (vm m') = root /\
    (forall off, 0 <= off < pageSize ->
       translate m' (u64 (baseAddress m' + off)) = Some (base + off)) /\
    (forall va, page_offset (baseAddress m') va <> 0 -> translate m' va = translate m va) /\
    devices (hw m') = PC (pc_edx d) (Pic 0xff 0x20 4 1 0 true) (Pic 0xff 0x28 2 1 0 true) (pc_kbc d)
      (apic_base_word base, 0)
      (Lapic 0x1ff 0 (la_icr_high (pc_lapic d)) (la_in_service (pc_lapic d)) (la_sent (pc_lapic d)))
      (pc_ioapics d) true).
Proof.
  intros d base Hh Hha Htree Hpt Hroot Hroom Hmax Hio Hi1 Hi2 Ha Hm.
  destruct (lapic_base_range d) as [Hbr Hbm]. fold base in Hbr, Hbm.
  split; intros Hp.
  { unfold enableAPIC. rewrite localAPICBaseAddress_spec, Ha, Hm. cbn [negb]. rewrite bind_done.
    unfold hasPAT, kernel_assert. rewrite devices_edx. unfold has in Hp. rewrite Hp. by eexists. }
  assert (Hv : kernel_physical_to_virtual limine base = base + hhdm_offset limine).
  { apply wrap_id. unfold hhdm_ok, pageSize in *. lia. }
  assert (Hvm : (base + hhdm_offset limine) mod pageSize = 0) by (rewrite Zplus_mod, Hbm, Hha; done).
  destruct (map_device_page limine (vm m) root (base + hhdm_offset limine) base
    (PageFlags_or PageFlags.Write PageFlags.CacheDisable))
    as (v' & used & Hadd & Htree' & Hpt' & Hpr' & _ & _ & Htr);
    try done; try (unfold hhdm_ok, pageSize in *; lia).
  assert (Hreg : forall off, 0 <= off < pageSize ->
    vm_translate v' (u64 (base + hhdm_offset limine + off)) = Some (base + off)).
  { intros off Ho. unfold vm_translate. rewrite Hpr', Hroot.
    rewrite (wrap_id 64) by (unfold hhdm_ok, pageSize in *; lia).
    by apply (device_page_translate (vm m) v' root (base + hhdm_offset limine) base off). }
  rewrite <-Hv in Hadd.
  destruct (enableAPIC_done limine m v' Hadd) as (m' & Hd & Hvm' & Hba' & Hdev); try done.
  { fold d base. by rewrite Hv. }
  fold d base in Hba', Hdev. rewrite Hv in Hba'.
  exists m'. split; [exact Hd|]. unfold translate. rewrite Hvm', Hba'.
  split; [done|]. split; [done|]. split; [by rewrite Hpr'|].
  split; [exact Hreg|]. split; [|exact Hdev].
  intros va Hne. rewrite Hpr', Hroot, Htr. by rewrite (proj2 (Z.eqb_neq _ _)) by done.
Qed.

Lemma enableAPIC_correct_witness :
  let m := Machine (demo_pc (Kbc 3 1 0 None None 0x74 false)) demo_vm 0 in
  exists m', enableAPIC demo_limine m = Done m' /\
    translate m' (u64 (baseAddress m' + 0xB0)) = Some 0xfee000b0 /\
    la_svr (pc_lapic (devices (hw m'))) = 0x1ff.
Proof.
  intros m. destruct (enableAPIC_correct demo_limine m demo_root) as [_ He].
  - exact demo_hhdm_ok.
  - reflexivity.
  - exact demo_page_tree_ok.
  - reflexivity.
  - reflexivity.
  - simpl vm_mem. rewrite demo_tree_frames. vm_compute. congruence.
  - vm_compute. congruence.
  - reflexivity.
  - reflexivity.
  - reflexivity.
  - reflexivity.
  - reflexivity.
  - destruct He as (m' & Hm & _ & _ & _ & Ht & _ & Hd); [reflexivity|].
    exists m'. split; [exact Hm|]. split.
    + apply (Ht 0xB0). vm_compute. split; congruence.
    + rewrite Hd. reflexivity.
Defined.
