(* ===== verification/CString.v ===== *)
(** * String and memory functions

    lib/kpp/string: memset, memcpy, memmove, memcmp, strlen and strncmp, over
    byte-addressed memory.  Pointers are addresses; the loops are the loops of
    the source, and the theorems state what every byte is afterwards. *)

From Stdlib Require Import ZArith Lia String.
From stdpp Require Import base gmap list list_numbers numbers strings.
From S2P Require Import Prelude Memory.
#[local] Open Scope Z_scope.

(** [for (i = 0; i < size; i++) buf[i] = value] *)
Fixpoint set_up (n : nat) (buf value : Z) (m : mem) : mem :=
  match n with
  | O => m
  | S n => set_up n (buf + 1) value (store8 m buf value)
  end.

Definition memset (buf value size : Z) (m : mem) : mem := set_up (Z.to_nat size) buf value m.

(** [for (i = 0; i < size; i++) dst[i] = src[i]] *)
Fixpoint copy_up (n : nat) (dst src : Z) (m : mem) : mem :=
  match n with
  | O => m
  | S n => copy_up n (dst + 1) (src + 1) (store8 m dst (load8 m src))
  end.

(** [for (i = size; i != 0; i--) dst[i - 1] = src[i - 1]] *)
Fixpoint copy_down (n : nat) (dst src : Z) (m : mem) : mem :=
  match n with
  | O => m
  | S n => copy_down n dst src (store8 m (dst + Z.of_nat n) (load8 m (src + Z.of_nat n)))
  end.

Definition memcpy (dst src size : Z) (m : mem) : mem := copy_up (Z.to_nat size) dst src m.

Definition memmove (dst src size : Z) (m : mem) : mem :=
  if dst <? src then copy_up (Z.to_nat size) dst src m
  else copy_down (Z.to_nat size) dst src m.

Fixpoint compare_up (n : nat) (a b : Z) (m : mem) : Z :=
  match n with
  | O => 0
  | S n =>
      if load8 m a <? load8 m b then -1
      else if load8 m b <? load8 m a then 1
      else compare_up n (a + 1) (b + 1) m
  end.

Definition memcmp (a b size : Z) (m : mem) : Z := compare_up (Z.to_nat size) a b m.

(** The fuel exceeds the number of bytes that are not zero. *)
Definition strlen (str : Z) (m : mem) : outcome Z :=
  while (size m + 2) (fun len => negb (load8 m (str + len) =? 0)) (fun len => Done (u64 (len + 1))) 0.

(** [char] is signed. *)
Definition load_char (m : mem) (a : Z) : Z := i8 (load8 m a).

Fixpoint strncmp_up (n : nat) (a b : Z) (m : mem) : Z :=
  match n with
  | O => 0
  | S n =>
      if load_char m a =? load_char m b then strncmp_up n (a + 1) (b + 1) m
      else load_char m a - load_char m b
  end.

Definition strncmp (a b size : Z) (m : mem) : Z := strncmp_up (Z.to_nat size) a b m.

(** ** Specifications *)

(** The [n] bytes at [a]. *)
Definition bytes (m : mem) (a : Z) (n : nat) : list Z := (fun i => load8 m (a + i)) <$> seqZ 0 (Z.of_nat n).

(** [m'] is [m] with the [n] bytes from [dst] on replaced by [f 0], [f 1], ... *)
Definition replaced (dst n : Z) (f : Z -> Z) (m m' : mem) : Prop :=
  forall a, load8 m' a = if decide (dst <= a < dst + n) then f (a - dst) else load8 m a.

Lemma set_up_spec n buf v m : replaced buf (Z.of_nat n) (fun _ => u8 v) m (set_up n buf v m).
Proof.
  revert buf m. induction n as [|n IH]; intros buf m a; simpl set_up.
  { rewrite decide_False by lia. done. }
  rewrite IH, load8_store8. repeat case_decide; try lia; try done.
Qed.

Lemma copy_up_spec n dst src m :
  dst <= src \/ src + Z.of_nat n <= dst ->
  replaced dst (Z.of_nat n) (fun i => load8 m (src + i)) m (copy_up n dst src m).
Proof.
  revert dst src m. induction n as [|n IH]; intros dst src m Hd a; simpl copy_up.
  { rewrite decide_False by lia. done. }
  assert (Hu : forall b, u8 (load8 m b) = load8 m b) by (intros b; apply wrap_id, load8_range).
  rewrite IH by lia. rewrite !load8_store8.
  repeat case_decide; try lia; rewrite ?Hu; f_equal; lia.
Qed.

Lemma copy_down_spec n dst src m :
  src <= dst \/ dst + Z.of_nat n <= src ->
  replaced dst (Z.of_nat n) (fun i => load8 m (src + i)) m (copy_down n dst src m).
Proof.
  revert m. induction n as [|n IH]; intros m Hd a; simpl copy_down.
  { rewrite decide_False by lia. done. }
  assert (Hu : forall b, u8 (load8 m b) = load8 m b) by (intros b; apply wrap_id, load8_range).
  rewrite IH by lia. rewrite !load8_store8.
  repeat case_decide; try lia; rewrite ?Hu; f_equal; lia.
Qed.

(** C32. [memmove] copies correctly whether or not the two regions overlap, and
    changes no other byte; [memcpy] does so for regions that do not overlap, and
    [memset] fills exactly its region. *)
Theorem memmove_correct dst src n v m :
  0 <= n ->
  replaced dst n (fun i => load8 m (src + i)) m (memmove dst src n m) /\
  (dst <= src \/ src + n <= dst ->
     replaced dst n (fun i => load8 m (src + i)) m (memcpy dst src n m)) /\
  replaced dst n (fun _ => u8 v) m (memset dst v n m).
Proof.
  intros Hn. rewrite <-(Z2Nat.id n) by done. unfold memmove, memcpy, memset. rewrite Nat2Z.id.
  split; [|split; [apply copy_up_spec|apply set_up_spec]].
  destruct (Z.ltb_spec dst src); [apply copy_up_spec|apply copy_down_spec]; lia.
Qed.

Definition demo_text : mem := list_to_map (zip (seqZ 100 6) [104; 101; 108; 112; 33; 0]).

Lemma memmove_correct_witness :
  load8 (memmove 101 100 4 demo_text) 104 = 112 /\ load8 (memmove 101 100 4 demo_text) 105 = 0.
Proof.
  destruct (memmove_correct 101 100 4 0 demo_text) as [H _]; [lia|].
  split; rewrite H; vm_compute; reflexivity.
Defined.

(** ** Comparison *)
Lemma compare_up_spec n a b m :
  (compare_up n a b m = 0 /\ forall i, 0 <= i < Z.of_nat n -> load8 m (a + i) = load8 m (b + i)) \/
  exists i, 0 <= i < Z.of_nat n /\ (forall j, 0 <= j < i -> load8 m (a + j) = load8 m (b + j)) /\
    load8 m (a + i) <> load8 m (b + i) /\
    compare_up n a b m = if load8 m (a + i) <? load8 m (b + i) then -1 else 1.
Proof.
  revert a b. induction n as [|n IH]; intros a b; simpl; [left; split; [done|lia]|].
  destruct (Z.eq_dec (load8 m a) (load8 m b)) as [Heq|Hne].
  - rewrite Heq, Z.ltb_irrefl. destruct (IH (a + 1) (b + 1)) as [[-> Hi]|(i & Hi & Hj & Hd & ->)].
    + left. split; [done|]. intros i Hr. destruct (decide (i = 0)) as [->|]; [by rewrite !Z.add_0_r|].
      replace (a + i) with (a + 1 + (i - 1)) by lia. replace (b + i) with (b + 1 + (i - 1)) by lia.
      apply Hi. lia.
    + right. exists (i + 1). rewrite !(Z.add_comm i), !Z.add_assoc. split; [lia|]. split; [|done].
      intros j Hr. destruct (decide (j = 0)) as [->|]; [by rewrite !Z.add_0_r|].
      replace (a + j) with (a + 1 + (j - 1)) by lia. replace (b + j) with (b + 1 + (j - 1)) by lia.
      apply Hj. lia.
  - right. exists 0. rewrite !Z.add_0_r. split; [lia|]. split; [lia|]. split; [done|].
    destruct (Z.ltb_spec (load8 m a) (load8 m b)); [done|].
    by rewrite (proj2 (Z.ltb_lt _ _)) by lia.
Qed.

Lemma i8_inj x y : 0 <= x < 256 -> 0 <= y < 256 -> i8 x = i8 y -> x = y.
Proof.
  intros Hx Hy. unfold swrap. rewrite !(wrap_id 8) by lia. change (2 ^ (8 - 1)) with 128.
  change (2 ^ 8) with 256. destruct (Z.ltb_spec x 128), (Z.ltb_spec y 128); lia.
Qed.

Lemma strncmp_up_zero n a b m :
  strncmp_up n a b m = 0 <-> forall i, 0 <= i < Z.of_nat n -> load8 m (a + i) = load8 m (b + i).
Proof.
  revert a b. induction n as [|n IH]; intros a b; simpl; [split; [lia|done]|].
  destruct (Z.eqb_spec (load_char m a) (load_char m b)) as [Heq|Hne].
  - apply i8_inj in Heq; [|apply load8_range..]. rewrite IH. split.
    + intros Hi i Hr. destruct (decide (i = 0)) as [->|]; [by rewrite !Z.add_0_r|].
      replace (a + i) with (a + 1 + (i - 1)) by lia. replace (b + i) with (b + 1 + (i - 1)) by lia.
      apply Hi. lia.
    + intros Hi i Hr. replace (a + 1 + i) with (a + (i + 1)) by lia.
      replace (b + 1 + i) with (b + (i + 1)) by lia. apply Hi. lia.
  - split; [lia|]. intros Hi. exfalso. apply Hne. unfold load_char.
    specialize (Hi 0 ltac:(lia)). rewrite !Z.add_0_r in Hi. by rewrite Hi.
Qed.

(** [memcmp] is a total order on the byte strings, 0 exactly on equal ones,
    and decided by the first difference; [strncmp] is 0 exactly when all [n]
    bytes agree, the ones after a terminating zero included, so it tells apart
    strings that are equal as C strings. *)
Theorem memcmp_strncmp_correct a b n m :
  0 <= n ->
  (memcmp a b n m = 0 <-> forall i, 0 <= i < n -> load8 m (a + i) = load8 m (b + i)) /\
  (memcmp a b n m = - memcmp b a n m) /\
  (forall i, 0 <= i < n -> (forall j, 0 <= j < i -> load8 m (a + j) = load8 m (b + j)) ->
     load8 m (a + i) < load8 m (b + i) -> memcmp a b n m = -1) /\
  (strncmp a b n m = 0 <-> forall i, 0 <= i < n -> load8 m (a + i) = load8 m (b + i)).
Proof.
  intros Hn. unfold memcmp, strncmp. rewrite <-(Z2Nat.id n) by done. rewrite Nat2Z.id.
  generalize (Z.to_nat n) as k. clear n Hn. intros k.
  pose proof (compare_up_spec k a b m) as Hab. pose proof (compare_up_spec k b a m) as Hba.
  split; [|split; [|split; [|apply strncmp_up_zero]]].
  - destruct Hab as [[-> Hi]|(i & Hi & Hj & Hd & ->)]; [done|]. split.
    + by destruct (_ <? _).
    + intros He. exfalso. by apply Hd, He.
  - destruct Hab as [[-> Hi]|(i & Hi & Hj & Hd & ->)], Hba as [[-> Hi']|(i' & Hi' & Hj' & Hd' & ->)]; try done.
    + exfalso. apply Hd'. symmetry. by apply Hi.
    + exfalso. apply Hd. symmetry. by apply Hi'.
    + assert (i = i') as <-.
      { destruct (Z.lt_trichotomy i i') as [Hlt|[?|Hlt]]; [|done|].
        - exfalso. apply Hd. symmetry. apply Hj'. lia.
        - exfalso. apply Hd'. symmetry. apply Hj. lia. }
      destruct (Z.ltb_spec (load8 m (a + i)) (load8 m (b + i))),
        (Z.ltb_spec (load8 m (b + i)) (load8 m (a + i))); lia.
  - intros i Hi Hj Hlt. destruct Hab as [[_ He]|(i' & Hi' & Hj' & Hd & ->)].
    + rewrite (He i Hi) in Hlt. lia.
    + assert (i = i') as <-.
      { destruct (Z.lt_trichotomy i i') as [Hl|[?|Hl]]; [|done|].
        - rewrite (Hj' i ltac:(lia)) in Hlt. lia.
        - exfalso. apply Hd. apply Hj. lia. }
      by rewrite (proj2 (Z.ltb_lt _ _)).
Qed.

(** "ab" followed by different garbage. *)
Definition demo_strings : mem :=
  list_to_map (zip (seqZ 100 4) [97; 98; 0; 1] ++ zip (seqZ 200 4) [97; 98; 0; 2]).

Lemma memcmp_strncmp_correct_witness :
  strncmp 100 200 4 demo_strings <> 0 /\ strncmp 100 200 3 demo_strings = 0.
Proof.
  split.
  - destruct (memcmp_strncmp_correct 100 200 4 demo_strings) as (_ & _ & _ & Hs); [lia|].
    intros H. rewrite Hs in H. specialize (H 3 ltac:(lia)). vm_compute in H. discriminate.
  - vm_compute. reflexivity.
Defined.

(** ** strlen *)
Lemma strlen_in_bounds m str : exists k, 0 <= k <= Z.of_nat (size m) /\ load8 m (str + k) = 0.
Proof.
  destruct (decide (Exists (fun k => load8 m (str + k) = 0) (seqZ 0 (Z.of_nat (size m) + 1)))) as [He|Hn].
  { apply Exists_exists in He as (k & Hk%elem_of_seqZ & Hz). exists k. split; [lia|done]. }
  exfalso. set (l := (fun k => str + k) <$> seqZ 0 (Z.of_nat (size m) + 1)).
  assert (Hsub : list_to_set l ⊆ dom m).
  { intros a Ha%elem_of_list_to_set. apply list_elem_of_fmap in Ha as (k & -> & Hk).
    apply elem_of_dom. destruct (m !! (str + k)) eqn:Hm; [done|]. exfalso. apply Hn, Exists_exists.
    exists k. split; [done|]. unfold load8. by rewrite Hm. }
  apply subseteq_size in Hsub. rewrite size_dom, size_list_to_set in Hsub.
  - unfold l in Hsub. rewrite length_fmap, length_seqZ in Hsub. lia.
  - apply NoDup_fmap_2; [|apply NoDup_seqZ]. intros x y. lia.
Qed.

(** [strlen] terminates and returns the offset of the first zero byte. *)
Theorem strlen_correct str m :
  Z.of_nat (size m) < 2 ^ 63 ->
  exists n, strlen str m = Done n /\ 0 <= n <= Z.of_nat (size m) /\ load8 m (str + n) = 0 /\
    forall i, 0 <= i < n -> load8 m (str + i) <> 0.
Proof.
  intros Hsz. destruct (strlen_in_bounds m str) as (k & Hk & Hz).
  pose (I := fun (n : nat) len => 0 <= len <= k /\ Z.of_nat n = k - len /\
    forall i, 0 <= i < len -> load8 m (str + i) <> 0).
  destruct (while_total I (fun n => 0 <= n <= k /\ load8 m (str + n) = 0 /\
      forall i, 0 <= i < n -> load8 m (str + i) <> 0)
    (fun len => negb (load8 m (str + len) =? 0)) (fun len => Done (u64 (len + 1))))
    with (n := Z.to_nat k) (fuel := (size m + 2)%nat) (s := 0) as (n & Hw & Hn & Hz' & Hi).
  - intros n len (Hl & _ & Hi) Hc. apply negb_false_iff, Z.eqb_eq in Hc. done.
  - intros n len (Hl & Hn & Hi) Hc. apply negb_true_iff, Z.eqb_neq in Hc.
    assert (len <> k) by (intros ->; done). rewrite (wrap_id 64) by lia.
    exists (n - 1)%nat, (len + 1). split; [lia|]. split; [done|]. split; [lia|]. split; [lia|].
    intros i Hr. destruct (decide (i = len)) as [->|]; [done|]. apply Hi. lia.
  - split; [lia|]. split; [lia|]. intros i Hr. lia.
  - lia.
  - exists n. split; [exact Hw|]. split; [lia|done].
Qed.

Lemma strlen_correct_witness : exists n, strlen 100 demo_text = Done n /\ load8 demo_text (100 + n) = 0.
Proof.
  destruct (strlen_correct 100 demo_text) as (n & Hs & _ & Hz & _).
  - vm_compute. reflexivity.
  - exists n. split; [exact Hs|exact Hz].
Defined.
