(* ===== verification/Printf.v ===== *)
(** * Formatted output

    lib/kpp/stdio/printf.cpp over any console: [vprintf] is translated with its
    chunking of plain text, its digit buffers and its return value, and related
    to [render], which expands a format one character at a time.  The client of
    this file gives the console's [putchar]; src/Terminal.cpp is one. *)

From Stdlib Require Import ZArith Lia String.
From stdpp Require Import base gmap list list_numbers numbers strings.
From S2P Require Import Prelude.
#[local] Open Scope Z_scope.

(** The arguments behind a [va_list]. *)
Inductive va_value :=
| ArgInt (n : Z)
| ArgStr (s : list Z)
| ArgWord (n : Z).

(** What a console promises: [putchar] returns the character it was given. *)
Class Console (S : Type) := {
  putchar : Z -> S -> outcome (Z * S);
  putchar_returns c s r s' : putchar c s = Done (r, s') -> r = c
}.

(** ASCII codes used by the formats. *)
Definition chr_percent : Z := 37.
Definition chr_0 : Z := 48.
Definition chr_c : Z := 99.
Definition chr_d : Z := 100.
Definition chr_p : Z := 112.
Definition chr_s : Z := 115.
Definition chr_x : Z := 120.

(** A C string: [format[i]] is 0 from the end of the list on. *)
Definition char_at (s : list Z) (i : nat) : Z := nth i s 0.

(** Up to the terminating zero. *)
Fixpoint cstr (s : list Z) : list Z :=
  match s with
  | [] => []
  | c :: s => if c =? 0 then [] else c :: cstr s
  end.

(** The characters before the next zero or percent sign. *)
Fixpoint text_run (s : list Z) : nat :=
  match s with
  | [] => 0
  | c :: s => if (c =? 0) || (c =? chr_percent) then 0 else S (text_run s)
  end.

Definition hex : list Z := [48; 49; 50; 51; 52; 53; 54; 55; 56; 57; 97; 98; 99; 100; 101; 102].

Definition max_num_len : Z := 128.

(** [str[i] = value] on [char str[max_num_len]] *)
Definition buf_store (str : list Z) (i value : Z) : outcome (list Z) :=
  if (0 <=? i) && (i <? max_num_len) then Done (<[Z.to_nat i := u8 value]> str)
  else Undefined "printf: index outside the digit buffer".

Definition digit_step (base : Z) (digit : Z -> Z) (s : list Z * Z * Z) : outcome (list Z * Z * Z) :=
  let '(str, str_start, num) := s in
  str ← buf_store str str_start (digit (Z.rem num base));
  Done (str, str_start - 1, Z.quot num base).

(** The digits of [num] at the end of the buffer, and where they start. *)
Definition format_number (base : Z) (digit : Z -> Z) (str : list Z) (num : Z) : outcome (list Z) :=
  let str_start := max_num_len - 1 in
  s ← (if num =? 0 then str ← buf_store str str_start chr_0; Done (str, str_start - 1, num)
       else while 130 (fun s : list Z * Z * Z => 0 <? snd s) (digit_step base digit) (str, str_start, num));
  let '(str, str_start, _) := s : list Z * Z * Z in
  Done (drop (Z.to_nat (str_start + 1)) str).

Definition zero_buf : list Z := replicate (Z.to_nat max_num_len) 0.

Definition format_d (num : Z) : outcome (list Z) := format_number 10 (fun d => d + chr_0) zero_buf num.

Definition format_x (num : Z) : outcome (list Z) :=
  str ← buf_store zero_buf (max_num_len - 1) (max_num_len - 1);
  format_number 16 (fun d => nth (Z.to_nat d) hex 0) str num.

Section Printf.
Context {S : Type} `{Console S}.

Fixpoint print (data : list Z) (s : S) : outcome (bool * S) :=
  match data with
  | [] => Done (true, s)
  | b :: data =>
      p ← putchar (u8 b) s;
      let '(r, s) := p : Z * S in
      if r =? -1 then Done (false, s) else print data s
  end.

(** Print one converted argument and go on. *)
Definition print_then (out : list Z) (s : S) (k : S -> outcome (Z * S)) : outcome (Z * S) :=
  p ← print out s;
  let '(ok, s) := p : bool * S in
  if ok then k s else Done (-1, s).

(** The loop of [vprintf]; every iteration consumes a character, so a fuel
    above the length of the format is enough. *)
Fixpoint vprintf_loop (fuel : nat) (format : list Z) (args : list va_value) (written : Z) (s : S)
    : outcome (Z * S) :=
  match fuel with
  | O => Diverged
  | Datatypes.S fuel =>
      if char_at format 0 =? 0 then Done (if INT_MAX <? written then -1 else written, s)
      else if negb (char_at format 0 =? chr_percent) || (char_at format 1 =? chr_percent) then
        let format := if char_at format 0 =? chr_percent then drop 1 format else format in
        let chars_to_print := Datatypes.S (text_run (drop 1 format)) in
        print_then (take chars_to_print format) s (fun s =>
          vprintf_loop fuel (drop chars_to_print format) args
            (u64 (written + Z.of_nat chars_to_print)) s)
      else
        let format := drop 1 format in
        let spec := char_at format 0 in
        if spec =? chr_c then
          match args with
          | ArgInt n :: args => print_then [u8 n] s (vprintf_loop fuel (drop 1 format) args (u64 (written + 1)))
          | _ => Undefined "printf: va_arg(args, int)"
          end
        else if spec =? chr_s then
          match args with
          | ArgStr str :: args =>
              print_then (cstr str) s
                (vprintf_loop fuel (drop 1 format) args (u64 (written + Z.of_nat (List.length (cstr str)))))
          | _ => Undefined "printf: va_arg(args, const char *)"
          end
        else if spec =? chr_d then
          match args with
          | ArgInt n :: args =>
              str ← format_d (i32 n);
              print_then str s
                (vprintf_loop fuel (drop 1 format) args (u64 (written + Z.of_nat (List.length str))))
          | _ => Undefined "printf: va_arg(args, int)"
          end
        else if (spec =? chr_x) || (spec =? chr_p) then
          match args with
          | ArgWord n :: args =>
              str ← format_x (u64 n);
              print_then str s
                (vprintf_loop fuel (drop 1 format) args (u64 (written + Z.of_nat (List.length str))))
          | _ => Undefined "printf: va_arg(args, unsigned long long)"
          end
        else vprintf_loop fuel format args written s
  end.

Definition vprintf (format : list Z) (args : list va_value) (s : S) : outcome (Z * S) :=
  vprintf_loop (List.length format + 1) format args 0 s.

Definition printf (format : list Z) (args : list va_value) (s : S) : outcome (Z * S) :=
  vprintf format args s.

Definition puts (string : list Z) (s : S) : outcome (Z * S) :=
  printf [chr_percent; chr_s; 10] [ArgStr string] s.
End Printf.

Definition getchar : Z := 0.

(** ** Specification *)

(** The digits of a number, most significant first. *)
Fixpoint digits (fuel : nat) (base : Z) (digit : Z -> Z) (n : Z) : list Z :=
  match fuel with
  | O => []
  | Datatypes.S fuel => if n <=? 0 then [] else digits fuel base digit (n / base) ++ [digit (n mod base)]
  end.

Definition dec_digit (d : Z) : Z := d + chr_0.
Definition hex_digit (d : Z) : Z := nth (Z.to_nat d) hex 0.

Definition decimal (n : Z) : list Z := if n =? 0 then [chr_0] else digits 64 10 dec_digit n.
Definition hexadecimal (n : Z) : list Z := if n =? 0 then [chr_0] else digits 64 16 hex_digit n.

(** A format with its arguments, one character at a time. *)
Fixpoint render (format : list Z) (args : list va_value) : option (list Z) :=
  match format with
  | [] => Some []
  | c :: rest =>
      if c =? 0 then Some []
      else if negb (c =? chr_percent) then cons c <$> render rest args
      else match rest with
           | [] => Some []
           | x :: rest' =>
               if x =? chr_percent then cons chr_percent <$> render rest' args
               else if x =? chr_c then
                 match args with ArgInt n :: args => cons (u8 n) <$> render rest' args | _ => None end
               else if x =? chr_s then
                 match args with ArgStr s :: args => app (cstr s) <$> render rest' args | _ => None end
               else if x =? chr_d then
                 match args with ArgInt n :: args => app (decimal (i32 n)) <$> render rest' args | _ => None end
               else if (x =? chr_x) || (x =? chr_p) then
                 match args with ArgWord n :: args => app (hexadecimal (u64 n)) <$> render rest' args | _ => None end
               else render rest args
           end
  end.

(** What a digit string denotes. *)
Definition number_of (base : Z) (value : Z -> Z) (l : list Z) : Z :=
  foldl (fun acc c => base * acc + value c) 0 l.

Definition dec_value (c : Z) : Z := c - chr_0.
Definition hex_value (c : Z) : Z := if c <? 97 then c - 48 else c - 87.

(** ** Digits *)
Lemma digits_length fuel base digit n : (List.length (digits fuel base digit n) <= fuel)%nat.
Proof.
  revert n. induction fuel as [|fuel IH]; intros n; simpl; [lia|].
  case_match; simpl; [lia|]. rewrite length_app. simpl. specialize (IH (n / base)). lia.
Qed.

Lemma number_of_snoc base value l c :
  number_of base value (l ++ [c]) = base * number_of base value l + value c.
Proof. unfold number_of. by rewrite foldl_app. Qed.

(** Enough digits denote the number. *)
Lemma digits_value fuel base digit value n :
  1 < base -> (forall d, 0 <= d < base -> value (digit d) = d) ->
  0 <= n < base ^ Z.of_nat fuel -> number_of base value (digits fuel base digit n) = n.
Proof.
  intros Hb Hv. revert n. induction fuel as [|fuel IH]; intros n Hn.
  { simpl in Hn. rewrite Z.pow_0_r in Hn. unfold number_of. simpl. lia. }
  cbn [digits]. destruct (Z.leb_spec n 0); [unfold number_of; simpl; lia|].
  rewrite number_of_snoc, IH, Hv.
  - symmetry. apply Z.div_mod. lia.
  - apply Z.mod_pos_bound. lia.
  - rewrite Nat2Z.inj_succ, Z.pow_succ_r in Hn by lia.
    split; [apply Z.div_pos; lia|]. apply Z.div_lt_upper_bound; lia.
Qed.

(** No leading zero. *)
Lemma digits_head fuel base digit n :
  1 < base -> 0 < n < base ^ Z.of_nat fuel ->
  exists d l, 0 < d < base /\ digits fuel base digit n = digit d :: l.
Proof.
  intros Hb. revert n. induction fuel as [|fuel IH]; intros n Hn; [simpl in Hn; rewrite Z.pow_0_r in Hn; lia|].
  cbn [digits]. destruct (Z.leb_spec n 0); [lia|].
  rewrite Nat2Z.inj_succ, Z.pow_succ_r in Hn by lia.
  destruct (Z.eq_dec (n / base) 0) as [Hz|Hnz].
  - rewrite Hz. assert (Hd : digits fuel base digit 0 = []) by (destruct fuel; done). rewrite Hd.
    exists (n mod base), []. split; [|done]. pose proof (Z.mod_pos_bound n base ltac:(lia)).
    pose proof (Z.div_mod n base ltac:(lia)). lia.
  - assert (0 <= n / base) by (apply Z.div_pos; lia).
    destruct (IH (n / base)) as (d & l & Hd & ->); [split; [lia|apply Z.div_lt_upper_bound; lia]|].
    eauto.
Qed.

Lemma digits_Forall fuel base digit n (P : Z -> Prop) :
  1 < base -> (forall d, 0 <= d < base -> P (digit d)) -> Forall P (digits fuel base digit n).
Proof.
  intros Hb HP. revert n. induction fuel as [|fuel IH]; intros n; simpl; [done|].
  case_match; [done|]. apply Forall_app. split; [apply IH|]. constructor; [|done].
  apply HP, Z.mod_pos_bound. lia.
Qed.

Lemma drop_insert_here (l : list Z) i x :
  (i < List.length l)%nat -> drop i (<[i := x]> l) = x :: drop (S i) l.
Proof.
  revert i. induction l as [|y l IH]; intros [|i] Hi; simpl in *; try lia; [done|]. apply IH. lia.
Qed.

(** The loop writes the digits just before the ones already written. *)
Lemma digit_loop base digit fuel : forall wf str pos num tail,
  1 < base -> (forall d, 0 <= d < base -> 0 <= digit d < 256) ->
  0 <= num < base ^ Z.of_nat fuel -> List.length str = 128%nat ->
  pos = 127 - Z.of_nat (List.length tail) -> drop (Z.to_nat (pos + 1)) str = tail ->
  (fuel + List.length tail <= 128)%nat -> (fuel < wf)%nat ->
  exists str' pos', while wf (fun s : list Z * Z * Z => 0 <? snd s) (digit_step base digit) (str, pos, num) =
      Done (str', pos', 0) /\ drop (Z.to_nat (pos' + 1)) str' = digits fuel base digit num ++ tail.
Proof.
  induction fuel as [|fuel IH]; intros wf str pos num tail Hb Hd Hn Hlen Hpos Htail Hroom Hwf;
    (destruct wf as [|wf]; [lia|]); rewrite while_unfold; simpl snd.
  { rewrite Z.pow_0_r in Hn. assert (num = 0) as -> by lia. exists str, pos. done. }
  cbn [digits]. destruct (Z.ltb_spec 0 num) as [Hpos0|Hz].
  2: { assert (num = 0) as -> by lia. exists str, pos. done. }
  destruct (Z.leb_spec num 0); [lia|].
  rewrite Nat2Z.inj_succ, Z.pow_succ_r in Hn by lia.
  assert (Hrem : Z.rem num base = num mod base) by (apply Z.rem_mod_nonneg; lia).
  assert (Hquot : Z.quot num base = num / base) by (apply Z.quot_div_nonneg; lia).
  pose proof (Z.mod_pos_bound num base ltac:(lia)) as Hm. pose proof (Hd _ Hm) as Hdm.
  assert (Hstep : digit_step base digit (str, pos, num) =
    Done (<[Z.to_nat pos := digit (num mod base)]> str, pos - 1, num / base)).
  { unfold digit_step, buf_store, max_num_len. rewrite Hrem, Hquot.
    rewrite (proj2 (Z.leb_le 0 pos)), (proj2 (Z.ltb_lt pos 128)) by lia. simpl.
    by rewrite (wrap_id 8) by lia. }
  rewrite Hstep, bind_done.
  destruct (IH wf (<[Z.to_nat pos := digit (num mod base)]> str) (pos - 1) (num / base)
    (digit (num mod base) :: tail)) as (str' & pos' & Hw & Hdrop); try done; try lia.
  - split; [apply Z.div_pos; lia|]. apply Z.div_lt_upper_bound; lia.
  - by rewrite length_insert.
  - simpl. lia.
  - replace (Z.to_nat (pos - 1 + 1)) with (Z.to_nat pos) by lia.
    rewrite drop_insert_here by lia. f_equal.
    rewrite <-Htail. f_equal. lia.
  - simpl. lia.
  - exists str', pos'. split; [exact Hw|]. rewrite Hdrop, <-app_assoc. done.
Qed.

Lemma format_number_spec base digit str num :
  1 < base -> (forall d, 0 <= d < base -> 0 <= digit d < 256) -> num < base ^ 64 ->
  List.length str = 128%nat ->
  format_number base digit str num =
    Done (if num =? 0 then [chr_0] else digits 64 base digit num).
Proof.
  intros Hb Hd Hn Hlen. unfold format_number.
  destruct (Z.eqb_spec num 0) as [->|Hnz].
  - unfold buf_store. simpl. f_equal.
    change (Z.to_nat (max_num_len - 1 - 1 + 1)) with 127%nat.
    change (Z.to_nat (max_num_len - 1)) with 127%nat.
    rewrite drop_insert_here, drop_ge by lia. done.
  - destruct (Z.lt_ge_cases num 0) as [Hneg|Hpos].
    + rewrite while_unfold. simpl snd. rewrite (proj2 (Z.ltb_ge _ _)) by lia. cbv iota.
      rewrite bind_done. rewrite drop_ge by (change (Z.to_nat (max_num_len - 1 + 1)) with 128%nat; lia).
      cbn [digits]. rewrite (proj2 (Z.leb_le _ _)) by lia. done.
    + destruct (digit_loop base digit 64 130 str (max_num_len - 1) num [])
        as (str' & pos' & Hw & Hdrop); try done; try lia.
      * change (Z.to_nat (max_num_len - 1 + 1)) with 128%nat. apply drop_ge. lia.
      * simpl. lia.
      * rewrite Hw, bind_done. rewrite Hdrop, app_nil_r. done.
Qed.

Lemma dec_digit_range d : 0 <= d < 10 -> 0 <= d + chr_0 < 256.
Proof. unfold chr_0. lia. Qed.

Lemma hex_cases (P : Z -> Prop) d :
  0 <= d < 16 -> P 0 -> P 1 -> P 2 -> P 3 -> P 4 -> P 5 -> P 6 -> P 7 -> P 8 -> P 9 -> P 10 -> P 11 ->
  P 12 -> P 13 -> P 14 -> P 15 -> P d.
Proof.
  intros Hd. intros.
  assert (d = 0 \/ d = 1 \/ d = 2 \/ d = 3 \/ d = 4 \/ d = 5 \/ d = 6 \/ d = 7 \/ d = 8 \/ d = 9 \/
    d = 10 \/ d = 11 \/ d = 12 \/ d = 13 \/ d = 14 \/ d = 15) as Hc by lia.
  repeat destruct Hc as [->|Hc]; subst; assumption.
Qed.

Lemma hex_digit_range d : 0 <= d < 16 -> 0 <= nth (Z.to_nat d) hex 0 < 256.
Proof. intros Hd. apply (hex_cases (fun d => 0 <= nth (Z.to_nat d) hex 0 < 256) d Hd); vm_compute; split; congruence. Qed.

Lemma format_d_spec n : - 2 ^ 31 <= n < 2 ^ 31 -> format_d n = Done (decimal n).
Proof.
  intros Hn. unfold format_d, decimal. apply format_number_spec; [lia|apply dec_digit_range| |done].
  apply (Z.lt_trans _ (2 ^ 31)); [lia|done].
Qed.

Lemma format_x_spec n : 0 <= n < 2 ^ 64 -> format_x n = Done (hexadecimal n).
Proof.
  intros Hn. unfold format_x, buf_store. simpl. unfold hexadecimal.
  apply format_number_spec; [lia|apply hex_digit_range| |done].
  apply (Z.lt_trans _ (2 ^ 64)); [lia|done].
Qed.

(** C33. Numbers are printed so that reading the digits back gives the number:
    decimal for an [int] that is not negative, hexadecimal for every 64-bit
    word, without leading zeros; a negative [int] prints as the empty string. *)
Theorem printf_numbers_roundtrip n :
  (0 <= n < 2 ^ 31 -> exists l, format_d n = Done l /\ number_of 10 dec_value l = n /\
     (n <> 0 -> head l <> Some chr_0)) /\
  (- 2 ^ 31 <= n < 0 -> format_d n = Done []) /\
  (0 <= n < 2 ^ 64 -> exists l, format_x n = Done l /\ number_of 16 hex_value l = n /\
     (n <> 0 -> head l <> Some chr_0)).
Proof.
  split; [|split].
  - intros Hn. exists (decimal n). split; [apply format_d_spec; lia|]. unfold decimal.
    destruct (Z.eqb_spec n 0) as [->|Hnz]; [done|].
    assert (n < 10 ^ 64) by (apply (Z.lt_trans _ (2 ^ 31)); [lia|done]). split.
    + apply digits_value; [lia| |change (Z.of_nat 64) with 64; lia]. intros d Hd. unfold dec_value, dec_digit. lia.
    + intros _. destruct (digits_head 64 10 dec_digit n) as (d & l & Hd & ->); [lia|change (Z.of_nat 64) with 64; lia|].
      simpl. intros [= He]. unfold dec_digit, chr_0 in He. lia.
  - intros Hn. rewrite format_d_spec by lia. unfold decimal.
    rewrite (proj2 (Z.eqb_neq _ _)) by lia. cbn [digits]. by rewrite (proj2 (Z.leb_le _ _)) by lia.
  - intros Hn. exists (hexadecimal n). split; [by apply format_x_spec|]. unfold hexadecimal.
    destruct (Z.eqb_spec n 0) as [->|Hnz]; [done|].
    assert (n < 16 ^ 64) by (apply (Z.lt_trans _ (2 ^ 64)); [lia|done]). split.
    + apply digits_value; [lia| |change (Z.of_nat 64) with 64; lia]. intros d Hd. by apply (hex_cases (fun d => hex_value (hex_digit d) = d) _ Hd).
    + intros _. destruct (digits_head 64 16 hex_digit n) as (d & l & Hd & ->); [lia|change (Z.of_nat 64) with 64; lia|].
      assert (0 <= d < 16) as Hd0 by lia. simpl. intros [= He]. revert He Hd.
      apply (hex_cases (fun d => hex_digit d = chr_0 -> 0 < d < 16 -> False) d Hd0); vm_compute; intuition congruence.
Qed.

(** ** The loop against its specification *)
Section Refines.
Context {S : Type} `{Console S}.

(** Sending characters to the console one by one. *)
Fixpoint emit (out : list Z) (s : S) : outcome S :=
  match out with
  | [] => Done s
  | b :: out => p ← putchar (u8 b) s; emit out (snd p)
  end.

Lemma emit_app a b s : emit (a ++ b) s = (s' ← emit a s; emit b s').
Proof.
  revert s. induction a as [|x a IH]; intros s; [done|]. simpl.
  destruct (putchar (u8 x) s) as [[]| | |]; simpl; [apply IH|done..].
Qed.

Lemma print_then_emit out s k : print_then out s k = (s' ← emit out s; k s').
Proof.
  unfold print_then. revert s. induction out as [|b out IH]; intros s; [done|]. simpl.
  destruct (putchar (u8 b) s) as [[r s']| | |] eqn:Hp; simpl; try done.
  apply putchar_returns in Hp as ->. pose proof (wrap_range 8 b ltac:(lia)).
  rewrite (proj2 (Z.eqb_neq _ _)) by lia. apply IH.
Qed.

Definition printf_result (written : Z) : Z := if INT_MAX <? written then -1 else written.

(** Plain text up to the next percent sign is itself. *)
Lemma text_run_render r args out :
  render r args = Some out ->
  exists out', out = take (text_run r) r ++ out' /\ render (drop (text_run r) r) args = Some out'.
Proof.
  revert out. induction r as [|c r IH]; intros out Hr; [by exists out|].
  cbn [text_run]. destruct (Z.eqb_spec c 0) as [->|H0]; simpl orb; [by exists out|].
  destruct (Z.eqb_spec c chr_percent) as [->|Hp]; [by exists out|].
  cbn [render] in Hr. rewrite (proj2 (Z.eqb_neq _ _)), (proj2 (Z.eqb_neq _ _)) in Hr by done.
  simpl in Hr. destruct (render r args) as [o|] eqn:Ho; [|done]. injection Hr as <-.
  destruct (IH o eq_refl) as (out' & -> & Hd). exists out'. done.
Qed.

Lemma text_run_le r : (text_run r <= List.length r)%nat.
Proof. induction r as [|c r IH]; simpl; [lia|]. case_match; lia. Qed.

Lemma run_length c r : List.length (c :: take (text_run r) r) = Datatypes.S (text_run r).
Proof. simpl. rewrite length_take. pose proof (text_run_le r). lia. Qed.

Lemma printf_step_count w n m : wrap 64 (wrap 64 (w + n) + m) = wrap 64 (w + (n + m)).
Proof. rewrite wrap_add_l. f_equal. lia. Qed.

(** One printed piece, when the rest of the format is printed as specified. *)
Lemma vprintf_piece fuel format args written s piece out :
  (forall written s, 0 <= written < 2 ^ 64 -> vprintf_loop fuel format args written s =
     (s' ← emit out s; Done (printf_result (u64 (written + Z.of_nat (List.length out))), s'))) ->
  (s' ← emit piece s; vprintf_loop fuel format args (u64 (written + Z.of_nat (List.length piece))) s') =
  (s' ← emit (piece ++ out) s; Done (printf_result (u64 (written + Z.of_nat (List.length (piece ++ out)))), s')).
Proof.
  intros IH. rewrite emit_app, bind_assoc. apply bind_cong. intros s1.
  rewrite IH by (by apply (wrap_range 64)). rewrite printf_step_count, length_app, Nat2Z.inj_add. done.
Qed.

Lemma vprintf_loop_spec fuel : forall format args written s out,
  (List.length format < fuel)%nat -> render format args = Some out -> 0 <= written < 2 ^ 64 ->
  vprintf_loop fuel format args written s =
    (s' ← emit out s; Done (printf_result (u64 (written + Z.of_nat (List.length out))), s')).
Proof.
  induction fuel as [|fuel IH]; intros format args written s out Hf Hr Hw; [lia|].
  assert (Hpiece : forall piece format' args' out',
    (List.length format' < fuel)%nat -> render format' args' = Some out' ->
    (s' ← emit piece s; vprintf_loop fuel format' args' (u64 (written + Z.of_nat (List.length piece))) s') =
    (s' ← emit (piece ++ out') s; Done (printf_result (u64 (written + Z.of_nat (List.length (piece ++ out')))), s')))
    by (intros; apply vprintf_piece; intros; by apply IH).
  (* a character and the plain text behind it *)
  assert (Htext : forall c rest o, (List.length rest < fuel)%nat -> render rest args = Some o ->
    (s' ← emit (take (Datatypes.S (text_run rest)) (c :: rest)) s;
     vprintf_loop fuel (drop (Datatypes.S (text_run rest)) (c :: rest)) args (u64 (written + Z.of_nat (Datatypes.S (text_run rest)))) s') =
    (s' ← emit (c :: o) s; Done (printf_result (u64 (written + Z.of_nat (List.length (c :: o)))), s'))).
  { intros c rest o Hl Ho. destruct (text_run_render _ _ _ Ho) as (out' & -> & Hd). cbn [take drop].
    rewrite <-(run_length c rest). apply (Hpiece (c :: take (text_run rest) rest)); [rewrite length_drop; lia|done]. }
  cbn [vprintf_loop]. destruct format as [|c rest].
  { injection Hr as <-. simpl. by rewrite Z.add_0_r, wrap_id. }
  change (char_at (c :: rest) 0) with c. cbn [render] in Hr.
  destruct (Z.eqb_spec c 0) as [->|H0]; [injection Hr as <-; simpl; by rewrite Z.add_0_r, wrap_id|].
  cbn [List.length] in Hf. rewrite !print_then_emit.
  destruct (Z.eqb_spec c chr_percent) as [->|Hp]; simpl negb in *; cbn [orb].
  2: { destruct (render rest args) as [o|] eqn:Ho; [|done]. injection Hr as <-.
    change (drop 1 (c :: rest)) with rest. apply Htext; [lia|done]. }
  destruct rest as [|x rest]; [injection Hr as <-|].
  { change (char_at [chr_percent] 1) with 0. change (drop 1 [chr_percent]) with (@nil Z).
    change (char_at [] 0) with 0. simpl. rewrite (IH [] args written s []); [done|simpl; lia|done|done]. }
  change (char_at (chr_percent :: x :: rest) 1) with x.
  change (drop 1 (chr_percent :: x :: rest)) with (x :: rest).
  change (char_at (x :: rest) 0) with x. change (drop 1 (x :: rest)) with rest.
  cbn [List.length] in Hf.
  destruct (Z.eqb_spec x chr_percent) as [->|Hxp].
  { destruct (render rest args) as [o|] eqn:Ho; [|done]. injection Hr as <-.
    apply Htext; [lia|done]. }
  destruct (Z.eqb_spec x chr_c) as [->|Hxc].
  { destruct args as [|[] args]; try done. destruct (render rest args) as [o|] eqn:Ho; [|done].
    injection Hr as <-. rewrite print_then_emit. apply (Hpiece [u8 n] rest args o); [lia|done]. }
  destruct (Z.eqb_spec x chr_s) as [->|Hxs].
  { destruct args as [|[] args]; try done. destruct (render rest args) as [o|] eqn:Ho; [|done].
    injection Hr as <-. rewrite print_then_emit. apply (Hpiece (cstr s0) rest args o); [lia|done]. }
  destruct (Z.eqb_spec x chr_d) as [->|Hxd].
  { destruct args as [|[] args]; try done. destruct (render rest args) as [o|] eqn:Ho; [|done].
    injection Hr as <-. rewrite format_d_spec, bind_done, print_then_emit by apply i32_range.
    apply (Hpiece (decimal (i32 n)) rest args o); [lia|done]. }
  destruct ((x =? chr_x) || (x =? chr_p)) eqn:Hxx.
  { destruct args as [|[] args]; try done. destruct (render rest args) as [o|] eqn:Ho; [|done].
    injection Hr as <-. rewrite format_x_spec, bind_done, print_then_emit by by apply (wrap_range 64).
    apply (Hpiece (hexadecimal (u64 n)) rest args o); [lia|done]. }
  apply (IH (x :: rest) args written s out); [simpl; lia|done|done].
Qed.
End Refines.

(** C12. Total correctness of [printf]: on every format whose conversions have
    arguments of the right type the loop ends and the console receives, in
    order, exactly the characters that [render] spells out; the result is their
    number, or -1 when it exceeds [INT_MAX]. *)
Theorem printf_refines_render {S} `{Console S} format args out (s : S) :
  render format args = Some out -> Z.of_nat (List.length out) < 2 ^ 64 ->
  printf format args s =
    (s' ← emit out s; Done (printf_result (Z.of_nat (List.length out)), s')).
Proof.
  intros Hr Hlen. unfold printf, vprintf.
  rewrite (vprintf_loop_spec _ format args 0 s out) by (lia || done).
  by rewrite Z.add_0_l, (wrap_id 64) by lia.
Qed.

(** A console that keeps what it is sent. *)
#[export] Instance tape_console : Console (list Z) := {
  putchar := fun c s => Done (c, s ++ [c]);
  putchar_returns := fun c s r s' H => eq_sym (f_equal fst (done_inj (c, s ++ [c]) (r, s') H))
}.

(** ["a%d%%%x"] with 42 and 255. *)
Lemma printf_refines_render_witness :
  printf [97; 37; 100; 37; 37; 37; 120] [ArgInt 42; ArgWord 255] [] =
    Done (6, [97; 52; 50; 37; 102; 102]).
Proof.
  rewrite (printf_refines_render _ _ [97; 52; 50; 37; 102; 102]).
  - vm_compute. reflexivity.
  - vm_compute. reflexivity.
  - vm_compute. reflexivity.
Defined.

Lemma printf_numbers_roundtrip_witness :
  exists l, format_x 57005 = Done l /\ number_of 16 hex_value l = 57005.
Proof.
  destruct (printf_numbers_roundtrip 57005) as (_ & _ & Hx).
  destruct Hx as (l & Hl & Hv & _); [lia|]. exists l. split; [exact Hl|exact Hv].
Defined.
