(* ===== verification/Idt.v ===== *)
(** * Interrupt handling

    idt.cpp: the interrupt service routines, the keyboard decoder with its
    static state, and the filling of the interrupt descriptor table.  The state
    is the machine of Processor, the keyboard buffer and the console. *)

From Stdlib Require Import ZArith Lia String.
From stdpp Require Import base gmap list list_numbers numbers strings.
From S2P Require Import Prelude Memory FrameAllocator PageTree Paging KernelMemory Containers Utilities Descriptors Processor Printf.
#[local] Open Scope Z_scope.

(** ** The service routines *)
Inductive isr :=
| isr_divide_error | isr_debug_exception | isr_nmi_interrupt | isr_breakpoint | isr_overflow
| isr_bound_range_exceeded | isr_invalid_opcode | isr_device_not_available | isr_double_fault
| isr_coprocessor_segment_overrun | isr_invalid_tss | isr_segment_not_present
| isr_stack_segment_fault | isr_general_protection | isr_page_fault | isr_math_fault
| isr_alignment_check | isr_machine_check | isr_simd_floating_point_exception
| isr_virtualization_exception | isr_interprocessor_interrupt | isr_keyboard.

#[export] Instance isr_eq_dec : EqDecision isr.
Proof. solve_decision. Defined.

(** IDTStructure::InterruptFunction: which of the two signatures a routine has. *)
Inductive InterruptFunction :=
| no_error_code (i : isr)
| with_error_code (i : isr).

Definition function_isr (f : InterruptFunction) : isr :=
  match f with no_error_code i | with_error_code i => i end.

(** The message of the routines that panic; [None] for the ones that return. *)
Definition isr_panic_message (i : isr) : option string :=
  match i with
  | isr_divide_error => Some "divide error"
  | isr_debug_exception => Some "debug exception"
  | isr_nmi_interrupt => Some "nonmaskable external interrupt"
  | isr_breakpoint => Some "breakpoint"
  | isr_overflow => Some "overflow"
  | isr_bound_range_exceeded => Some "bound range exceeded"
  | isr_invalid_opcode => Some "invalid opcode"
  | isr_device_not_available => Some "device not available"
  | isr_double_fault => Some "double fault"
  | isr_coprocessor_segment_overrun => Some "coprocessor segment overrun"
  | isr_invalid_tss => Some "invalid tss"
  | isr_segment_not_present => Some "segment not present"
  | isr_stack_segment_fault => Some "stack segment fault"
  | isr_general_protection => Some "general protection"
  | isr_math_fault => Some "math fault"
  | isr_alignment_check => Some "alignment check"
  | isr_machine_check => Some "machine check"
  | isr_simd_floating_point_exception => Some "SIMD floating-point exception"
  | isr_virtualization_exception => Some "virtualization exception"
  | isr_page_fault | isr_interprocessor_interrupt | isr_keyboard => None
  end%string.

(** ** The keyboard decoder *)

(** Entries 0x00 to 0x3f; the rest of the 128 entries is 0. *)
Definition scancode_to_ascii : list Z :=
  [ 0; 27; 49; 50; 51; 52; 53; 54;
    55; 56; 57; 48; 45; 61; 8; 9;
    113; 119; 101; 114; 116; 121; 117; 105;
    111; 112; 91; 93; 10; 0; 97; 115;
    100; 102; 103; 104; 106; 107; 108; 59;
    39; 96; 0; 92; 122; 120; 99; 118;
    98; 110; 109; 44; 46; 47; 0; 42;
    0; 32; 0; 0; 0; 0; 0; 0 ] ++ replicate 64 0.

(** The key and the new value of the static [extended]. *)
Definition scancode_to_key (extended : bool) (scancode : Z) : Z * bool :=
  if extended then
    (if scancode =? 0x48 then Key.UpArrow
     else if scancode =? 0x50 then Key.DownArrow
     else if scancode =? 0x4B then Key.LeftArrow
     else if scancode =? 0x4D then Key.RightArrow
     else Key.None, false)
  else if scancode =? 0xE0 then (Key.None, true)
  else if negb (Z.land scancode 0x80 =? 0) then (Key.None, false)
  else if scancode <? 128 then
    let ascii := nth (Z.to_nat scancode) scancode_to_ascii 0 in
    if negb (ascii =? 0) then (ascii, false) else (Key.None, false)
  else (Key.None, false).

(** ** The kernel state the routines work on *)
Record kernel_state (H C : Type) := Kernel {
  mach : machine H;
  keyboardBuffer : KeyboardBuffer;
  extended : bool;
  console : C
}.
Arguments Kernel {H C} mach keyboardBuffer extended console.
Arguments mach {H C} k.
Arguments keyboardBuffer {H C} k.
Arguments extended {H C} k.
Arguments console {H C} k.

(** "interprocessor interrupt test: PASSED\n" *)
Definition ipi_message : list Z :=
  [105; 110; 116; 101; 114; 112; 114; 111; 99; 101; 115; 115; 111; 114; 32; 105; 110; 116; 101; 114;
   114; 117; 112; 116; 32; 116; 101; 115; 116; 58; 32; 80; 65; 83; 83; 69; 68; 10].

Section Handlers.
Context {H C : Type} `{Platform H} `{Console C} (limine : limine_features).

Definition with_mach (k : kernel_state H C) (m : machine H) : kernel_state H C :=
  Kernel m (keyboardBuffer k) (extended k) (console k).

Definition end_of_interrupt (k : kernel_state H C) : outcome (kernel_state H C) :=
  m ← sendEndOfInterrupt (mach k); Done (with_mach k m).

(** isr_page_fault; [cr2] is the faulting address. *)
Definition handle_page_fault (cr2 : Z) (k : kernel_state H C) : outcome (kernel_state H C) :=
  v ← paging_allocate_and_map limine cr2 pageSize PageFlags.Write (vm (mach k));
  end_of_interrupt (with_mach k (with_vm (mach k) v)).

(** isr_keyboard *)
Definition handle_keyboard (k : kernel_state H C) : outcome (kernel_state H C) :=
  let '(scan_code, h) := inb 0x60 (hw (mach k)) in
  let '(key, ext) := scancode_to_key (extended k) scan_code in
  end_of_interrupt
    (Kernel (with_hw (mach k) h) (KeyboardBuffer_put key (keyboardBuffer k)) ext (console k)).

(** isr_interprocessor_interrupt *)
Definition handle_ipi (k : kernel_state H C) : outcome (kernel_state H C) :=
  r ← printf ipi_message [] (console k);
  end_of_interrupt (Kernel (mach k) (keyboardBuffer k) (extended k) (snd (r : Z * C))).

Definition run_isr (i : isr) (cr2 : Z) (k : kernel_state H C) : outcome (kernel_state H C) :=
  match isr_panic_message i with
  | Some msg => Panic msg
  | None =>
      match i with
      | isr_page_fault => handle_page_fault cr2 k
      | isr_keyboard => handle_keyboard k
      | isr_interprocessor_interrupt => handle_ipi k
      | _ => end_of_interrupt k
      end
  end.
End Handlers.

(** ** idt_init *)
Definition kernel_code_selector : SegmentSelector :=
  {| requested_privilege_level_ := kernel; table_type_ := global; gdt_segment_ := kernel_code |}.

Definition system_idt_descriptors : list (InterruptFunction * GateType) :=
  [ (no_error_code isr_divide_error, interrupt);
    (no_error_code isr_debug_exception, interrupt);
    (no_error_code isr_nmi_interrupt, interrupt);
    (no_error_code isr_breakpoint, trap);
    (no_error_code isr_overflow, interrupt);
    (no_error_code isr_bound_range_exceeded, interrupt);
    (no_error_code isr_invalid_opcode, interrupt);
    (no_error_code isr_device_not_available, interrupt);
    (with_error_code isr_double_fault, interrupt);
    (with_error_code isr_coprocessor_segment_overrun, interrupt);
    (with_error_code isr_invalid_tss, interrupt);
    (with_error_code isr_segment_not_present, interrupt);
    (with_error_code isr_stack_segment_fault, interrupt);
    (with_error_code isr_general_protection, interrupt);
    (with_error_code isr_page_fault, interrupt);
    (no_error_code isr_math_fault, interrupt);
    (with_error_code isr_alignment_check, interrupt);
    (no_error_code isr_machine_check, interrupt);
    (no_error_code isr_simd_floating_point_exception, interrupt);
    (no_error_code isr_virtualization_exception, interrupt) ].

Definition user_idt_descriptors : list (InterruptFunction * GateType) :=
  [ (no_error_code isr_keyboard, interrupt) ].

Section IdtInit.
(** The address the linker gives each routine. *)
Context (isr_address : isr -> Z).

Definition gate_descriptor (f : InterruptFunction) (t : GateType) : GateDescriptor :=
  {| interrupt_service_routine := isr_address (function_isr f);
     selector := kernel_code_selector;
     interrupt_stack_table_offset := 0;
     gate_type := t;
     required_privilege := kernel |}.

(** [for (i = 0; i < descriptors.size(); ++i) idt.load_gate_descriptor(i + first, descriptors[i])] *)
Fixpoint load_gates (idt : list Z) (first : Z) (l : list (InterruptFunction * GateType)) {struct l} : outcome (list Z) :=
  match l with
  | [] => Done idt
  | (f, t) :: l =>
      idt ← load_gate_descriptor idt first (gate_descriptor f t);
      load_gates idt (first + 1) l
  end.

(** The global [idt_descriptor]. *)
Definition idt_descriptor (address : Z) : list Z := TableDescriptor idt_size address.

Definition idt_init (address : Z) (idt : list Z) (c : cpu) : outcome (list Z * cpu) :=
  idt ← load_gates idt 0 system_idt_descriptors;
  idt ← load_gates idt 0x30 user_idt_descriptors;
  idt ← load_gate_descriptor idt 0xff
          (gate_descriptor (no_error_code isr_interprocessor_interrupt) interrupt);
  Done (idt, lidt (idt_descriptor address) c).
End IdtInit.

(** ** Specification *)

(** The exception of each routine in the Intel SDM (volume 3, table 6-1), and
    whether the processor pushes an error code for a vector. *)
Definition sdm_vector (i : isr) : Z :=
  match i with
  | isr_divide_error => 0 | isr_debug_exception => 1 | isr_nmi_interrupt => 2 | isr_breakpoint => 3
  | isr_overflow => 4 | isr_bound_range_exceeded => 5 | isr_invalid_opcode => 6
  | isr_device_not_available => 7 | isr_double_fault => 8 | isr_coprocessor_segment_overrun => 9
  | isr_invalid_tss => 10 | isr_segment_not_present => 11 | isr_stack_segment_fault => 12
  | isr_general_protection => 13 | isr_page_fault => 14 | isr_math_fault => 16
  | isr_alignment_check => 17 | isr_machine_check => 18 | isr_simd_floating_point_exception => 19
  | isr_virtualization_exception => 20 | isr_keyboard => 0x30 | isr_interprocessor_interrupt => 0xff
  end.

Definition pushes_error_code (v : Z) : bool := bool_decide (v ∈ [8; 10; 11; 12; 13; 14; 17; 21]).

Definition takes_error_code (f : InterruptFunction) : bool :=
  match f with with_error_code _ => true | no_error_code _ => false end.

(** The routine installed for a vector. *)
Definition handler_of (v : Z) : option (InterruptFunction * GateType) :=
  if v =? 0xff then Some (no_error_code isr_interprocessor_interrupt, interrupt)
  else if v =? 0x30 then Some (no_error_code isr_keyboard, interrupt)
  else if 0 <=? v then system_idt_descriptors !! Z.to_nat v else None.

Section IdtSpec.
Context (isr_address : isr -> Z).
Context (isr_address_range : forall i, 0 <= isr_address i < 2 ^ 64).

(** What the processor reads for an installed routine. *)
Definition installed_gate (g : InterruptFunction * GateType) : gate :=
  Gate (isr_address (function_isr (fst g))) 8 0 (GateType_value (snd g)) 0 true.

Lemma load_gate_installed idt v f t :
  Z.of_nat (List.length idt) = idt_size -> 0 <= v < num_gates ->
  exists idt', load_gate_descriptor idt v (gate_descriptor isr_address f t) = Done idt' /\
    Z.of_nat (List.length idt') = idt_size /\
    forall j, 0 <= j < num_gates ->
      gate_at idt' j = if decide (j = v) then installed_gate (f, t) else gate_at idt j.
Proof.
  intros Hl Hv.
  destruct (load_gate_descriptor_spec idt v (gate_descriptor isr_address f t))
    as (idt' & Hd & Hl' & Hg & Hj); [done|done|apply isr_address_range|].
  exists idt'. split; [done|]. split; [done|]. intros j Hjr.
  destruct (decide (j = v)) as [->|Hne]; [|by apply Hj]. rewrite Hg. done.
Qed.

Lemma load_gates_spec l idt first :
  Z.of_nat (List.length idt) = idt_size -> 0 <= first -> first + Z.of_nat (List.length l) <= num_gates ->
  exists idt', load_gates isr_address idt first l = Done idt' /\
    Z.of_nat (List.length idt') = idt_size /\
    forall j, 0 <= j < num_gates ->
      gate_at idt' j =
        if (first <=? j) && (j <? first + Z.of_nat (List.length l))
        then default (gate_at idt j) (installed_gate <$> l !! Z.to_nat (j - first))
        else gate_at idt j.
Proof.
  revert idt first. induction l as [|[f t] l IH]; intros idt first Hl H0 Hmax.
  { exists idt. split; [done|]. split; [done|]. intros j Hj. by case_match. }
  cbn [List.length] in Hmax. cbn [load_gates].
  destruct (load_gate_installed idt first f t Hl ltac:(lia)) as (idt1 & -> & Hl1 & Hg1). rewrite bind_done.
  destruct (IH idt1 (first + 1) Hl1 ltac:(lia) ltac:(lia)) as (idt2 & -> & Hl2 & Hg2).
  exists idt2. split; [done|]. split; [done|]. intros j Hj. rewrite Hg2, Hg1 by done.
  cbn [List.length]. rewrite Nat2Z.inj_succ.
  destruct (decide (j = first)) as [->|Hne].
  - rewrite (proj2 (Z.leb_gt (first + 1) first)), (Z.leb_refl first), Z.sub_diag by lia.
    by rewrite (proj2 (Z.ltb_lt first (first + Z.succ (Z.of_nat (List.length l))))) by lia.
  - destruct (Z.leb_spec (first + 1) j), (Z.leb_spec first j); try lia; cbn [andb]; [|done].
    replace (first + 1 + Z.of_nat (List.length l)) with (first + Z.succ (Z.of_nat (List.length l))) by lia.
    case_match; [|done].
    replace (Z.to_nat (j - first)) with (S (Z.to_nat (j - (first + 1)))) by lia. done.
Qed.

Lemma idt_init_spec address idt c :
  Z.of_nat (List.length idt) = idt_size -> 0 <= address < 2 ^ 64 ->
  exists idt', idt_init isr_address address idt c =
      Done (idt', CPU (gdtr c) (idt_size - 1, address) (cs c) (ds c) (es c) (fs c) (gs c) (ss c)) /\
    Z.of_nat (List.length idt') = idt_size /\
    forall v, 0 <= v < num_gates ->
      gate_at idt' v = match handler_of v with Some g => installed_gate g | None => gate_at idt v end.
Proof.
  intros Hl Ha. unfold idt_init.
  destruct (load_gates_spec system_idt_descriptors idt 0 Hl) as (i1 & -> & Hl1 & Hg1); [done|done|].
  rewrite bind_done.
  destruct (load_gates_spec user_idt_descriptors i1 0x30 Hl1) as (i2 & -> & Hl2 & Hg2); [done|done|].
  rewrite bind_done.
  destruct (load_gate_installed i2 0xff (no_error_code isr_interprocessor_interrupt) interrupt Hl2)
    as (i3 & -> & Hl3 & Hg3); [done|]. rewrite bind_done.
  exists i3. split; [|split; [done|]].
  - unfold lidt, idt_descriptor. by rewrite table_register_descriptor.
  - intros v Hv. rewrite Hg3, Hg2, Hg1 by done. unfold handler_of.
    change (Z.of_nat (List.length system_idt_descriptors)) with 20.
    change (Z.of_nat (List.length user_idt_descriptors)) with 1.
    destruct (decide (v = 0xff)) as [->|Hff]; [done|]. rewrite (proj2 (Z.eqb_neq v 0xff)) by done.
    destruct (Z.eqb_spec v 0x30) as [->|H30]; [done|].
    rewrite (proj2 (Z.leb_le 0 v)) by lia.
    destruct (Z.leb_spec 0x30 v), (Z.ltb_spec v (0x30 + 1)), (Z.ltb_spec v (0 + 20)); try lia; cbn [andb];
      rewrite ?Z.sub_0_r.
    all: try (rewrite lookup_ge_None_2 by (change (List.length system_idt_descriptors) with 20%nat; lia); done).
    all: by destruct (system_idt_descriptors !! Z.to_nat v).
Qed.
End IdtSpec.

(** C27. Filling the table always succeeds; IDTR then covers all 256 gates, each
    installed vector has a present ring-0 gate with the kernel code selector to
    its routine (a trap gate for the breakpoint, interrupt gates otherwise), and
    no other gate is touched: from a cleared table, not present. *)
Theorem idt_init_correct isr_address address idt c :
  (forall i, 0 <= isr_address i < 2 ^ 64) ->
  Z.of_nat (List.length idt) = idt_size -> 0 <= address < 2 ^ 64 ->
  exists idt', idt_init isr_address address idt c =
      Done (idt', CPU (gdtr c) (16 * 256 - 1, address) (cs c) (ds c) (es c) (fs c) (gs c) (ss c)) /\
    forall v, 0 <= v < 256 ->
      match handler_of v with
      | Some (f, t) => gate_at idt' v = Gate (isr_address (function_isr f)) 8 0 (GateType_value t) 0 true /\
          (t = trap <-> function_isr f = isr_breakpoint)
      | None => gate_at idt' v = gate_at idt v
      end.
Proof.
  intros Hi Hl Ha. destruct (idt_init_spec isr_address Hi address idt c Hl Ha) as (idt' & Hd & _ & Hg).
  exists idt'. split; [exact Hd|]. intros v Hv. rewrite Hg by done.
  assert (Ht : forall f t, handler_of v = Some (f, t) -> t = trap <-> function_isr f = isr_breakpoint).
  { unfold handler_of. intros f t. do 2 (case_match; [by intros [= <- <-]|]). case_match; [|done].
    intros Hs%list_elem_of_lookup_2. unfold system_idt_descriptors in Hs.
    rewrite !elem_of_cons, elem_of_nil in Hs.
    repeat destruct Hs as [[= -> ->]|Hs]; [split; (done || discriminate)..|done]. }
  destruct (handler_of v) as [[f t]|]; [|done]. split; [done|]. by apply Ht.
Qed.

Definition demo_isr_address (i : isr) : Z := 0xffffffff80001000 + 0x100 * sdm_vector i.

Lemma demo_isr_address_range i : 0 <= demo_isr_address i < 2 ^ 64.
Proof. destruct i; vm_compute; split; congruence. Defined.

Lemma idt_init_correct_witness :
  exists idt' c', idt_init demo_isr_address 0xffffffff80009000 empty_idt (CPU (0, 0) (0, 0) 8 16 16 16 16 16) =
      Done (idt', c') /\ gate_offset (gate_at idt' 0x30) = 0xffffffff80004000 /\
    gate_present (gate_at idt' 0x31) = false.
Proof.
  destruct (idt_init_correct demo_isr_address 0xffffffff80009000 empty_idt (CPU (0, 0) (0, 0) 8 16 16 16 16 16))
    as (idt' & Hd & Hg).
  - exact demo_isr_address_range.
  - vm_compute. reflexivity.
  - lia.
  - exists idt'. eexists. split; [exact Hd|]. split.
    + destruct (Hg 0x30) as [-> _]; [lia|]. reflexivity.
    + specialize (Hg 0x31 ltac:(lia)). simpl in Hg. rewrite Hg. vm_compute. reflexivity.
Defined.

(** A property of every vector is decided by trying them all. *)
Lemma vectors_ind (P : Z -> Prop) `{forall v, Decision (P v)} :
  bool_decide (Forall P (seqZ 0 256)) = true -> forall v, 0 <= v < 256 -> P v.
Proof.
  intros Hb%bool_decide_eq_true v Hv. apply (proj1 (Forall_forall _ _) Hb).
  apply elem_of_seqZ. lia.
Qed.

(** What an installed vector promises the processor. *)
Definition runs_exception (v e : Z) : bool :=
  match handler_of v with Some (f, _) => sdm_vector (function_isr f) =? e | None => false end.

Definition error_code_agrees (v : Z) : bool :=
  match handler_of v with
  | Some (f, _) => Bool.eqb (takes_error_code f) (pushes_error_code v)
  | None => true
  end.

(** C36. Which exception reaches which routine: vectors 0 to 14 run the routine
    of their own exception, but the reserved vector 15 has no gate of its own in
    the list, so vectors 15 to 19 run the routine of the exception one above,
    and exception 20 is not handled at all; routine and processor disagree about
    the pushed error code exactly at the vectors 9, 16 and 17. *)
Theorem exception_vectors_shifted isr_address address idt c v :
  (forall i, 0 <= isr_address i < 2 ^ 64) ->
  Z.of_nat (List.length idt) = idt_size -> 0 <= address < 2 ^ 64 -> 0 <= v < 256 ->
  exists idt' c', idt_init isr_address address idt c = Done (idt', c') /\
    (v <= 14 -> exists i, gate_offset (gate_at idt' v) = isr_address i /\ sdm_vector i = v) /\
    (15 <= v <= 19 -> exists i, gate_offset (gate_at idt' v) = isr_address i /\ sdm_vector i = v + 1) /\
    (v = 20 -> gate_at idt' v = gate_at idt v) /\
    (error_code_agrees v = false <-> v = 9 \/ v = 16 \/ v = 17).
Proof.
  intros Hi Hl Ha Hv. destruct (idt_init_spec isr_address Hi address idt c Hl Ha) as (idt' & Hd & _ & Hg).
  exists idt'. eexists. split; [exact Hd|]. specialize (Hg v Hv).
  assert (Hrun : forall e, runs_exception v e = true ->
    exists i, gate_offset (gate_at idt' v) = isr_address i /\ sdm_vector i = e).
  { intros e. unfold runs_exception. rewrite Hg. destruct (handler_of v) as [[f t]|]; [|done].
    intros He%Z.eqb_eq. exists (function_isr f). done. }
  assert (Hcase : (v <= 14 -> runs_exception v v = true) /\ (15 <= v <= 19 -> runs_exception v (v + 1) = true) /\
    (v = 20 -> handler_of v = None) /\ (error_code_agrees v = false <-> v = 9 \/ v = 16 \/ v = 17)).
  { assert (Hall : forall v, 0 <= v < 256 ->
      ((14 <? v) || runs_exception v v) && ((v <? 15) || (19 <? v) || runs_exception v (v + 1)) &&
      (negb (v =? 20) || negb (bool_decide (is_Some (handler_of v)))) &&
      Bool.eqb (negb (error_code_agrees v)) ((v =? 9) || (v =? 16) || (v =? 17)) = true).
    { apply (vectors_ind _). vm_compute. reflexivity. }
    specialize (Hall v Hv). apply andb_prop in Hall as [Hall He]. apply andb_prop in Hall as [Hall H20].
    apply andb_prop in Hall as [H14 H19]. split; [|split; [|split]].
    - intros. rewrite (proj2 (Z.ltb_ge 14 v)) in H14 by lia. done.
    - intros. rewrite (proj2 (Z.ltb_ge v 15)), (proj2 (Z.ltb_ge 19 v)) in H19 by lia. done.
    - intros ->. by destruct (handler_of 20).
    - apply Bool.eqb_prop in He.
      destruct (error_code_agrees v), (Z.eqb_spec v 9), (Z.eqb_spec v 16), (Z.eqb_spec v 17); simpl in He;
        try discriminate; intuition (congruence || lia). }
  destruct Hcase as (H14 & H19 & H20 & He).
  split; [auto|]. split; [auto|]. split; [|done]. intros Hv20. by rewrite Hg, (H20 Hv20).
Qed.

Lemma exception_vectors_shifted_witness :
  exists idt' c', idt_init demo_isr_address 0xffffffff80009000 empty_idt (CPU (0, 0) (0, 0) 8 16 16 16 16 16) =
      Done (idt', c') /\ exists i, gate_offset (gate_at idt' 16) = demo_isr_address i /\ sdm_vector i = 17.
Proof.
  destruct (exception_vectors_shifted demo_isr_address 0xffffffff80009000 empty_idt
    (CPU (0, 0) (0, 0) 8 16 16 16 16 16) 16) as (idt' & c' & Hd & _ & H19 & _).
  - exact demo_isr_address_range.
  - vm_compute. reflexivity.
  - lia.
  - lia.
  - exists idt', c'. split; [exact Hd|]. apply H19. lia.
Defined.

(** ** The keyboard *)

(** The keys a sequence of scan codes puts into the buffer. *)
Fixpoint decode_run (ext : bool) (codes : list Z) : list Z :=
  match codes with
  | [] => []
  | c :: codes => let '(key, ext) := scancode_to_key ext c in key :: decode_run ext codes
  end.

(** The set-1 scan codes of pressing and releasing a key. *)
Definition arrow_code (key : Z) : option Z :=
  if key =? Key.UpArrow then Some 0x48
  else if key =? Key.DownArrow then Some 0x50
  else if key =? Key.LeftArrow then Some 0x4B
  else if key =? Key.RightArrow then Some 0x4D
  else None.

Definition layout_index (key : Z) : option nat := fst <$> list_find (fun a => a = key) scancode_to_ascii.

Definition stroke (key : Z) : list Z :=
  match arrow_code key with
  | Some c => [0xE0; c; 0xE0; c + 0x80]
  | None => match layout_index key with
            | Some i => [Z.of_nat i; Z.of_nat i + 0x80]
            | None => []
            end
  end.

(** The keys of the layout. *)
Definition on_layout (key : Z) : bool :=
  bool_decide (is_Some (arrow_code key)) ||
  (negb (key =? 0) && bool_decide (is_Some (layout_index key))).

Abbreviation is_key := (fun k => k <> Key.None).

Lemma on_layout_range key : on_layout key = true -> key ∈ scancode_to_ascii \/ key ∈ seqZ 0x100 4.
Proof.
  unfold on_layout, arrow_code. intros [Ha|Hl]%orb_prop.
  - right. apply elem_of_seqZ. unfold Key.UpArrow, Key.DownArrow, Key.LeftArrow, Key.RightArrow in Ha.
    revert Ha. repeat case_match; try lia.
    intros [? Hf]%bool_decide_eq_true. discriminate.
  - left. apply andb_prop in Hl as [_ [i Hi]%bool_decide_eq_true]. unfold layout_index in Hi.
    destruct (list_find (fun a => a = key) scancode_to_ascii) as [[j a]|] eqn:Hf; [|done].
    apply list_find_Some in Hf as (Hj & -> & _). by eapply list_elem_of_lookup_2.
Qed.

(** Decided key by key. *)
Lemma stroke_decodes key codes :
  on_layout key = true ->
  exists rest, decode_run false (stroke key ++ codes) = rest ++ decode_run false codes /\
    filter is_key rest = [key] /\ (key < 0x100 -> rest = [key; Key.None]).
Proof.
  intros Hk.
  set (n := List.length (stroke key)).
  set (check := fun key => negb (on_layout key) ||
    (let rest := decode_run false (stroke key) in
     bool_decide (filter is_key rest = [key]) && ((0x100 <=? key) || bool_decide (rest = [key; Key.None])) &&
     bool_decide (snd (foldl (fun (s : Z * bool) c => scancode_to_key (snd s) c) (0, false) (stroke key)) = false))).
  assert (Hall : Forall (fun key => check key = true) (scancode_to_ascii ++ seqZ 0x100 4)).
  { apply Forall_forall. intros x Hx. revert x Hx. apply Forall_forall.
    apply (bool_decide_unpack _). vm_compute. exact I. }
  assert (Hc : check key = true).
  { apply (proj1 (Forall_forall _ _) Hall). apply elem_of_app. by apply on_layout_range. }
  unfold check in Hc. rewrite Hk in Hc. simpl in Hc. apply andb_prop in Hc as [Hc He].
  apply andb_prop in Hc as [Hf Hr]. apply bool_decide_eq_true in Hf, He.
  assert (Happ : forall l e k0, decode_run e (l ++ codes) = decode_run e l ++
    decode_run (snd (foldl (fun (s : Z * bool) c => scancode_to_key (snd s) c) (k0, e) l)) codes).
  { induction l as [|c l IH]; intros e k0; [done|]. simpl.
    destruct (scancode_to_key e c) as [k1 e1]. by rewrite (IH e1 k1). }
  exists (decode_run false (stroke key)). rewrite (Happ _ _ 0), He. split; [done|]. split; [done|].
  intros Hlt. rewrite (proj2 (Z.leb_gt _ _)) in Hr by done. by apply bool_decide_eq_true in Hr.
Qed.

Lemma filter_interleaved n keys :
  Forall (fun k => k <> 0) keys ->
  filter is_key (take (2 * n) (keys ≫= (fun k => [k; Key.None]))) = take n keys.
Proof.
  intros Hk. revert n. induction Hk as [|k keys Hne Hk IH]; intros n; [simpl; by rewrite !take_nil|].
  destruct n as [|n]; [done|]. replace (2 * S n)%nat with (S (S (2 * n))) by lia.
  rewrite bind_cons. cbn [app take]. rewrite filter_cons_True by done.
  rewrite filter_cons_False by (unfold Key.None; lia). by rewrite IH.
Qed.

(** The decoder on strokes, for its users. *)
Lemma typed_chars_decode keys :
  Forall (fun k => on_layout k = true) keys -> Forall (fun k => k < 0x100) keys ->
  decode_run false (keys ≫= stroke) = (keys ≫= (fun k => [k; Key.None])).
Proof.
  intros Hk Hlt. induction Hk as [|k keys Hl Hk IH]; [done|]. rewrite !bind_cons.
  apply Forall_cons in Hlt as [Hlt Hlts].
  destruct (stroke_decodes k (keys ≫= stroke) Hl) as (rest & -> & _ & Hp).
  by rewrite (Hp Hlt), (IH Hlts).
Qed.

Lemma typed_keys_decode keys :
  Forall (fun k => on_layout k = true) keys ->
  filter is_key (decode_run false (keys ≫= stroke)) = keys /\
  (Forall (fun k => k < 0x100) keys ->
   filter is_key (pending (foldl (fun b k => KeyboardBuffer_put k b) KeyboardBuffer_new
     (decode_run false (keys ≫= stroke)))) = take 128 keys).
Proof.
  intros Hk.
  split.
  { induction Hk as [|k keys Hl Hk IH]; [done|]. rewrite bind_cons.
    destruct (stroke_decodes k (keys ≫= stroke) Hl) as (rest & -> & Hf & _).
    by rewrite filter_app, Hf, IH. }
  intros Hlt. rewrite typed_chars_decode by done.
  rewrite (keyboard_fill (keys ≫= (fun k => [k; Key.None]))). change s_maxSize with (2 * 128)%nat.
  apply filter_interleaved. apply Forall_forall. intros k Hin ->.
  apply (proj1 (Forall_forall _ _) Hk) in Hin. vm_compute in Hin. discriminate.
Qed.

(** Typing: the scan codes of any keys of the layout, pressed and released
    one after the other, decode to those keys in order, together with keys that
    mean nothing.  Because these are put into the buffer too, a buffer of 256
    that nobody reads keeps only the first 128 characters of a text. *)
Theorem keyboard_typing_roundtrip keys :
  Forall (fun k => on_layout k = true) keys ->
  filter is_key (decode_run false (keys ≫= stroke)) = keys /\
  (Forall (fun k => k < 0x100) keys ->
   filter is_key (pending (foldl (fun b k => KeyboardBuffer_put k b) KeyboardBuffer_new
     (decode_run false (keys ≫= stroke)))) = take 128 keys).
Proof. exact (typed_keys_decode keys). Qed.

(** "hi" and an arrow. *)
Lemma keyboard_typing_roundtrip_witness :
  filter is_key (decode_run false ([104; 105; Key.UpArrow] ≫= stroke)) = [104; 105; Key.UpArrow].
Proof.
  refine (proj1 (keyboard_typing_roundtrip [104; 105; Key.UpArrow] _)).
  repeat constructor.
Defined.

(** ** The routines that return *)
Section Routines.
Context {H C : Type} `{Devices H} `{Console C} (limine : limine_features).
Implicit Types k : kernel_state H C.

(** The end-of-interrupt register is reachable: it is mapped to the page the MSR
    names, and that page is no I/O APIC. *)
Definition eoi_ready (m : machine H) : Prop :=
  translate m (u64 (baseAddress m + LAPIC_EOI_REGISTER)) =
    Some (pc_lapic_base (devices (hw m)) + LAPIC_EOI_REGISTER) /\
  pc_ioapics (devices (hw m)) !! pc_lapic_base (devices (hw m)) = None.

(** The machine after the interrupt in service is retired. *)
Definition retire (d : pc) : pc :=
  PC (pc_edx d) (pc_pic1 d) (pc_pic2 d) (pc_kbc d) (pc_apic_msr d)
    (Lapic (la_svr (pc_lapic d)) (la_tpr (pc_lapic d)) (la_icr_high (pc_lapic d))
       (tail (la_in_service (pc_lapic d))) (la_sent (pc_lapic d)))
    (pc_ioapics d) (pc_if d).

Lemma end_of_interrupt_spec k :
  eoi_ready (mach k) ->
  exists m', end_of_interrupt k = Done (Kernel m' (keyboardBuffer k) (extended k) (console k)) /\
    vm m' = vm (mach k) /\ baseAddress m' = baseAddress (mach k) /\
    devices (hw m') = retire (devices (hw (mach k))).
Proof.
  intros [Ht Hio]. unfold end_of_interrupt, sendEndOfInterrupt.
  destruct (lapic_store (mach k) LAPIC_EOI_REGISTER 0) as (m' & -> & Hv & Hb & Hd); try done.
  exists m'. split; [done|]. split; [done|]. split; [done|]. exact Hd.
Qed.

(** Taking the waiting byte out of the keyboard controller. *)
Definition take_byte (d : pc) : pc := set_kbc d (kbc_take (pc_kbc d)).

Lemma handle_keyboard_spec k code :
  eoi_ready (mach k) -> keyboard_ok (keyboardBuffer k) ->
  kb_output (pc_kbc (devices (hw (mach k)))) = Some code -> 0 <= code < 256 ->
  exists k', handle_keyboard k = Done k' /\ keyboard_ok (keyboardBuffer k') /\
    pending (keyboardBuffer k') =
      fifo_put s_maxSize (fst (scancode_to_key (extended k) code)) (pending (keyboardBuffer k)) /\
    extended k' = snd (scancode_to_key (extended k) code) /\ console k' = console k /\
    vm (mach k') = vm (mach k) /\ baseAddress (mach k') = baseAddress (mach k) /\
    devices (hw (mach k')) = retire (take_byte (devices (hw (mach k)))).
Proof.
  intros [Ht Hio] Hok Hout Hc. unfold handle_keyboard.
  destruct (inb_devices 0x60 (hw (mach k)) code) as (h & -> & Hd); [done|exact Hout|done|].
  destruct (scancode_to_key (extended k) code) as [key ext]. simpl fst. simpl snd.
  destruct (end_of_interrupt_spec (Kernel (with_hw (mach k) h)
    (KeyboardBuffer_put key (keyboardBuffer k)) ext (console k))) as (m' & -> & Hv & Hb & Hd').
  { unfold eoi_ready, translate in *. simpl. rewrite Hd. split; [exact Ht|exact Hio]. }
  destruct (keyboard_put_spec key _ Hok) as [Hok' Hp].
  eexists. split; [reflexivity|]. split; [exact Hok'|]. split; [exact Hp|].
  split; [done|]. split; [done|]. split; [done|]. split; [done|].
  simpl in Hd'. simpl. rewrite Hd', Hd. done.
Qed.
End Routines.

(** The keyboard interrupt: the waiting scan code is taken from the
    controller and exactly one key is appended to the buffer (dropped when the
    buffer is full), the decoder remembers an 0xE0 prefix, and the interrupt in
    service is retired; nothing else changes.  The other routines that return
    are the page fault and the inter-processor interrupt; every other one
    panics. *)
Theorem run_isr_keyboard_correct {H C} `{Devices H} `{Console C} limine (k : kernel_state H C) cr2 code :
  eoi_ready (mach k) -> keyboard_ok (keyboardBuffer k) ->
  kb_output (pc_kbc (devices (hw (mach k)))) = Some code -> 0 <= code < 256 ->
  (exists k', run_isr limine isr_keyboard cr2 k = Done k' /\ keyboard_ok (keyboardBuffer k') /\
    pending (keyboardBuffer k') =
      (if (List.length (pending (keyboardBuffer k)) =? s_maxSize)%nat then pending (keyboardBuffer k)
       else pending (keyboardBuffer k) ++ [fst (scancode_to_key (extended k) code)]) /\
    extended k' = negb (extended k) && (code =? 0xE0) /\ console k' = console k /\
    vm (mach k') = vm (mach k) /\
    devices (hw (mach k')) = retire (take_byte (devices (hw (mach k))))) /\
  (forall i, i ∉ [isr_keyboard; isr_page_fault; isr_interprocessor_interrupt] ->
     exists msg, run_isr limine i cr2 k = Panic msg).
Proof.
  intros He Hok Hout Hc. split.
  - destruct (handle_keyboard_spec k code He Hok Hout Hc) as (k' & Hd & Hok' & Hp & Hext & Hcon & Hv & _ & Hdev).
    exists k'. split; [exact Hd|]. split; [done|]. split; [exact Hp|]. split; [|done].
    rewrite Hext. unfold scancode_to_key. destruct (extended k); [done|].
    destruct (code =? 0xE0); [done|]. repeat case_match; done.
  - intros i Hi. unfold run_isr. destruct i; simpl; try by eexists.
    all: exfalso; apply Hi; rewrite !elem_of_cons; auto.
Qed.

(** A machine with 32 usable frames: the free stack takes the first, the
    top-level table the last. *)
Definition large_limine : limine_features :=
  Limine [MemmapEntry 0x10000 0x20000 0] 0xffff800000000000 0x7c2a000.

Definition large_init : kmem :=
  match frame_allocator_init large_limine (KMem ∅ None) with Done st => st | _ => KMem ∅ None end.

Definition large_alloc : kmem := KMem (ram large_init) (stack_pop <$> free_stack large_init).
Definition large_root : Z := 0x2f000.
Definition large_free : list Z := (fun i => 0x11000 + 0x1000 * i) <$> seqZ 0 30.

Definition large_tree : kmem :=
  KMem (PageTreeNode_construct large_limine (ram large_alloc)
          (kernel_physical_to_virtual large_limine large_root)) (free_stack large_alloc).

Lemma large_free_frames : free_frames large_limine large_init = large_free ++ [large_root].
Proof. vm_compute. reflexivity. Defined.

Lemma large_stack : free_stack large_init = Some (MkStack 0x10000 32 31).
Proof. vm_compute. reflexivity. Defined.

Lemma large_hhdm_ok : hhdm_ok large_limine.
Proof. split; vm_compute; congruence. Defined.

Lemma large_page_tree_ok : page_tree_ok large_limine large_tree large_root.
Proof.
  exists {[ [] := large_root ]}.
  apply (sys_ok_fresh large_limine large_init large_alloc large_free).
  - exact large_hhdm_ok.
  - unfold allocator_ok. rewrite large_stack. split; vm_compute; intuition congruence.
  - exact large_free_frames.
  - rewrite large_free_frames. by apply (bool_decide_unpack _).
  - rewrite large_free_frames. by apply (bool_decide_unpack _).
  - rewrite large_free_frames. intros f a Hf Hin. unfold in_storage. rewrite large_stack. simpl.
    assert (0x11000 <= f); [|unfold in_frame in Hin; lia].
    clear Hin. revert f Hf. apply Forall_forall. by apply (bool_decide_unpack _).
  - vm_compute. reflexivity.
Defined.

Definition large_vm : vm_state :=
  VM large_tree (Some (kernel_physical_to_virtual large_limine large_root)) large_root.

(** ... whose local APIC page is mapped. *)
Lemma large_apic_mapped :
  exists st' used, paging_add_mapping large_limine 0xffff8000fee00000 0xfee00000 pageSize
      (PageFlags_or PageFlags.Write PageFlags.CacheDisable) large_vm = Done st' /\
    page_tree_ok large_limine (vm_mem st') large_root /\ page_tree st' = page_tree large_vm /\
    ptbr st' = large_root /\
    free_frames large_limine large_tree = free_frames large_limine (vm_mem st') ++ used /\
    Z.of_nat (List.length used) <= tables_for 1.
Proof.
  destruct (map_device_page large_limine large_vm large_root 0xffff8000fee00000 0xfee00000
    (PageFlags_or PageFlags.Write PageFlags.CacheDisable))
    as (st' & used & Hd & Ht & Hp & Hr & Hf & Hl & _).
  - exact large_hhdm_ok.
  - exact large_page_tree_ok.
  - reflexivity.
  - split; vm_compute; congruence.
  - vm_compute. congruence.
  - reflexivity.
  - vm_compute. congruence.
  - vm_compute. congruence.
  - reflexivity.
  - vm_compute. congruence.
  - vm_compute. congruence.
  - exists st', used. repeat (split; [assumption|]). exact Hl.
Defined.

Definition demo_apic_machine (d : pc) : machine pc :=
  Machine d
    (match paging_add_mapping large_limine 0xffff8000fee00000 0xfee00000 pageSize
             (PageFlags_or PageFlags.Write PageFlags.CacheDisable) large_vm with
     | Done v => v
     | _ => large_vm
     end) 0xffff8000fee00000.

Definition demo_interrupted (code : option Z) : kernel_state pc (list Z) :=
  let d := demo_pc (Kbc 3 0 0 None code 0x65 false) in
  Kernel (demo_apic_machine (PC (pc_edx d) (pc_pic1 d) (pc_pic2 d) (pc_kbc d) (pc_apic_msr d)
    (Lapic 0x1ff 0 0 [0x30] []) ∅ true)) KeyboardBuffer_new false [].

Lemma demo_eoi_ready code : eoi_ready (mach (demo_interrupted code)).
Proof. split; vm_compute; reflexivity. Defined.

Lemma run_isr_keyboard_correct_witness :
  exists k', run_isr large_limine isr_keyboard 0 (demo_interrupted (Some 0x23)) = Done k' /\
    pending (keyboardBuffer k') = [104] /\
    la_in_service (pc_lapic (devices (hw (mach k')))) = [].
Proof.
  destruct (run_isr_keyboard_correct large_limine (demo_interrupted (Some 0x23)) 0 0x23)
    as [(k' & Hd & _ & Hp & _ & _ & _ & Hdev) _].
  - apply demo_eoi_ready.
  - apply keyboard_new_ok.
  - reflexivity.
  - lia.
  - exists k'. split; [exact Hd|]. split; [rewrite Hp; reflexivity|]. rewrite Hdev. reflexivity.
Defined.

(** ** Page faults *)

(** The handler asks for [pageSize] bytes from the faulting address on. *)
Lemma fault_pages cr2 :
  0 <= cr2 -> cr2 + pageSize <= 2 ^ 64 - pageSize ->
  num_pages (get_page_range cr2 pageSize) = if cr2 mod pageSize =? 0 then 1 else 2.
Proof.
  intros H0 Hmax. assert (Hr : range_ok cr2 pageSize) by (unfold range_ok, pageSize in *; lia).
  destruct (get_page_range_bounds cr2 pageSize Hr) as (_ & _ & _ & _ & Hf & Hl & _).
  specialize (Hl Hmax). destruct (num_pages_eq cr2 pageSize Hr) as [Hn _]. rewrite Hf in Hn.
  destruct (page_floor_bounds cr2 (proj1 Hr)) as (Hm & Hb & _).
  assert (Hfl : page_floor cr2 = cr2 - cr2 mod pageSize).
  { unfold page_floor. apply wrap_id. unfold pageSize in *.
    pose proof (Z.mod_pos_bound cr2 0x1000 ltac:(done)). pose proof (Z.mod_le cr2 0x1000 ltac:(done)). lia. }
  unfold pageSize in *. destruct (Z.eqb_spec (cr2 mod 0x1000) 0); lia.
Qed.

Lemma page_floor_offset cr2 :
  0 <= cr2 < 2 ^ 64 -> page_floor cr2 + cr2 mod pageSize = cr2.
Proof.
  intros Hc. unfold page_floor.
  pose proof (Z.mod_pos_bound cr2 pageSize ltac:(done)). pose proof (Z.mod_le cr2 pageSize ltac:(lia) ltac:(done)).
  rewrite (wrap_id 64) by lia. lia.
Qed.

(** C8. A page fault: afterwards the faulting address translates to a fresh
    frame with write permission, so the instruction can be retried, and the
    tables stay well formed.  The handler maps a whole page from the faulting
    address on: when that is not the start of a page the following page is
    given a fresh frame as well, whatever it held before; all other addresses
    keep their translation.  The handler also retires an interrupt although none
    was delivered for the fault. *)
Theorem run_isr_page_fault_correct {H C} `{Devices H} `{Console C} limine (k : kernel_state H C) root cr2 :
  let st := vm (mach k) in
  let n := if cr2 mod pageSize =? 0 then 1 else 2 in
  hhdm_ok limine -> page_tree_ok limine (vm_mem st) root ->
  page_tree st = Some (kernel_physical_to_virtual limine root) -> ptbr st = root ->
  0 <= cr2 -> cr2 + pageSize <= 2 ^ 64 - pageSize ->
  n + tables_for n <= Z.of_nat (List.length (free_frames limine (vm_mem st))) ->
  eoi_ready (mach k) ->
  n <= page_offset (page_floor cr2) (u64 (baseAddress (mach k) + LAPIC_EOI_REGISTER)) ->
  exists k' f, run_isr limine isr_page_fault cr2 k = Done k' /\
    page_tree_ok limine (vm_mem (vm (mach k'))) root /\
    (f ∈ free_frames limine (vm_mem st)) /\ (f ∉ free_frames limine (vm_mem (vm (mach k')))) /\
    translate (mach k') cr2 = Some (f + cr2 mod pageSize) /\
    mmu_writable (ram (vm_mem (vm (mach k')))) root (page_floor cr2) = true /\
    (cr2 mod pageSize <> 0 -> exists f', (f' ∈ free_frames limine (vm_mem st)) /\ f' <> f /\
       translate (mach k') (page_floor cr2 + pageSize) = Some f') /\
    (forall va, n <= page_offset (page_floor cr2) va -> translate (mach k') va = translate (mach k) va) /\
    keyboardBuffer k' = keyboardBuffer k /\ console k' = console k /\
    devices (hw (mach k')) = retire (devices (hw (mach k))).
Proof.
  intros st n Hh Htree Hpt Hroot Hc0 Hmax Hroom [He Hio] Hapart.
  assert (Hc : 0 <= cr2 < 2 ^ 64) by (unfold pageSize in *; lia).
  pose proof (fault_pages cr2 Hc0 Hmax) as Hn. fold n in Hn.
  destruct (paging_allocate_and_map_done limine st root cr2 pageSize PageFlags.Write)
    as (st' & fs & tables & Hd & Htree' & Hpt' & Hpr' & (used & Hfree & Hused) & Hnd & Hnew & _ & Hw & Hlen & Htr);
    try done; rewrite ?Hn; try done.
  { unfold n. by case_match. }
  rewrite Hn in Hlen. destruct (page_floor_bounds cr2 Hc) as (Hpm & _).
  pose proof (page_floor_offset cr2 Hc) as Hoff.
  pose proof (Z.mod_pos_bound cr2 pageSize ltac:(done)) as Hmod.
  assert (Hkeep : forall va, n <= page_offset (page_floor cr2) va ->
    mmu_translate (ram (vm_mem st')) root va = mmu_translate (ram (vm_mem st)) root va).
  { intros va Hva. rewrite Htr. rewrite lookup_ge_None_2; [done|]. lia. }
  destruct fs as [|f fs]; [unfold n in Hlen; simpl in Hlen; by case_match|].
  assert (Hin : forall x, x ∈ f :: fs -> x ∈ free_frames limine (vm_mem st)).
  { intros x Hx. rewrite Hfree, Hused, !elem_of_app. auto. }
  destruct (end_of_interrupt_spec (with_mach k (with_vm (mach k) st'))) as (m' & Heoi & Hv & Hb & Hdev).
  { unfold eoi_ready, translate. simpl. rewrite Hpr', Hroot, Hkeep by done. split; [|done].
    unfold translate in He. fold st in He. by rewrite Hroot in He. }
  eexists _, f. split.
  { unfold run_isr. simpl. unfold handle_page_fault. fold st. rewrite Hd, bind_done. exact Heoi. }
  simpl. unfold translate. rewrite Hv. simpl. rewrite Hpr', Hroot.
  split; [done|]. split; [apply Hin; rewrite ?elem_of_cons; auto|]. split; [apply Hnew; rewrite ?elem_of_cons; auto|].
  split; [|split; [|split; [|split; [|split; [done|split; [done|exact Hdev]]]]]].
  - rewrite Htr. pose proof (page_offset_add (page_floor cr2) 0 (cr2 mod pageSize) ltac:(lia) Hpm Hmod) as Ho.
    rewrite Z.mul_0_r, Z.add_0_r, Hoff in Ho. by rewrite Ho.
  - specialize (Hw 0%nat f eq_refl). by rewrite Z.mul_0_r, Z.add_0_r in Hw.
  - intros Hne. unfold n in Hlen. rewrite (proj2 (Z.eqb_neq _ _)) in Hlen by done.
    destruct fs as [|f' fs]; [done|]. exists f'. split; [apply Hin; rewrite ?elem_of_cons; auto|].
    split. { intros ->. apply NoDup_cons in Hnd as [Hx _]. apply Hx. rewrite ?elem_of_cons; auto. }
    rewrite Htr. pose proof (page_offset_add (page_floor cr2) 1 0 ltac:(lia) Hpm ltac:(done)) as Ho.
    rewrite Z.mul_1_r, Z.add_0_r in Ho. rewrite Ho. simpl.
    rewrite Zplus_mod, Hpm. simpl. rewrite Z.mod_same by done. by rewrite Z.mod_0_l, Z.add_0_r by done.
  - intros va Hva. rewrite Hkeep by done. fold st. by rewrite Hroot.
Qed.

(** A fault in the middle of page 0x5000. *)
Lemma run_isr_page_fault_correct_witness :
  exists k' f, run_isr large_limine isr_page_fault 0x5123 (demo_interrupted None) = Done k' /\
    translate (mach k') 0x5123 = Some (f + 0x123) /\
    exists f', f' <> f /\ translate (mach k') 0x6000 = Some f'.
Proof.
  destruct large_apic_mapped as (st' & used & Hadd & Htree & Hpt & Hr & Hfree & Hused).
  assert (Hvm : vm (mach (demo_interrupted None)) = st') by (simpl; rewrite Hadd; reflexivity).
  destruct (run_isr_page_fault_correct large_limine (demo_interrupted None) large_root 0x5123)
    as (k' & f & Hrun & _ & _ & _ & Ht & _ & Hnext & _); rewrite ?Hvm.
  - exact large_hhdm_ok.
  - exact Htree.
  - exact Hpt.
  - exact Hr.
  - lia.
  - vm_compute. congruence.
  - apply (f_equal (@List.length Z)) in Hfree. rewrite length_app in Hfree.
    assert (List.length (free_frames large_limine large_tree) = 30%nat) as Hl by (vm_compute; reflexivity).
    rewrite Hl in Hfree. assert (tables_for 1 = 3) as Ht1 by (vm_compute; reflexivity).
    assert ((if 0x5123 mod pageSize =? 0 then 1 else 2) + tables_for (if 0x5123 mod pageSize =? 0 then 1 else 2) <= 27)
      by (vm_compute; congruence). lia.
  - apply demo_eoi_ready.
  - vm_compute. congruence.
  - destruct Hnext as (f' & _ & Hne & Ht'); [vm_compute; congruence|].
    exists k', f. split; [exact Hrun|]. split; [exact Ht|]. exists f'. split; [exact Hne|].
    exact Ht'.
Defined.
