(* ===== verification/Typing.v ===== *)
(** * Typing

    Every byte of the keyboard raises an interrupt; this file runs the keyboard
    routine for a sequence of them and follows the keys into the buffer that the
    shell reads. *)

From Stdlib Require Import ZArith Lia String.
From stdpp Require Import base gmap list list_numbers numbers strings.
From S2P Require Import Prelude Memory FrameAllocator PageTree Paging KernelMemory Containers Processor Printf Idt.
#[local] Open Scope Z_scope.

(** The devices when the keyboard has sent a byte and its interrupt (vector
    0x30) was accepted. *)
Definition byte_arrived (code : Z) (d : pc) : pc :=
  let k := pc_kbc d in
  let l := pc_lapic d in
  PC (pc_edx d) (pc_pic1 d) (pc_pic2 d)
    (Kbc (kb_latency k) (kb_busy k) (kb_delay k) (kb_pending k) (Some code) (kb_command_byte k) (kb_expect k))
    (pc_apic_msr d) (Lapic (la_svr l) (la_tpr l) (la_icr_high l) (0x30 :: la_in_service l) (la_sent l))
    (pc_ioapics d) (pc_if d).

Section Typing.
Context {H C : Type} `{Devices H} `{Console C} (limine : limine_features).
(** The keyboard: hardware that sends a byte. *)
Context (press : Z -> H -> H) (Hpress : forall code h, devices (press code h) = byte_arrived code (devices h)).
Implicit Types k : kernel_state H C.

(** A byte arrives and its interrupt is handled. *)
Definition key_interrupt (code : Z) k : outcome (kernel_state H C) :=
  run_isr limine isr_keyboard 0 (with_mach k (with_hw (mach k) (press code (hw (mach k))))).

Fixpoint key_interrupts (codes : list Z) k : outcome (kernel_state H C) :=
  match codes with
  | [] => Done k
  | code :: codes => k ← key_interrupt code k; key_interrupts codes k
  end.

(** The prefix flag after a sequence of scan codes. *)
Definition prefix_run (ext : bool) (codes : list Z) : bool :=
  foldl (fun ext code => snd (scancode_to_key ext code)) ext codes.

(** What stays as it is while the user types. *)
Record typing_ok k : Prop := {
  ty_eoi : eoi_ready (mach k);
  ty_buffer : keyboard_ok (keyboardBuffer k)
}.

Lemma key_interrupt_spec code k :
  typing_ok k -> 0 <= code < 256 ->
  exists k', key_interrupt code k = Done k' /\ typing_ok k' /\
    pending (keyboardBuffer k') =
      fifo_put s_maxSize (fst (scancode_to_key (extended k) code)) (pending (keyboardBuffer k)) /\
    extended k' = snd (scancode_to_key (extended k) code) /\ console k' = console k /\ vm (mach k') = vm (mach k) /\
    la_in_service (pc_lapic (devices (hw (mach k')))) = la_in_service (pc_lapic (devices (hw (mach k)))).
Proof.
  intros [[He Hio] Hb] Hc. unfold key_interrupt.
  destruct (handle_keyboard_spec (with_mach k (with_hw (mach k) (press code (hw (mach k))))) code)
    as (k' & Hd & Hok & Hp & Hext & Hcon & Hv & Hba & Hdev); cbn [mach with_mach hw with_hw] in *.
  - split; cbn [hw with_hw]; rewrite Hpress; [exact He|exact Hio].
  - exact Hb.
  - by rewrite Hpress.
  - done.
  - exists k'. split; [exact Hd|]. rewrite Hpress in Hdev. split; [|split; [exact Hp|split; [exact Hext|split; [exact Hcon|split; [exact Hv|by rewrite Hdev]]]]].
    split; [|exact Hok]. unfold eoi_ready, translate in *. rewrite Hba, Hv, Hdev. split; [exact He|exact Hio].
Qed.

Lemma key_interrupts_spec codes : forall k,
  typing_ok k -> Forall (fun c => 0 <= c < 256) codes ->
  exists k', key_interrupts codes k = Done k' /\ typing_ok k' /\
    pending (keyboardBuffer k') =
      foldl (fun q key => fifo_put s_maxSize key q) (pending (keyboardBuffer k)) (decode_run (extended k) codes) /\
    extended k' = prefix_run (extended k) codes /\ console k' = console k /\ vm (mach k') = vm (mach k) /\
    la_in_service (pc_lapic (devices (hw (mach k')))) = la_in_service (pc_lapic (devices (hw (mach k)))).
Proof.
  induction codes as [|code codes IH]; intros k Hk Hc; [by exists k|].
  apply Forall_cons in Hc as [Hc0 Hc]. cbn [key_interrupts decode_run].
  destruct (key_interrupt_spec code k Hk Hc0) as (k1 & -> & Hk1 & Hp & Hext & Hcon & Hv & Hs).
  rewrite bind_done. destruct (IH k1 Hk1 Hc) as (k' & -> & Hk' & Hp' & Hext' & Hcon' & Hv' & Hs').
  exists k'. split; [done|]. split; [done|]. rewrite Hp', Hext', Hp, Hext. unfold prefix_run. cbn [foldl].
  destruct (scancode_to_key (extended k) code) as [key ext]. split; [done|]. split; [done|]. split; [congruence|]. split; congruence.
Qed.
End Typing.

Lemma put_pending keys :
  pending (foldl (fun b k => KeyboardBuffer_put k b) KeyboardBuffer_new keys) =
    foldl (fun q key => fifo_put s_maxSize key q) [] keys.
Proof.
  induction keys as [|k keys IH] using rev_ind; [done|]. rewrite !foldl_snoc.
  pose proof (keyboard_fill_ok keys) as [Hok _]. rewrite <-IH. by destruct (keyboard_put_spec k _ Hok).
Qed.

Lemma decode_run_length codes : forall ext, List.length (decode_run ext codes) = List.length codes.
Proof.
  induction codes as [|c codes IH]; intros ext; [done|]. cbn [decode_run].
  destruct (scancode_to_key ext c) as [key e]. simpl. by rewrite IH.
Qed.

Lemma decode_run_app (a b : list Z) : forall ext,
  decode_run ext (a ++ b) = decode_run ext a ++ decode_run (prefix_run ext a) b.
Proof.
  induction a as [|c a IH]; intros ext; [done|]. cbn [app decode_run]. unfold prefix_run. cbn [foldl].
  destruct (scancode_to_key ext c) as [key e]. simpl. by rewrite IH.
Qed.

(** A queue with room for them takes all keys. *)
Lemma fifo_put_all (keys : list Z) : forall q, (List.length q + List.length keys <= s_maxSize)%nat ->
  foldl (fun q key => fifo_put s_maxSize key q) q keys = q ++ keys.
Proof.
  induction keys as [|key keys IH]; intros q Hroom; simpl in *; [by rewrite app_nil_r|].
  unfold fifo_put at 2. rewrite (proj2 (Nat.eqb_neq _ _)) by lia.
  rewrite IH by (rewrite length_app; simpl; lia). by rewrite <-app_assoc.
Qed.

Lemma stroke_bytes key : on_layout key = true -> Forall (fun c => 0 <= c < 256) (stroke key).
Proof.
  intros Hk. pose (check := fun k => bool_decide (Forall (fun c => 0 <= c < 256) (stroke k))).
  assert (Hall : Forall (fun k => check k = true) (scancode_to_ascii ++ seqZ 0x100 4)).
  { apply (bool_decide_unpack _). vm_compute. exact I. }
  apply (bool_decide_eq_true_1 (Forall _ (stroke key))). apply (proj1 (Forall_forall _ _) Hall).
  by apply elem_of_app, on_layout_range.
Qed.

Lemma strokes_bytes keys :
  Forall (fun key => on_layout key = true) keys -> Forall (fun c => 0 <= c < 256) (keys ≫= stroke).
Proof.
  intros Hkeys. induction Hkeys as [|key keys Hkey _ IH]; [constructor|]. rewrite bind_cons.
  apply Forall_app. split; [by apply stroke_bytes|done].
Qed.

(** C19. Every key typed arrives: the interrupts of the scan codes of any keys of
    the layout, handled one by one, all return, and no interrupt stays in
    service; as long as the buffer of 256 has room, it then holds exactly these
    keys, in order, among keys that mean nothing.  Because the release of a
    character puts such a key into the buffer too, only the first 128 characters
    of a longer text arrive. *)
Theorem typed_keys_arrive {H C} `{Devices H} `{Console C} limine (press : Z -> H -> H) (k : kernel_state H C) keys :
  let codes := keys ≫= stroke in
  (forall code h, devices (press code h) = byte_arrived code (devices h)) ->
  eoi_ready (mach k) -> keyboardBuffer k = KeyboardBuffer_new -> extended k = false ->
  Forall (fun key => on_layout key = true) keys ->
  exists k', key_interrupts limine press codes k = Done k' /\
    ((List.length codes <= 256)%nat -> filter is_key (pending (keyboardBuffer k')) = keys) /\
    (Forall (fun key => key < 0x100) keys -> filter is_key (pending (keyboardBuffer k')) = take 128 keys) /\
    eoi_ready (mach k') /\ console k' = console k /\ vm (mach k') = vm (mach k) /\
    la_in_service (pc_lapic (devices (hw (mach k')))) = la_in_service (pc_lapic (devices (hw (mach k)))).
Proof.
  intros codes Hpress He Hb Hext Hkeys.
  assert (Hk : typing_ok k) by (split; [done|rewrite Hb; apply keyboard_new_ok]).
  destruct (key_interrupts_spec limine press Hpress _ k Hk (strokes_bytes _ Hkeys)) as (k' & Hd & [He' _] & Hp & _ & Hrest).
  rewrite Hb, Hext in Hp. change (pending KeyboardBuffer_new) with (@nil Z) in Hp. rewrite <-put_pending in Hp.
  destruct (typed_keys_decode keys Hkeys) as [Hall Hchars]. fold codes in Hall, Hchars.
  exists k'. split; [exact Hd|]. rewrite Hp. split; [|split; [exact Hchars|split; [exact He'|exact Hrest]]].
  intros Hlen. rewrite keyboard_fill, take_ge; [exact Hall|]. by rewrite decode_run_length.
Qed.

(** "hi" and an arrow. *)
Lemma typed_keys_arrive_witness :
  exists k', key_interrupts large_limine byte_arrived ([104; 105; Key.UpArrow] ≫= stroke) (demo_interrupted None) = Done k' /\
    filter is_key (pending (keyboardBuffer k')) = [104; 105; Key.UpArrow].
Proof.
  destruct (typed_keys_arrive large_limine byte_arrived (demo_interrupted None) [104; 105; Key.UpArrow])
    as (k' & Hd & Hk & _).
  - reflexivity.
  - apply demo_eoi_ready.
  - reflexivity.
  - reflexivity.
  - repeat constructor.
  - exists k'. split; [exact Hd|]. apply Hk. vm_compute. lia.
Defined.
