(* ===== verification/EarlyFaults.v ===== *)
(** * Page faults while the kernel starts

    Between [idt_init] and [enableAPIC] the heap is set up, and its first access
    to a page faults.  The handler then acknowledges an interrupt through the
    register pointer of the local APIC, which is still null: the store faults
    inside the handler.  This file models the faults of a store and of the
    handler's own store, and what they leave behind. *)

From Stdlib Require Import ZArith Lia String.
From stdpp Require Import base gmap list list_numbers numbers strings.
From S2P Require Import Prelude Memory FrameAllocator PageTree Paging KernelMemory Containers Processor Printf Idt.
#[local] Open Scope Z_scope.

(** ** Nested faults *)
Section Faults.
Context {H : Type} `{Platform H} (limine : limine_features).
Implicit Types m : machine H.

(** isr_page_fault, run to its end: when the end-of-interrupt register is not
    mapped its store faults in turn, and is retried after that fault.  [fuel]
    bounds the nesting. *)
Fixpoint page_fault (fuel : nat) (cr2 : Z) m : outcome (machine H) :=
  v ← paging_allocate_and_map limine cr2 pageSize PageFlags.Write (vm m);
  let m := with_vm m v in
  let register := u64 (baseAddress m + LAPIC_EOI_REGISTER) in
  match translate m register, fuel with
  | Some _, _ => sendEndOfInterrupt m
  | None, S fuel => m ← page_fault fuel register m; sendEndOfInterrupt m
  | None, O => Diverged
  end.

(** An access of the kernel to [va], and a sequence of them. *)
Definition touch (fuel : nat) (va : Z) m : outcome (machine H) :=
  match translate m va with
  | Some _ => Done m
  | None => page_fault fuel va m
  end.

Fixpoint touch_all (fuel : nat) (vas : list Z) m : outcome (machine H) :=
  match vas with
  | [] => Done m
  | va :: vas => m ← touch fuel va m; touch_all fuel vas m
  end.

(** Where the register is mapped this is the routine of Idt. *)
Lemma page_fault_handler {C} `{Console C} fuel cr2 (k : kernel_state H C) v :
  paging_allocate_and_map limine cr2 pageSize PageFlags.Write (vm (mach k)) = Done v ->
  translate (with_vm (mach k) v) (u64 (baseAddress (mach k) + LAPIC_EOI_REGISTER)) <> None ->
  handle_page_fault limine cr2 k = (m ← page_fault fuel cr2 (mach k); Done (with_mach k m)).
Proof.
  intros Hv Ht. unfold handle_page_fault. destruct fuel; cbn [page_fault]; rewrite Hv, !bind_done;
    cbn [baseAddress with_vm]; by destruct (translate (with_vm (mach k) v) _).
Qed.
End Faults.

(** ** What a fault does to the address space *)
Section FaultSpec.
Context {H : Type} `{Devices H} (limine : limine_features) (Hhhdm : hhdm_ok limine) (root : Z).
(** The bytes that stay as in [m0], and where the storage of the free stack is. *)
Context (area : Z -> Prop) (m0 : mem) (sto : option (Z * Z)).
Implicit Types m : machine H.

Abbreviation kmem_ok := (kernel_memory limine root area m0).

(** Frames are not the pages of devices. *)
Definition no_device (d : pc) (f : Z) : Prop := pc_lapic_base d <> f /\ pc_ioapics d !! f = None.

(** A fault at the start of a page. *)
Lemma fault_page n st cr2 :
  kmem_ok (1 + tables_for 1 + n) st -> 0 <= n ->
  0 <= cr2 -> cr2 mod pageSize = 0 -> cr2 + pageSize <= 2 ^ 64 - pageSize ->
  exists st' f, paging_allocate_and_map limine cr2 pageSize PageFlags.Write st = Done st' /\ kmem_ok n st' /\
    (f ∈ free_frames limine (vm_mem st)) /\ (f ∉ free_frames limine (vm_mem st')) /\
    (forall f, f ∈ free_frames limine (vm_mem st') -> f ∈ free_frames limine (vm_mem st)) /\
    storage (vm_mem st') = storage (vm_mem st) /\
    (forall va, vm_translate st' va =
       if page_index va =? page_index cr2 then Some (f + va mod pageSize) else vm_translate st va).
Proof.
  intros Hst Hn Hc0 Hm Hmax. destruct (one_page cr2 Hm Hc0 Hmax) as (Hr & Hfl & Hk).
  destruct (kernel_memory_allocate limine Hhhdm root area m0 n st cr2 pageSize PageFlags.Write)
    as (st' & fs & Hd & Hst' & Hlen & _ & Hfs & Hsub & Hsto & Htr); rewrite ?Hk; try done.
  rewrite Hk in Hlen. destruct fs as [|f [|? ?]]; simpl in Hlen; [lia| |lia].
  exists st', f. split; [done|]. split; [done|].
  destruct (Hfs f ltac:(by apply list_elem_of_singleton)) as [? ?]. split; [done|]. split; [done|]. split; [done|]. split; [done|].
  intros va. rewrite Htr, Hfl. pose proof (page_offset_range cr2 va).
  destruct (Z.eqb_spec (page_index va) (page_index cr2)) as [He|He].
  - apply page_offset_self in He. by rewrite He.
  - assert (page_offset cr2 va <> 0) by (by rewrite page_offset_self).
    by rewrite lookup_ge_None_2 by (simpl; lia).
Qed.

(** A fault in the middle of page 0 takes the page behind it along. *)
Lemma fault_null n st :
  kmem_ok (2 + tables_for 2 + n) st -> 0 <= n ->
  exists st' f0 f1, paging_allocate_and_map limine LAPIC_EOI_REGISTER pageSize PageFlags.Write st = Done st' /\
    kmem_ok n st' /\ f0 <> f1 /\
    (f0 ∈ free_frames limine (vm_mem st)) /\ (f1 ∈ free_frames limine (vm_mem st)) /\
    (forall f, f ∈ free_frames limine (vm_mem st') -> f ∈ free_frames limine (vm_mem st)) /\
    storage (vm_mem st') = storage (vm_mem st) /\
    (forall va, vm_translate st' va =
       if page_index va =? 0 then Some (f0 + va mod pageSize)
       else if page_index va =? 1 then Some (f1 + va mod pageSize) else vm_translate st va).
Proof.
  intros Hst Hn. assert (Hk : num_pages (get_page_range LAPIC_EOI_REGISTER pageSize) = 2) by (vm_compute; reflexivity).
  destruct (kernel_memory_allocate limine Hhhdm root area m0 n st LAPIC_EOI_REGISTER pageSize PageFlags.Write)
    as (st' & fs & Hd & Hst' & Hlen & Hnd & Hfs & Hsub & Hsto & Htr); rewrite ?Hk;
    [exact Hst|by split|vm_compute; intuition congruence|lia|exact Hn|].
  rewrite Hk in Hlen. destruct fs as [|f0 [|f1 [|? ?]]]; simpl in Hlen; try lia.
  exists st', f0, f1. split; [done|]. split; [done|].
  split. { intros ->. apply NoDup_cons in Hnd as [Hnd _]. apply Hnd. by left. }
  split; [apply Hfs; by left|]. split; [apply Hfs; right; by left|]. split; [done|]. split; [done|].
  intros va. rewrite Htr. replace (page_offset (page_floor LAPIC_EOI_REGISTER) va) with (page_index va).
  - pose proof (page_index_range va). destruct (Z.eqb_spec (page_index va) 0) as [->|]; [done|].
    destruct (Z.eqb_spec (page_index va) 1) as [->|]; [done|].
    by rewrite lookup_ge_None_2 by (simpl; lia).
  - change (page_floor LAPIC_EOI_REGISTER) with 0. unfold page_offset. change (page_index 0) with 0.
    rewrite Z.sub_0_r. symmetry. apply Z.mod_small, page_index_range.
Qed.

(** A store to the end-of-interrupt register that ends in ordinary memory: no
    device sees it. *)
Lemma eoi_to_memory m f :
  translate m (u64 (baseAddress m + LAPIC_EOI_REGISTER)) = Some (f + LAPIC_EOI_REGISTER) ->
  f mod pageSize = 0 -> no_device (devices (hw m)) f ->
  exists m', sendEndOfInterrupt m = Done m' /\ vm m' = vm m /\ baseAddress m' = baseAddress m /\
    devices (hw m') = devices (hw m).
Proof.
  intros Ht Hf [Hl Hio]. unfold sendEndOfInterrupt, lapic_write, device_store. rewrite Ht.
  eexists. split; [reflexivity|]. split; [done|]. split; [done|]. cbn [hw with_hw]. rewrite devices_mmio_out.
  destruct (lapic_base_range (devices (hw m))) as [_ Hlm]. unfold pc_mmio_out, LAPIC_EOI_REGISTER, pageSize in *.
  apply Z.mod_divide in Hf as [y Hy]; [|done]. apply Z.mod_divide in Hlm as [z Hz]; [|done].
  assert ((f + 0xB0) mod 0x1000 = 0xB0) as -> by (rewrite Hy, Z.add_comm, Z_mod_plus_full; done).
  replace (f + 0xB0 - 0xB0) with f by lia.
  assert ((pc_lapic_base (devices (hw m)) <=? f + 0xB0) && (f + 0xB0 <? pc_lapic_base (devices (hw m)) + 0x1000) = false)
    as ->.
  { destruct (Z.leb_spec (pc_lapic_base (devices (hw m))) (f + 0xB0)),
      (Z.ltb_spec (f + 0xB0) (pc_lapic_base (devices (hw m)) + 0x1000)); try done. exfalso. apply Hl. lia. }
  rewrite alter_id' by done. by destruct (devices (hw m)).
Qed.

(** ** The machine before [enableAPIC]

    The register pointer is null; page 0 is not mapped, or mapped to memory. *)
Record starting (n : Z) (d : pc) m : Prop := {
  sm_memory : kmem_ok n (vm m);
  sm_storage : storage (vm_mem (vm m)) = sto;
  sm_base : baseAddress m = 0;
  sm_devices : devices (hw m) = d;
  sm_frames f : f ∈ free_frames limine (vm_mem (vm m)) -> no_device d f;
  sm_eoi : translate m LAPIC_EOI_REGISTER = None \/
    exists f, translate m LAPIC_EOI_REGISTER = Some (f + LAPIC_EOI_REGISTER) /\ f mod pageSize = 0 /\ no_device d f
}.

Lemma starting_weaken n n' d m : n' <= n -> starting n d m -> starting n' d m.
Proof. intros Hn [? ? ? ? ? ?]. split; try done. by eapply kernel_memory_weaken. Qed.

Lemma starting_frame n d m f :
  starting n d m -> f ∈ free_frames limine (vm_mem (vm m)) -> f mod pageSize = 0 /\ no_device d f.
Proof. intros Hm Hf. split; [|by apply (sm_frames _ _ _ Hm)]. by apply (kernel_memory_frame _ _ _ _ _ _ _ (sm_memory _ _ _ Hm)). Qed.

(** The store of the handler, once page 0 is mapped to memory. *)
Lemma starting_eoi n d m f :
  starting n d m -> translate m LAPIC_EOI_REGISTER = Some (f + LAPIC_EOI_REGISTER) ->
  f mod pageSize = 0 -> no_device d f ->
  exists m', sendEndOfInterrupt m = Done m' /\ vm m' = vm m /\ starting n d m'.
Proof.
  intros [Hmem Hsto Hb Hd Hfr Heoi] Ht Hf Hnd.
  destruct (eoi_to_memory m f) as (m' & Hs & Hv & Hb' & Hd'); [by rewrite Hb|done|by rewrite Hd|].
  exists m'. split; [done|]. split; [done|].
  split; unfold translate in *; rewrite ?Hv, ?Hb', ?Hd'; try done.
Qed.

Lemma page_index_low va : 0 <= va < pageSize -> page_index va = 0.
Proof. intros Hva. rewrite page_index_eq. by rewrite Z.div_small. Qed.

(** The allocation of a fault keeps page 0 as it was. *)
Lemma starting_fault n d m cr2 :
  starting (1 + tables_for 1 + n) d m -> 0 <= n ->
  0 <= cr2 -> cr2 mod pageSize = 0 -> cr2 + pageSize <= 2 ^ 64 - pageSize -> page_index cr2 <> 0 ->
  exists v f, paging_allocate_and_map limine cr2 pageSize PageFlags.Write (vm m) = Done v /\
    starting n d (with_vm m v) /\
    (f ∈ free_frames limine (vm_mem (vm m))) /\ (f ∉ free_frames limine (vm_mem v)) /\
    (forall f, f ∈ free_frames limine (vm_mem v) -> f ∈ free_frames limine (vm_mem (vm m))) /\
    (forall va, vm_translate v va =
       if page_index va =? page_index cr2 then Some (f + va mod pageSize) else translate m va).
Proof.
  intros [Hmem Hsto Hb Hd Hfr Heoi] Hn Hc0 Hcm Hmax Hidx.
  destruct (fault_page n (vm m) cr2 Hmem Hn Hc0 Hcm Hmax) as (v & f & Ha & Hv & Hf & Hf' & Hsub & Hsv & Htr).
  exists v, f. split; [done|]. split; [|done]. split; cbn [vm hw baseAddress with_vm]; try done; [congruence|by auto|].
  change (translate (with_vm m v)) with (vm_translate v). rewrite Htr.
  rewrite (page_index_low LAPIC_EOI_REGISTER) by done. by rewrite (proj2 (Z.eqb_neq _ _)) by done.
Qed.

(** A fault after page 0 was mapped. *)
Lemma page_fault_later n d m cr2 fuel :
  starting (1 + tables_for 1 + n) d m -> 0 <= n -> translate m LAPIC_EOI_REGISTER <> None ->
  0 <= cr2 -> cr2 mod pageSize = 0 -> cr2 + pageSize <= 2 ^ 64 - pageSize -> page_index cr2 <> 0 ->
  exists m' f, page_fault limine fuel cr2 m = Done m' /\ starting n d m' /\
    (f ∈ free_frames limine (vm_mem (vm m))) /\ (f ∉ free_frames limine (vm_mem (vm m'))) /\
    (forall f, f ∈ free_frames limine (vm_mem (vm m')) -> f ∈ free_frames limine (vm_mem (vm m))) /\
    (forall va, translate m' va =
       if page_index va =? page_index cr2 then Some (f + va mod pageSize) else translate m va).
Proof.
  intros Hm Hn Heoi Hc0 Hcm Hmax Hidx.
  destruct (starting_fault n d m cr2 Hm Hn Hc0 Hcm Hmax Hidx) as (v & f & Ha & Hv & Hf & Hf' & Hsub & Htr).
  assert (Hkeep : translate (with_vm m v) LAPIC_EOI_REGISTER = translate m LAPIC_EOI_REGISTER).
  { change (translate (with_vm m v)) with (vm_translate v). rewrite Htr.
    rewrite (page_index_low LAPIC_EOI_REGISTER) by done. by rewrite (proj2 (Z.eqb_neq _ _)) by done. }
  destruct (sm_eoi _ _ _ Hv) as [He|(f0 & He & Hf0 & Hnd)]; [by rewrite Hkeep in He|].
  destruct (starting_eoi n d (with_vm m v) f0 Hv He Hf0 Hnd) as (m' & Hs & Hvm & Hm').
  exists m', f. split.
  { assert (Hr : u64 (baseAddress (with_vm m v) + LAPIC_EOI_REGISTER) = LAPIC_EOI_REGISTER)
      by (by rewrite (sm_base _ _ _ Hv)).
    destruct fuel; cbn [page_fault]; rewrite Ha, bind_done; cbv zeta; by rewrite Hr, He. }
  split; [done|]. rewrite Hvm. cbn [vm with_vm]. split; [done|]. split; [done|]. split; [done|].
  intros va. unfold translate at 1. rewrite Hvm. apply Htr.
Qed.

(** The nested fault: the handler's own store finds page 0 unmapped. *)
Lemma page_fault_null n d m fuel :
  starting (2 + tables_for 2 + n) d m -> 0 <= n -> translate m LAPIC_EOI_REGISTER = None ->
  exists m' f0 f1, page_fault limine fuel LAPIC_EOI_REGISTER m = Done m' /\ starting n d m' /\ f0 <> f1 /\
    (f0 ∈ free_frames limine (vm_mem (vm m))) /\ (f1 ∈ free_frames limine (vm_mem (vm m))) /\
    (forall f, f ∈ free_frames limine (vm_mem (vm m')) -> f ∈ free_frames limine (vm_mem (vm m))) /\
    (forall va, translate m' va =
       if page_index va =? 0 then Some (f0 + va mod pageSize)
       else if page_index va =? 1 then Some (f1 + va mod pageSize) else translate m va).
Proof.
  intros Hm Hn Heoi.
  destruct (fault_null n (vm m) (sm_memory _ _ _ Hm) Hn)
    as (v & f0 & f1 & Ha & Hv & Hne & Hf0 & Hf1 & Hsub & Hsv & Htr).
  destruct (starting_frame _ _ _ f0 Hm Hf0) as [Hfm Hnd].
  assert (Heoi' : translate (with_vm m v) LAPIC_EOI_REGISTER = Some (f0 + LAPIC_EOI_REGISTER)).
  { change (translate (with_vm m v)) with (vm_translate v). rewrite Htr. by rewrite page_index_low by done. }
  assert (Hmv : starting n d (with_vm m v)).
  { destruct Hm as [_ Hsto Hb Hd Hfr _]. split; cbn [vm hw baseAddress with_vm]; [done|congruence|done|done|by auto|].
    right. by exists f0. }
  destruct (starting_eoi n d (with_vm m v) f0 Hmv Heoi' Hfm Hnd) as (m' & Hs & Hvm & Hm').
  exists m', f0, f1. split.
  { assert (Hr : u64 (baseAddress (with_vm m v) + LAPIC_EOI_REGISTER) = LAPIC_EOI_REGISTER)
      by (by rewrite (sm_base _ _ _ Hmv)).
    destruct fuel; cbn [page_fault]; rewrite Ha, bind_done; cbv zeta; by rewrite Hr, Heoi'. }
  split; [done|]. split; [done|]. rewrite Hvm. split; [done|]. split; [done|]. split; [done|].
  intros va. unfold translate at 1. rewrite Hvm. apply Htr.
Qed.

(** The first fault of all. *)
Lemma page_fault_first n d m cr2 fuel :
  starting (1 + tables_for 1 + (2 + tables_for 2 + n)) d m -> 0 <= n ->
  translate m LAPIC_EOI_REGISTER = None ->
  0 <= cr2 -> cr2 mod pageSize = 0 -> cr2 + pageSize <= 2 ^ 64 - pageSize -> page_index cr2 <> 0 ->
  exists m' f f0 f1, page_fault limine (S fuel) cr2 m = Done m' /\ starting n d m' /\ NoDup [f; f0; f1] /\
    (forall x, x ∈ [f; f0; f1] -> x ∈ free_frames limine (vm_mem (vm m))) /\
    (forall f, f ∈ free_frames limine (vm_mem (vm m')) -> f ∈ free_frames limine (vm_mem (vm m))) /\
    (forall va, translate m' va =
       if page_index va =? 0 then Some (f0 + va mod pageSize)
       else if page_index va =? 1 then Some (f1 + va mod pageSize)
       else if page_index va =? page_index cr2 then Some (f + va mod pageSize) else translate m va).
Proof.
  intros Hm Hn Heoi Hc0 Hcm Hmax Hidx. pose proof (tables_for_nonneg 2 ltac:(lia)).
  destruct (starting_fault _ d m cr2 Hm ltac:(lia) Hc0 Hcm Hmax Hidx) as (v & f & Ha & Hv & Hf & Hf' & Hsub & Htr).
  assert (Heoi' : translate (with_vm m v) LAPIC_EOI_REGISTER = None).
  { change (translate (with_vm m v)) with (vm_translate v). rewrite Htr.
    rewrite (page_index_low LAPIC_EOI_REGISTER) by done. by rewrite (proj2 (Z.eqb_neq _ _)) by done. }
  destruct (page_fault_null n d (with_vm m v) fuel Hv Hn Heoi')
    as (m1 & f0 & f1 & Hp & Hm1 & Hne & Hf0 & Hf1 & Hsub1 & Htr1).
  cbn [vm with_vm] in Hf0, Hf1, Hsub1.
  assert (Heoi1 : translate m1 LAPIC_EOI_REGISTER = Some (f0 + LAPIC_EOI_REGISTER))
    by (by rewrite Htr1, page_index_low).
  destruct (starting_frame _ _ _ f0 Hm (Hsub _ Hf0)) as [Hfm Hnd].
  destruct (starting_eoi n d m1 f0 Hm1 Heoi1 Hfm Hnd) as (m' & Hs & Hvm & Hm').
  exists m', f, f0, f1. split; [|split; [done|split; [|split; [|split]]]].
  - assert (Hr : u64 (baseAddress (with_vm m v) + LAPIC_EOI_REGISTER) = LAPIC_EOI_REGISTER)
      by (by rewrite (sm_base _ _ _ Hv)).
    cbn [page_fault]. rewrite Ha, bind_done. cbv zeta. by rewrite Hr, Heoi', Hp, bind_done.
  - rewrite !NoDup_cons, list_elem_of_singleton, elem_of_cons, list_elem_of_singleton.
    split; [|split; [done|split; [apply not_elem_of_nil|apply NoDup_nil_2]]].
    intros [->| ->]; by apply Hf'.
  - intros x. rewrite !elem_of_cons, elem_of_nil. intros [->|[->|[->|[]]]]; auto.
  - rewrite Hvm. auto.
  - intros va. unfold translate at 1. rewrite Hvm. change (mmu_translate _ _ va) with (translate m1 va).
    rewrite Htr1. change (translate (with_vm m v) va) with (vm_translate v va). by rewrite Htr.
Qed.

(** ** A sequence of accesses *)

(** What one access may cost in frames. *)
Definition touch_cost : Z := 1 + tables_for 1 + (2 + tables_for 2).

Lemma touch_cost_nonneg : 0 <= touch_cost.
Proof. vm_compute. congruence. Qed.

(** A page the kernel's heap may start in. *)
Definition heap_page (va : Z) : Prop :=
  0 <= va /\ va mod pageSize = 0 /\ va + pageSize <= 2 ^ 64 - pageSize /\ 2 <= page_index va.

Lemma touch_spec n d m va fuel :
  starting (touch_cost + n) d m -> 0 <= n -> heap_page va ->
  exists m', touch limine (S fuel) va m = Done m' /\ starting n d m' /\
    translate m' va <> None /\ (translate m va = None -> translate m' LAPIC_EOI_REGISTER <> None) /\
    (forall f, f ∈ free_frames limine (vm_mem (vm m')) -> f ∈ free_frames limine (vm_mem (vm m))) /\
    (forall a, translate m a <> None -> translate m' a <> None) /\
    (forall a, 2 <= page_index a -> page_index a <> page_index va -> translate m' a = translate m a).
Proof.
  intros Hm Hn (Hv0 & Hvm & Hvmax & Hidx). unfold touch, touch_cost in *.
  pose proof (tables_for_nonneg 1 ltac:(lia)). pose proof (tables_for_nonneg 2 ltac:(lia)).
  destruct (translate m va) eqn:Hva.
  { exists m. split; [done|]. split; [by eapply starting_weaken; [|exact Hm]; lia|]. by rewrite Hva. }
  destruct (translate m LAPIC_EOI_REGISTER) eqn:Heoi.
  - assert (Hm1 : starting (1 + tables_for 1 + n) d m) by (eapply starting_weaken; [|exact Hm]; lia).
    destruct (page_fault_later n d m va (S fuel) Hm1 Hn ltac:(by rewrite Heoi) Hv0 Hvm Hvmax ltac:(lia))
      as (m' & f & Hp & Hm' & _ & _ & Hsub & Htr).
    exists m'. split; [done|]. split; [done|]. rewrite !Htr, Z.eqb_refl. split; [done|]. split; [|split; [done|split]].
    + intros _. rewrite (page_index_low LAPIC_EOI_REGISTER) by done.
      rewrite (proj2 (Z.eqb_neq _ _)) by lia. by rewrite Heoi.
    + intros a Ha. rewrite Htr. by case_match.
    + intros a _ Hne. rewrite Htr. by rewrite (proj2 (Z.eqb_neq _ _)).
  - assert (Hm1 : starting (1 + tables_for 1 + (2 + tables_for 2 + n)) d m) by (by rewrite Z.add_assoc).
    destruct (page_fault_first n d m va fuel Hm1 Hn Heoi Hv0 Hvm Hvmax ltac:(lia))
      as (m' & f & f0 & f1 & Hp & Hm' & _ & _ & Hsub & Htr).
    exists m'. split; [done|]. split; [done|]. rewrite !Htr, Z.eqb_refl. split; [|split; [|split; [done|split]]].
    + by repeat case_match.
    + by rewrite (page_index_low LAPIC_EOI_REGISTER) by done.
    + intros a Ha. rewrite Htr. by repeat case_match.
    + intros a Ha Hne. rewrite Htr. by rewrite !(proj2 (Z.eqb_neq _ _)) by lia.
Qed.

Lemma touch_all_spec d vas fuel : Forall heap_page vas -> NoDup (page_index <$> vas) -> forall n m,
  starting (touch_cost * Z.of_nat (List.length vas) + n) d m -> 0 <= n ->
  exists m', touch_all limine (S fuel) vas m = Done m' /\ starting n d m' /\
    (forall va, va ∈ vas -> translate m' va <> None) /\
    (forall va, va ∈ vas -> translate m va = None -> translate m' LAPIC_EOI_REGISTER <> None) /\
    (forall a, translate m a <> None -> translate m' a <> None) /\
    (forall a, 2 <= page_index a -> page_index a ∉ page_index <$> vas -> translate m' a = translate m a).
Proof.
  pose proof touch_cost_nonneg. induction 1 as [|va vas Hva Hvas IH]; intros Hnd n m Hm Hn.
  { exists m. rewrite Z.mul_0_r in Hm. split; [done|]. split; [exact Hm|].
    split; [by intros va Hin%elem_of_nil|]. split; [by intros va Hin%elem_of_nil|done]. }
  rewrite fmap_cons, NoDup_cons in Hnd. destruct Hnd as [Hnew Hnd].
  cbn [List.length] in Hm. rewrite Nat2Z.inj_succ, Z.mul_succ_r in Hm.
  destruct (touch_spec (touch_cost * Z.of_nat (List.length vas) + n) d m va fuel)
    as (m1 & Ht & Hm1 & Hva1 & Heoi1 & _ & Hmono1 & Hkept1); [|nia|done|].
  { eapply starting_weaken; [|exact Hm]. lia. }
  destruct (IH Hnd n m1 Hm1 Hn) as (m' & Hd & Hm' & Hall & Heoi & Hmono & Hkept).
  exists m'. split; [cbn [touch_all]; by rewrite Ht, bind_done|]. split; [done|].
  split; [|split; [|split]].
  - intros a [->|Ha]%elem_of_cons; auto.
  - intros a [->|Ha]%elem_of_cons Hnone; [by apply Hmono, Heoi1|]. destruct (translate m1 a) eqn:Ha1.
    + apply Hmono, Heoi1. destruct (translate m va) eqn:Hv; [|done].
      exfalso. unfold touch in Ht. rewrite Hv in Ht. injection Ht as <-. congruence.
    + by eapply Heoi.
  - auto.
  - intros a Ha Hin. rewrite fmap_cons, elem_of_cons in Hin.
    rewrite Hkept, Hkept1; auto.
Qed.
End FaultSpec.

(** C20. A page fault before [enableAPIC]: the handler's acknowledgement goes
    through the null register pointer, faults itself, and the nested fault maps
    page 0 - and page 1, whose identity map is lost - to fresh frames.  The
    faulting page gets its frame and the access can be retried, but null
    pointers no longer fault, and no interrupt controller saw the
    acknowledgement. *)
Theorem early_fault_maps_null {H} `{Devices H} limine (m : machine H) root cr2 fuel :
  let free := free_frames limine (vm_mem (vm m)) in
  hhdm_ok limine -> page_tree_ok limine (vm_mem (vm m)) root ->
  page_tree (vm m) = Some (kernel_physical_to_virtual limine root) -> ptbr (vm m) = root ->
  touch_cost <= Z.of_nat (List.length free) -> baseAddress m = 0 ->
  (forall f, f ∈ free -> no_device (devices (hw m)) f) ->
  translate m LAPIC_EOI_REGISTER = None -> heap_page cr2 ->
  exists m' f f0 f1, page_fault limine (S fuel) cr2 m = Done m' /\
    page_tree_ok limine (vm_mem (vm m')) root /\
    NoDup [f; f0; f1] /\ (forall x, x ∈ [f; f0; f1] -> x ∈ free) /\
    translate m' cr2 = Some f /\ translate m' 0 = Some f0 /\ translate m' 0x1000 = Some f1 /\
    (forall va, 2 <= page_index va -> page_index va <> page_index cr2 -> translate m' va = translate m va) /\
    devices (hw m') = devices (hw m).
Proof.
  intros free Hh Htree Hpt Hroot Hfree Hbase Hdev Heoi (Hc0 & Hcm & Hmax & Hidx).
  assert (Hm : starting limine root (fun _ => False) ∅ (storage (vm_mem (vm m))) (1 + tables_for 1 + (2 + tables_for 2 + 0)) (devices (hw m)) m).
  { split; [|done|done|done|done|by left]. by apply kernel_memory_all. }
  destruct (page_fault_first limine Hh root (fun _ => False) ∅ _ 0 (devices (hw m)) m cr2 fuel Hm ltac:(lia) Heoi
    Hc0 Hcm Hmax ltac:(lia)) as (m' & f & f0 & f1 & Hp & Hm' & Hnd & Hin & _ & Htr).
  exists m', f, f0, f1. split; [done|]. split; [by eapply kernel_memory_tree, Hm'|].
  split; [done|]. split; [done|]. rewrite !Htr, Z.eqb_refl, (proj2 (Z.eqb_neq (page_index cr2) 0)),
    (proj2 (Z.eqb_neq (page_index cr2) 1)), Hcm, Z.add_0_r by lia.
  split; [done|]. split; [f_equal; apply Z.add_0_r|]. split; [f_equal; apply Z.add_0_r|]. split; [|apply Hm'].
  intros va Hva Hne. rewrite Htr. by rewrite !(proj2 (Z.eqb_neq _ _)) by lia.
Qed.

(** The first access to the heap on the machine of the examples. *)
Definition early_machine : machine pc := Machine (demo_pc (Kbc 3 0 0 None None 0x65 false)) large_vm 0.

Lemma early_fault_maps_null_witness :
  exists m' f0, page_fault large_limine 1 0x100001000 early_machine = Done m' /\
    translate early_machine 0 = None /\ translate m' 0 = Some f0.
Proof.
  destruct (early_fault_maps_null large_limine early_machine large_root 0x100001000 0)
    as (m' & f & f0 & f1 & Hp & _ & _ & _ & _ & Hnull & _).
  - exact large_hhdm_ok.
  - exact large_page_tree_ok.
  - reflexivity.
  - reflexivity.
  - vm_compute. congruence.
  - reflexivity.
  - intros f Hf. split; [|reflexivity].
    assert (Hl : forall x, x ∈ free_frames large_limine (vm_mem (vm early_machine)) -> x < 0x100000).
    { apply Forall_forall. apply (bool_decide_unpack _). vm_compute. exact I. }
    specialize (Hl f Hf). change (pc_lapic_base _) with 0xfee00000. lia.
  - vm_compute. reflexivity.
  - vm_compute. intuition congruence.
  - exists m', f0. split; [exact Hp|]. split; [vm_compute; reflexivity|exact Hnull].
Defined.
