(* ===== verification/Acpi.v ===== *)
(** * ACPI tables and I/O interrupt controllers

    RootSystemDescriptionPointer.h, ACPISDTHeader.h, RootSDT.h and APICManager:
    the tables are read from physical memory, where the boot loader left them;
    the registers of the interrupt controllers are reached through the page
    table. *)

From Stdlib Require Import ZArith Lia String.
From stdpp Require Import base gmap list list_numbers numbers strings.
From S2P Require Import Prelude Memory FrameAllocator PageTree Paging KernelMemory Utilities Processor.
#[local] Open Scope Z_scope.

Section Tables.
Context (limine : limine_features).

(** Reads through a kernel pointer. *)
Definition rd8 (m : mem) (a : Z) : Z := load8 m (phys limine a).
Definition rd32 (m : mem) (a : Z) : Z := load32 m (phys limine a).
Definition rd64 (m : mem) (a : Z) : Z := load64 m (phys limine a).

(** The [n] bytes at [a]. *)
Definition rd_bytes (m : mem) (a n : Z) : list Z := (fun i => rd8 m (a + i)) <$> seqZ 0 n.

(** ** RootSystemDescriptionPointer *)
Definition signatureLength : Z := 8.

(** "RSD PTR " *)
Definition expectedSignature : list Z := [82; 83; 68; 32; 80; 84; 82; 32].

Definition verifySignature (m : mem) (this : Z) : bool :=
  forallb (fun i => rd8 m (this + i) =? nth (Z.to_nat i) expectedSignature 0) (seqZ 0 signatureLength).

(** [sum += *byte] over [n] bytes, in a [uint8_t] *)
Definition byte_sum (l : list Z) : Z := foldl (fun sum b => u8 (sum + b)) 0 l.

Definition acpiRevision (m : mem) (this : Z) : Z := rd8 m (this + 15).
Definition rsdtPhysicalAddress (m : mem) (this : Z) : Z := rd32 m (this + 16).
Definition rsdpSize (m : mem) (this : Z) : Z := rd32 m (this + 20).
Definition xsdtPhysicalAddress (m : mem) (this : Z) : Z := rd64 m (this + 24).

(** The bytes before the member [rsdpSize]. *)
Definition verifyPartialChecksum (m : mem) (this : Z) : bool := byte_sum (rd_bytes m this 20) =? 0.

Definition verifyFullChecksum (m : mem) (this : Z) : bool :=
  byte_sum (rd_bytes m this (rsdpSize m this)) =? 0.

Definition validate (m : mem) (this : Z) : bool :=
  if acpiRevision m this =? 0 then verifyPartialChecksum m this else verifyFullChecksum m this.

Definition rootSDTPhysicalAddress (m : mem) (this : Z) : outcome Z :=
  if negb (validate m this) then Panic "invalid RSDP table"
  else Done (if acpiRevision m this =? 0 then rsdtPhysicalAddress m this else xsdtPhysicalAddress m this).

(** ** ACPISDTHeader: 36 bytes *)
Definition header_size : Z := 36.
Definition header_length (m : mem) (this : Z) : Z := rd32 m (this + 4).

(** The bytes are added as signed characters to a [size_t]. *)
Definition verifyChecksum (m : mem) (this : Z) : bool :=
  foldl (fun sum b => u64 (sum + i8 b)) 0 (rd_bytes m this (header_length m this)) mod 0x100 =? 0.

(** ** RootSDT: the member after the header is aligned to eight bytes *)
Definition pointersToOtherSDTs : Z := 40.

Definition bytesPerPointer (acpiRevisionNumber : Z) : Z := if acpiRevisionNumber =? 0 then 4 else 8.

Definition numPointersToOtherSDTs (m : mem) (this rev : Z) : Z :=
  u64 (header_length m this - header_size) / bytesPerPointer rev.

(** The physical address in slot [i]. *)
Definition sdt_pointer (m : mem) (this rev i : Z) : Z :=
  if bytesPerPointer rev =? 4 then rd32 m (this + pointersToOtherSDTs + 4 * i)
  else rd64 m (this + pointersToOtherSDTs + 8 * i).

(** [!kpp::strncmp(sdt->header.signature, signature, 4)] *)
Definition signature_is (m : mem) (sdt : Z) (signature : list Z) : bool :=
  forallb (fun i => rd8 m (sdt + i) =? nth (Z.to_nat i) signature 0) (seqZ 0 4).

Fixpoint find_sdt (n : nat) (m : mem) (this rev i : Z) (signature : list Z) : Z :=
  match n with
  | O => 0
  | S n =>
      let sdt := sdt_pointer m this rev i in
      if signature_is m sdt signature then sdt else find_sdt n m this rev (i + 1) signature
  end.

Definition findSDTWithSignature (m : mem) (this : Z) (signature : list Z) (rev : Z) : Z :=
  find_sdt (Z.to_nat (numPointersToOtherSDTs m this rev)) m this rev 0 signature.
End Tables.

(** ** IOAPIC *)
Record IOAPIC := MkIOAPIC {
  m_address : Z;
  m_globalSystemInterruptBase : Z;
  m_id : Z;
  m_numRedirectionEntries : Z
}.

(** The elements of the array that no controller was stored in. *)
Definition no_ioapic : IOAPIC := MkIOAPIC 0 0 0 0.

Section IOAPIC.
Context {H : Type} `{Platform H}.
Implicit Types m : machine H.

Definition writeRegister (a : IOAPIC) (registerNum value : Z) m : outcome (machine H) :=
  m ← device_store (m_address a) (u8 registerNum) m;
  device_store (u32 (m_address a + 0x10)) value m.

Definition readRegister (a : IOAPIC) (registerNum : Z) m : outcome (Z * machine H) :=
  m ← device_store (m_address a) (u8 registerNum) m;
  device_load (u32 (m_address a + 0x10)) m.

(** The constructor reads the size of the redirection table. *)
Definition IOAPIC_construct (address globalSystemInterruptBase id : Z) m : outcome (IOAPIC * machine H) :=
  let a := MkIOAPIC (u32 address) (u32 globalSystemInterruptBase) (u8 id) 0 in
  r ← readRegister a 1 m;
  let '(v, m) := r : Z * machine H in
  Done (MkIOAPIC (m_address a) (m_globalSystemInterruptBase a) (m_id a) (u8 (Z.land (Z.shiftr v 16) 0xff)), m).

Definition handlesIRQ (a : IOAPIC) (irq : Z) : bool :=
  (m_globalSystemInterruptBase a <=? irq) &&
  (irq <? u32 (m_globalSystemInterruptBase a + m_numRedirectionEntries a)).

Definition entry_low (a : IOAPIC) (irq : Z) : Z := u32 (0x10 + 2 * (irq - m_globalSystemInterruptBase a)).
Definition entry_high (a : IOAPIC) (irq : Z) : Z := u32 (entry_low a irq + 1).

Definition readRedirectionEntryLow (a : IOAPIC) (irq : Z) m := readRegister a (entry_low a irq) m.
Definition readRedirectionEntryHigh (a : IOAPIC) (irq : Z) m := readRegister a (entry_high a irq) m.
Definition writeRedirectionEntryLow (a : IOAPIC) (irq value : Z) m := writeRegister a (entry_low a irq) value m.
Definition writeRedirectionEntryHigh (a : IOAPIC) (irq value : Z) m := writeRegister a (entry_high a irq) value m.

(** The body of the loop of [redirectIrq] for the controller that handles it. *)
Definition redirect_at (a : IOAPIC) (irq vector : Z) m : outcome (machine H) :=
  r ← readRedirectionEntryLow a irq m;
  let '(low, m) := r : Z * machine H in
  r ← readRedirectionEntryHigh a irq m;
  let '(high, m) := r : Z * machine H in
  let low := Z.land low (u32 (Z.lnot 0xff)) in
  let low := Z.lor low vector in
  let low := Z.land low (u32 (Z.lnot (Z.shiftl 1 16))) in
  let high := Z.lor (Z.land high 0x00ffffff) (u32 (Z.shiftl (m_id a) 24)) in
  m ← writeRedirectionEntryHigh a irq high m;
  writeRedirectionEntryLow a irq low m.

Fixpoint redirectIrq (ioApics : list IOAPIC) (irq vector : Z) m : outcome (machine H) :=
  match ioApics with
  | [] => Done m
  | a :: ioApics =>
      if negb (handlesIRQ a irq) then redirectIrq ioApics irq vector m
      else redirect_at a irq vector m
  end.

Definition sendInterprocessorInterrupt (limine : limine_features) (destination vector : Z) m : outcome (machine H) :=
  let low := Z.lor 0x4000 vector in
  let high := u32 (Z.shiftl destination 24) in
  base ← localAPICBaseAddress (hw m);
  let localAPICAddress := kernel_physical_to_virtual limine base in
  m ← device_store (u64 (localAPICAddress + 0x310)) high m;
  device_store (u64 (localAPICAddress + 0x300)) low m.
End IOAPIC.

(** ** APICManager::initialize *)
Record APICManager := MkManager { m_ioApics : list IOAPIC; m_numIoApics : Z }.

Definition APICManager_new : APICManager := MkManager (replicate 16 no_ioapic) 0.

(** "APIC" *)
Definition madt_signature : list Z := [65; 80; 73; 67].

(** Offset of the first entry of a MADT. *)
Definition madt_entries : Z := 44.

Section Initialize.
Context {H : Type} `{Platform H} (limine : limine_features).
Implicit Types m : machine H.

Definition memory m : mem := ram (vm_mem (vm m)).

(** The entry of an I/O APIC; [p] points behind the type and length bytes. *)
Definition add_ioapic (p : Z) (s : machine H * APICManager) : outcome (machine H * APICManager) :=
  let '(m, mgr) := s in
  let ioApicAddress := rd32 limine (memory m) (p + 2) in
  v ← paging_add_mapping limine (kernel_physical_to_virtual limine ioApicAddress) ioApicAddress pageSize
        (PageFlags_or PageFlags.Write PageFlags.CacheDisable) (vm m);
  let m := with_vm m v in
  if array_size (m_ioApics mgr) <=? m_numIoApics mgr then Panic "Too many IO APICs"
  else
    r ← IOAPIC_construct (kernel_physical_to_virtual limine (rd32 limine (memory m) (p + 2)))
          (rd32 limine (memory m) (p + 6)) (rd8 limine (memory m) p) m;
    let '(a, m) := r : IOAPIC * machine H in
    l ← array_set (m_ioApics mgr) (m_numIoApics mgr) a;
    Done (m, MkManager l (u64 (m_numIoApics mgr + 1))).

(** One round of the loop over the entries. *)
Definition madt_step (s : Z * (machine H * APICManager)) : outcome (Z * (machine H * APICManager)) :=
  let '(p, s) := s in
  let type := rd8 limine (memory (fst s)) p in
  let length := rd8 limine (memory (fst s)) (p + 1) in
  let p := u64 (p + 2) in
  s ← (if type =? 1 then add_ioapic p s else Done s);
  Done (u64 (p + (length - 2)), s).

Definition parse_madt (fuel : nat) (madt : Z) (s : machine H * APICManager) : outcome (machine H * APICManager) :=
  let end_ := u64 (madt + header_length limine (memory (fst s)) madt) in
  r ← while fuel (fun s : Z * (machine H * APICManager) => fst s <? end_) madt_step
        (u64 (madt + madt_entries), s);
  Done (snd r).

(** [rsdp] is the address in the boot loader's response. *)
Definition initialize (fuel : nat) (rsdp : Z) (m : machine H) (mgr : APICManager)
    : outcome (machine H * APICManager) :=
  if rsdp =? 0 then Panic "Could not find RSDP. Maybe ACPI is not supported?"
  else
    let rev := acpiRevision limine (memory m) rsdp in
    physicalRsdt ← rootSDTPhysicalAddress limine (memory m) rsdp;
    let rsdt := kernel_physical_to_virtual limine physicalRsdt in
    let physicalMadt := findSDTWithSignature limine (memory m) rsdt madt_signature rev in
    if physicalMadt =? 0 then Panic "MADT not found"
    else parse_madt fuel (kernel_physical_to_virtual limine physicalMadt) (m, mgr).
End Initialize.

(** ** Checksums *)
Definition total (l : list Z) : Z := foldr Z.add 0 l.

Lemma byte_sum_total l : byte_sum l = total l mod 256.
Proof.
  unfold byte_sum. assert (H : forall acc, foldl (fun sum b => u8 (sum + b)) (u8 acc) l = (acc + total l) mod 256).
  { induction l as [|b l IH]; intros acc; cbn [foldl total foldr].
    - unfold wrap. by rewrite Z.add_0_r.
    - rewrite wrap_add_l, IH. fold (total l). f_equal. lia. }
  change 0 with (u8 0) at 1. by rewrite H.
Qed.

Lemma u64_mod_256 x y : (u64 x + y) mod 256 = (x + y) mod 256.
Proof.
  rewrite <-Zplus_mod_idemp_l. unfold wrap. rewrite Z.mod_mod_divide by (by exists (2 ^ 56)).
  by rewrite Zplus_mod_idemp_l.
Qed.

(** Adding the bytes as signed characters gives the same sum modulo 256. *)
Lemma signed_sum_total l :
  Forall (fun b => 0 <= b < 256) l ->
  foldl (fun sum b => u64 (sum + i8 b)) 0 l mod 0x100 = total l mod 256.
Proof.
  intros Hl. assert (H : forall acc,
    foldl (fun sum b => u64 (sum + i8 b)) acc l mod 256 = (acc + total l) mod 256).
  { induction Hl as [|b l Hb Hl IH]; intros acc; cbn [foldl total foldr].
    - by rewrite Z.add_0_r.
    - rewrite IH, u64_mod_256. fold (total l). unfold swrap. rewrite wrap_id by done.
      change (2 ^ (8 - 1)) with 128. change (2 ^ 8) with 256.
      destruct (Z.ltb_spec b 128); [f_equal; lia|].
      replace (acc + (b - 256) + total l) with (acc + (b + total l) + (-1) * 256) by lia.
      apply Z_mod_plus_full. }
  by rewrite H.
Qed.

Lemma rd_bytes_range limine m a n : Forall (fun b => 0 <= b < 256) (rd_bytes limine m a n).
Proof. apply Forall_fmap, Forall_forall. intros i _. apply load8_range. Qed.

(** The root pointer is accepted exactly when the bytes the ACPI revision
    prescribes add up to 0 modulo 256, whatever its signature says; the address
    is the 32-bit one for revision 0 and the 64-bit one otherwise.  The check of
    the other tables, which adds signed characters, is the same condition. *)
Theorem acpi_checksums_correct limine m this :
  let n := if acpiRevision limine m this =? 0 then 20 else rsdpSize limine m this in
  (total (rd_bytes limine m this n) mod 256 = 0 <->
     rootSDTPhysicalAddress limine m this =
       Done (if acpiRevision limine m this =? 0 then rsdtPhysicalAddress limine m this
             else xsdtPhysicalAddress limine m this)) /\
  (total (rd_bytes limine m this n) mod 256 <> 0 <->
     rootSDTPhysicalAddress limine m this = Panic "invalid RSDP table") /\
  (verifyChecksum limine m this = true <->
     total (rd_bytes limine m this (header_length limine m this)) mod 256 = 0).
Proof.
  intros n. unfold verifyChecksum. rewrite signed_sum_total by apply rd_bytes_range.
  rewrite Z.eqb_eq. unfold rootSDTPhysicalAddress, validate, verifyPartialChecksum, verifyFullChecksum.
  rewrite !byte_sum_total.
  assert (Hn : (if acpiRevision limine m this =? 0 then total (rd_bytes limine m this 20) mod 256 =? 0
    else total (rd_bytes limine m this (rsdpSize limine m this)) mod 256 =? 0) =
    (total (rd_bytes limine m this n) mod 256 =? 0)) by (unfold n; by case_match).
  rewrite Hn. destruct (Z.eqb_spec (total (rd_bytes limine m this n) mod 256) 0); simpl.
  - split; [done|]. split; [|done]. split; [done|discriminate].
  - split; [split; [done|discriminate]|]. done.
Qed.

(** ** Looking up a table *)

(** The entries as the ACPI specification lays them out, directly behind the
    36 bytes of the header. *)
Definition acpi_entry limine (m : mem) (this rev i : Z) : Z :=
  if rev =? 0 then rd32 limine m (this + 36 + 4 * i) else rd64 limine m (this + 36 + 8 * i).

(** The first table of a list with a signature. *)
Fixpoint first_with limine (m : mem) (signature : list Z) (l : list Z) : Z :=
  match l with
  | [] => 0
  | sdt :: l => if signature_is limine m sdt signature then sdt else first_with limine m signature l
  end.

Lemma find_sdt_first limine n m this rev i sig :
  find_sdt limine n m this rev i sig =
  first_with limine m sig (sdt_pointer limine m this rev <$> seqZ i (Z.of_nat n)).
Proof.
  revert i. induction n as [|n IH]; intros i; [done|].
  rewrite seqZ_cons by lia. cbn [find_sdt fmap list_fmap first_with].
  rewrite IH. by replace (Z.pred (Z.of_nat (S n))) with (Z.of_nat n) by lia.
Qed.

(** A word and its halves. *)
Lemma load64_halves m a : load64 m a = load32 m a + 2 ^ 32 * load32 m (a + 4).
Proof.
  assert (HS : forall n a, load (S n) m a = load8 m a + 256 * load n m (a + 1)) by reflexivity.
  assert (H0 : forall a, load 0 m a = 0) by reflexivity.
  rewrite !HS, !H0. replace (a + 4 + 1) with (a + 1 + 1 + 1 + 1 + 1) by lia.
  replace (a + 4) with (a + 1 + 1 + 1 + 1) by lia. lia.
Qed.

Lemma phys_add limine a k :
  hhdm_offset limine <= a -> 0 <= k -> phys limine (a + k) = a - hhdm_offset limine + k.
Proof. intros Ha Hk. unfold phys. rewrite (proj2 (Z.leb_le _ _)) by lia. lia. Qed.

Lemma sdt_pointer_eq limine m this rev i :
  hhdm_offset limine <= this -> 0 <= i ->
  sdt_pointer limine m this rev i =
    if rev =? 0 then acpi_entry limine m this rev (i + 1)
    else acpi_entry limine m this rev i / 2 ^ 32 + 2 ^ 32 * (acpi_entry limine m this rev (i + 1) mod 2 ^ 32).
Proof.
  intros Ht Hi. unfold sdt_pointer, acpi_entry, bytesPerPointer, pointersToOtherSDTs.
  destruct (rev =? 0); simpl.
  - unfold rd32. do 2 f_equal. lia.
  - unfold rd64. replace (this + 40 + 8 * i) with (this + (40 + 8 * i)) by lia.
    replace (this + 36 + 8 * i) with (this + (36 + 8 * i)) by lia.
    replace (this + 36 + 8 * (i + 1)) with (this + (44 + 8 * i)) by lia.
    rewrite !phys_add by lia. set (p := this - hhdm_offset limine).
    rewrite (load64_halves m (p + (40 + 8 * i))), (load64_halves m (p + (36 + 8 * i))),
      (load64_halves m (p + (44 + 8 * i))).
    replace (p + (36 + 8 * i) + 4) with (p + (40 + 8 * i)) by lia.
    replace (p + (40 + 8 * i) + 4) with (p + (44 + 8 * i)) by lia.
    pose proof (load_range 4 m (p + (36 + 8 * i))). pose proof (load_range 4 m (p + (44 + 8 * i))).
    change (2 ^ (8 * Z.of_nat 4)) with (2 ^ 32) in *.
    rewrite (Z.mul_comm (2 ^ 32) (load32 m (p + (40 + 8 * i)))), Z.div_add, Z.div_small by lia.
    rewrite (Z.mul_comm (2 ^ 32) (load32 m (p + (44 + 8 * i) + 4))), Z_mod_plus_full, Z.mod_small by lia.
    done.
Qed.

Lemma acpi_entry_0_eq limine m this i :
  acpi_entry limine m this 0 i = rd32 limine m (this + 36 + 4 * i).
Proof. done. Qed.

Lemma first_with_in limine m sig l :
  first_with limine m sig l = 0 \/
  (first_with limine m sig l ∈ l /\ signature_is limine m (first_with limine m sig l) sig = true).
Proof.
  induction l as [|x l IH]; [by left|]. simpl. destruct (signature_is limine m x sig) eqn:Hs.
  - right. split; [left|done].
  - destruct IH as [->|[Hin Hx]]; [by left|]. right. split; [by right|done].
Qed.

(** C37. Looking a table up by its signature: the entries start 36 bytes into the
    root table, but the member the code reads through is aligned to offset 40.
    With 32-bit entries the first table is therefore never looked at, and one
    word behind the table is; with 64-bit entries every pointer mixes two
    entries, so that when all tables lie below 4 GiB only multiples of 4 GiB are
    ever tried.  A table shorter than its header wraps the number of entries. *)
Theorem find_sdt_skips_first limine m this rev sig :
  hhdm_offset limine <= this ->
  let n := numPointersToOtherSDTs limine m this rev in
  let found := findSDTWithSignature limine m this sig rev in
  (36 <= header_length limine m this -> n = (header_length limine m this - 36) / (if rev =? 0 then 4 else 8)) /\
  (rev = 0 -> found = first_with limine m sig (acpi_entry limine m this rev <$> seqZ 1 n)) /\
  (rev <> 0 -> (forall i, 0 <= i <= n -> acpi_entry limine m this rev i < 2 ^ 32) -> found mod 2 ^ 32 = 0) /\
  (header_length limine m this < 36 -> 2 ^ 60 <= n).
Proof.
  intros Ht n found. pose proof (load_range 4 m (phys limine (this + 4))) as Hlr.
  change (2 ^ (8 * Z.of_nat 4)) with (2 ^ 32) in Hlr.
  assert (Hlen : 0 <= header_length limine m this < 2 ^ 32) by exact Hlr.
  assert (Hn0 : 0 <= n).
  { unfold n, numPointersToOtherSDTs, bytesPerPointer. apply Z.div_pos; [by apply (wrap_range 64)|]. by case_match. }
  assert (Hfound : found = first_with limine m sig (sdt_pointer limine m this rev <$> seqZ 0 n)).
  { unfold found, findSDTWithSignature. rewrite find_sdt_first. fold n. by rewrite Z2Nat.id. }
  split; [|split; [|split]].
  - intros H36. unfold n, numPointersToOtherSDTs, bytesPerPointer, header_size. by rewrite (wrap_id 64) by lia.
  - intros ->. rewrite Hfound. f_equal.
    replace (seqZ 1 n) with (Z.add 1 <$> seqZ 0 n) by (rewrite fmap_add_seqZ; done).
    rewrite <-list_fmap_compose. apply list_fmap_ext. intros k i Hk.
    apply list_elem_of_lookup_2, elem_of_seqZ in Hk. rewrite sdt_pointer_eq by lia. simpl.
    by rewrite Z.add_comm.
  - intros Hr Hlow. destruct (first_with_in limine m sig (sdt_pointer limine m this rev <$> seqZ 0 n))
      as [Hz|[Hin _]]; rewrite Hfound; [by rewrite Hz|].
    apply list_elem_of_fmap in Hin as (i & -> & Hi%elem_of_seqZ).
    rewrite sdt_pointer_eq by lia. rewrite (proj2 (Z.eqb_neq rev 0)) by done.
    assert (0 <= acpi_entry limine m this rev i).
    { unfold acpi_entry. rewrite (proj2 (Z.eqb_neq rev 0)) by done. apply (load64_range m). }
    rewrite (Z.div_small (acpi_entry limine m this rev i)) by (specialize (Hlow i); lia).
    rewrite Z.add_0_l, Z.mul_comm. apply Z_mod_mult.
  - intros H36. unfold n, numPointersToOtherSDTs, bytesPerPointer, header_size.
    assert (Hw : u64 (header_length limine m this - 36) = 2 ^ 64 + (header_length limine m this - 36)).
    { symmetry. apply (Zmod_unique _ _ (-1)); lia. }
    rewrite Hw. case_match; apply Z.div_le_lower_bound; lia.
Qed.

(** A root table of two entries, the first of which is the one looked for. *)
Definition demo_acpi : mem :=
  list_to_map (zip (seqZ 0x7000 8) [82; 83; 68; 84; 44; 0; 0; 0] ++
    zip (seqZ 0x7024 8) [0; 0x80; 0; 0; 0; 0x90; 0; 0] ++
    zip (seqZ 0x8000 4) madt_signature ++ zip (seqZ 0x9000 4) [70; 65; 67; 80]).

Lemma find_sdt_skips_first_witness :
  findSDTWithSignature demo_limine demo_acpi 0xffff800000007000 madt_signature 0 = 0 /\
  signature_is demo_limine demo_acpi (acpi_entry demo_limine demo_acpi 0xffff800000007000 0 0) madt_signature = true.
Proof.
  destruct (find_sdt_skips_first demo_limine demo_acpi 0xffff800000007000 0 madt_signature) as (_ & Hf & _).
  - vm_compute. congruence.
  - split; [|vm_compute; reflexivity]. rewrite (Hf eq_refl). vm_compute. reflexivity.
Defined.

(** ** I/O APIC registers *)
Section IoApicRegisters.
Context {H : Type} `{Devices H}.
Implicit Types m : machine H.

Definition set_ioapics (d : pc) (x : gmap Z ioapic) : pc :=
  PC (pc_edx d) (pc_pic1 d) (pc_pic2 d) (pc_kbc d) (pc_apic_msr d) (pc_lapic d) x (pc_if d).

(** The registers of the controller [x] are reachable at the address [a]. *)
Record ioapic_at m (a : Z) (x : ioapic) : Prop := {
  ia_range : 0 <= a < 2 ^ 32 - pageSize;
  ia_aligned : a mod pageSize = 0;
  ia_device : pc_ioapics (devices (hw m)) !! a = Some x;
  ia_select : translate m a = Some a;
  ia_window : translate m (a + 0x10) = Some (a + 0x10);
  ia_apart : pc_lapic_base (devices (hw m)) <> a
}.

Lemma page_base a k : a mod pageSize = 0 -> 0 <= k < pageSize -> (a + k) mod 0x1000 = k.
Proof.
  intros Ha Hk. unfold pageSize in *. apply Z.mod_divide in Ha as [y ->]; [|done].
  rewrite Z.add_comm, Z_mod_plus_full. by apply Z.mod_small.
Qed.

(** A store to one of the two registers. *)
Lemma ioapic_store m a x off v :
  ioapic_at m a x -> off = 0 \/ off = 0x10 -> 0 <= v < 2 ^ 32 ->
  exists m', device_store (a + off) v m = Done m' /\ vm m' = vm m /\ baseAddress m' = baseAddress m /\
    devices (hw m') = set_ioapics (devices (hw m)) (<[a := ioapic_write off v x]> (pc_ioapics (devices (hw m)))) /\
    ioapic_at m' a (ioapic_write off v x).
Proof.
  intros Ha Ho Hv. destruct Ha as [Hr Hal Hdev Hsel Hwin Hap].
  assert (Ht : translate m (a + off) = Some (a + off)) by (destruct Ho as [->| ->]; [by rewrite Z.add_0_r|done]).
  unfold device_store. rewrite Ht, (wrap_id 32) by done.
  assert (Hd : devices (hw (with_hw m (mmio_out (a + off) v (hw m)))) =
    set_ioapics (devices (hw m)) (<[a := ioapic_write off v x]> (pc_ioapics (devices (hw m))))).
  { simpl. rewrite devices_mmio_out. unfold pc_mmio_out, set_ioapics. set (d := devices (hw m)) in *.
    assert (Hmod : (a + off) mod 0x1000 = off) by (apply page_base; unfold pageSize; [done|destruct Ho; lia]).
    rewrite Hmod. replace (a + off - off) with a by lia.
    destruct (lapic_base_range d) as [_ Hlm].
    assert ((pc_lapic_base d <=? a + off) && (a + off <? pc_lapic_base d + 0x1000) = false) as ->.
    { unfold pageSize in *. apply Z.mod_divide in Hal as [y1 Hy1]; [|done]. apply Z.mod_divide in Hlm as [y2 Hy2]; [|done].
      destruct (Z.leb_spec (pc_lapic_base d) (a + off)), (Z.ltb_spec (a + off) (pc_lapic_base d + 0x1000)); try done.
      exfalso. apply Hap. destruct Ho; lia. }
    f_equal. apply map_eq. intros k. destruct (decide (k = a)) as [->|Hne].
    - by rewrite lookup_alter_eq, lookup_insert_eq, Hdev.
    - by rewrite lookup_alter_ne, lookup_insert_ne by done. }
  eexists. split; [reflexivity|]. split; [done|]. split; [done|]. split; [exact Hd|].
  split; try done; rewrite Hd; simpl; [apply lookup_insert_eq|exact Hap].
Qed.

Lemma ioapic_load m a x :
  ioapic_at m a x -> 0 <= ioapic_reg x (io_select x) < 2 ^ 32 ->
  exists m', device_load (a + 0x10) m = Done (ioapic_reg x (io_select x), m') /\ vm m' = vm m /\
    baseAddress m' = baseAddress m /\ devices (hw m') = devices (hw m).
Proof.
  intros [Hr Hal Hdev Hsel Hwin Hap] Hv. unfold device_load. rewrite Hwin.
  pose proof (devices_mmio_read (a + 0x10) (hw m) (ioapic_reg x (io_select x))) as Hread.
  pose proof (devices_mmio_in (a + 0x10) (hw m)) as Hin.
  assert (Hmod : (a + 0x10) mod 0x1000 = 0x10) by (apply page_base; unfold pageSize; [done|lia]).
  unfold pc_mmio_read in Hread. rewrite Hmod in Hread.
  replace (a + 0x10 - 0x10) with a in Hread by lia. rewrite Hdev in Hread. specialize (Hread eq_refl).
  destruct (mmio_in (a + 0x10) (hw m)) as [v h]. simpl in *. subst v.
  eexists. rewrite (wrap_id 32) by done. split; [reflexivity|]. done.
Qed.

Lemma window_address a : 0 <= a < 2 ^ 32 - pageSize -> u32 (a + 0x10) = a + 0x10.
Proof. intros. apply wrap_id. unfold pageSize in *. lia. Qed.

Definition select (x : ioapic) (r : Z) : ioapic := IoApic r (io_last x) (io_regs x).

Lemma readRegister_spec m a x c reg :
  m_address c = a -> ioapic_at m a x -> 0 <= reg < 256 -> 0 <= ioapic_reg x reg < 2 ^ 32 ->
  exists m', readRegister c reg m = Done (ioapic_reg x reg, m') /\ vm m' = vm m /\
    baseAddress m' = baseAddress m /\
    devices (hw m') = set_ioapics (devices (hw m)) (<[a := select x reg]> (pc_ioapics (devices (hw m)))) /\
    ioapic_at m' a (select x reg).
Proof.
  intros Hc Ha Hreg Hv. unfold readRegister. rewrite Hc, (wrap_id 8) by done.
  destruct (ioapic_store m a x 0 reg Ha ltac:(auto) ltac:(lia)) as (m1 & Hs & Hvm & Hb & Hd & Hat).
  rewrite Z.add_0_r in Hs. rewrite Hs, bind_done, window_address by apply Ha.
  assert (Hx : ioapic_write 0 reg x = select x reg).
  { unfold ioapic_write, select. simpl. change 0xff with (Z.ones 8). by rewrite <-wrap_land, wrap_id by lia. }
  rewrite Hx in Hd, Hat.
  destruct (ioapic_load m1 a _ Hat Hv) as (m2 & Hl & Hvm2 & Hb2 & Hd2).
  exists m2. split; [exact Hl|]. split; [congruence|]. split; [congruence|]. split; [congruence|].
  destruct Hat. split; unfold translate in *; rewrite ?Hvm2, ?Hd2; done.
Qed.

Lemma writeRegister_spec m a x c reg v :
  m_address c = a -> ioapic_at m a x -> 0 <= reg < 256 -> 0 <= v < 2 ^ 32 ->
  exists m', writeRegister c reg v m = Done m' /\ vm m' = vm m /\ baseAddress m' = baseAddress m /\
    let x' := IoApic reg (io_last x) (<[reg := v]> (io_regs x)) in
    devices (hw m') = set_ioapics (devices (hw m)) (<[a := x']> (pc_ioapics (devices (hw m)))) /\
    ioapic_at m' a x'.
Proof.
  intros Hc Ha Hreg Hv. unfold writeRegister. rewrite Hc, (wrap_id 8) by done.
  destruct (ioapic_store m a x 0 reg Ha ltac:(auto) ltac:(lia)) as (m1 & Hs & Hvm & Hb & Hd & Hat).
  rewrite Z.add_0_r in Hs. rewrite Hs, bind_done, window_address by apply Ha.
  assert (Hx : ioapic_write 0 reg x = select x reg).
  { unfold ioapic_write, select. simpl. change 0xff with (Z.ones 8). by rewrite <-wrap_land, wrap_id by lia. }
  rewrite Hx in Hd, Hat.
  destruct (ioapic_store m1 a _ 0x10 v Hat ltac:(auto) Hv) as (m2 & Hs2 & Hvm2 & Hb2 & Hd2 & Hat2).
  exists m2. split; [exact Hs2|]. split; [congruence|]. split; [congruence|]. split; [|exact Hat2].
  rewrite Hd2, Hd. unfold set_ioapics. simpl. by rewrite insert_insert_eq.
Qed.
End IoApicRegisters.

(** ** Redirecting an interrupt *)

(** The words [redirectIrq] writes. *)
Definition redirected_low (low vector : Z) : Z :=
  Z.land (Z.lor (Z.land low (u32 (Z.lnot 0xff))) vector) (u32 (Z.lnot (Z.shiftl 1 16))).
Definition redirected_high (high id : Z) : Z :=
  Z.lor (Z.land high 0x00ffffff) (u32 (Z.shiftl id 24)).

Lemma redirected_low_bits low vector i :
  0 <= low < 2 ^ 32 -> 0 <= vector < 256 -> 0 <= i ->
  Z.testbit (redirected_low low vector) i =
    if i <? 8 then Z.testbit vector i else negb (i =? 16) && Z.testbit low i.
Proof.
  intros Hl Hv Hi. unfold redirected_low.
  change (Z.shiftl 1 16) with (Z.ldiff (Z.ones 17) (Z.ones 16)). change 0xff with (Z.ones 8).
  rewrite <-(wrap_id 32 low) at 1 by done. rewrite <-(wrap_id 8 vector) at 1 by done.
  repeat zbits_step. rewrite <-(wrap_id 32 low) at 2 by done. repeat zbits_step.
  destruct (Z.ltb_spec i 8), (Z.ltb_spec i 32), (Z.ltb_spec i 17), (Z.ltb_spec i 16), (Z.eqb_spec i 16);
    try lia; simpl; rewrite ?andb_true_r, ?andb_false_r, ?orb_false_r; try done.
Qed.

Lemma redirected_low_range low vector :
  0 <= low < 2 ^ 32 -> 0 <= vector < 256 -> 0 <= redirected_low low vector < 2 ^ 32.
Proof.
  intros Hl Hv. apply (land_range_l _ _ 32); [lia|]. apply lor_range; [lia| |lia].
  apply (land_range_l _ _ 32); lia.
Qed.

Lemma redirected_high_range high id : 0 <= high < 2 ^ 32 -> 0 <= redirected_high high id < 2 ^ 32.
Proof.
  intros Hh. apply lor_range; [lia| |by apply (wrap_range 32)]. apply (land_range_l _ _ 32); lia.
Qed.

Lemma redirectIrq_skip {H} `{Platform H} l1 l2 irq vector (m : machine H) :
  Forall (fun a => handlesIRQ a irq = false) l1 ->
  redirectIrq (l1 ++ l2) irq vector m = redirectIrq l2 irq vector m.
Proof. intros Hl. induction Hl as [|a l1 Ha Hl IH]; [done|]. simpl. by rewrite Ha. Qed.

(** The writes for the first controller that handles the interrupt. *)
Lemma redirectIrq_done {H} `{Devices H} (m : machine H) l1 c l2 x irq vector :
  let a := m_address c in
  let lo := 0x10 + 2 * (irq - m_globalSystemInterruptBase c) in
  Forall (fun a => handlesIRQ a irq = false) l1 -> handlesIRQ c irq = true ->
  0 <= m_globalSystemInterruptBase c -> m_globalSystemInterruptBase c + m_numRedirectionEntries c < 2 ^ 32 ->
  0 <= m_numRedirectionEntries c <= 120 -> 0 <= vector < 256 ->
  ioapic_at m a x -> (forall r, 0 <= ioapic_reg x r < 2 ^ 32) ->
  exists m', redirectIrq (l1 ++ c :: l2) irq vector m = Done m' /\ vm m' = vm m /\
    baseAddress m' = baseAddress m /\
    devices (hw m') = set_ioapics (devices (hw m)) (<[a := IoApic lo (io_last x)
      (<[lo := redirected_low (ioapic_reg x lo) vector]>
        (<[lo + 1 := redirected_high (ioapic_reg x (lo + 1)) (m_id c)]> (io_regs x)))]>
      (pc_ioapics (devices (hw m)))).
Proof.
  intros a lo Hl1 Hh Hg0 Hg Hn Hv Hat Hregs.
  rewrite redirectIrq_skip by done. cbn [redirectIrq]. rewrite Hh. cbn [negb].
  unfold handlesIRQ in Hh. rewrite (wrap_id 32) in Hh by lia.
  apply andb_prop in Hh as [Hga%Z.leb_le Hgb%Z.ltb_lt].
  assert (Hlo : entry_low c irq = lo) by (unfold entry_low; apply wrap_id; unfold lo; lia).
  assert (Hhi : entry_high c irq = lo + 1) by (unfold entry_high; rewrite Hlo; apply wrap_id; unfold lo; lia).
  unfold redirect_at, readRedirectionEntryLow, readRedirectionEntryHigh, writeRedirectionEntryHigh,
    writeRedirectionEntryLow. rewrite Hlo, Hhi.
  assert (Hlor : 0 <= lo < 256 /\ 0 <= lo + 1 < 256) by (unfold lo; lia).
  destruct (readRegister_spec m a x c lo) as (m1 & -> & Hvm1 & Hb1 & Hd1 & Hat1); try done; [lia|].
  rewrite bind_done. cbv beta iota.
  destruct (readRegister_spec m1 a _ c (lo + 1) eq_refl Hat1) as (m2 & -> & Hvm2 & Hb2 & Hd2 & Hat2); [lia|apply Hregs|].
  rewrite bind_done. cbv beta iota zeta.
  change (ioapic_reg (select x lo) (lo + 1)) with (ioapic_reg x (lo + 1)).
  change (Z.land (Z.lor (Z.land (ioapic_reg x lo) (u32 (Z.lnot 255))) vector) (u32 (Z.lnot (Z.shiftl 1 16))))
    with (redirected_low (ioapic_reg x lo) vector).
  change (Z.lor (Z.land (ioapic_reg x (lo + 1)) 0x00ffffff) (u32 (Z.shiftl (m_id c) 24)))
    with (redirected_high (ioapic_reg x (lo + 1)) (m_id c)).
  destruct (writeRegister_spec m2 a _ c (lo + 1) (redirected_high (ioapic_reg x (lo + 1)) (m_id c)) eq_refl Hat2)
    as (m3 & -> & Hvm3 & Hb3 & Hd3 & Hat3); [lia|by apply redirected_high_range|]. rewrite bind_done.
  destruct (writeRegister_spec m3 a _ c lo (redirected_low (ioapic_reg x lo) vector) eq_refl Hat3)
    as (m4 & -> & Hvm4 & Hb4 & Hd4 & _); [lia|by apply redirected_low_range|].
  exists m4. split; [done|]. split; [congruence|]. split; [congruence|].
  rewrite Hd4, Hd3, Hd2, Hd1. unfold set_ioapics. simpl. by rewrite !insert_insert_eq.
Qed.

(** C26. Redirecting an interrupt: of the first controller that handles it,
    exactly the two words of the interrupt's redirection entry change: the vector is set,
    the mask bit cleared, every other bit of the low word kept, and the top byte
    of the high word names an APIC id — the one of the I/O APIC itself.  When no
    controller handles the interrupt nothing happens, and the last entry of each
    controller is never handled, because the table size is read one too small. *)
Theorem redirectIrq_correct {H} `{Devices H} (m : machine H) l1 c l2 x irq vector :
  let a := m_address c in
  let lo := 0x10 + 2 * (irq - m_globalSystemInterruptBase c) in
  Forall (fun a => handlesIRQ a irq = false) l1 ->
  0 <= m_globalSystemInterruptBase c -> m_globalSystemInterruptBase c + m_numRedirectionEntries c < 2 ^ 32 ->
  0 <= m_numRedirectionEntries c <= 120 -> 0 <= m_id c < 256 -> 0 <= vector < 256 ->
  ioapic_at m a x -> (forall r, 0 <= ioapic_reg x r < 2 ^ 32) ->
  (handlesIRQ c irq = true ->
   exists m', redirectIrq (l1 ++ c :: l2) irq vector m = Done m' /\ vm m' = vm m /\
     devices (hw m') = set_ioapics (devices (hw m)) (<[a := IoApic lo (io_last x)
       (<[lo := redirected_low (ioapic_reg x lo) vector]>
         (<[lo + 1 := redirected_high (ioapic_reg x (lo + 1)) (m_id c)]> (io_regs x)))]>
       (pc_ioapics (devices (hw m))))) /\
  (forall i, 0 <= i -> Z.testbit (redirected_low (ioapic_reg x lo) vector) i =
     if i <? 8 then Z.testbit vector i else negb (i =? 16) && Z.testbit (ioapic_reg x lo) i) /\
  redirectIrq l1 irq vector m = Done m /\
  handlesIRQ c (m_globalSystemInterruptBase c + m_numRedirectionEntries c) = false.
Proof.
  intros a lo Hl1 Hg0 Hg Hn Hid Hv Hat Hregs. split; [|split; [|split]].
  - intros Hh. destruct (redirectIrq_done m l1 c l2 x irq vector) as (m' & Hd & Hvm & _ & Hdev); try done.
    by exists m'.
  - intros i Hi. by apply redirected_low_bits.
  - rewrite <-(app_nil_r l1). by rewrite redirectIrq_skip.
  - unfold handlesIRQ. rewrite (wrap_id 32), Z.ltb_irrefl by lia. apply andb_false_r.
Qed.

(** An identity-mapped controller of 24 entries and the machine around it. *)
Definition demo_io (id : Z) : IOAPIC := MkIOAPIC 0x9000 0 id 23.

Definition identity_vm : vm_state :=
  match paging_add_mapping demo_limine 0x9000 0x9000 0x1000 PageFlags.Write demo_vm with
  | Done v => v
  | _ => demo_vm
  end.

Definition demo_io_machine : machine pc :=
  let d := demo_pc (Kbc 3 0 0 None None 0x65 false) in
  Machine (set_ioapics d {[ 0x9000 := IoApic 0 23 {[ 0x12 := 0x10000 ]} ]}) identity_vm 0.

Lemma redirectIrq_correct_witness :
  exists m', redirectIrq [demo_io 2] 1 0x30 demo_io_machine = Done m' /\
    (x ← pc_ioapics (devices (hw m')) !! 0x9000; Some (ioapic_reg x 0x12, ioapic_reg x 0x13)) =
      Some (0x30, 0x02000000).
Proof.
  destruct (redirectIrq_correct demo_io_machine [] (demo_io 2) [] (IoApic 0 23 {[ 0x12 := 0x10000 ]}) 1 0x30)
    as (Hr & _).
  - constructor.
  - simpl. lia.
  - simpl. lia.
  - simpl. lia.
  - simpl. lia.
  - lia.
  - split; [unfold pageSize; simpl; lia|reflexivity|reflexivity|vm_compute; reflexivity|vm_compute; reflexivity|].
    vm_compute. discriminate.
  - intros r. unfold ioapic_reg. simpl. destruct (r =? 1); [vm_compute; split; congruence|].
    destruct (decide (r = 0x12)) as [->|Hne]; [vm_compute; split; congruence|].
    rewrite lookup_singleton_ne by congruence. simpl. lia.
  - destruct Hr as (m' & Hm & _ & Hd); [reflexivity|]. exists m'. split; [exact Hm|].
    rewrite Hd. vm_compute. reflexivity.
Defined.

(** An inter-processor interrupt: with the register page of the local APIC
    mapped at its address in the direct map, exactly one interrupt is sent, to
    the processor asked for, with the vector and the level bit; no other
    register or device changes, and without a local APIC the kernel panics. *)
Theorem sendInterprocessorInterrupt_correct {H} `{Devices H} limine (m : machine H) destination vector :
  let d := devices (hw m) in
  let base := pc_lapic_base d in
  0 <= destination < 256 -> 0 <= vector < 256 -> has EDX_MSR (hw m) = true ->
  pc_ioapics d !! base = None ->
  (forall off, 0 <= off < pageSize ->
     translate m (u64 (kernel_physical_to_virtual limine base + off)) = Some (base + off)) ->
  (has EDX_APIC (hw m) = true ->
   exists m', sendInterprocessorInterrupt limine destination vector m = Done m' /\ vm m' = vm m /\
     devices (hw m') = PC (pc_edx d) (pc_pic1 d) (pc_pic2 d) (pc_kbc d) (pc_apic_msr d)
       (Lapic (la_svr (pc_lapic d)) (la_tpr (pc_lapic d)) (destination * 2 ^ 24) (la_in_service (pc_lapic d))
          ((destination, 0x4000 + vector) :: la_sent (pc_lapic d))) (pc_ioapics d) (pc_if d)) /\
  (has EDX_APIC (hw m) = false -> exists msg, sendInterprocessorInterrupt limine destination vector m = Panic msg).
Proof.
  intros d base Hde Hv Hm Hio Ht. unfold sendInterprocessorInterrupt.
  rewrite localAPICBaseAddress_spec, Hm. cbn [negb]. split; intros ->; [|by eexists].
  cbn [negb]. rewrite bind_done. fold d base.
  set (va := kernel_physical_to_virtual limine base) in *.
  assert (Hstore : forall (m0 : machine H) off v, 0 <= off < pageSize -> vm m0 = vm m ->
    pc_lapic_base (devices (hw m0)) = base -> pc_ioapics (devices (hw m0)) !! base = None ->
    exists m', device_store (u64 (va + off)) v m0 = Done m' /\ vm m' = vm m0 /\
      let d := devices (hw m0) in
      devices (hw m') = PC (pc_edx d) (pc_pic1 d) (pc_pic2 d) (pc_kbc d) (pc_apic_msr d)
        (lapic_reg_write off (u32 v) (pc_lapic d)) (pc_ioapics d) (pc_if d)).
  { intros m0 off v Ho Hvm Hb Hi.
    destruct (lapic_store (Machine (hw m0) (vm m0) va) off v) as (m' & Hs & Hvm' & _ & Hd').
    - unfold translate. simpl. rewrite Hb, Hvm. by apply Ht.
    - done.
    - simpl. by rewrite Hb.
    - unfold lapic_write, device_store, translate in *. simpl in *.
      destruct (mmu_translate _ _ _) as [pa|]; [|done]. eexists. split; [reflexivity|]. split; [done|].
      injection Hs as <-. simpl in *. exact Hd'. }
  destruct (Hstore m 0x310 (u32 (Z.shiftl destination 24))) as (m1 & -> & Hvm1 & Hd1); try done.
  rewrite bind_done. fold d in Hd1. simpl in Hd1.
  destruct (Hstore m1 0x300 (Z.lor 0x4000 vector)) as (m2 & -> & Hvm2 & Hd2); try done.
  { by rewrite Hd1. }
  { by rewrite Hd1. }
  exists m2. split; [done|]. split; [congruence|]. rewrite Hd2, Hd1. simpl.
  assert (Hsh : u32 (u32 (Z.shiftl destination 24)) = destination * 2 ^ 24).
  { rewrite Z.shiftl_mul_pow2 by done. change (2 ^ 24) with 16777216. by rewrite wrap_wrap, wrap_id by lia. }
  assert (Hlor : u32 (Z.lor 0x4000 vector) = 0x4000 + vector).
  { assert (Hl : Z.land 0x4000 vector = 0).
    { change 0x4000 with (Z.ldiff (Z.ones 15) (Z.ones 14)). rewrite <-(wrap_id 8 vector) by done. zbits. }
    rewrite Z.add_nocarry_lxor, Z.lxor_lor by done. apply wrap_id, lor_range; lia. }
  f_equal. unfold lapic_reg_write. simpl. rewrite Hsh, Hlor. do 2 f_equal.
  rewrite Z.shiftr_div_pow2 by done. by rewrite Z.div_mul.
Qed.

(** The demo machine with the local APIC mapped. *)
Lemma demo_lapic_mapped :
  exists v, paging_add_mapping demo_limine 0xffff8000fee00000 0xfee00000 pageSize PageFlags.Write demo_vm = Done v /\
    ptbr v = demo_root /\
    forall off, 0 <= off < pageSize ->
      mmu_translate (ram (vm_mem v)) demo_root (0xffff8000fee00000 + off) = Some (0xfee00000 + off).
Proof.
  destruct (map_device_page demo_limine demo_vm demo_root 0xffff8000fee00000 0xfee00000 PageFlags.Write)
    as (v & used & Hd & _ & _ & Hp & _ & _ & Ht).
  - exact demo_hhdm_ok.
  - exact demo_page_tree_ok.
  - reflexivity.
  - apply (bool_decide_unpack _). vm_compute. exact I.
  - lia.
  - reflexivity.
  - vm_compute. congruence.
  - lia.
  - reflexivity.
  - vm_compute. congruence.
  - simpl vm_mem. rewrite demo_tree_frames. vm_compute. congruence.
  - exists v. split; [exact Hd|]. split; [exact Hp|]. intros off Ho.
    by apply (device_page_translate demo_vm v demo_root 0xffff8000fee00000 0xfee00000 off Ht).
Defined.

Lemma sendInterprocessorInterrupt_correct_witness :
  exists v m', sendInterprocessorInterrupt demo_limine 3 0xff
      (Machine (demo_pc (Kbc 3 0 0 None None 0x65 false)) v 0) = Done m' /\
    la_sent (pc_lapic (devices (hw m'))) = [(3, 0x40ff)].
Proof.
  destruct demo_lapic_mapped as (v & _ & Hp & Ht). exists v.
  destruct (sendInterprocessorInterrupt_correct demo_limine
    (Machine (demo_pc (Kbc 3 0 0 None None 0x65 false)) v 0) 3 0xff) as [Hs _].
  - lia.
  - lia.
  - reflexivity.
  - reflexivity.
  - intros off Ho. unfold translate. simpl vm. rewrite Hp.
    change (kernel_physical_to_virtual demo_limine _) with 0xffff8000fee00000.
    change (pc_lapic_base _) with 0xfee00000.
    rewrite (wrap_id 64) by (unfold pageSize in Ho; lia). by apply Ht.
  - destruct Hs as (m' & Hm & _ & Hd); [reflexivity|]. exists m'. split; [exact Hm|]. rewrite Hd. reflexivity.
Defined.

(** ** Parsing the MADT *)

(** The entries from [p] to [end_]: the I/O APICs listed, as (address, first
    interrupt, id). *)
Inductive madt_layout (limine : limine_features) (m : mem) (end_ : Z) : Z -> list (Z * Z * Z) -> Prop :=
| layout_end : madt_layout limine m end_ end_ []
| layout_ioapic p addr gsib id l :
    rd8 limine m p = 1 -> 12 <= rd8 limine m (p + 1) -> p + rd8 limine m (p + 1) <= end_ ->
    rd8 limine m (p + 2) = id -> rd32 limine m (p + 4) = addr -> rd32 limine m (p + 8) = gsib ->
    madt_layout limine m end_ (p + rd8 limine m (p + 1)) l ->
    madt_layout limine m end_ p ((addr, gsib, id) :: l)
| layout_other p l :
    rd8 limine m p <> 1 -> 2 <= rd8 limine m (p + 1) -> p + rd8 limine m (p + 1) <= end_ ->
    madt_layout limine m end_ (p + rd8 limine m (p + 1)) l ->
    madt_layout limine m end_ p l.

(** The direct map lies in the upper half, at a multiple of 4 GiB. *)
Definition higher_half (limine : limine_features) : Prop :=
  hhdm_offset limine mod 2 ^ 32 = 0 /\ 2 ^ 47 <= hhdm_offset limine mod 2 ^ 48 /\
  hhdm_offset limine mod 2 ^ 48 + 2 ^ 32 <= 2 ^ 48.

Lemma hhdm_apart limine pa va :
  higher_half limine -> 0 <= pa < 2 ^ 32 -> 0 <= va < 2 ^ 47 ->
  page_offset (hhdm_offset limine + pa) va <> 0.
Proof.
  intros (_ & Hlo & Hhi) Hpa Hva Hz. apply page_offset_self in Hz.
  rewrite !page_index_eq in Hz. unfold pageSize in Hz.
  assert (Hq : forall z, (z / 0x1000) mod 2 ^ 36 = (z mod 2 ^ 48) / 0x1000).
  { intros z. change (2 ^ 48) with (0x1000 * 2 ^ 36). rewrite Z.rem_mul_r by done.
    rewrite Z.mul_comm, Z.div_add by done.
    rewrite (Z.div_small (z mod 0x1000)) by (by apply Z.mod_pos_bound). lia. }
  rewrite !Hq, (Z.mod_small va), Zplus_mod, (Z.mod_small pa) in Hz by lia.
  rewrite (Z.mod_small (hhdm_offset limine mod 2 ^ 48 + pa)) in Hz by lia.
  assert (va / 0x1000 < 2 ^ 35) by (apply Z.div_lt_upper_bound; lia).
  assert (2 ^ 35 <= (hhdm_offset limine mod 2 ^ 48 + pa) / 0x1000) by (apply Z.div_le_lower_bound; lia).
  lia.
Qed.

(** Different pages of the direct map. *)
Lemma hhdm_page_index limine pa :
  higher_half limine -> 0 <= pa < 2 ^ 32 ->
  page_index (hhdm_offset limine + pa) = (hhdm_offset limine / pageSize + pa / pageSize) mod 2 ^ 36.
Proof.
  intros (H32 & _) Hpa. rewrite page_index_eq. f_equal. unfold pageSize.
  apply Z.mod_divide in H32 as [y ->]; [|done]. replace (y * 2 ^ 32) with (y * 2 ^ 20 * 0x1000) by lia.
  rewrite Z.add_comm, !Z.div_add, Z.div_mul by done. lia.
Qed.

Lemma hhdm_pages_apart limine a b :
  higher_half limine -> 0 <= a < 2 ^ 32 -> 0 <= b < 2 ^ 32 -> a / pageSize <> b / pageSize ->
  page_offset (hhdm_offset limine + a) (hhdm_offset limine + b) <> 0.
Proof.
  intros Hh Ha Hb Hne Hz%page_offset_self. apply Hne.
  rewrite !hhdm_page_index in Hz by done.
  assert (Hq : forall z, 0 <= z < 2 ^ 32 -> 0 <= z / pageSize < 2 ^ 20).
  { intros z Hz'. unfold pageSize. split; [apply Z.div_pos; lia|apply Z.div_lt_upper_bound; lia]. }
  pose proof (Hq a Ha). pose proof (Hq b Hb). set (q := hhdm_offset limine / pageSize) in *.
  rewrite (Zplus_mod q (b / pageSize)), (Zplus_mod q (a / pageSize)) in Hz.
  rewrite (Z.mod_small (a / pageSize)), (Z.mod_small (b / pageSize)) in Hz by lia.
  pose proof (Z.mod_pos_bound q (2 ^ 36) ltac:(done)).
  pose proof (Z.div_mod (q mod 2 ^ 36 + b / pageSize) (2 ^ 36) ltac:(done)).
  pose proof (Z.div_mod (q mod 2 ^ 36 + a / pageSize) (2 ^ 36) ltac:(done)). lia.
Qed.

Section MadtSpec.
Context {H : Type} `{Devices H} (limine : limine_features) (root : Z).
Context (area : Z -> Prop) (m0 : mem) (lo end_ : Z).
Context (Hhhdm : hhdm_ok limine) (Hhigh : higher_half limine).
(** The table lies in the part of memory that is only read. *)
Context (Harea : forall a, lo <= a < end_ -> area (phys limine a)).
(** The controllers of the table, and the device at each address. *)
Context (all : list (Z * Z * Z)) (controller : Z -> ioapic).
Implicit Types m : machine H.

(** A controller is there and identity mapped; which register is selected does
    not matter. *)
Record ioapic_ready m (addr : Z) : Prop := {
  ir_range : 0 <= addr < 2 ^ 32 - pageSize;
  ir_aligned : addr mod pageSize = 0;
  ir_last : 0 <= io_last (controller addr) < 256;
  ir_device : exists r, pc_ioapics (devices (hw m)) !! addr = Some (select (controller addr) r);
  ir_select : translate m addr = Some addr;
  ir_window : translate m (addr + 0x10) = Some (addr + 0x10);
  ir_apart : pc_lapic_base (devices (hw m)) <> addr
}.

(** The machine while the entries [todo] are still to be read, compared with
    the machine [ms] before the table was parsed; [n] frames are to be left. *)
Record madt_inv (ms : machine H) (n : Z) (todo : list (Z * Z * Z)) m : Prop := {
  mi_memory : kernel_memory limine root area m0 (tables_for 1 * Z.of_nat (List.length todo) + n) (vm m);
  mi_ready addr gsib id : (addr, gsib, id) ∈ all -> ioapic_ready m addr;
  mi_todo e : e ∈ todo -> e ∈ all;
  mi_devices : exists x, devices (hw m) = set_ioapics (devices (hw ms)) x /\
    forall a, (forall gsib id, (a, gsib, id) ∉ all) -> x !! a = pc_ioapics (devices (hw ms)) !! a;
  mi_base : baseAddress m = baseAddress ms;
  mi_storage : storage (vm_mem (vm m)) = storage (vm_mem (vm ms));
  mi_mapped addr gsib id : (addr, gsib, id) ∈ all -> (addr, gsib, id) ∈ todo \/
    forall off, 0 <= off < pageSize ->
      translate m (kernel_physical_to_virtual limine addr + off) = Some (addr + off);
  mi_kept va : (forall addr gsib id, (addr, gsib, id) ∈ all ->
      page_offset (kernel_physical_to_virtual limine addr) va <> 0) ->
    translate m va = translate ms va
}.

Lemma mi_bytes ms n todo m a :
  madt_inv ms n todo m -> lo <= a < end_ -> rd8 limine (memory m) a = rd8 limine m0 a.
Proof. intros Hinv Ha. destruct (mi_memory _ _ _ _ Hinv) as [G HG]. by apply (km_bytes _ _ _ _ _ _ _ HG), Harea. Qed.

Lemma rd32_bytes m a :
  hhdm_offset limine <= a -> lo <= a -> a + 4 <= end_ ->
  (forall a, lo <= a < end_ -> rd8 limine (memory m) a = rd8 limine m0 a) ->
  rd32 limine (memory m) a = rd32 limine m0 a.
Proof.
  intros Ha Hlo He Hb. unfold rd32. apply load_same. intros b Hbr. change (Z.of_nat 4) with 4 in Hbr.
  pose proof (Hb (a + (b - phys limine a))) as Hb'. unfold rd8 in Hb'.
  rewrite phys_add in Hb' by lia. unfold phys in *. rewrite (proj2 (Z.leb_le _ _)) in Hbr, Hb' by lia.
  replace (a - hhdm_offset limine + (b - (a - hhdm_offset limine))) with b in Hb' by lia.
  apply Hb'. lia.
Qed.

Lemma virtual_register addr :
  0 <= addr < 2 ^ 32 -> kernel_physical_to_virtual limine addr = hhdm_offset limine + addr.
Proof.
  intros Ha. unfold kernel_physical_to_virtual. rewrite Z.add_comm. apply wrap_id. unfold hhdm_ok in *. lia.
Qed.

Lemma hhdm_aligned : hhdm_offset limine mod pageSize = 0.
Proof.
  unfold pageSize. change 0x1000 with (2 ^ 12).
  rewrite <-(Z.mod_mod_divide (hhdm_offset limine) (2 ^ 32) (2 ^ 12)) by (by exists (2 ^ 20)).
  by destruct Hhigh as [-> _].
Qed.

(** Mapping the registers keeps the invariant. *)
Lemma map_registers ms n addr gsib id todo m :
  madt_inv ms n ((addr, gsib, id) :: todo) m -> 0 <= n ->
  exists v, paging_add_mapping limine (kernel_physical_to_virtual limine addr) addr pageSize
      (PageFlags_or PageFlags.Write PageFlags.CacheDisable) (vm m) = Done v /\
    madt_inv ms n todo (with_vm m v).
Proof.
  intros [Hmem Hready Htodo Hdev Hbase Hsto Hmapped Hkept] Hn.
  assert (Hin : (addr, gsib, id) ∈ all) by (apply Htodo; left).
  assert (Hr0 : ioapic_ready m addr) by (by eapply Hready).
  pose proof (ir_range _ _ Hr0) as Hr. pose proof (ir_aligned _ _ Hr0) as Hal.
  assert (Ha2 : addr + 2 * pageSize <= 2 ^ 32).
  { unfold pageSize in *. apply Z.mod_divide in Hal as [y ->]; [|done]. lia. }
  rewrite virtual_register by (unfold pageSize in *; lia).
  assert (Hvm : (hhdm_offset limine + addr) mod pageSize = 0) by (rewrite Zplus_mod, Hal, hhdm_aligned; done).
  cbn [List.length] in Hmem. rewrite Nat2Z.inj_succ, Z.mul_succ_r in Hmem.
  pose proof (tables_for_nonneg 1 ltac:(lia)).
  assert (0 <= tables_for 1 * Z.of_nat (List.length todo)) by nia.
  destruct (kernel_memory_map limine Hhhdm root area m0 (tables_for 1 * Z.of_nat (List.length todo) + n) (vm m)
    (hhdm_offset limine + addr) addr (PageFlags_or PageFlags.Write PageFlags.CacheDisable))
    as (v & Hadd & Hmem' & _ & Hsv & Htr); try done; try (unfold hhdm_ok, pageSize in *; lia).
  { eapply kernel_memory_weaken; [|exact Hmem]. lia. }
  assert (Hlow : forall va, 0 <= va < 2 ^ 32 -> translate (with_vm m v) va = translate m va).
  { intros va Hva. change (vm_translate v va = vm_translate (vm m) va). rewrite Htr.
    rewrite (proj2 (Z.eqb_neq _ _)); [done|]. apply hhdm_apart; [exact Hhigh|unfold pageSize in *; lia|lia]. }
  exists v. split; [exact Hadd|]. split; [exact Hmem'| | |exact Hdev|exact Hbase|cbn [vm with_vm]; congruence| |].
  - intros a g i Hi. destruct (Hready a g i Hi) as [Hra Haa Hla Hda Hsa Hwa Hpa].
    split; try done; rewrite Hlow by (unfold pageSize in *; lia); done.
  - intros e He. apply Htodo. by right.
  - intros a g i Hi.
    destruct (decide (a = addr)) as [->|Hne].
    + right. intros off Ho. change (vm_translate v (kernel_physical_to_virtual limine addr + off) = Some (addr + off)).
      rewrite Htr, virtual_register by (unfold pageSize in *; lia).
      by destruct (page_start (hhdm_offset limine + addr) off Hvm Ho) as [-> ->].
    + destruct (Hmapped a g i Hi) as [Htd|Hma].
      { apply elem_of_cons in Htd as [[= -> -> ->]|Htd]; [done|by left]. }
      right. intros off Ho. pose proof (Hready a g i Hi) as [Hra Haa _ _ _ _ _].
      specialize (Hma off Ho). rewrite virtual_register in Hma |- * by (unfold pageSize in *; lia).
      change (vm_translate v (hhdm_offset limine + a + off) = Some (a + off)).
      rewrite Htr, (proj2 (Z.eqb_neq _ _)); [exact Hma|].
      rewrite <-Z.add_assoc. apply hhdm_pages_apart; [done|unfold pageSize in *; lia..|].
      unfold pageSize in *.
      apply Z.mod_divide in Haa as [y ->]; [|done]. apply Z.mod_divide in Hal as [z ->]; [|done].
      rewrite (Z.add_comm _ off), Z.div_add, (Z.div_small off), !Z.div_mul by lia. lia.
  - intros va Hva. rewrite <-(Hkept va Hva). change (vm_translate v va = vm_translate (vm m) va). rewrite Htr.
    specialize (Hva addr gsib id Hin). rewrite virtual_register in Hva by (unfold pageSize in *; lia).
    by rewrite (proj2 (Z.eqb_neq _ _)).
Qed.

(** The element stored for an entry. *)
Definition ioapic_of (e : Z * Z * Z) : IOAPIC :=
  let '(addr, gsib, id) := e in MkIOAPIC addr gsib id (io_last (controller addr)).

Lemma ioapic_version_reg x : 0 <= io_last x < 256 ->
  0 <= ioapic_reg x 1 < 2 ^ 32 /\ u8 (Z.land (Z.shiftr (ioapic_reg x 1) 16) 0xff) = io_last x.
Proof.
  intros Hx. unfold ioapic_reg. simpl. split.
  - apply lor_range; [lia|lia|]. rewrite Z.shiftl_mul_pow2 by done. change (2 ^ 16) with 65536. lia.
  - rewrite Z.shiftr_lor, Z.shiftr_shiftl_l by done. change (Z.shiftr 0x20 16) with 0. rewrite Z.lor_0_l, Z.shiftl_0_r.
    change 0xff with (Z.ones 8). by rewrite <-wrap_land, wrap_wrap, wrap_id by lia.
Qed.

(** The device of a ready controller. *)
Lemma ready_at m addr :
  ioapic_ready m addr -> exists r, ioapic_at m addr (select (controller addr) r).
Proof. intros [? ? ? [r Hr] ? ? ?]. exists r. by split. Qed.

Lemma ioapic_construct_spec ms n addr gsib id todo m :
  madt_inv ms n todo m -> (addr, gsib, id) ∈ all -> 0 <= gsib < 2 ^ 32 -> 0 <= id < 256 ->
  exists m', IOAPIC_construct (kernel_physical_to_virtual limine addr) gsib id m =
      Done (ioapic_of (addr, gsib, id), m') /\ madt_inv ms n todo m'.
Proof.
  intros Hinv Hin Hg Hid. pose proof (mi_ready _ _ _ _ Hinv _ _ _ Hin) as Hrdy.
  pose proof Hrdy as [Hr Hal Hl _ _ _ _].
  assert (Hu : u32 (kernel_physical_to_virtual limine addr) = addr).
  { unfold kernel_physical_to_virtual, wrap. rewrite Z.mod_mod_divide by (by exists (2 ^ 32)).
    destruct Hhigh as (H32 & _). rewrite Zplus_mod, H32, Z.add_0_r, Z.mod_mod by done.
    apply Z.mod_small. unfold pageSize in *. lia. }
  unfold IOAPIC_construct. rewrite Hu, (wrap_id 32 gsib), (wrap_id 8 id) by done.
  destruct (ready_at m addr Hrdy) as [r Hat].
  destruct (ioapic_version_reg (select (controller addr) r) Hl) as [Hv Hn].
  destruct (readRegister_spec m addr _ (MkIOAPIC addr gsib id 0) 1 eq_refl Hat) as (m' & -> & Hvm & Hb & Hd & Hat');
    [done|done|]. rewrite bind_done. cbv beta iota. rewrite Hn.
  exists m'. split; [done|]. destruct Hinv as [Hmem Hready Htodo (x & Hx & Hxk) Hbase Hsto Hmapped Hkept].
  split; rewrite ?Hvm, ?Hb; try done.
  - intros a g i Hi. destruct (Hready a g i Hi) as [Hra Haa Hla [ra Hda] Hsa Hwa Hpa].
    split; unfold translate in *; rewrite ?Hvm, ?Hd; try done. simpl.
    destruct (decide (a = addr)) as [->|Hne].
    + exists 1. by rewrite lookup_insert_eq.
    + exists ra. by rewrite lookup_insert_ne by done.
  - eexists. rewrite Hd, Hx. split; [reflexivity|]. intros a Ha. simpl.
    rewrite lookup_insert_ne by (intros <-; by eapply Ha). by apply Hxk.
  - intros a g i Hi. unfold translate. rewrite Hvm. by eapply Hmapped.
  - intros va Hva. unfold translate. rewrite Hvm. by apply Hkept.
Qed.

Lemma add_ioapic_spec ms n p addr gsib id todo m mgr :
  madt_inv ms n ((addr, gsib, id) :: todo) m -> 0 <= n ->
  hhdm_offset limine <= p -> lo <= p -> p + 10 <= end_ ->
  rd8 limine m0 p = id -> rd32 limine m0 (p + 2) = addr -> rd32 limine m0 (p + 6) = gsib ->
  List.length (m_ioApics mgr) = 16%nat -> 0 <= m_numIoApics mgr < 16 ->
  exists m', add_ioapic limine p (m, mgr) =
      Done (m', MkManager (<[Z.to_nat (m_numIoApics mgr) := ioapic_of (addr, gsib, id)]> (m_ioApics mgr))
                  (m_numIoApics mgr + 1)) /\
    madt_inv ms n todo m'.
Proof.
  intros Hinv Hn Hh Hlo He Hid Haddr Hgs Hlen Hnum. unfold add_ioapic.
  assert (Hb := fun a => mi_bytes _ _ _ _ a Hinv).
  rewrite (rd32_bytes m (p + 2)), Haddr by (lia || exact Hb).
  destruct (map_registers ms n addr gsib id todo m Hinv Hn) as (v & -> & Hinv').
  rewrite bind_done. unfold array_size. rewrite Hlen. change (Z.of_nat 16) with 16.
  rewrite (proj2 (Z.leb_gt _ _)) by lia. assert (Hb' := fun a => mi_bytes _ _ _ _ a Hinv').
  rewrite (rd32_bytes (with_vm m v) (p + 2)), (rd32_bytes (with_vm m v) (p + 6)), Haddr, Hgs by (lia || exact Hb').
  rewrite Hb', Hid by lia.
  assert (Hin : (addr, gsib, id) ∈ all) by (apply (mi_todo _ _ _ _ Hinv); left).
  destruct (ioapic_construct_spec ms n addr gsib id todo (with_vm m v) Hinv' Hin) as (m' & -> & Hinv2).
  { rewrite <-Hgs. apply (load_range 4 m0). }
  { rewrite <-Hid. apply load8_range. }
  rewrite bind_done. cbv beta iota. rewrite array_set_done, bind_done by lia.
  exists m'. split; [|done]. by rewrite (wrap_id 64) by lia.
Qed.

Lemma madt_step_eq p m mgr :
  madt_step limine (p, (m, mgr)) =
    (s ← (if rd8 limine (memory m) p =? 1 then add_ioapic limine (u64 (p + 2)) (m, mgr) else Done (m, mgr));
     Done (u64 (u64 (p + 2) + (rd8 limine (memory m) (p + 1) - 2)), s)).
Proof. done. Qed.

(** The whole loop. *)
Lemma madt_loop ms n p ios : madt_layout limine m0 end_ p ios -> 0 <= n -> forall fuel m mgr,
  madt_inv ms n ios m -> hhdm_offset limine <= p -> lo <= p -> end_ < 2 ^ 64 ->
  List.length (m_ioApics mgr) = 16%nat -> 0 <= m_numIoApics mgr ->
  m_numIoApics mgr + Z.of_nat (List.length ios) <= 16 -> (Z.to_nat (end_ - p) < fuel)%nat ->
  exists m', while fuel (fun s : Z * (machine H * APICManager) => fst s <? end_) (madt_step limine) (p, (m, mgr)) =
      Done (end_, (m', MkManager
        (take (Z.to_nat (m_numIoApics mgr)) (m_ioApics mgr) ++ (ioapic_of <$> ios) ++
           drop (Z.to_nat (m_numIoApics mgr) + List.length ios) (m_ioApics mgr))
        (m_numIoApics mgr + Z.of_nat (List.length ios)))) /\ madt_inv ms n [] m'.
Proof.
  intros Hlay Hspare.
  induction Hlay as [|p addr gsib id l Hty Hl12 Hend Hid Haddr Hgs Hlay IH|p l Hty Hl2 Hend Hlay IH];
    intros fuel m mgr Hinv Hh Hlo Hmax Hlen Hn0 Hn Hfuel; (destruct fuel as [|fuel]; [lia|]);
    rewrite while_unfold; simpl fst.
  - rewrite Z.ltb_irrefl. exists m. split; [|done]. simpl. rewrite Nat.add_0_r, take_drop, Z.add_0_r.
    by destruct mgr.
  - cbn [List.length] in Hn. rewrite (proj2 (Z.ltb_lt _ _)) by lia.
    rewrite madt_step_eq, !(mi_bytes _ _ _ _ _ Hinv) by lia. rewrite Hty. simpl Z.eqb. cbv iota.
    unfold hhdm_ok in Hhhdm.
    rewrite (wrap_id 64 (p + 2)) by lia.
    destruct (add_ioapic_spec ms n (p + 2) addr gsib id l m mgr) as (m' & -> & Hinv'); try done; try lia.
    { by rewrite <-Haddr, <-Z.add_assoc. }
    { by rewrite <-Hgs, <-Z.add_assoc. }
    rewrite !bind_done.
    replace (p + 2 + (rd8 limine m0 (p + 1) - 2)) with (p + rd8 limine m0 (p + 1)) by lia.
    rewrite (wrap_id 64) by lia.
    destruct (IH fuel m' (MkManager (<[Z.to_nat (m_numIoApics mgr) := ioapic_of (addr, gsib, id)]> (m_ioApics mgr))
      (m_numIoApics mgr + 1))) as (m2 & Hw & Hinv2);
      cbn [m_ioApics m_numIoApics]; rewrite ?length_insert; try done; try lia.
    exists m2. split; [|done]. rewrite Hw. do 3 f_equal. cbn [m_ioApics m_numIoApics List.length].
    rewrite fmap_cons.
    f_equal; [|lia]. replace (Z.to_nat (m_numIoApics mgr + 1)) with (S (Z.to_nat (m_numIoApics mgr))) by lia.
    rewrite (take_S_r _ _ (ioapic_of (addr, gsib, id))) by (apply list_lookup_insert_eq; lia).
    rewrite take_insert_ge, drop_insert_lt, <-app_assoc by lia. by rewrite Nat.add_succ_r.
  - rewrite (proj2 (Z.ltb_lt _ _)) by lia.
    rewrite madt_step_eq, !(mi_bytes _ _ _ _ _ Hinv) by lia.
    rewrite (proj2 (Z.eqb_neq _ _)) by done. rewrite bind_done. unfold hhdm_ok in Hhhdm.
    rewrite (wrap_id 64 (p + 2)) by lia.
    replace (p + 2 + (rd8 limine m0 (p + 1) - 2)) with (p + rd8 limine m0 (p + 1)) by lia.
    rewrite (wrap_id 64) by lia. by apply (IH fuel m mgr); try lia.
Qed.
End MadtSpec.

(** The contract of [initialize], for its callers. *)
Lemma APICManager_initialize_done {H} `{Devices H} limine (m : machine H) root area m0 rsdp rsdt table
    ios controller n fuel :
  let madt := kernel_physical_to_virtual limine table in
  let end_ := madt + header_length limine m0 madt in
  hhdm_ok limine -> higher_half limine -> memory m = m0 ->
  rsdp <> 0 -> rootSDTPhysicalAddress limine m0 rsdp = Done rsdt ->
  findSDTWithSignature limine m0 (kernel_physical_to_virtual limine rsdt) madt_signature
    (acpiRevision limine m0 rsdp) = table -> table <> 0 ->
  hhdm_offset limine <= madt -> end_ < 2 ^ 64 -> madt_layout limine m0 end_ (madt + madt_entries) ios ->
  (List.length ios <= 16)%nat -> (forall a, madt <= a < end_ -> area (phys limine a)) ->
  kernel_memory limine root area m0 (tables_for 1 * Z.of_nat (List.length ios) + n) (vm m) -> 0 <= n ->
  (forall addr gsib id, (addr, gsib, id) ∈ ios -> ioapic_ready controller m addr) ->
  header_length limine m0 madt < Z.of_nat fuel ->
  exists m', initialize limine fuel rsdp m APICManager_new =
      Done (m', MkManager ((ioapic_of controller <$> ios) ++ replicate (16 - List.length ios) no_ioapic)
                  (Z.of_nat (List.length ios))) /\
    madt_inv limine root area m0 ios controller m n [] m'.
Proof.
  intros madt end_ Hh Hhigh Hm Hrsdp Hroot Hfind Htab Hmadt Hend Hlay Hlen Harea Hmem Hn Hready Hfuel.
  unfold initialize. rewrite (proj2 (Z.eqb_neq _ _)) by done. rewrite Hm, Hroot, bind_done, Hfind.
  rewrite (proj2 (Z.eqb_neq _ _)) by done.
  fold madt. unfold parse_madt. simpl fst. rewrite Hm.
  assert (Hl0 : 0 <= header_length limine m0 madt) by apply (load_range 4 m0).
  assert (Hentries : madt + madt_entries <= end_).
  { inversion Hlay; subst; [lia|..]; pose proof (load8_range (memory m) (phys limine (madt + madt_entries + 1)));
      unfold rd8 in *; lia. }
  unfold hhdm_ok, madt_entries in *. change (madt + header_length limine m0 madt) with end_.
  rewrite !(wrap_id 64) by lia.
  destruct (madt_loop limine root area m0 madt end_ Hh Hhigh Harea ios controller m n (madt + 44) ios Hlay Hn
    fuel m APICManager_new) as (m' & Hw & Hinv); simpl; try done; try lia.
  { split; try done; [exists (pc_ioapics (devices (hw m))); by destruct (devices (hw m))|]. intros a g i Hi. by left. }
  exists m'. simpl in Hw. rewrite Hw, bind_done. simpl. split; [|done].
  change [no_ioapic; no_ioapic; no_ioapic; no_ioapic; no_ioapic; no_ioapic; no_ioapic; no_ioapic;
    no_ioapic; no_ioapic; no_ioapic; no_ioapic; no_ioapic; no_ioapic; no_ioapic; no_ioapic]
    with (replicate 16 no_ioapic). by rewrite drop_replicate.
Qed.

(** The root pointer's checksum covers [rsdp_bytes]; [rsdp_root] is where it points. *)
Definition rsdp_bytes limine (m : mem) (rsdp : Z) : list Z :=
  rd_bytes limine m rsdp (if acpiRevision limine m rsdp =? 0 then 20 else rsdpSize limine m rsdp).

Definition rsdp_root limine (m : mem) (rsdp : Z) : Z :=
  if acpiRevision limine m rsdp =? 0 then rsdtPhysicalAddress limine m rsdp else xsdtPhysicalAddress limine m rsdp.

(** C25. Initialising the APIC manager.  When the bytes of the root pointer do not
    add up to 0 modulo 256, and when there is no root pointer, the kernel panics;
    it also panics when the root table leads to no MADT.  Otherwise the walk over
    the entries of the MADT terminates and stores every I/O APIC of the table, in
    order, with its address, first interrupt and id from the table and the number
    of its last redirection entry from the device; the whole register page of each
    of them is mapped in the direct map, and no other page is mapped anew; the page
    tables stay well formed, no byte of the table is overwritten and no other
    device is touched. *)
Theorem APICManager_initialize_correct {H} `{Devices H} limine (m : machine H) root rsdp table
    ios controller fuel :
  let m0 := memory m in
  let madt := kernel_physical_to_virtual limine table in
  let end_ := madt + header_length limine m0 madt in
  let area := fun b => exists a, madt <= a < end_ /\ b = phys limine a in
  rsdp <> 0 ->
  findSDTWithSignature limine m0 (kernel_physical_to_virtual limine (rsdp_root limine m0 rsdp)) madt_signature
    (acpiRevision limine m0 rsdp) = table ->
  (total (rsdp_bytes limine m0 rsdp) mod 256 <> 0 ->
   initialize limine fuel rsdp m APICManager_new = Panic "invalid RSDP table") /\
  (total (rsdp_bytes limine m0 rsdp) mod 256 = 0 -> table = 0 ->
   initialize limine fuel rsdp m APICManager_new = Panic "MADT not found") /\
  (exists msg, initialize limine fuel 0 m APICManager_new = Panic msg) /\
  (total (rsdp_bytes limine m0 rsdp) mod 256 = 0 -> table <> 0 ->
   hhdm_ok limine -> higher_half limine ->
   hhdm_offset limine <= madt -> end_ < 2 ^ 64 -> madt_layout limine m0 end_ (madt + madt_entries) ios ->
   (List.length ios <= 16)%nat ->
   kernel_memory limine root area m0 (tables_for 1 * Z.of_nat (List.length ios)) (vm m) ->
   (forall addr gsib id, (addr, gsib, id) ∈ ios -> ioapic_ready controller m addr) ->
   header_length limine m0 madt < Z.of_nat fuel ->
   exists m', initialize limine fuel rsdp m APICManager_new =
      Done (m', MkManager ((ioapic_of controller <$> ios) ++ replicate (16 - List.length ios) no_ioapic)
                  (Z.of_nat (List.length ios))) /\
    page_tree_ok limine (vm_mem (vm m')) root /\
    (forall a, madt <= a < end_ -> rd8 limine (memory m') a = rd8 limine m0 a) /\
    (exists x, devices (hw m') = set_ioapics (devices (hw m)) x /\
       forall a, (forall gsib id, (a, gsib, id) ∉ ios) -> x !! a = pc_ioapics (devices (hw m)) !! a) /\
    (forall addr gsib id off, (addr, gsib, id) ∈ ios -> 0 <= off < pageSize ->
       translate m' (kernel_physical_to_virtual limine addr + off) = Some (addr + off)) /\
    (forall va, (forall addr gsib id, (addr, gsib, id) ∈ ios ->
        page_offset (kernel_physical_to_virtual limine addr) va <> 0) -> translate m' va = translate m va)).
Proof.
  intros m0 madt end_ area Hrsdp Hfind.
  destruct (acpi_checksums_correct limine m0 rsdp) as ([Hgood _] & [Hbad _] & _).
  fold (rsdp_bytes limine m0 rsdp) in Hgood, Hbad. fold (rsdp_root limine m0 rsdp) in Hgood.
  split; [|split; [|split; [by eexists|]]].
  - intros Hsum. unfold initialize. rewrite (proj2 (Z.eqb_neq _ _)) by done. fold m0. by rewrite Hbad.
  - intros Hsum Htab. unfold initialize. rewrite (proj2 (Z.eqb_neq _ _)) by done.
    fold m0. by rewrite Hgood, bind_done, Hfind, Htab.
  - intros Hsum Htab Hh Hhigh Hmadt Hend Hlay Hlen Hmem Hready Hfuel.
    assert (Harea : forall a, madt <= a < end_ -> area (phys limine a)) by (intros a Ha; by exists a).
    destruct (APICManager_initialize_done limine m root area m0 rsdp (rsdp_root limine m0 rsdp) table ios controller 0 fuel)
      as (m' & Hd & Hinv); try done; [by apply Hgood|by rewrite Z.add_0_r|].
    exists m'. split; [exact Hd|]. split; [|split; [|split; [apply Hinv|split; [|apply Hinv]]]].
    + eapply kernel_memory_tree, Hinv.
    + intros a Ha. by eapply mi_bytes.
    + intros addr gsib id off Hin Ho. destruct (mi_mapped _ _ _ _ _ _ _ _ _ _ Hinv _ _ _ Hin) as [Hnil|Hm]; [|by apply Hm].
      by apply not_elem_of_nil in Hnil.
Qed.

(** An entry of length 0 that is not an I/O APIC is never left: the loop over
    the entries does not end, however long it runs. *)
Theorem madt_zero_length_diverges {H} `{Platform H} limine (m : machine H) mgr madt fuel :
  let p := u64 (madt + madt_entries) in
  p < u64 (madt + header_length limine (memory m) madt) ->
  rd8 limine (memory m) p <> 1 -> rd8 limine (memory m) (p + 1) = 0 ->
  parse_madt limine fuel madt (m, mgr) = Diverged.
Proof.
  intros p Hp Hty Hlen. unfold parse_madt. simpl fst. fold p.
  assert (Hpr : 0 <= p < 2 ^ 64) by (by apply (wrap_range 64)).
  induction fuel as [|fuel IH]; [done|]. rewrite while_unfold. simpl fst.
  rewrite (proj2 (Z.ltb_lt _ _)) by done. rewrite madt_step_eq, Hlen, (proj2 (Z.eqb_neq _ _)), bind_done by done.
  assert (Hback : u64 (u64 (p + 2) + (0 - 2)) = p).
  { rewrite wrap_add_l. replace (p + 2 + (0 - 2)) with p by lia. by apply wrap_id. }
  rewrite Hback. exact IH.
Qed.

(** ** A concrete machine with ACPI tables

    A root pointer at 0x6000, a root table at 0x7000 whose second entry is the
    MADT at 0x9000, with a local APIC entry and an I/O APIC entry. *)
Definition acpi_ram : mem :=
  list_to_map (zip (seqZ 0x6000 20) [0; 0; 0; 0; 0; 0; 0; 0; 0x90; 0; 0; 0; 0; 0; 0; 0; 0; 0x70; 0; 0] ++
    zip (seqZ 0x7000 8) [82; 83; 68; 84; 44; 0; 0; 0] ++
    zip (seqZ 0x7024 8) [0; 0x80; 0; 0; 0; 0x90; 0; 0] ++
    zip (seqZ 0x9000 8) [65; 80; 73; 67; 64; 0; 0; 0] ++
    zip (seqZ 0x902c 20) [0; 8; 0; 0; 1; 0; 0; 0; 1; 12; 2; 0; 0; 0; 0xc0; 0xfe; 0; 0; 0; 0]).

Definition acpi_init : kmem :=
  match frame_allocator_init demo_limine (KMem acpi_ram None) with Done st => st | _ => KMem ∅ None end.
Definition acpi_alloc : kmem := KMem (ram acpi_init) (stack_pop <$> free_stack acpi_init).
Definition acpi_tree : kmem :=
  KMem (PageTreeNode_construct demo_limine (ram acpi_alloc) (kernel_physical_to_virtual demo_limine demo_root))
    (free_stack acpi_alloc).
Definition acpi_vm : vm_state := VM acpi_tree (Some (kernel_physical_to_virtual demo_limine demo_root)) demo_root.

Lemma acpi_free_frames : free_frames demo_limine acpi_init =
  [0x11000; 0x12000; 0x13000; 0x14000; 0x15000; 0x16000] ++ [0x17000].
Proof. vm_compute. reflexivity. Defined.

Lemma acpi_stack : free_stack acpi_init = Some (MkStack 0x10000 8 7).
Proof. vm_compute. reflexivity. Defined.

Lemma acpi_sys_ok : sys_ok demo_limine acpi_tree demo_root {[ [] := demo_root ]}.
Proof.
  apply (sys_ok_fresh demo_limine acpi_init acpi_alloc
    [0x11000; 0x12000; 0x13000; 0x14000; 0x15000; 0x16000]).
  - exact demo_hhdm_ok.
  - unfold allocator_ok. rewrite acpi_stack. split; vm_compute; intuition congruence.
  - exact acpi_free_frames.
  - rewrite acpi_free_frames. by apply (bool_decide_unpack _).
  - rewrite acpi_free_frames. by apply (bool_decide_unpack _).
  - rewrite acpi_free_frames. intros f a Hf Hin. unfold in_storage. rewrite acpi_stack. simpl.
    assert (0x11000 <= f); [|unfold in_frame in Hin; lia].
    clear Hin. revert f Hf. apply Forall_forall. by apply (bool_decide_unpack _).
  - vm_compute. reflexivity.
Defined.

(** The page of the I/O APIC identity mapped. *)
Definition acpi_mapped : vm_state :=
  match paging_add_mapping demo_limine 0xfec00000 0xfec00000 pageSize PageFlags.Write acpi_vm with
  | Done v => v
  | _ => acpi_vm
  end.

Definition acpi_machine : machine pc :=
  let d := demo_pc (Kbc 3 0 0 None None 0x65 false) in
  Machine (set_ioapics d {[ 0xfec00000 := IoApic 0 23 ∅ ]}) acpi_mapped 0.

Lemma acpi_frames_high f : f ∈ free_frames demo_limine acpi_tree \/ f = demo_root -> 0x11000 <= f.
Proof.
  intros [Hf| ->]; [|vm_compute; congruence].
  assert (free_frames demo_limine acpi_tree = [0x11000; 0x12000; 0x13000; 0x14000; 0x15000; 0x16000]) as He
    by (vm_compute; reflexivity).
  rewrite He in Hf. revert f Hf. apply Forall_forall. by apply (bool_decide_unpack _).
Defined.

(** The bytes of the MADT. *)
Definition acpi_table (b : Z) : Prop :=
  exists a, 0xffff800000009000 <= a < 0xffff800000009040 /\ b = phys demo_limine a.

Lemma acpi_table_apart b f :
  acpi_table b -> f ∈ free_frames demo_limine acpi_tree \/ f = demo_root -> ~ in_frame f b.
Proof.
  intros (a & Ha & ->) Hf Hin. apply acpi_frames_high in Hf. unfold in_frame, phys in Hin.
  change (hhdm_offset demo_limine) with 0xffff800000000000 in Hin.
  rewrite (proj2 (Z.leb_le _ _)) in Hin by lia. lia.
Defined.

Lemma acpi_memory :
  kernel_memory demo_limine demo_root acpi_table (ram acpi_tree) (tables_for 1 + tables_for 1) acpi_vm.
Proof.
  exists {[ [] := demo_root ]}. split.
  - exact acpi_sys_ok.
  - reflexivity.
  - reflexivity.
  - intros a _. reflexivity.
  - intros a p f Ha [_ <-]%lookup_singleton_Some. apply acpi_table_apart; [exact Ha|by right].
  - intros a f Ha Hf%next_frames_free. apply acpi_table_apart; [exact Ha|by left].
  - intros a (b & Hb & ->). change (vm_mem acpi_vm) with acpi_tree. unfold in_storage.
    change (free_stack acpi_tree) with (stack_pop <$> free_stack acpi_init). rewrite acpi_stack. unfold phys.
    change (hhdm_offset demo_limine) with 0xffff800000000000. rewrite (proj2 (Z.leb_le _ _)) by lia. simpl. lia.
  - vm_compute. congruence.
Defined.

Lemma acpi_mapped_ok :
  kernel_memory demo_limine demo_root acpi_table (ram (vm_mem acpi_mapped)) (tables_for 1) acpi_mapped.
Proof.
  destruct (kernel_memory_map demo_limine demo_hhdm_ok demo_root acpi_table (ram acpi_tree) (tables_for 1) acpi_vm
    0xfec00000 0xfec00000 PageFlags.Write acpi_memory) as (v & Hd & Hm & _).
  - apply (bool_decide_unpack _). vm_compute. exact I.
  - lia.
  - reflexivity.
  - vm_compute. congruence.
  - lia.
  - reflexivity.
  - vm_compute. congruence.
  - vm_compute. congruence.
  - unfold acpi_mapped. rewrite Hd. eapply kernel_memory_now. exact Hm.
Defined.

Lemma acpi_length :
  header_length demo_limine (memory acpi_machine) (kernel_physical_to_virtual demo_limine 0x9000) = 64.
Proof. vm_compute. reflexivity. Defined.

Lemma APICManager_initialize_correct_witness :
  exists m', initialize demo_limine 100 0xffff800000006000 acpi_machine APICManager_new =
      Done (m', MkManager (MkIOAPIC 0xfec00000 0 2 23 :: replicate 15 no_ioapic) 1) /\
    translate m' 0xffff8000fec00010 = Some 0xfec00010.
Proof.
  destruct (APICManager_initialize_correct demo_limine acpi_machine demo_root 0xffff800000006000 0x9000
    [(0xfec00000, 0, 2)] (fun _ => IoApic 0 23 ∅) 100) as (_ & _ & _ & Hi).
  - lia.
  - vm_compute. reflexivity.
  - destruct Hi as (m' & Hm & _ & _ & _ & Ht & _).
    + vm_compute. reflexivity.
    + lia.
    + exact demo_hhdm_ok.
    + split; [reflexivity|]. split; vm_compute; congruence.
    + vm_compute. congruence.
    + vm_compute. reflexivity.
    + apply layout_other.
      * vm_compute. congruence.
      * vm_compute. congruence.
      * vm_compute. congruence.
      * apply layout_ioapic; [vm_compute; reflexivity|vm_compute; congruence|vm_compute; congruence|
          vm_compute; reflexivity|vm_compute; reflexivity|vm_compute; reflexivity|].
        replace (_ + rd8 _ _ _) with (kernel_physical_to_virtual demo_limine 0x9000 +
          header_length demo_limine (memory acpi_machine) (kernel_physical_to_virtual demo_limine 0x9000))
          by (vm_compute; reflexivity).
        apply layout_end.
    + simpl. lia.
    + simpl List.length. rewrite Z.mul_1_r. rewrite acpi_length. exact acpi_mapped_ok.
    + intros addr gsib id Hin. apply list_elem_of_singleton in Hin. injection Hin as -> -> ->.
      split; try (vm_compute; intuition congruence). exists 0. reflexivity.
    + vm_compute. reflexivity.
    + exists m'. split; [exact Hm|].
      apply (Ht 0xfec00000 0 2 0x10); [by apply list_elem_of_singleton|unfold pageSize; lia].
Defined.

(** A MADT whose first entry has length 0. *)
Lemma madt_zero_length_diverges_witness :
  parse_madt demo_limine 1000
    0x9000 (Machine (demo_pc (Kbc 3 0 0 None None 0x65 false))
      (VM (KMem {[ 0x9004 := 60 ]} None) None 0) 0, APICManager_new) = Diverged.
Proof.
  apply madt_zero_length_diverges.
  - vm_compute. reflexivity.
  - vm_compute. congruence.
  - vm_compute. reflexivity.
Defined.
