(* ===== verification/Running.v ===== *)
(** * Memory accesses of the running kernel

    Once interrupts are on, a page fault is acknowledged through the mapped
    register page of the local APIC.  This file has the invariant of a running
    kernel ([live]), what a fault at any address does to it, and accesses through
    ordinary pointers. *)

From Stdlib Require Import ZArith Lia String.
From stdpp Require Import base gmap list list_numbers numbers strings.
From S2P Require Import Prelude Memory FrameAllocator PageTree Paging KernelMemory Processor Printf Idt EarlyFaults Acpi.
#[local] Open Scope Z_scope.

Section Access.
Context {H : Type} `{Platform H} (limine : limine_features).
Implicit Types m : machine H.

(** A 32-bit access through a pointer, after the page fault it may cause. *)
Definition access32 {A} (fuel : nat) (va : Z) m (k : Z -> machine H -> outcome A) : outcome A :=
  m ← touch limine fuel va m;
  match translate m va with
  | Some pa => k pa m
  | None => Diverged
  end.

Definition read32 (fuel : nat) (va : Z) m : outcome (Z * machine H) :=
  access32 fuel va m (fun pa m => Done (load32 (memory m) pa, m)).

Definition with_ram m (r : mem) : machine H :=
  with_vm m (VM (KMem r (free_stack (vm_mem (vm m)))) (page_tree (vm m)) (ptbr (vm m))).

Definition write32 (fuel : nat) (va v : Z) m : outcome (machine H) :=
  access32 fuel va m (fun pa m => Done (with_ram m (store32 (memory m) pa v))).

(** A mapped page does not fault. *)
Lemma touch_mapped fuel va m : translate m va <> None -> touch limine fuel va m = Done m.
Proof. unfold touch. by destruct (translate m va). Qed.

Lemma touch_all_mapped fuel vas m : Forall (fun va => translate m va <> None) vas -> touch_all limine fuel vas m = Done m.
Proof. induction 1 as [|va vas Hva _ IH]; [done|]. cbn [touch_all]. by rewrite touch_mapped, bind_done. Qed.

Lemma read32_mapped fuel va m pa :
  translate m va = Some pa -> read32 fuel va m = Done (load32 (memory m) pa, m).
Proof. intros Ht. unfold read32, access32. rewrite touch_mapped, bind_done; by rewrite Ht. Qed.

Lemma write32_mapped fuel va v m pa :
  translate m va = Some pa -> write32 fuel va v m = Done (with_ram m (store32 (memory m) pa v)).
Proof. intros Ht. unfold write32, access32. rewrite touch_mapped, bind_done; by rewrite Ht. Qed.
End Access.

(** ** The invariant *)
Section Live.
Context {H : Type} `{Devices H} (limine : limine_features) (Hhhdm : hhdm_ok limine) (root : Z).
Context (Hhigh : higher_half limine).
(** The bytes that stay as in [m0], and where the storage of the free stack is. *)
Context (area : Z -> Prop) (m0 : mem) (sto : option (Z * Z)).
Implicit Types m : machine H.
Abbreviation virt a := (kernel_physical_to_virtual limine a).

(** The devices are [d], no interrupt is in service, and [n] frames are free. *)
Record live (n : Z) (d : pc) m : Prop := {
  lv_memory : kernel_memory limine root area m0 n (vm m);
  lv_storage : storage (vm_mem (vm m)) = sto;
  lv_devices : devices (hw m) = d;
  lv_base : baseAddress m = virt (pc_lapic_base d);
  lv_lapic off : 0 <= off < pageSize -> translate m (virt (pc_lapic_base d) + off) = Some (pc_lapic_base d + off);
  lv_apart : pc_ioapics d !! pc_lapic_base d = None;
  lv_idle : la_in_service (pc_lapic d) = []
}.

Lemma live_weaken n n' d m : n' <= n -> live n d m -> live n' d m.
Proof. intros Hn [? ? ? ? ? ? ?]. split; try done. by eapply kernel_memory_weaken. Qed.

Lemma lapic_page_address d off :
  0 <= off < pageSize -> let va := virt (pc_lapic_base d) in
  va = hhdm_offset limine + pc_lapic_base d /\ va mod pageSize = 0 /\ u64 (va + off) = va + off.
Proof.
  intros Ho va. destruct (lapic_base_range d) as [Hr Hm].
  assert (Hva : va = hhdm_offset limine + pc_lapic_base d) by (by apply virtual_register).
  split; [exact Hva|]. split; [by rewrite Hva, Zplus_mod, hhdm_aligned, Hm|].
  apply wrap_id. rewrite Hva. unfold hhdm_ok, pageSize in *.
  apply Z.mod_divide in Hm as [y Hy]; [|done]. lia.
Qed.

Lemma live_eoi n d m : live n d m -> eoi_ready m.
Proof.
  intros [_ _ Hd Hb Hl Ha _]. unfold eoi_ready. rewrite Hd, Hb.
  destruct (lapic_page_address d LAPIC_EOI_REGISTER) as (_ & _ & ->); [done|]. by rewrite Hl.
Qed.

(** The invariant after an operation on the memory that keeps the page of the
    local APIC. *)
Lemma live_memory n n' d m v :
  live n d m -> kernel_memory limine root area m0 n' v -> storage (vm_mem v) = sto ->
  (forall off, 0 <= off < pageSize -> vm_translate v (virt (pc_lapic_base d) + off) = translate m (virt (pc_lapic_base d) + off)) ->
  live n' d (with_vm m v).
Proof.
  intros [Hm _ Hd Hb Hl Ha Hi] Hv Hsv Ht. split; try done. intros off Ho.
  change (translate (with_vm m v)) with (vm_translate v). by rewrite Ht, Hl.
Qed.

(** Changed devices. *)
Lemma live_devices n d d' m h :
  live n d m -> devices h = d' -> pc_lapic_base d' = pc_lapic_base d ->
  pc_ioapics d' !! pc_lapic_base d = None -> la_in_service (pc_lapic d') = [] -> live n d' (with_hw m h).
Proof.
  intros [Hm Hsto Hd Hb Hl Ha Hi] Hh Hbase Hio Hs. split; rewrite ?Hbase; done.
Qed.

(** The acknowledgement of a page fault: no interrupt is in service, so that it
    retires none. *)
Lemma live_end_of_interrupt n d m :
  live n d m -> exists m', sendEndOfInterrupt m = Done m' /\ live n d m' /\ vm m' = vm m.
Proof.
  intros Hm. destruct (live_eoi n d m Hm) as [Ht Hio]. pose proof Hm as [_ Hsto Hd Hb Hl Ha Hi].
  destruct (lapic_store m LAPIC_EOI_REGISTER 0 Ht ltac:(done) Hio) as (m' & Hs & Hv & Hb' & Hd').
  exists m'. split; [exact Hs|]. split; [|exact Hv].
  assert (Hd2 : devices (hw m') = d).
  { rewrite Hd', Hd. destruct d as [e p1 p2 kb msr [sv tp ic isv sent] io fl]. simpl in Hi. by subst isv. }
  destruct Hm as [Hmem _ _ _ _ _ _]. split; rewrite ?Hv, ?Hb'; try done.
  intros off Ho. unfold translate. rewrite Hv. by apply Hl.
Qed.

Lemma live_lapic_read n d m off v :
  live n d m -> 0 <= off < pageSize -> lapic_reg_read off (pc_lapic d) = Some v ->
  exists m', lapic_read off m = Done (u32 v, m') /\ live n d m' /\ vm m' = vm m.
Proof.
  intros [Hm Hsto Hd Hb Hl Ha Hi] Ho Hv. destruct (lapic_page_address d off Ho) as (_ & _ & Hu).
  destruct (lapic_load m off v) as (m' & Hr & Hvm & Hb' & Hd'); rewrite ?Hd, ?Hb, ?Hu; try done; [by apply Hl|].
  exists m'. split; [exact Hr|]. split; [|exact Hvm]. split; rewrite ?Hvm, ?Hb', ?Hd'; try done.
  intros off' Ho'. unfold translate. rewrite Hvm. by apply Hl.
Qed.

(** ** Faults *)
Lemma live_fault n d m va fuel :
  let k := num_pages (get_page_range va pageSize) in
  live (k + tables_for k + n) d m -> 0 <= n -> range_ok va pageSize -> k <= 2 ^ 36 ->
  k <= page_offset (page_floor va) (virt (pc_lapic_base d)) ->
  exists m' fs, page_fault limine fuel va m = Done m' /\ live n d m' /\
    Z.of_nat (List.length fs) = k /\ NoDup fs /\
    (forall f, f ∈ fs -> f ∈ free_frames limine (vm_mem (vm m)) /\ f ∉ free_frames limine (vm_mem (vm m'))) /\
    (forall f, f ∈ free_frames limine (vm_mem (vm m')) -> f ∈ free_frames limine (vm_mem (vm m))) /\
    (forall va', translate m' va' =
       match fs !! Z.to_nat (page_offset (page_floor va) va') with
       | Some f => Some (f + va' mod pageSize)
       | None => translate m va'
       end).
Proof.
  intros k Hm Hn Hr Hk Hap. destruct (kernel_memory_allocate limine Hhhdm root area m0 n (vm m) va pageSize
    PageFlags.Write (lv_memory _ _ _ Hm) ltac:(by split) Hr Hk Hn) as (v & fs & Hd & Hv & Hlen & Hnd & Hfs & Hsub & Hsv & Htr).
  fold k in Hlen.
  assert (Hkeep : forall off, 0 <= off < pageSize ->
    vm_translate v (virt (pc_lapic_base d) + off) = translate m (virt (pc_lapic_base d) + off)).
  { intros off Ho. destruct (lapic_page_address d off Ho) as (_ & Hal & _). rewrite Htr.
    rewrite lookup_ge_None_2; [done|].
    assert (Hp : page_index (virt (pc_lapic_base d) + off) = page_index (virt (pc_lapic_base d))).
    { apply page_offset_self. by apply page_start. }
    unfold page_offset in *. rewrite Hp. lia. }
  destruct (live_end_of_interrupt n d (with_vm m v)) as (m' & Heoi & Hm' & Hvm); [eapply live_memory; [exact Hm|exact Hv| |exact Hkeep]; by rewrite Hsv, (lv_storage _ _ _ Hm)|].
  exists m', fs. rewrite Hvm. split; [|split; [done|split; [done|split; [done|split; [done|split; [done|]]]]]].
  - assert (Ht : translate (with_vm m v) (u64 (baseAddress (with_vm m v) + LAPIC_EOI_REGISTER)) =
        Some (pc_lapic_base d + LAPIC_EOI_REGISTER)).
    { cbn [baseAddress with_vm]. rewrite (lv_base _ _ _ Hm).
      destruct (lapic_page_address d LAPIC_EOI_REGISTER) as (_ & _ & ->); [done|].
      change (translate (with_vm m v)) with (vm_translate v). rewrite Hkeep by done. by apply (lv_lapic _ _ _ Hm). }
    destruct fuel; cbn [page_fault]; rewrite Hd, bind_done; cbv zeta; by rewrite Ht.
  - intros va'. unfold translate at 1. rewrite Hvm. apply Htr.
Qed.

(** A page is mapped as a whole. *)
Lemma live_same_page n d m va va' :
  live n d m -> page_index va' = page_index va -> translate m va <> None -> translate m va' <> None.
Proof.
  intros [[G Hinv] _ _ _ _ _ _] Hp Hva. pose proof (sys_tree _ _ _ _ (km_sys _ _ _ _ _ _ _ Hinv)) as Ht.
  unfold translate in *. rewrite (km_root _ _ _ _ _ _ _ Hinv), (mmu_translate_eq _ _ _ Ht) in *.
  assert (Hl : leaf_entry (ram (vm_mem (vm m))) G va' = leaf_entry (ram (vm_mem (vm m))) G va).
  { rewrite page_index_indices in Hp. unfold leaf_entry.
    assert (path va' 3 = path va 3) as -> by (unfold path; simpl; by rewrite !Hp by lia).
    by rewrite Hp by lia. }
  rewrite Hl. by destruct (Z.testbit _ 0).
Qed.

(** The accesses to one page: at most the first one faults. *)
Lemma live_touch_page n d m va vas fuel :
  let k := num_pages (get_page_range va pageSize) in
  live (k + tables_for k + n) d m -> 0 <= n -> range_ok va pageSize -> 1 <= k <= 2 ^ 36 ->
  k <= page_offset (page_floor va) (virt (pc_lapic_base d)) ->
  Forall (fun va' => page_index va' = page_index va) vas ->
  exists m', touch_all limine fuel (va :: vas) m = Done m' /\ live n d m' /\ translate m' va <> None /\
    (translate m va <> None -> m' = m) /\
    (translate m va = None -> exists fs, Z.of_nat (List.length fs) = k /\ NoDup fs /\
      (forall f, f ∈ fs -> f ∈ free_frames limine (vm_mem (vm m)) /\ f ∉ free_frames limine (vm_mem (vm m'))) /\
      (forall f, f ∈ free_frames limine (vm_mem (vm m')) -> f ∈ free_frames limine (vm_mem (vm m))) /\
      (forall va', translate m' va' =
         match fs !! Z.to_nat (page_offset (page_floor va) va') with
         | Some f => Some (f + va' mod pageSize)
         | None => translate m va'
         end)).
Proof.
  intros k Hm Hn Hr Hk Hap Hvas. pose proof (tables_for_nonneg k ltac:(lia)).
  assert (Hrest : forall n' m', live n' d m' -> translate m' va <> None -> touch_all limine fuel vas m' = Done m').
  { intros n' m' Hm' Hva. apply touch_all_mapped. eapply Forall_impl; [exact Hvas|].
    intros va' Hp. exact (live_same_page n' d m' va va' Hm' Hp Hva). }
  cbn [touch_all]. unfold touch. destruct (translate m va) as [pa|] eqn:Hva.
  - exists m. rewrite bind_done, Hva. split; [eapply Hrest; [done|by rewrite Hva]|].
    split; [eapply live_weaken; [|exact Hm]; lia|]. done.
  - destruct (live_fault n d m va fuel Hm Hn Hr ltac:(lia) Hap) as (m' & fs & Hd & Hm' & Hlen & Hnd & Hfs & Hsub & Ht).
    fold k in Hlen.
    assert (Hva' : translate m' va <> None).
    { rewrite Ht. destruct (page_floor_bounds va (proj1 Hr)) as (Hfm & Hfb & _).
      replace (page_offset (page_floor va) va) with 0; [destruct fs; [simpl in Hlen; lia|done]|].
      destruct (page_start (page_floor va) (va - page_floor va) Hfm ltac:(lia)) as [Hz _].
      by replace (page_floor va + (va - page_floor va)) with va in Hz by lia. }
    exists m'. rewrite Hd, bind_done. split; [by eapply Hrest|]. split; [done|]. split; [done|]. split; [done|].
    intros _. by exists fs.
Qed.
End Live.

(** An address just below a page boundary takes the page behind it along. *)
Lemma two_pages e x :
  e mod pageSize = 0 -> 0 < x < pageSize -> pageSize <= e -> e + pageSize <= 2 ^ 64 - pageSize ->
  range_ok (e - x) pageSize /\ page_floor (e - x) = e - pageSize /\ num_pages (get_page_range (e - x) pageSize) = 2.
Proof.
  intros He Hx Hlo Hhi. assert (Hr : range_ok (e - x) pageSize) by (unfold range_ok, pageSize in *; lia).
  split; [done|]. destruct (get_page_range_bounds (e - x) pageSize Hr) as (Hfm & Hlm & _ & _ & Hf & Hl & _).
  destruct (num_pages_eq (e - x) pageSize Hr) as [Hn _]. specialize (Hl ltac:(unfold pageSize in *; lia)).
  destruct (page_floor_bounds (e - x) (proj1 Hr)) as (_ & Hb & _). rewrite Hf in *.
  apply Z.mod_divide in He as [y Hy]; [|done]. apply Z.mod_divide in Hfm as [z Hz]; [|done].
  apply Z.mod_divide in Hlm as [w Hw]; [|done]. unfold pageSize in *. split; lia.
Qed.
