(* ===== verification/SelfMapped.v ===== *)
(** * The memory under the kernel's own pointers

    The frame allocator and the page tables are accessed through pointers whose
    physical address the model takes for granted: the free stack through the
    identity map, page tables through the direct map of all physical memory.
    This file says what these maps are in the address space that is loaded
    ([identity_mapped], [direct_mapped]) and that the initial mappings of the
    kernel provide them.  Boot and Main show that nothing that the kernel maps
    later takes them away. *)

From Stdlib Require Import ZArith Lia.
From stdpp Require Import base gmap list list_numbers numbers strings.
From S2P Require Import Prelude Memory FrameAllocator PageTree Paging KernelMemory Acpi.
#[local] Open Scope Z_scope.

(** All physical memory but the first page, through the direct map. *)
Definition direct_mapped (limine : limine_features) (st : vm_state) : Prop :=
  forall a, 0x1000 <= a < 2 ^ 32 -> vm_translate st (kernel_physical_to_virtual limine a) = Some a.

(** The bytes [P] at their own addresses. *)
Definition identity_mapped (st : vm_state) (P : Z -> Prop) : Prop :=
  forall a, P a -> vm_translate st a = Some a.

(** The kernel image is linked away from both maps. *)
Definition image_apart (limine : limine_features) (symbols : linker_symbols) : Prop :=
  forall mp a, mp ∈ drop 2 (initial_mappings limine symbols) -> 0 <= a < 2 ^ 32 ->
    covers mp a = false /\ covers mp (kernel_physical_to_virtual limine a) = false.

Section SelfMapped.
Context (limine : limine_features) (symbols : linker_symbols).
Context (Hhhdm : hhdm_ok limine) (Hhigh : higher_half limine).
Abbreviation virt a := (kernel_physical_to_virtual limine a).
Abbreviation maps := (initial_mappings limine symbols).

Lemma page_index_low_half va : 0 <= va < 2 ^ 47 -> page_index va = va / pageSize /\ page_index va < 2 ^ 35.
Proof.
  intros Hva. assert (0 <= va / pageSize < 2 ^ 35).
  { unfold pageSize. split; [apply Z.div_pos; lia|apply Z.div_lt_upper_bound; lia]. }
  rewrite page_index_eq, Z.mod_small by lia. lia.
Qed.

(** The pages of the direct map lie in the upper half. *)
Lemma page_index_direct a :
  0 <= a < 2 ^ 32 ->
  let first := hhdm_offset limine mod 2 ^ 48 / pageSize in
  2 ^ 35 <= first <= 2 ^ 36 - 2 ^ 20 /\ page_index (virt a) = first + a / pageSize /\
  a / pageSize < 2 ^ 20 /\ 0 <= a / pageSize.
Proof.
  intros Ha first. assert (Haq : 0 <= a / pageSize < 2 ^ 20).
  { unfold pageSize. split; [apply Z.div_pos; lia|apply Z.div_lt_upper_bound; lia]. }
  destruct Hhigh as (_ & Hlo & Hhi).
  assert (Hf : 2 ^ 35 <= first <= 2 ^ 36 - 2 ^ 20).
  { unfold first, pageSize. split; [apply Z.div_le_lower_bound; lia|]. apply Z.div_le_upper_bound; lia. }
  split; [done|]. split; [|lia].
  rewrite (virtual_register limine Hhhdm a Ha), (hhdm_page_index limine a Hhigh Ha).
  assert (Hq : (hhdm_offset limine / pageSize) mod 2 ^ 36 = first).
  { unfold first, pageSize. change (2 ^ 48) with (0x1000 * 2 ^ 36). rewrite Z.rem_mul_r by done.
    rewrite Z.mul_comm, Z.div_add by done.
    rewrite (Z.div_small (hhdm_offset limine mod 0x1000)) by (by apply Z.mod_pos_bound). lia. }
  rewrite Zplus_mod, Hq, (Z.mod_small (a / pageSize)) by lia.
  destruct (decide (first + a / pageSize < 2 ^ 36)) as [|Hge]; [by apply Z.mod_small; lia|].
  exfalso. apply Hge. unfold first, pageSize in *.
  assert ((hhdm_offset limine mod 2 ^ 48) / 0x1000 <= (2 ^ 48 - 2 ^ 32) / 0x1000) as Hle by (apply Z.div_le_mono; lia).
  change ((2 ^ 48 - 2 ^ 32) / 0x1000) with (2 ^ 36 - 2 ^ 20) in Hle. lia.
Qed.

Lemma not_covered l va : Forall (fun mp => covers mp va = false) l -> last_mapping l va = None.
Proof. induction 1 as [|mp l Hmp _ IH]; [done|]. cbn [last_mapping]. by rewrite IH, Hmp. Qed.

Context (Hdirect : hhdm_offset limine + 2 ^ 33 <= 2 ^ 64) (Himage : image_apart limine symbols).

(** The mapping of the direct map. *)
Abbreviation direct_map := (MkMapping (MkRegion (hhdm_offset limine) 0x100000000) 0x0 PageFlags.Write).

Lemma direct_map_pages : map_base direct_map = hhdm_offset limine /\ map_pages direct_map = 2 ^ 20.
Proof.
  pose proof (hhdm_aligned limine Hhigh) as Hal. unfold hhdm_ok in Hhhdm.
  assert (Hb : page_floor (hhdm_offset limine) = hhdm_offset limine) by (apply page_floor_start; [lia|done]).
  split; [exact Hb|]. unfold map_pages, num_pages, get_page_range. cbn [from_virtual region_base region_size].
  change (u64 (page_floor UINT64_MAX - 0x100000000)) with (2 ^ 64 - 0x1000 - 2 ^ 32).
  rewrite Hb, (proj2 (Z.ltb_ge _ _)), (wrap_id 64 (_ + _)) by lia. cbn [first_page last_page]. unfold page_ceil.
  assert (Hm : (hhdm_offset limine + 0x100000000) mod pageSize = 0) by (rewrite Zplus_mod, Hal; done).
  rewrite Hm. cbn [Z.eqb]. replace (_ - _) with (2 ^ 32) by lia. reflexivity.
Qed.

Lemma image_maps va :
  (forall mp, mp ∈ drop 2 maps -> covers mp va = false) -> last_mapping (drop 2 maps) va = None.
Proof. intros Hc. by apply not_covered, Forall_forall. Qed.

Abbreviation identity_map := (MkMapping (MkRegion 0x1000 0x100000000) 0x1000 PageFlags.Write).

Lemma last_mapping_maps va :
  (forall mp, mp ∈ drop 2 maps -> covers mp va = false) ->
  last_mapping maps va =
    if covers direct_map va then Some (pageSize * page_offset (map_base direct_map) va, PageFlags.Write)
    else if covers identity_map va then Some (0x1000 + pageSize * page_offset 0x1000 va, PageFlags.Write) else None.
Proof.
  intros Hc%image_maps. change maps with (identity_map :: direct_map :: drop 2 maps).
  set (rest := drop 2 maps) in *. clearbody rest. cbn [last_mapping]. rewrite Hc.
  by destruct (covers direct_map va).
Qed.

(** The initial mappings provide both maps. *)
Lemma initial_direct a : 0 <= a < 2 ^ 32 -> last_mapping maps (virt a) = Some (pageSize * (a / pageSize), PageFlags.Write).
Proof.
  intros Ha. rewrite last_mapping_maps by (intros mp Hmp; apply (Himage mp a Hmp Ha)).
  destruct direct_map_pages as [Hb Hp]. destruct (page_index_direct a Ha) as (Hf & Hi & Hq).
  destruct (page_index_direct 0 ltac:(lia)) as (_ & Hi0 & _).
  rewrite (virtual_register limine Hhhdm 0), Z.add_0_r in Hi0 by lia. change (0 / pageSize) with 0 in Hi0.
  unfold covers. rewrite Hb, Hp. unfold page_offset. rewrite Hi, Hi0.
  replace (_ + _ - _) with (a / pageSize) by lia. rewrite Z.mod_small by lia.
  by rewrite (proj2 (Z.ltb_lt _ _)) by lia.
Qed.

Lemma initial_identity a :
  0x1000 <= a < 2 ^ 32 -> last_mapping maps a = Some (pageSize * (a / pageSize), PageFlags.Write).
Proof.
  intros Ha. rewrite last_mapping_maps by (intros mp Hmp; apply (Himage mp a Hmp); lia).
  destruct direct_map_pages as [Hb Hp]. destruct (page_index_direct 0 ltac:(lia)) as (Hf & Hi0 & _).
  destruct (page_index_low_half a ltac:(lia)) as [Hi _].
  assert (Hq : 1 <= a / pageSize < 2 ^ 20).
  { unfold pageSize. split; [apply Z.div_le_lower_bound; lia|apply Z.div_lt_upper_bound; lia]. }
  rewrite (virtual_register limine Hhhdm 0), Z.add_0_r in Hi0 by lia. change (0 / pageSize) with 0 in Hi0.
  set (first := hhdm_offset limine mod 2 ^ 48 / pageSize) in *.
  assert (Hno : covers direct_map a = false).
  { unfold covers. rewrite Hb, Hp. unfold page_offset. rewrite Hi, Hi0. apply Z.ltb_ge.
    replace (a / pageSize - (first + 0)) with (a / pageSize - first + 2 ^ 36 + (-1) * 2 ^ 36) by lia.
    rewrite Z_mod_plus_full, Z.mod_small by lia. lia. }
  assert (Hoff : page_offset 0x1000 a = a / pageSize - 1).
  { unfold page_offset. rewrite Hi. change (page_index 0x1000) with 1. apply Z.mod_small. lia. }
  assert (Hyes : covers identity_map a = true).
  { unfold covers. change (map_base identity_map) with 0x1000. change (map_pages identity_map) with (2 ^ 20).
    rewrite Hoff. apply Z.ltb_lt. lia. }
  rewrite Hno, Hyes, Hoff. do 2 f_equal. unfold pageSize in *. lia.
Qed.
End SelfMapped.
