(* ===== verification/FreeList.v ===== *)
(** * FreeListAllocator

    FreeListAllocator.h/.cpp and Allocator.h: the heap of the kernel, a list of
    free blocks threaded through the virtual memory it manages.  A block of
    virtual memory is backed by a frame on its first access (see Idt.v), so that
    the bytes behind virtual addresses are one [mem] here.

    [fl_insert] and [fl_take] say on lists of (address, size) pairs what the
    pointer manipulations are for; [heap_ok] relates the two. *)

From Stdlib Require Import ZArith Lia String.
From stdpp Require Import base gmap list list_numbers numbers.
From S2P Require Import Prelude Memory.
#[local] Open Scope Z_scope.

(** ** Headers

    FreeBlockHeader: size, next, prev.  UsedBlockHeader: size, magic. *)
Definition FreeBlockHeader_size : Z := 24.
Definition UsedBlockHeader_size : Z := 16.
Definition magic_constant : Z := 0x11223344aabbccdd.

Definition size (m : mem) (b : Z) : Z := load64 m b.
Definition next (m : mem) (b : Z) : Z := load64 m (b + 8).
Definition prev (m : mem) (b : Z) : Z := load64 m (b + 16).
Definition magic (m : mem) (b : Z) : Z := load64 m (b + 8).
Definition set_size (m : mem) (b v : Z) : mem := store64 m b v.
Definition set_next (m : mem) (b v : Z) : mem := store64 m (b + 8) v.
Definition set_prev (m : mem) (b v : Z) : mem := store64 m (b + 16) v.

(** Placement [new] of the two headers. *)
Definition new_FreeBlockHeader (m : mem) (b s n p : Z) : mem := set_prev (set_next (set_size m b s) b n) b p.
Definition new_UsedBlockHeader (m : mem) (b s : Z) : mem := store64 (store64 m b s) (b + 8) magic_constant.

Definition can_fit (m : mem) (this request : Z) : bool :=
  u64 (request + UsedBlockHeader_size) <=? size m this.

Definition perfect_fit (m : mem) (this request : Z) : bool :=
  u64 (request + UsedBlockHeader_size) =? size m this.

Definition real_size (m : mem) (this : Z) : Z := u64 (size m this + FreeBlockHeader_size).

Definition unlink (m : mem) (this : Z) : mem :=
  let m := if prev m this =? 0 then m else set_next m (prev m this) (next m this) in
  if next m this =? 0 then m else set_prev m (next m this) (prev m this).

(** The address of the new used block, and the memory. *)
Definition reserve_end (m : mem) (this request : Z) : Z * mem :=
  let allocation_size := u64 (request + UsedBlockHeader_size) in
  let free_block_end := u64 (this + FreeBlockHeader_size + size m this) in
  let allocated := u64 (free_block_end - allocation_size) in
  let m := new_UsedBlockHeader m allocated request in
  (allocated, set_size m this (u64 (size m this - allocation_size))).

Definition reserve_entire (m : mem) (this request : Z) : Z * mem :=
  (this, new_UsedBlockHeader (unlink m this) this request).

Definition coalesce_next (m : mem) (this : Z) : mem :=
  if negb (next m this =? 0) && (next m this =? u64 (this + real_size m this)) then
    let m := set_size m this (u64 (size m this + real_size m (next m this))) in
    set_next m this (next m (next m this))
  else m.

Definition coalesce_prev (m : mem) (this : Z) : mem :=
  if negb (prev m this =? 0) && (this =? u64 (prev m this + real_size m (prev m this))) then
    let m := set_size m (prev m this) (u64 (size m (prev m this) + real_size m this)) in
    set_next m (prev m this) (next m this)
  else m.

(** ** The allocator *)
Record heap := Heap { hmem : mem; head : Z }.

Definition allocate_impl (fuel : nat) (request : Z) (h : heap) : outcome (Z * heap) :=
  curr ← while fuel (fun curr => negb (curr =? 0) && negb (can_fit (hmem h) curr request))
    (fun curr => Done (next (hmem h) curr)) (head h);
  if curr =? 0 then Panic "ran out of virtual memory!"
  else if perfect_fit (hmem h) curr request then
    let '(allocated, m) := reserve_entire (hmem h) curr request in
    Done (u64 (allocated + UsedBlockHeader_size), Heap m (if curr =? head h then next m curr else head h))
  else
    let '(allocated, m) := reserve_end (hmem h) curr request in
    Done (u64 (allocated + UsedBlockHeader_size), Heap m (head h)).

Definition deallocate_impl (fuel : nat) (base : Z) (h : heap) : outcome heap :=
  let used_block := u64 (base - UsedBlockHeader_size) in
  if negb (magic (hmem h) used_block =? magic_constant) then Panic "invalid memory free"
  else
    s ← while fuel (fun s : Z * Z => negb (fst s =? 0) && (fst s <? used_block))
      (fun s : Z * Z => Done (next (hmem h) (fst s), fst s)) (head h, 0);
    let '(curr, prv) := s : Z * Z in
    let freed := used_block in
    let m := new_FreeBlockHeader (hmem h) freed
      (u64 (size (hmem h) used_block + UsedBlockHeader_size - FreeBlockHeader_size)) curr prv in
    let '(hd, m) := if prv =? 0 then (freed, m) else (head h, set_next m prv freed) in
    let m := if curr =? 0 then m else set_prev m curr freed in
    let m := coalesce_next m freed in
    let m := coalesce_prev m freed in
    Done (Heap m hd).

Definition add_memory_impl (fuel : nat) (base sz : Z) (h : heap) : outcome heap :=
  deallocate_impl fuel (u64 (base + UsedBlockHeader_size)) (Heap (new_UsedBlockHeader (hmem h) base sz) (head h)).

Definition get_size_impl (base : Z) (h : heap) : Z := size (hmem h) (u64 (base - UsedBlockHeader_size)).

(** The front end (Allocator) *)
Definition allocate := allocate_impl.
Definition deallocate := deallocate_impl.
Definition add_memory := add_memory_impl.
Definition get_size := get_size_impl.

(** ** What the operations are for *)

(** The first block that fits, and what is before and behind it. *)
Fixpoint first_fit (request : Z) (l : list (Z * Z)) : option (list (Z * Z) * (Z * Z) * list (Z * Z)) :=
  match l with
  | [] => None
  | b :: l =>
      if request + 16 <=? snd b then Some ([], b, l)
      else '(l1, c, l2) ← first_fit request l; Some (b :: l1, c, l2)
  end.

(** Merge a block with the block behind it, when they touch. *)
Definition fl_merge (b : Z * Z) (l : list (Z * Z)) : list (Z * Z) :=
  match l with
  | [] => [b]
  | c :: l => if fst c =? fst b + 24 + snd b then (fst b, snd b + 24 + snd c) :: l else b :: c :: l
  end.

Definition before (b : Z) (l : list (Z * Z)) : bool :=
  match l with c :: _ => fst c <? b | [] => false end.

(** Give a block back. *)
Fixpoint fl_insert (b : Z * Z) (l : list (Z * Z)) : list (Z * Z) :=
  match l with
  | c :: l' =>
      if fst c <? fst b then
        if before (fst b) l' then c :: fl_insert b l' else fl_merge c (fl_merge b l')
      else fl_merge b l
  | [] => [b]
  end.

(** Address [x] is in a free block. *)
Definition in_free (l : list (Z * Z)) (x : Z) : Prop := exists a s, (a, s) ∈ l /\ a <= x < a + 24 + s.

(** ** Well-formed heaps *)

(** The blocks of [l] are linked from [p] on; the last one links to [q]. *)
Fixpoint seg (m : mem) (p : Z) (l : list (Z * Z)) (q : Z) : Prop :=
  match l with
  | [] => p = q
  | (a, s) :: l => p = a /\ size m a = s /\ seg m (next m a) l q
  end.

(** The blocks ascend from [lo] to [hi] and do not touch each other. *)
Fixpoint sorted_in (lo : Z) (l : list (Z * Z)) (hi : Z) : Prop :=
  match l with
  | [] => lo <= hi
  | (a, s) :: l => lo <= a /\ 0 <= s /\ sorted_in (a + 24 + s + 1) l hi
  end.

(** [l] lists the free blocks; [U] maps the address of the header of each used
    block to its size. *)
Record heap_ok (h : heap) (l : list (Z * Z)) (U : gmap Z Z) : Prop := {
  ok_chain : seg (hmem h) (head h) l 0;
  ok_sorted : sorted_in 1 l (2 ^ 64 - 1);
  ok_used b n : U !! b = Some n ->
    0 < b /\ 0 <= n /\ b + 16 + n < 2 ^ 64 - 1 /\ size (hmem h) b = n /\ magic (hmem h) b = magic_constant;
  ok_used_apart b n b' n' : U !! b = Some n -> U !! b' = Some n' -> b <> b' ->
    b + 16 + n <= b' \/ b' + 16 + n' <= b;
  ok_free_used a s b n : (a, s) ∈ l -> U !! b = Some n -> a + 24 + s <= b \/ b + 16 + n <= a
}.

(** ** Segments *)
Lemma seg_app m p l1 l2 q : seg m p (l1 ++ l2) q <-> exists r, seg m p l1 r /\ seg m r l2 q.
Proof.
  revert p. induction l1 as [|[a s] l1 IH]; intros p; simpl.
  - split; [eauto|]. by intros (r & -> & ?).
  - rewrite IH. naive_solver.
Qed.

Lemma seg_same m m' p l q :
  (forall a s, (a, s) ∈ l -> same_bytes a (a + 16) m m') -> seg m p l q -> seg m' p l q.
Proof.
  revert p. induction l as [|[a s] l IH]; intros p Hs; simpl; [done|].
  assert (Ha : same_bytes a (a + 16) m m') by (apply (Hs a s); left).
  intros (-> & <- & Hseg). unfold size, next in *.
  rewrite (load_same 8 m m' a), (load_same 8 m m' (a + 8)) by (intros x Hx; apply Ha; lia).
  split_and!; [done|done|]. apply IH; [|done]. intros a' s' Hin. apply (Hs a' s'). by right.
Qed.

Lemma seg_head_range m p l : seg m p l 0 -> 0 <= p < 2 ^ 64 \/ exists s l', l = (p, s) :: l'.
Proof. destruct l as [|[a s] l]; simpl; [intros ->; left; lia|]. intros (-> & _). eauto. Qed.

Lemma sorted_in_app lo l1 l2 hi :
  sorted_in lo (l1 ++ l2) hi <-> exists mid, sorted_in lo l1 mid /\ sorted_in mid l2 hi.
Proof.
  revert lo. induction l1 as [|[a s] l1 IH]; intros lo; simpl.
  - split; [intros Hs; exists lo; split; [lia|done]|]. intros (mid & Hle & Hs).
    destruct l2 as [|[a s] l2]; simpl in *; [lia|]. split; [lia|apply Hs].
  - rewrite IH. naive_solver.
Qed.

Lemma sorted_in_elem lo l hi a s : sorted_in lo l hi -> (a, s) ∈ l -> lo <= a /\ 0 <= s /\ a + 24 + s < hi.
Proof.
  revert lo. induction l as [|[c t] l IH]; intros lo; simpl; [by rewrite elem_of_nil|].
  intros (Hlo & Ht & Hs) [[= -> ->]|Hin]%elem_of_cons.
  - assert (Hle : forall lo l hi, sorted_in lo l hi -> lo <= hi).
    { clear. intros lo l. revert lo. induction l as [|[a s] l IH]; intros lo hi; simpl; [done|].
      intros (? & ? & Hs%IH). lia. }
    apply Hle in Hs. lia.
  - destruct (IH _ Hs Hin). lia.
Qed.

Lemma sorted_in_weaken lo l hi lo' hi' : lo' <= lo -> hi <= hi' -> sorted_in lo l hi -> sorted_in lo' l hi'.
Proof.
  revert lo lo'. induction l as [|[a s] l IH]; intros lo lo' Hlo Hhi; simpl; [lia|].
  intros (? & ? & Hs). split_and!; [lia|done|]. by apply (IH (a + 24 + s + 1)).
Qed.

(** Around an address no free block contains, the list splits in two. *)
Lemma sorted_in_split lo l hi b e :
  lo <= b -> b < e <= hi -> sorted_in lo l hi ->
  (forall a s, (a, s) ∈ l -> a + 24 + s <= b \/ e <= a) ->
  exists l1 l2, l = l1 ++ l2 /\ sorted_in lo l1 (b + 1) /\ sorted_in e l2 hi.
Proof.
  revert lo. induction l as [|[a s] l IH]; intros lo Hlo He; simpl.
  - intros _ _. exists [], []. simpl. split_and!; [done|lia|lia].
  - intros (Ha & Hs & Hsort) Hap. destruct (Hap a s) as [Hb|Hb]; [left| |].
    + destruct (decide (a + 24 + s = b)) as [Heq|Hne].
      * exists [(a, s)], l. simpl. split_and!; [done|done|done|lia|].
        destruct l as [|[c t] l]; simpl in *; [lia|]. destruct (Hap c t); [right; left|lia|]; intuition lia.
      * destruct (IH (a + 24 + s + 1)) as (l1 & l2 & -> & H1 & H2); [lia|lia|done| |].
        { intros a' s' Hin. apply Hap. by right. }
        exists ((a, s) :: l1), l2. simpl. done.
    + exists [], ((a, s) :: l). simpl. split_and!; [done|lia|done|done|done].
Qed.

(** ** The memory operations *)

Lemma size_range m b : 0 <= size m b < 2 ^ 64.
Proof. apply load64_range. Qed.

Lemma next_range m b : 0 <= next m b < 2 ^ 64.
Proof. apply load64_range. Qed.

Lemma prev_range m b : 0 <= prev m b < 2 ^ 64.
Proof. apply load64_range. Qed.

(** Field reads across the field writes. *)
Ltac fields :=
  unfold new_FreeBlockHeader, new_UsedBlockHeader, size, next, prev, magic, set_size, set_next, set_prev in *;
  mem_simpl.

(** A write of a field changes eight bytes. *)
Lemma same_store64 m a v lo hi : lo <= a -> a + 8 <= hi -> same_outside lo hi m (store64 m a v).
Proof. intros ??. eapply same_outside_weaken; [| |apply store64_outside]; lia. Qed.

Lemma same_bytes_outside m m' lo hi a b :
  same_outside lo hi m m' -> b <= lo \/ hi <= a -> same_bytes a b m m'.
Proof. intros Hs Hd x Hx. apply Hs. lia. Qed.

(** A list behind an address is not changed by writes in front of it. *)
Lemma seg_outside m m' p l q lo hi lo' hi' :
  sorted_in lo l hi -> same_outside lo' hi' m m' -> hi <= lo' \/ hi' <= lo ->
  seg m p l q -> seg m' p l q.
Proof.
  intros Hs Ho Hd. apply seg_same. intros a s Hin. pose proof (sorted_in_elem _ _ _ _ _ Hs Hin).
  apply (same_bytes_outside _ _ _ _ _ _ Ho). lia.
Qed.

Lemma fl_merge_sorted b s l lo hi :
  lo <= b -> 0 <= s -> sorted_in (b + 24 + s) l hi -> b + 24 + s < hi -> sorted_in lo (fl_merge (b, s) l) hi.
Proof.
  intros Hlo Hs Hl Hhi. destruct l as [|[c t] l]; simpl in *; [lia|].
  destruct (Z.eqb_spec c (b + 24 + s)) as [->|Hne]; simpl.
  - destruct Hl as (_ & Ht & Hl). split_and!; [done|lia|].
    by replace (b + (s + 24 + t)) with (b + 24 + s + t) by lia; replace (b + 24 + (s + 24 + t) + 1)
      with (b + 24 + s + 24 + t + 1) by lia.
  - destruct Hl as (? & ? & Hl). split_and!; [done|done|lia|done|done].
Qed.

Lemma fl_merge_free b s l x :
  0 <= s -> (forall a t, (a, t) ∈ l -> 0 <= t) ->
  in_free (fl_merge (b, s) l) x <-> b <= x < b + 24 + s \/ in_free l x.
Proof.
  intros Hs Hl. unfold in_free. destruct l as [|[c t] l]; simpl.
  - setoid_rewrite list_elem_of_singleton. setoid_rewrite elem_of_nil. naive_solver.
  - assert (0 <= t) by (apply (Hl c); left). destruct (Z.eqb_spec c (b + 24 + s)) as [->|Hne]; simpl;
      repeat setoid_rewrite elem_of_cons; [|naive_solver].
    split.
    + intros (a & u & [[= -> ->]|Hin] & Hx); [|eauto 8].
      destruct (Z.lt_ge_cases x (b + 24 + s)); [left; lia|]. right. exists (b + 24 + s), t. split; [by left|lia].
    + intros [Hx|(a & u & [[= -> ->]|Hin] & Hx)]; [| |eauto 8].
      * exists b, (s + 24 + t). split; [by left|lia].
      * exists b, (s + 24 + t). split; [by left|lia].
Qed.

Lemma fl_insert_first b l : before (fst b) l = false -> fl_insert b l = fl_merge b l.
Proof. destruct l as [|c l]; [done|]. cbn. by intros ->. Qed.

Lemma fl_insert_after b l1 c l2 :
  (forall d, d ∈ l1 -> fst d < fst b) -> fst c < fst b -> before (fst b) l2 = false ->
  fl_insert b (l1 ++ c :: l2) = l1 ++ fl_merge c (fl_merge b l2).
Proof.
  intros H1 Hc H2. induction l1 as [|d l1 IH].
  - cbn [app fl_insert]. by rewrite (proj2 (Z.ltb_lt _ _)), H2 by done.
  - cbn [app fl_insert]. rewrite (proj2 (Z.ltb_lt _ _)) by (apply H1; left).
    assert (Hb : before (fst b) (l1 ++ c :: l2) = true).
    { destruct l1 as [|e l1]; apply Z.ltb_lt; [done|]. apply H1. right. left. }
    rewrite Hb, IH; [done|]. intros e He. apply H1. by right.
Qed.

Lemma coalesce_next_spec m b s l hi :
  0 < b -> b + 24 + s < hi -> hi <= 2 ^ 64 -> 0 <= s ->
  seg m b ((b, s) :: l) 0 -> sorted_in (b + 24 + s) l hi ->
  seg (coalesce_next m b) b (fl_merge (b, s) l) 0 /\
  same_outside b (b + 16) m (coalesce_next m b).
Proof.
  intros Hb He Hhi Hs (_ & Hsize & Hseg) Hsort. unfold coalesce_next, real_size, FreeBlockHeader_size.
  rewrite Hsize. rewrite (wrap_id 64 (s + 24)), (wrap_id 64 (b + (s + 24))) by lia.
  destruct l as [|[c t] l]; cbn [seg fl_merge fst snd] in *.
  - rewrite Hseg. simpl. done.
  - destruct Hseg as (Hbc & Ht & Hseg). destruct Hsort as (Hc & Ht0 & Hl). rewrite !Hbc.
    rewrite (proj2 (Z.eqb_neq c 0)) by lia. simpl negb. cbn [andb].
    replace (b + (s + 24)) with (b + 24 + s) by lia.
    assert (Hend : c + 24 + t < hi).
    { apply (sorted_in_elem c ((c, t) :: l)); [simpl; split_and!; [lia|done|done]|left]. }
    destruct (Z.eqb_spec c (b + 24 + s)) as [Heq|Hne]; [|simpl; split_and!; done].
    assert (Hoc : same_outside b (b + 16) m
      (set_next (set_size m b (u64 (s + u64 (size m c + 24)))) b (next m c))).
    { etrans; [|apply same_store64; lia]. apply same_store64; lia. }
    assert (Hnext : next (set_size m b (u64 (s + u64 (size m c + 24)))) c = next m c) by (fields; done).
    assert (Hcn : next (set_size m b (u64 (s + u64 (size m c + 24)))) b = c) by (fields; done).
    rewrite Hcn, Hnext. split; [|done]. cbn [seg]. split_and!; [done| |].
    + fields. rewrite Ht. rewrite (wrap_id 64 (t + 24)), (wrap_id 64 (s + _)), wrap_id by lia. lia.
    + assert (Hnb : next (set_next (set_size m b (u64 (s + u64 (size m c + 24)))) b (next m c)) b = next m c).
      { fields. apply wrap_id, load64_range. }
      rewrite Hnb. eapply seg_outside; [exact Hl|exact Hoc|right; lia|done].
Qed.

Lemma coalesce_prev_spec m c t b s l hi :
  0 < c -> c + 24 + t <= b -> b + 24 + s < hi -> hi <= 2 ^ 64 -> 0 <= t -> 0 <= s ->
  prev m b = c -> seg m c ((c, t) :: (b, s) :: l) 0 -> sorted_in (b + 24 + s + 1) l hi ->
  seg (coalesce_prev m b) c (fl_merge (c, t) ((b, s) :: l)) 0 /\
  same_outside c (c + 16) m (coalesce_prev m b).
Proof.
  intros Hc Hcb He Hhi Ht Hs Hprev (_ & Hct & Hcn & Hbs & Hseg) Hsort.
  unfold coalesce_prev, real_size, FreeBlockHeader_size. rewrite Hprev, Hct, Hbs.
  rewrite (wrap_id 64 (t + 24)), (wrap_id 64 (s + 24)), (wrap_id 64 (c + _)) by lia.
  rewrite (proj2 (Z.eqb_neq c 0)) by lia. cbn [negb andb fl_merge fst snd].
  replace (c + (t + 24)) with (c + 24 + t) by lia.
  destruct (Z.eqb_spec b (c + 24 + t)) as [Heq|Hne]; [|split; [by simpl|done]].
  rewrite (wrap_id 64 (t + _)) by lia.
  assert (Hp : prev (set_size m c (t + (s + 24))) b = c) by (rewrite <-Hprev; fields; done).
  assert (Hn : next (set_size m c (t + (s + 24))) b = next m b) by (fields; done).
  rewrite Hp, Hn.
  assert (Ho : same_outside c (c + 16) m (set_next (set_size m c (t + (s + 24))) c (next m b))).
  { etrans; [|apply same_store64; lia]. apply same_store64; lia. }
  split; [|done]. cbn [seg]. split_and!; [done| |].
  - fields. rewrite wrap_id by lia. lia.
  - assert (Hnb : next (set_next (set_size m c (t + (s + 24))) c (next m b)) c = next m b).
    { fields. apply wrap_id, load64_range. }
    rewrite Hnb. eapply seg_outside; [exact Hsort|exact Ho|right; lia|done].
Qed.

(** ** Linking a block into the list *)

(** The address of the last block. *)
Definition last_addr (p : Z) (l : list (Z * Z)) : Z := foldl (fun _ c => fst c) p l.

Lemma last_addr_snoc p l c : last_addr p (l ++ [c]) = fst c.
Proof. unfold last_addr. by rewrite foldl_app. Qed.

Lemma free_loop m b l1 l2 p pr q fuel :
  seg m p l1 q -> seg m q l2 0 -> (forall c, c ∈ l1 -> 0 < fst c < b) -> before b l2 = false ->
  (List.length l1 < fuel)%nat ->
  while fuel (fun s : Z * Z => negb (fst s =? 0) && (fst s <? b))
    (fun s : Z * Z => Done (next m (fst s), fst s)) (p, pr) = Done (q, last_addr pr l1).
Proof.
  revert p pr fuel. induction l1 as [|[a s] l1 IH]; intros p pr fuel; simpl List.length.
  - intros Hpq H2 _ Hb Hf. destruct fuel as [|fuel]; [lia|]. rewrite while_unfold. simpl in Hpq. subst p.
    simpl fst. destruct l2 as [|[c t] l2]; simpl in H2, Hb.
    + by subst q.
    + destruct H2 as (-> & _). by rewrite Hb, andb_false_r.
  - intros (-> & _ & Hseg) H2 Hl Hb Hf. destruct fuel as [|fuel]; [lia|]. rewrite while_unfold. simpl fst.
    destruct (Hl (a, s)) as [Ha0 Hab]; [left|]. simpl in Ha0, Hab.
    rewrite (proj2 (Z.eqb_neq a 0)), (proj2 (Z.ltb_lt a b)) by lia. simpl negb. cbn [andb].
    rewrite bind_done. apply IH; [done|done| |done|lia]. intros c Hc. apply Hl. by right.
Qed.

Lemma in_free_app l1 l2 x : in_free (l1 ++ l2) x <-> in_free l1 x \/ in_free l2 x.
Proof. unfold in_free. setoid_rewrite elem_of_app. naive_solver. Qed.

Lemma in_free_cons a s l x : in_free ((a, s) :: l) x <-> a <= x < a + 24 + s \/ in_free l x.
Proof. unfold in_free. setoid_rewrite elem_of_cons. naive_solver. Qed.

Lemma in_free_nil x : ~ in_free [] x.
Proof. by intros (a & s & Hin%elem_of_nil & _). Qed.

Definition relink (m : mem) (b s q prv : Z) : mem :=
  let m := new_FreeBlockHeader m b s q prv in
  let m := if prv =? 0 then m else set_next m prv b in
  if q =? 0 then m else set_prev m q b.

Lemma header_outside m b s q prv : same_outside b (b + 24) m (new_FreeBlockHeader m b s q prv).
Proof.
  unfold new_FreeBlockHeader, set_size, set_next, set_prev.
  etrans; [|apply same_store64; lia]. etrans; [|apply same_store64; lia]. apply same_store64; lia.
Qed.

(** The three writes: the new header, the link before it and the link behind. *)
Lemma relink_outside m b s q prv x :
  (x < b \/ b + 24 <= x) -> (prv = 0 \/ x < prv + 8 \/ prv + 16 <= x) -> (q = 0 \/ x < q + 16 \/ q + 24 <= x) ->
  load8 (relink m b s q prv) x = load8 m x.
Proof.
  intros Hb Hp Hq. unfold relink. transitivity (load8 (new_FreeBlockHeader m b s q prv) x); [|by apply header_outside].
  transitivity (load8 (if prv =? 0 then new_FreeBlockHeader m b s q prv
      else set_next (new_FreeBlockHeader m b s q prv) prv b) x).
  - destruct (Z.eqb_spec q 0); [done|]. apply store64_outside. lia.
  - destruct (Z.eqb_spec prv 0); [done|]. apply store64_outside. lia.
Qed.

Lemma relink_header m b s q prv :
  0 <= s < 2 ^ 64 -> 0 <= q < 2 ^ 64 -> 0 <= prv < 2 ^ 64 ->
  prv = 0 \/ prv + 24 <= b -> q = 0 \/ b + 24 <= q ->
  size (relink m b s q prv) b = s /\ next (relink m b s q prv) b = q /\ prev (relink m b s q prv) b = prv.
Proof.
  intros Hs Hq Hp Hpb Hqb.
  assert (Hh : forall f, f = 0 \/ f = 8 \/ f = 16 ->
    load64 (relink m b s q prv) (b + f) = load64 (new_FreeBlockHeader m b s q prv) (b + f)).
  { intros f Hf. unfold relink, set_next, set_prev.
    destruct (Z.eqb_spec prv 0), (Z.eqb_spec q 0); mem_simpl; done. }
  unfold size, next, prev. replace (load64 (relink m b s q prv) b) with (load64 (relink m b s q prv) (b + 0))
    by (f_equal; lia). rewrite !Hh by lia. replace (b + 0) with b by lia.
  fields. unwrap. done.
Qed.

(** The block behind another in a segment starts behind it. *)
Lemma seg_next_above m q l e hi : seg m q l 0 -> sorted_in e l hi -> q = 0 \/ e <= q.
Proof. destruct l as [|[d u] l]; simpl; [by left|]. intros (-> & _) (? & _). by right. Qed.

(** The blocks behind the one taken out, with the back link of the first. *)
Lemma seg_relinked m m' q l e hi :
  seg m q l 0 -> sorted_in e l hi -> 0 < e -> (forall x, e <= x -> q = 0 \/ x < q + 16 \/ q + 24 <= x -> load8 m' x = load8 m x) ->
  seg m' q l 0.
Proof.
  intros Hseg Hs He Hout. destruct l as [|[d u] l]; [done|]. simpl in *. destruct Hseg as (-> & Hsz & Hseg).
  destruct Hs as (Hd & Hu & Hs). split; [done|].
  assert (Hfield : forall f, f = 0 \/ f = 8 -> load64 m' (d + f) = load64 m (d + f)).
  { intros f Hf. apply (load_same 8). intros x Hx. apply Hout; lia. }
  split; [rewrite <-Hsz; unfold size; specialize (Hfield 0); rewrite Z.add_0_r in Hfield; by apply Hfield; left|].
  unfold next in *. rewrite Hfield by by right. apply (seg_same m); [|done].
  intros c v Hin x Hx. pose proof (sorted_in_elem _ _ _ _ _ Hs Hin). apply Hout; lia.
Qed.

Lemma relink_spec m b s l1 l2 p q hi :
  0 < b -> 0 <= s -> b + 24 + s < hi -> hi < 2 ^ 64 ->
  seg m p l1 q -> seg m q l2 0 -> sorted_in 1 l1 (b + 1) -> sorted_in (b + 24 + s) l2 hi ->
  let m' := relink m b s q (last_addr 0 l1) in
  seg m' (if last_addr 0 l1 =? 0 then b else p) l1 b /\ seg m' b ((b, s) :: l2) 0 /\
  prev m' b = last_addr 0 l1 /\
  (forall x, ~ in_free (l1 ++ (b, s) :: l2) x -> load8 m' x = load8 m x).
Proof.
  intros Hb Hs He Hhi H1 H2 Hs1 Hs2 m'.
  assert (Hq : q = 0 \/ exists t l, l2 = (q, t) :: l /\ b + 24 + s <= q /\ 0 <= t /\ q + 24 + t < hi).
  { destruct l2 as [|[c t] l]; simpl in H2; [by left|]. destruct H2 as (-> & _). right. exists t, l.
    pose proof (sorted_in_elem _ _ _ c t Hs2 ltac:(left)). split; [done|lia]. }
  assert (Hp : l1 = [] /\ last_addr 0 l1 = 0 \/
    exists l0 c t, l1 = l0 ++ [(c, t)] /\ last_addr 0 l1 = c /\ 1 <= c /\ 0 <= t /\ c + 24 + t <= b /\ sorted_in 1 l0 c).
  { destruct (list_snoc_cases l1) as [->|(l0 & [c t] & ->)]; [by left|]. right. exists l0, c, t.
    rewrite last_addr_snoc. apply sorted_in_app in Hs1 as (mid & Hs0 & Hc). simpl in Hc.
    pose proof (sorted_in_elem 1 (l0 ++ [(c, t)]) (b + 1) c t) as Hel.
    destruct Hel as (? & ? & ?); [apply sorted_in_app; exists mid; by simpl|rewrite elem_of_app; right; left|].
    split_and!; [done|done|lia|lia|lia|]. apply (sorted_in_weaken 1 _ mid); [lia|lia|done]. }
  set (prv := last_addr 0 l1) in *.
  assert (Hprv : prv = 0 \/ 0 < prv /\ prv + 24 <= b).
  { destruct Hp as [[_ ->]|(l0 & c & t & _ & -> & ?)]; [by left|right; lia]. }
  assert (Hq0 : q = 0 \/ b + 24 <= q) by (destruct Hq as [->|(? & ? & _ & ?)]; [by left|right; lia]).
  destruct (relink_header m b s q prv) as (Hsz & Hnx & Hpv); [lia| |lia|lia|lia|].
  { destruct Hq as [->|(? & ? & _ & ?)]; lia. }
  fold m' in Hsz, Hnx, Hpv. split_and!.
  - destruct Hp as [[-> ->]|(l0 & c & t & -> & Hc & Hc1 & Ht & Hcb & H0)]; [by rewrite Z.eqb_refl|].
    rewrite Hc, (proj2 (Z.eqb_neq c 0)) by lia. apply seg_app in H1 as (r & H1 & -> & Hct & Hcq). simpl in Hcq.
    assert (Ho : same_outside (c + 8) (2 ^ 64 + 24) m m').
    { intros x Hx. apply relink_outside; [lia| |].
      - right. lia.
      - destruct Hq as [->|(? & ? & _ & ?)]; [by left|right; lia]. }
    apply seg_app. exists c. split.
    + eapply seg_outside; [exact H0|exact Ho|left; lia|done].
    + simpl. split_and!; [done| |].
      * unfold size in *. rewrite <-Hct. apply (load_outside 8 m m' (c + 8) (2 ^ 64 + 24)); [done|lia].
      * unfold m', relink, next. rewrite Hc. rewrite (proj2 (Z.eqb_neq c 0)) by lia.
        destruct (Z.eqb_spec q 0); fields; [unwrap; done|]. unfold wrap. apply Z.mod_small. lia.
  - simpl. split_and!; [done|done|]. rewrite Hnx. apply (seg_relinked m _ _ _ _ _ H2 Hs2); [lia|].
    intros x Hx Hxq. apply relink_outside; lia.
  - done.
  - intros x Hx. rewrite in_free_app, in_free_cons in Hx. apply relink_outside; [lia| |].
    + destruct Hp as [[_ ->]|(l0 & c & t & -> & -> & ? & ? & _)]; [by left|]. right.
      rewrite in_free_app, in_free_cons in Hx. lia.
    + destruct Hq as [->|(t & l & -> & ? & ? & _)]; [by left|]. right. rewrite in_free_cons in Hx. lia.
Qed.

Lemma sorted_in_before e l hi b : b < e -> sorted_in e l hi -> before b l = false.
Proof. intros Hb. destruct l as [|[a s] l]; [done|]. simpl. intros (? & _). apply Z.ltb_ge. lia. Qed.

Lemma fl_merge_head b s l hi :
  0 <= s -> b + 24 + s < hi -> sorted_in (b + 24 + s) l hi ->
  exists s' l', fl_merge (b, s) l = (b, s') :: l' /\ s <= s' /\ b + 24 + s' < hi /\ sorted_in (b + 24 + s' + 1) l' hi.
Proof.
  intros Hs Hhi Hl. pose proof (fl_merge_sorted b s l b hi ltac:(lia) Hs Hl Hhi) as Hm.
  assert (Hmg : exists s' l', fl_merge (b, s) l = (b, s') :: l' /\ s <= s').
  { destruct l as [|[d u] l]; simpl; [exists s, []; split; [done|lia]|]. simpl in Hl.
    destruct (d =? b + 24 + s); eexists _, _; (split; [reflexivity|lia]). }
  destruct Hmg as (s' & l' & He & Hss). exists s', l'. rewrite He in Hm.
  pose proof (sorted_in_elem _ _ _ b s' Hm ltac:(left)). simpl in Hm. split; [done|]. split; [done|]. split; [lia|apply Hm].
Qed.

(** The two merges of a block that was linked in behind the block at [c]. *)
Lemma coalesce_behind m p l0 c t b s l2 hi :
  0 <= s -> b + 24 + s < hi -> hi < 2 ^ 64 -> seg m p (l0 ++ [(c, t)]) b -> seg m b ((b, s) :: l2) 0 -> prev m b = c ->
  sorted_in 1 (l0 ++ [(c, t)]) (b + 1) -> sorted_in (b + 24 + s) l2 hi ->
  let m' := coalesce_prev (coalesce_next m b) b in
  let l := l0 ++ fl_merge (c, t) (fl_merge (b, s) l2) in
  seg m' p l 0 /\ sorted_in 1 l hi /\
  (forall x, in_free l x <-> in_free ((l0 ++ [(c, t)]) ++ l2) x \/ b <= x < b + 24 + s) /\
  (forall x, ~ in_free l x -> load8 m' x = load8 m x).
Proof.
  intros Hs He Hhi H1 H2 Hpv Hs1 Hs2 m' l.
  apply sorted_in_app in Hs1 as (mid & Hs0 & Hcm & Ht & Hcb). simpl in Hcb.
  assert (Hc1 : 1 <= mid). { destruct l0 as [|[a u] l0]; [done|]. pose proof (sorted_in_elem _ _ _ a u Hs0 ltac:(left)). lia. }
  destruct (coalesce_next_spec m b s l2 hi) as (Hc2 & Ho2); [lia|done|lia|done|done|done|].
  set (m2 := coalesce_next m b) in *.
  assert (Hfield : forall f, f <= b - 8 \/ f = b + 16 -> load64 m2 f = load64 m f).
  { intros f Hf. apply (load_outside 8 m m2 b (b + 16)); [done|lia]. }
  apply seg_app in H1 as (r & Hr0 & -> & Hct & Hcn). simpl in Hcn.
  assert (Hseg2 : seg m2 c ((c, t) :: fl_merge (b, s) l2) 0).
  { unfold size, next in *. simpl. unfold size, next. rewrite !Hfield, Hct, Hcn by lia. done. }
  destruct (fl_merge_head b s l2 hi Hs He Hs2) as (s' & l' & Hmg & Hss' & He' & Hsm).
  assert (Hpos : forall a u, (a, u) ∈ l2 -> 0 <= u) by (intros a u Hin; pose proof (sorted_in_elem _ _ _ _ _ Hs2 Hin); lia).
  assert (Hpos' : forall a u, (a, u) ∈ fl_merge (b, s) l2 -> 0 <= u).
  { intros a u. rewrite Hmg. intros [[= -> ->]|Hin]%elem_of_cons; [lia|].
    pose proof (sorted_in_elem _ _ _ _ _ Hsm Hin). lia. }
  assert (Hfree : forall x, in_free l x <-> in_free ((l0 ++ [(c, t)]) ++ l2) x \/ b <= x < b + 24 + s).
  { intros x. unfold l. rewrite !in_free_app, fl_merge_free, fl_merge_free, in_free_cons by done.
    pose proof (in_free_nil x). tauto. }
  destruct (coalesce_prev_spec m2 c t b s' l' hi) as (Hc3 & Ho3);
    [lia|lia|done|lia|lia|lia|unfold prev in *; rewrite Hfield by lia; done|by rewrite <-Hmg|done|].
  fold m' in Hc3, Ho3. rewrite <-Hmg in Hc3. split_and!; [| |done|].
  - apply seg_app. exists c. split; [|done].
    eapply (seg_outside m2 _ _ _ _ 1 mid c (c + 16)); [done|done|lia|].
    eapply (seg_outside m _ _ _ _ 1 mid b (b + 16)); [done|done|lia|done].
  - apply sorted_in_app. exists mid. split; [done|]. rewrite Hmg.
    apply fl_merge_sorted; [done|done| |lia]. simpl. split_and!; [lia|lia|done].
  - intros x Hx. rewrite Hfree, in_free_app, in_free_app, in_free_cons in Hx. rewrite (Ho3 x), (Ho2 x); lia.
Qed.

(** Giving the block at [b] with [s + 8] bytes back: both lists it is put between. *)
Lemma insert_spec m p l1 l2 q b s hi :
  0 < b -> 0 <= s -> b + 24 + s < hi -> hi < 2 ^ 64 ->
  seg m p l1 q -> seg m q l2 0 -> sorted_in 1 l1 (b + 1) -> sorted_in (b + 24 + s) l2 hi ->
  let prv := last_addr 0 l1 in
  let m' := coalesce_prev (coalesce_next (relink m b s q prv) b) b in
  let l := fl_insert (b, s) (l1 ++ l2) in
  seg m' (if prv =? 0 then b else p) l 0 /\ sorted_in 1 l hi /\
  (forall x, in_free l x <-> in_free (l1 ++ l2) x \/ b <= x < b + 24 + s) /\
  (forall x, ~ in_free l x -> load8 m' x = load8 m x).
Proof.
  intros Hb Hs He Hhi H1 H2 Hs1 Hs2 prv m' l.
  destruct (relink_spec m b s l1 l2 p q hi Hb Hs He Hhi H1 H2 Hs1 Hs2) as (Hr1 & Hr2 & Hpv & Hout).
  fold prv in Hr1, Hr2, Hpv, Hout. set (m1 := relink m b s q prv) in *.
  assert (Hbf : before b l2 = false) by (eapply sorted_in_before; [|exact Hs2]; lia).
  destruct (list_snoc_cases l1) as [->|(l0 & [c t] & ->)].
  - destruct (coalesce_next_spec m1 b s l2 hi) as (Hc2 & Ho2); [done|done|lia|done|done|done|].
    assert (Hpv2 : prev (coalesce_next m1 b) b = 0).
    { transitivity (prev m1 b); [|done]. unfold prev. apply (load_outside 8 m1 _ b (b + 16)); [done|lia]. }
    unfold l, m', coalesce_prev. rewrite Hpv2. change prv with 0. cbn [Z.eqb negb andb app]. rewrite fl_insert_first by done.
    assert (Hpos : forall a t, (a, t) ∈ l2 -> 0 <= t) by (intros a t Hin; pose proof (sorted_in_elem _ _ _ _ _ Hs2 Hin); lia).
    split_and!; [done|by apply fl_merge_sorted; [lia|lia|done|done]| |].
    + intros x. rewrite fl_merge_free by done. tauto.
    + intros x. rewrite fl_merge_free by done. intros Hx. rewrite <-(Hout x).
      * apply Ho2. lia.
      * cbn [app]. rewrite in_free_cons. tauto.
  - assert (Hz : prv = c) by (unfold prv; by rewrite last_addr_snoc).
    assert (Hc : 1 <= c /\ 0 <= t /\ c + 24 + t < b + 1).
    { apply (sorted_in_elem _ _ _ _ _ Hs1). rewrite elem_of_app. right. left. }
    rewrite Hz, (proj2 (Z.eqb_neq c 0)) in * by lia.
    assert (Hls : l = l0 ++ fl_merge (c, t) (fl_merge (b, s) l2)).
    { unfold l. rewrite <-app_assoc. cbn [app]. apply fl_insert_after; [|simpl; lia|done].
      intros [a u] Hin. apply sorted_in_app in Hs1 as (mid & Hs0 & Hcm & _).
      pose proof (sorted_in_elem _ _ _ _ _ Hs0 Hin). simpl. lia. }
    destruct (coalesce_behind m1 p l0 c t b s l2 hi) as (Hseg & Hso & Hfree & Ho); try done.
    rewrite Hls. split; [exact Hseg|]. split; [exact Hso|]. split; [exact Hfree|].
    intros x Hx. unfold m'. rewrite (Ho x Hx). apply Hout. rewrite Hfree in Hx.
    rewrite in_free_app in Hx |- *. rewrite in_free_cons. tauto.
Qed.

(** ** The operations on well-formed heaps *)

(** The fields of a header whose bytes were not written. *)
Lemma header_same m m' b :
  same_bytes b (b + 16) m m' -> size m' b = size m b /\ next m' b = next m b /\ magic m' b = magic m b.
Proof.
  intros Hs. unfold size, next, magic.
  by rewrite (load_same 8 m m' b), (load_same 8 m m' (b + 8)) by (intros x Hx; apply Hs; lia).
Qed.

(** A header written apart from the used blocks makes one more used block. *)
Lemma used_insert h l U m' b n :
  heap_ok h l U -> 0 < b -> 0 <= n -> b + 16 + n < 2 ^ 64 - 1 ->
  size m' b = n -> magic m' b = magic_constant ->
  (forall b' n', U !! b' = Some n' ->
     (b + 16 + n <= b' \/ b' + 16 + n' <= b) /\ same_bytes b' (b' + 16) (hmem h) m') ->
  (forall b' n', <[b := n]> U !! b' = Some n' -> 0 < b' /\ 0 <= n' /\ b' + 16 + n' < 2 ^ 64 - 1 /\
     size m' b' = n' /\ magic m' b' = magic_constant) /\
  (forall b1 n1 b2 n2, <[b := n]> U !! b1 = Some n1 -> <[b := n]> U !! b2 = Some n2 -> b1 <> b2 ->
     b1 + 16 + n1 <= b2 \/ b2 + 16 + n2 <= b1).
Proof.
  intros [_ _ Hu Hua _] Hb Hn He Hsz Hmg Hold. split.
  - intros b' n' [[<- <-]|[Hne Hb']]%lookup_insert_Some; [done|].
    destruct (header_same _ _ _ (proj2 (Hold _ _ Hb'))) as (Hsz' & _ & Hmg'). rewrite Hsz', Hmg'. by apply Hu.
  - intros b1 n1 b2 n2 [[<- <-]|[Hne1 H1]]%lookup_insert_Some [[<- <-]|[Hne2 H2]]%lookup_insert_Some Hne; try done.
    + apply (Hold _ _ H2).
    + destruct (proj1 (Hold _ _ H1)); lia.
    + by apply (Hua b1 n1 b2 n2).
Qed.

Lemma heap_ok_new_used h l U b n :
  heap_ok h l U -> 0 < b -> 0 <= n -> b + 16 + n < 2 ^ 64 - 1 ->
  (forall a s, (a, s) ∈ l -> a + 24 + s <= b \/ b + 16 + n <= a) ->
  (forall b' n', U !! b' = Some n' -> b + 16 + n <= b' \/ b' + 16 + n' <= b) ->
  heap_ok (Heap (new_UsedBlockHeader (hmem h) b n) (head h)) l (<[b := n]> U).
Proof.
  intros Hok Hb Hn He Hl HU.
  assert (Ho : same_outside b (b + 16) (hmem h) (new_UsedBlockHeader (hmem h) b n)).
  { unfold new_UsedBlockHeader. etrans; [|apply same_store64; lia]. apply same_store64; lia. }
  destruct (used_insert h l U (new_UsedBlockHeader (hmem h) b n) b n Hok Hb Hn He) as [Hu' Hua'].
  { fields. unwrap. done. }
  { fields. by vm_compute. }
  { intros b' n' Hb'. destruct (ok_used _ _ _ Hok _ _ Hb'). split; [by apply HU|].
    apply (same_bytes_outside _ _ b (b + 16)); [done|]. destruct (HU _ _ Hb'); lia. }
  destruct Hok as [Hc Hs Hu Hua Hfu]. split; simpl; [|done|done|done|].
  - apply (seg_same (hmem h)); [|done]. intros a s Hin. apply (same_bytes_outside _ _ b (b + 16)); [done|].
    destruct (sorted_in_elem _ _ _ _ _ Hs Hin). destruct (Hl a s Hin); lia.
  - intros a s b' n' Hin [[<- <-]|[Hne Hb']]%lookup_insert_Some; [by apply Hl|by apply (Hfu a s b' n')].
Qed.

Lemma deallocate_done h l U b n fuel :
  heap_ok h l U -> U !! b = Some n -> 8 <= n -> (List.length l < fuel)%nat ->
  let l' := fl_insert (b, n - 8) l in
  exists h', deallocate fuel (b + 16) h = Done h' /\ heap_ok h' l' (delete b U) /\
    (forall x, in_free l' x <-> in_free l x \/ b <= x < b + 16 + n) /\
    (forall x, ~ in_free l' x -> load8 (hmem h') x = load8 (hmem h) x).
Proof.
  intros Hok Hb Hn Hf l'. destruct Hok as [Hc Hs Hu Hua Hfu].
  destruct (Hu b n Hb) as (Hb0 & _ & He & Hsz & Hmg).
  destruct (sorted_in_split 1 l (2 ^ 64 - 1) b (b + 16 + n)) as (l1 & l2 & -> & Hs1 & Hs2);
    [lia|lia|done|intros a s Hin; by apply (Hfu a s b n)|].
  apply seg_app in Hc as (q & Hc1 & Hc2).
  destruct (insert_spec (hmem h) (head h) l1 l2 q b (n - 8) (2 ^ 64 - 1)) as (Hseg & Hsort & Hfree & Hout);
    [done|lia|lia|lia|done|done|done|by replace (b + 24 + (n - 8)) with (b + 16 + n) by lia|].
  fold l' in Hseg, Hsort, Hfree, Hout. replace (b + 24 + (n - 8)) with (b + 16 + n) in Hfree by lia.
  unfold deallocate, deallocate_impl, UsedBlockHeader_size, FreeBlockHeader_size.
  replace (b + 16 - 16) with b by lia. rewrite (wrap_id 64 b), Hmg, Z.eqb_refl by lia. simpl negb.
  rewrite (free_loop _ b l1 l2 (head h) 0 q), bind_done; [|done|done| |eapply sorted_in_before; [|done]; lia|].
  2:{ intros [a s] Hin. pose proof (sorted_in_elem _ _ _ _ _ Hs1 Hin). simpl. lia. }
  2:{ rewrite length_app in Hf. lia. }
  rewrite Hsz. replace (n + 16 - 24) with (n - 8) by lia. rewrite (wrap_id 64 (n - 8)) by lia.
  unfold relink in *. set (prv := last_addr 0 l1) in *.
  set (m' := coalesce_prev _ b) in Hseg, Hout. exists (Heap m' (if prv =? 0 then b else head h)). split.
  { unfold m'. by destruct (prv =? 0). }
  split; [|done]. split; simpl.
  - done.
  - done.
  - intros b' n' [Hne Hb']%lookup_delete_Some. destruct (Hu b' n' Hb') as (? & ? & ? & Hsz' & Hmg').
    assert (Hh : forall x, b' <= x < b' + 16 -> load8 m' x = load8 (hmem h) x).
    { intros x Hx. apply Hout. rewrite Hfree. intros [(a & s & Hin & Hax)|Hbx].
      - destruct (Hfu a s b' n' Hin Hb'); lia.
      - destruct (Hua b n b' n' Hb Hb'); [done|lia|lia]. }
    destruct (header_same _ m' b' Hh) as (Hsz2 & _ & Hmg2). by rewrite Hsz2, Hmg2.
  - intros b1 n1 b2 n2 [_ H1]%lookup_delete_Some [_ H2]%lookup_delete_Some. by apply Hua.
  - intros a s b' n' Hin [Hne Hb']%lookup_delete_Some.
    assert (Hx : forall x, a <= x < a + 24 + s -> ~ (b' <= x < b' + 16 + n')).
    { intros x Hx Hbx. assert (Hfx : in_free l' x) by (exists a, s; done).
      apply Hfree in Hfx as [(a1 & s1 & Hin1 & Hax)|Hbx'].
      - destruct (Hfu a1 s1 b' n' Hin1 Hb'); lia.
      - destruct (Hua b n b' n' Hb Hb'); [done|lia|lia]. }
    pose proof (sorted_in_elem _ _ _ _ _ Hsort Hin). destruct (Hu b' n' Hb') as (? & ? & _).
    pose proof (Hx a). pose proof (Hx b'). lia.
Qed.

Lemma first_fit_some r l l1 a s l2 : first_fit r l = Some (l1, (a, s), l2) -> l = l1 ++ (a, s) :: l2 /\ r + 16 <= s.
Proof.
  revert l1. induction l as [|[c t] l IH]; intros l1; simpl; [done|]. destruct (Z.leb_spec (r + 16) t).
  - by intros [= <- <- <- <-].
  - destruct (first_fit r l) as [[[l1' c'] l2']|] eqn:He; simpl; [|done]. intros [= <- -> ->].
    destruct (IH l1' eq_refl) as [-> ?]. done.
Qed.

Lemma first_fit_none r l : first_fit r l = None -> Forall (fun b => snd b < r + 16) l.
Proof.
  induction l as [|[c t] l IH]; simpl; [constructor|]. destruct (Z.leb_spec (r + 16) t); [done|].
  destruct (first_fit r l) as [[[? ?] ?]|]; [done|]. constructor; [done|by apply IH].
Qed.

Lemma fit_loop m p l r fuel lo hi :
  0 <= r -> r + 16 < 2 ^ 64 -> 1 <= lo -> seg m p l 0 -> sorted_in lo l hi -> (List.length l < fuel)%nat ->
  while fuel (fun curr => negb (curr =? 0) && negb (can_fit m curr r)) (fun curr => Done (next m curr)) p =
  Done match first_fit r l with Some (_, (a, _), _) => a | None => 0 end.
Proof.
  intros Hr Hr' Hlo. revert p lo fuel Hlo. induction l as [|[a s] l IH]; intros p lo fuel Hlo Hseg Hs Hf;
    (destruct fuel as [|fuel]; [simpl in Hf; lia|]); rewrite while_unfold; simpl in Hseg.
  - by subst p.
  - destruct Hseg as (-> & Hsz & Hseg). simpl in Hs, Hf. destruct Hs as (Ha & Hs0 & Hs).
    rewrite (proj2 (Z.eqb_neq a 0)) by lia. unfold can_fit at 1. unfold UsedBlockHeader_size.
    rewrite Hsz, (wrap_id 64) by lia. simpl first_fit. destruct (r + 16 <=? s); [done|]. simpl negb. cbn [andb].
    rewrite bind_done, (IH _ (a + 24 + s + 1)); [|lia|done|done|lia].
    by destruct (first_fit r l) as [[[? [? ?]] ?]|].
Qed.

(** A used block cut out of a free one stays apart from what is left of the free
    blocks. *)
Lemma used_apart_insert h l1 a s l2 U (l : list (Z * Z)) p r :
  heap_ok h (l1 ++ (a, s) :: l2) U -> a <= p -> p + 16 + r <= a + 24 + s ->
  (forall c t, (c, t) ∈ l -> (c, t) ∈ l1 \/ (c, t) ∈ l2 \/ (c = a /\ t <= s /\ a + 24 + t <= p)) ->
  forall c t b n, (c, t) ∈ l -> <[p := r]> U !! b = Some n -> c + 24 + t <= b \/ b + 16 + n <= c.
Proof.
  intros [_ Hs _ _ Hfu] Hp Hr Hl c t b n Hct Hb.
  apply sorted_in_app in Hs as (mid & Hs1 & Hma & _ & Hs2).
  apply lookup_insert_Some in Hb as [[<- <-]|[_ HU]]; apply Hl in Hct as [Hct|[Hct|(-> & Hts & Htp)]].
  - pose proof (sorted_in_elem _ _ _ _ _ Hs1 Hct). lia.
  - pose proof (sorted_in_elem _ _ _ _ _ Hs2 Hct). lia.
  - lia.
  - apply (Hfu c t b n); [rewrite elem_of_app; by left|done].
  - apply (Hfu c t b n); [rewrite elem_of_app; right; by right|done].
  - destruct (Hfu a s b n); [rewrite elem_of_app; right; left|done|lia|lia].
Qed.

(** The block behind the first 24 + (s - (r + 16)) bytes gets a used header. *)
Lemma reserve_end_spec m a s r :
  1 <= a -> 0 <= r -> r + 16 < s -> a + 24 + s < 2 ^ 64 -> size m a = s ->
  let b := a + 8 + s - r in
  exists m', reserve_end m a r = (b, m') /\ size m' a = s - (r + 16) /\ size m' b = r /\ magic m' b = magic_constant /\
    (forall x, ~ a <= x < a + 8 -> ~ b <= x < b + 16 -> load8 m' x = load8 m x).
Proof.
  intros Ha Hr Hrs Has Hsz b. unfold reserve_end, UsedBlockHeader_size, FreeBlockHeader_size. rewrite Hsz.
  rewrite (wrap_id 64 (r + 16)), (wrap_id 64 (a + 24 + s)), (wrap_id 64 (a + 24 + s - (r + 16))) by lia.
  replace (a + 24 + s - (r + 16)) with b by (unfold b; lia). set (m1 := new_UsedBlockHeader m b r).
  assert (Ho1 : same_outside b (b + 16) m m1).
  { unfold m1, new_UsedBlockHeader. etrans; [|apply same_store64; lia]. apply same_store64; lia. }
  assert (Hs1 : size m1 a = s).
  { rewrite <-Hsz. unfold size. apply (load_outside 8 _ _ b (b + 16)); [done|unfold b; lia]. }
  rewrite Hs1, (wrap_id 64 (s - _)) by lia. eexists. split; [reflexivity|]. split_and!.
  - unfold size, set_size. mem_simpl. apply wrap_id. lia.
  - unfold m1. fields. unfold b in *. mem_simpl. unwrap. done.
  - unfold m1. fields. unfold b in *. mem_simpl. by vm_compute.
  - intros x Hx Hp. rewrite <-(Ho1 x) by lia. apply store64_outside. lia.
Qed.

(** A segment in which only the size of one block changes. *)
Lemma seg_resize m m' p l1 a s s' l2 hi :
  seg m p (l1 ++ (a, s) :: l2) 0 -> sorted_in 1 (l1 ++ (a, s) :: l2) hi -> size m' a = s' ->
  (forall x, x < a \/ a + 8 <= x < a + 16 \/ a + 24 + s <= x -> load8 m' x = load8 m x) ->
  seg m' p (l1 ++ (a, s') :: l2) 0.
Proof.
  intros Hc Hs Hsz Hout. apply sorted_in_app in Hs as (mid & Hs1 & Hma & Hs0 & Hs2).
  apply seg_app in Hc as (q & Hc1 & -> & _ & Hc2). apply seg_app. exists a. split.
  - apply (seg_same m); [|done]. intros c t Hct x Hx. pose proof (sorted_in_elem _ _ _ _ _ Hs1 Hct). apply Hout. lia.
  - simpl. split_and!; [done|done|].
    assert (Hn : next m' a = next m a). { unfold next. apply (load_same 8). intros x Hx. apply Hout. lia. }
    rewrite Hn. apply (seg_same m); [|done]. intros c t Hct x Hx.
    pose proof (sorted_in_elem _ _ _ _ _ Hs2 Hct). apply Hout. lia.
Qed.

(** A block is reserved at the end of the first free block with room for it. *)
Lemma allocate_done h l1 a s l2 U r fuel :
  heap_ok h (l1 ++ (a, s) :: l2) U -> 0 <= r -> first_fit r (l1 ++ (a, s) :: l2) = Some (l1, (a, s), l2) ->
  r + 16 < s -> (List.length (l1 ++ (a, s) :: l2) < fuel)%nat ->
  let p := a + 24 + s - r in
  exists m', allocate fuel r h = Done (p, Heap m' (head h)) /\
    heap_ok (Heap m' (head h)) (l1 ++ (a, s - (r + 16)) :: l2) (<[p - 16 := r]> U) /\
    U !! (p - 16) = None /\
    (forall x, ~ a <= x < a + 8 -> ~ p - 16 <= x < p -> load8 m' x = load8 (hmem h) x).
Proof.
  intros Hok Hr Hfit Hrs Hf p. pose proof Hok as [Hc Hs Hu Hua Hfu].
  assert (Hin : (a, s) ∈ l1 ++ (a, s) :: l2) by (rewrite elem_of_app; right; left).
  pose proof (sorted_in_elem _ _ _ _ _ Hs Hin) as Has.
  pose proof (proj1 (seg_app _ _ _ _ _) Hc) as (q & _ & -> & Hsz & _).
  destruct (reserve_end_spec (hmem h) a s r) as (m' & Hre & Hsa & Hsb & Hmb & Hout); [lia|done|done|lia|done|].
  replace (a + 8 + s - r) with (p - 16) in * by (unfold p; lia). replace (p - 16 + 16) with p in Hout by lia.
  exists m'. split.
  { unfold allocate, allocate_impl.
    rewrite (fit_loop _ _ (l1 ++ (a, s) :: l2) r fuel 1 (2 ^ 64 - 1)), Hfit, bind_done by (done || lia).
    rewrite (proj2 (Z.eqb_neq a 0)) by lia. unfold perfect_fit, UsedBlockHeader_size. rewrite Hsz.
    rewrite (wrap_id 64 (r + 16)), (proj2 (Z.eqb_neq (r + 16) s)), Hre by lia. rewrite wrap_id by (unfold p; lia).
    do 2 f_equal. lia. }
  assert (Hnone : U !! (p - 16) = None).
  { destruct (U !! (p - 16)) as [n|] eqn:HU; [|done]. destruct (Hu _ _ HU) as (? & ? & _).
    destruct (Hfu _ _ _ _ Hin HU); unfold p in *; lia. }
  split; [|done].
  destruct (used_insert h _ U m' (p - 16) r Hok) as [Hu' Hua']; [unfold p; lia|done|unfold p; lia|done|done| |].
  { intros b n HU. destruct (Hu _ _ HU) as (? & ? & _). pose proof (Hfu _ _ _ _ Hin HU).
    split; [unfold p; lia|]. intros x Hx. apply Hout; unfold p; lia. }
  split; [| |done|done|].
  - eapply seg_resize; [exact Hc|exact Hs|exact Hsa|]. intros x Hx. apply Hout; unfold p; lia.
  - apply sorted_in_app in Hs as (mid & Hs1 & Hma & _ & Hs2). apply sorted_in_app. exists mid.
    split; [done|]. simpl. split_and!; [done|lia|].
    apply (sorted_in_weaken (a + 24 + s + 1) _ (2 ^ 64 - 1)); [lia|lia|done].
  - apply (used_apart_insert h l1 a s l2); [done|unfold p; lia|unfold p; lia|].
    intros c t [Hct|[[= -> ->]|Hct]%elem_of_cons]%elem_of_app; [by left| |right; by left].
    right. right. unfold p. lia.
Qed.

(** The writes of [unlink] to a block and its successor. *)
Lemma unlink_outside m a c q x :
  prev m a = c -> next m a = q -> c + 24 <= a -> q = 0 \/ a + 24 <= q ->
  (c = 0 \/ x < c + 8 \/ c + 16 <= x) -> (q = 0 \/ x < q + 16 \/ q + 24 <= x) ->
  load8 (unlink m a) x = load8 m x.
Proof.
  intros Hp Hq Hc Hqa Hxc Hxq. unfold unlink. rewrite Hp, Hq.
  destruct (Z.eqb_spec c 0) as [Hc0|Hc0].
  - rewrite Hq. destruct (Z.eqb_spec q 0); [done|]. apply store64_outside. lia.
  - assert (Hq' : next (set_next m c q) a = q) by (rewrite <-Hq; fields; done).
    rewrite Hq'. transitivity (load8 (set_next m c q) x); [|apply store64_outside; lia].
    destruct (Z.eqb_spec q 0); [done|]. apply store64_outside. lia.
Qed.

Lemma allocate_perfect h l1 a s l2 U r fuel :
  heap_ok h (l1 ++ (a, s) :: l2) U -> 0 <= r -> first_fit r (l1 ++ (a, s) :: l2) = Some (l1, (a, s), l2) ->
  s = r + 16 -> (List.length (l1 ++ (a, s) :: l2) < fuel)%nat ->
  allocate fuel r h = Done (a + 16, Heap (new_UsedBlockHeader (unlink (hmem h) a) a r)
    match l1 with [] => magic_constant | _ => head h end).
Proof.
  intros Hok Hr Hfit Hrs Hf. destruct Hok as [Hc Hs _ _ _].
  assert (Has : 1 <= a /\ 0 <= s /\ a + 24 + s < 2 ^ 64 - 1).
  { apply (sorted_in_elem _ _ _ _ _ Hs). rewrite elem_of_app. right. left. }
  unfold allocate, allocate_impl.
  rewrite (fit_loop _ _ (l1 ++ (a, s) :: l2) r fuel 1 (2 ^ 64 - 1)), Hfit, bind_done by (done || lia).
  rewrite (proj2 (Z.eqb_neq a 0)) by lia. unfold perfect_fit, reserve_entire, UsedBlockHeader_size.
  pose proof Hc as Hc'. apply seg_app in Hc' as (q & Hc1 & Hqa & Hsz & _). subst q.
  rewrite Hsz, (wrap_id 64 (r + 16)), (wrap_id 64 (a + 16)) by lia.
  rewrite (proj2 (Z.eqb_eq (r + 16) s)) by lia. do 3 f_equal.
  destruct l1 as [|[c t] l1]; simpl in Hc1.
  - rewrite Hc1, Z.eqb_refl. fields. by vm_compute.
  - destruct Hc1 as (-> & _). simpl in Hs. destruct Hs as (? & ? & Hs).
    apply sorted_in_app in Hs as (mid & Hs1 & Hs2).
    assert (Hac : c < a).
    { simpl in Hs2. destruct l1 as [|[d u] l1]; simpl in Hs1; [lia|].
      assert (Hm : d <= a); [|lia]. assert (Hdm : d < mid); [|lia].
      pose proof (sorted_in_elem (c + 24 + t + 1) ((d, u) :: l1) mid d u Hs1 ltac:(left)). lia. }
    by rewrite (proj2 (Z.eqb_neq a c)) by lia.
Qed.

(** Taking the block at [a] out of the list and writing a used header over it: only
    the links of its neighbours and the header change. *)
Lemma unlink_reserve m a r c q :
  prev m a = c -> next m a = q -> 1 <= c -> c + 24 <= a -> q = 0 \/ a + 24 <= q ->
  let m' := new_UsedBlockHeader (unlink m a) a r in
  next m' c = q /\
  forall x, x < c + 8 \/ c + 16 <= x -> q = 0 \/ x < q + 16 \/ q + 24 <= x -> x < a \/ a + 16 <= x ->
    load8 m' x = load8 m x.
Proof.
  intros Hp Hq Hc1 Hca Hqa m'. split.
  - assert (Hq' : next (set_next m c q) a = q) by (rewrite <-Hq; fields; done).
    pose proof (next_range m a) as Hqr. rewrite Hq in Hqr.
    unfold m', unlink. rewrite Hp, Hq, (proj2 (Z.eqb_neq c 0)), Hq' by lia.
    destruct (Z.eqb_spec q 0) as [Hq0|Hq0]; fields; by apply wrap_id.
  - intros x Hxc Hxq Hxa. transitivity (load8 (unlink m a) x).
    + unfold m', new_UsedBlockHeader. rewrite (store64_outside _ (a + 8)) by lia. apply store64_outside. lia.
    + apply (unlink_outside _ _ c q); [done|done|lia|lia|lia|done].
Qed.

Lemma seg_unlink m a r p l0 c t s l2 hi :
  seg m p ((l0 ++ [(c, t)]) ++ (a, s) :: l2) 0 -> sorted_in 1 ((l0 ++ [(c, t)]) ++ (a, s) :: l2) hi -> prev m a = c ->
  seg (new_UsedBlockHeader (unlink m a) a r) p ((l0 ++ [(c, t)]) ++ l2) 0.
Proof.
  intros Hc Hs Hprev. apply sorted_in_app in Hs as (mid & Hs1 & Hma & Hs0 & Hs2). pose proof Hs1 as Hs1'.
  apply sorted_in_app in Hs1 as (mid0 & Hl0 & Hct). simpl in Hct.
  assert (Hcb : 1 <= c /\ 0 <= t /\ c + 24 + t < mid).
  { apply (sorted_in_elem _ _ _ _ _ Hs1'). rewrite elem_of_app. right. left. }
  apply seg_app in Hc as (x & Hc1 & -> & Hsz & Hc2). apply seg_app in Hc1 as (x & Hc0 & -> & Hct' & Hca).
  pose proof (seg_next_above _ _ _ _ _ Hc2 Hs2) as Hq.
  destruct (unlink_reserve m a r c (next m a)) as [Hnc Hout]; [done|done|lia|lia|lia|].
  rewrite <-app_assoc. apply seg_app. exists c. split.
  - apply (seg_same m); [|done]. intros d u Hd x Hx. pose proof (sorted_in_elem _ _ _ _ _ Hl0 Hd). apply Hout; lia.
  - simpl. split_and!; [done| |].
    + rewrite <-Hct'. unfold size. apply (load_same 8). intros x Hx. apply Hout; lia.
    + rewrite Hnc. apply (seg_relinked m _ _ _ _ _ Hc2 Hs2); [lia|]. intros x Hx Hxq. apply Hout; lia.
Qed.

Lemma allocate_perfect_ok h l0 c t a s l2 U r :
  heap_ok h ((l0 ++ [(c, t)]) ++ (a, s) :: l2) U -> 0 <= r -> s = r + 16 -> prev (hmem h) a = c ->
  heap_ok (Heap (new_UsedBlockHeader (unlink (hmem h) a) a r) (head h)) ((l0 ++ [(c, t)]) ++ l2) (<[a := r]> U).
Proof.
  intros Hok Hr Hrs Hprev. pose proof Hok as [Hc Hs Hu Hua Hfu].
  assert (Hin : (a, s) ∈ (l0 ++ [(c, t)]) ++ (a, s) :: l2) by (rewrite elem_of_app; right; left).
  assert (Hcin : (c, t) ∈ (l0 ++ [(c, t)]) ++ (a, s) :: l2) by (rewrite !elem_of_app; left; right; left).
  pose proof (sorted_in_elem _ _ _ _ _ Hs Hin) as Has. pose proof (sorted_in_elem _ _ _ _ _ Hs Hcin) as Hcb.
  pose proof (seg_unlink (hmem h) a r (head h) l0 c t s l2 _ Hc Hs Hprev) as Hseg.
  apply sorted_in_app in Hs as (mid & Hs1 & Hma & _ & Hs2).
  assert (Hct : c + 24 + t < mid) by (apply (sorted_in_elem _ _ _ _ _ Hs1); rewrite elem_of_app; right; left).
  apply seg_app in Hc as (x & _ & -> & _ & Hc2). pose proof (seg_next_above _ _ _ _ _ Hc2 Hs2) as Hq.
  destruct (unlink_reserve (hmem h) a r c (next (hmem h) a)) as [_ Hout]; [done|done|lia|lia|lia|].
  set (m' := new_UsedBlockHeader (unlink (hmem h) a) a r) in *.
  destruct (used_insert h _ U m' a r Hok) as [Hu' Hua']; [lia|done|lia| | | |].
  { unfold m'. fields. unwrap. done. }
  { unfold m'. fields. by vm_compute. }
  { intros b n HU. destruct (Hu _ _ HU) as (? & ? & _). pose proof (Hfu _ _ _ _ Hin HU).
    split; [lia|]. intros x Hx. pose proof (Hfu _ _ _ _ Hcin HU).
    assert (Hqu : next (hmem h) a = 0 \/ next (hmem h) a + 24 <= b \/ b + 16 + n <= next (hmem h) a).
    { destruct l2 as [|[d u] l2]; simpl in Hc2, Hs2; [by left|]. destruct Hc2 as (-> & _). right.
      destruct (Hfu d u b n); [rewrite elem_of_app; right; right; left|done|lia|lia]. }
    apply Hout; lia. }
  split; [exact Hseg| |done|done|].
  - apply sorted_in_app. exists mid. split; [done|]. apply (sorted_in_weaken (a + 24 + s + 1) _ (2 ^ 64 - 1)); [lia|lia|done].
  - apply (used_apart_insert h (l0 ++ [(c, t)]) a s l2); [done|lia|lia|].
    intros d u [Hd|Hd]%elem_of_app; auto.
Qed.

Lemma delete_new (U : gmap Z Z) b n : U !! b = None -> delete b (<[b := n]> U) = U.
Proof. apply delete_insert_id. Qed.

(** Donating memory. *)
Lemma add_memory_done h l U base sz fuel :
  heap_ok h l U -> 0 < base -> 8 <= sz -> base + 16 + sz < 2 ^ 64 - 1 ->
  (forall a s, (a, s) ∈ l -> a + 24 + s <= base \/ base + 16 + sz <= a) ->
  (forall b n, U !! b = Some n -> base + 16 + sz <= b \/ b + 16 + n <= base) ->
  (List.length l < fuel)%nat ->
  exists h', add_memory fuel base sz h = Done h' /\ heap_ok h' (fl_insert (base, sz - 8) l) U /\
    (forall x, in_free (fl_insert (base, sz - 8) l) x <-> in_free l x \/ base <= x < base + 16 + sz).
Proof.
  intros Hok Hb Hsz He Hl HU Hf.
  assert (Hnone : U !! base = None).
  { destruct (U !! base) as [n|] eqn:Hn; [|done]. destruct (ok_used _ _ _ Hok _ _ Hn) as (? & ? & _).
    destruct (HU _ _ Hn); lia. }
  pose proof (heap_ok_new_used h l U base sz Hok Hb ltac:(lia) He Hl HU) as Hok'.
  destruct (deallocate_done _ _ _ base sz fuel Hok') as (h' & Hd & Hok2 & Hfree & _);
    [apply lookup_insert_eq|done|done|].
  rewrite delete_new in Hok2 by done. exists h'. split; [|done].
  unfold add_memory, add_memory_impl, UsedBlockHeader_size. rewrite (wrap_id 64 (base + 16)) by lia. exact Hd.
Qed.

(** No free block has room. *)
Lemma allocate_panics h l U r fuel :
  heap_ok h l U -> 0 <= r -> r + 16 < 2 ^ 64 -> (List.length l < fuel)%nat -> first_fit r l = None ->
  allocate fuel r h = Panic "ran out of virtual memory!".
Proof.
  intros Hok Hr Hr' Hf Hfit. unfold allocate, allocate_impl.
  rewrite (fit_loop _ _ l r fuel 1 (2 ^ 64 - 1)), Hfit, bind_done; [done|done|done|lia| | |done]; apply Hok.
Qed.

(** Putting the piece back that was cut off the end of a free block. *)
Lemma fl_insert_cut l1 a s l2 r hi :
  sorted_in 1 (l1 ++ (a, s) :: l2) hi -> 8 <= r -> r + 16 < s ->
  fl_insert (a + 24 + s - r - 16, r - 8) (l1 ++ (a, s - (r + 16)) :: l2) = l1 ++ (a, s) :: l2.
Proof.
  intros (mid & Hs1 & Hma & Hs0 & Hs2)%sorted_in_app Hr Hrs.
  assert (Hm1 : fl_merge (a + 24 + s - r - 16, r - 8) l2 = (a + 24 + s - r - 16, r - 8) :: l2).
  { destruct l2 as [|[c t] l2]; [done|]. simpl in Hs2 |- *. by rewrite (proj2 (Z.eqb_neq _ _)) by lia. }
  rewrite fl_insert_after, Hm1; simpl.
  - rewrite (proj2 (Z.eqb_eq _ _)) by lia. by replace (s - (r + 16) + 24 + (r - 8)) with s by lia.
  - intros [c t] Hc. pose proof (sorted_in_elem _ _ _ _ _ Hs1 Hc). simpl. lia.
  - lia.
  - apply (sorted_in_before (a + 24 + s + 1) _ hi); [lia|done].
Qed.

(** C6. [allocate]: the first free block with room for the request and its header
    is used.  The new block is cut from the end of that block: it is apart from
    all used blocks, they and their contents are not touched, and the list stays
    sorted and linked.  Without such a block the kernel panics.  When the block
    fits exactly it is unlinked through its back pointer: if this points at the
    block before, the heap stays well formed, but if the block is the first of
    the list, the head of the list becomes the magic constant. *)
Theorem heap_allocate_correct h l U r fuel :
  heap_ok h l U -> 0 <= r -> r + 16 < 2 ^ 64 -> (List.length l < fuel)%nat ->
  match first_fit r l with
  | None => allocate fuel r h = Panic "ran out of virtual memory!" /\ Forall (fun b => snd b < r + 16) l
  | Some (l1, (a, s), l2) =>
      l = l1 ++ (a, s) :: l2 /\
      if r + 16 <? s then
        let p := a + 24 + s - r in
        exists m', allocate fuel r h = Done (p, Heap m' (head h)) /\
          heap_ok (Heap m' (head h)) (l1 ++ (a, s - (r + 16)) :: l2) (<[p - 16 := r]> U) /\
          get_size p (Heap m' (head h)) = r /\ U !! (p - 16) = None /\
          (forall b n x, U !! b = Some n -> b <= x < b + 16 + n -> load8 m' x = load8 (hmem h) x)
      else
        exists m', allocate fuel r h = Done (a + 16, Heap m' match l1 with [] => magic_constant | _ => head h end) /\
          (forall l0 c t, l1 = l0 ++ [(c, t)] -> prev (hmem h) a = c ->
             heap_ok (Heap m' (head h)) (l1 ++ l2) (<[a := r]> U))
  end.
Proof.
  intros Hok Hr Hr' Hf. destruct (first_fit r l) as [[[l1 [a s]] l2]|] eqn:Hfit.
  - destruct (first_fit_some _ _ _ _ _ _ Hfit) as [-> Hs]. split; [done|].
    assert (Hin : (a, s) ∈ l1 ++ (a, s) :: l2) by (rewrite elem_of_app; right; left).
    pose proof (sorted_in_elem _ _ _ _ _ (ok_sorted _ _ _ Hok) Hin) as Has.
    destruct (Z.ltb_spec (r + 16) s) as [Hlt|Hge].
    + destruct (allocate_done h l1 a s l2 U r fuel Hok Hr Hfit Hlt Hf) as (m' & Ha & Hok' & Hn & Hout).
      exists m'. split_and!; [done|done| |done|].
      * destruct (ok_used _ _ _ Hok' (a + 24 + s - r - 16) r) as (_ & _ & _ & Hsz & _); [apply lookup_insert_eq|].
        unfold get_size, get_size_impl, UsedBlockHeader_size. rewrite wrap_id by lia. exact Hsz.
      * intros b n x Hb Hx. pose proof (ok_free_used _ _ _ Hok _ _ _ _ Hin Hb). apply Hout; lia.
    + exists (new_UsedBlockHeader (unlink (hmem h) a) a r). split.
      * by apply (allocate_perfect h l1 a s l2 U); [..|lia|].
      * intros l0 c t -> Hp. by apply (allocate_perfect_ok h l0 c t a s l2 U r); [..|lia|].
  - split; [by apply (allocate_panics h l U)|by apply first_fit_none].
Qed.

(** C7. [deallocate]: a pointer without the magic number in front of it panics; a
    used block of at least 8 bytes joins the free blocks with all its bytes,
    merged with the blocks it touches, and no byte outside the free blocks
    changes.  Freeing the block that was just allocated restores the list. *)
Theorem heap_deallocate_correct h l U b n fuel :
  heap_ok h l U -> (List.length l < fuel)%nat -> 0 < b -> b + 16 < 2 ^ 64 ->
  (magic (hmem h) b <> magic_constant -> deallocate fuel (b + 16) h = Panic "invalid memory free") /\
  (U !! b = Some n -> 8 <= n ->
     let l' := fl_insert (b, n - 8) l in
     exists h', deallocate fuel (b + 16) h = Done h' /\ heap_ok h' l' (delete b U) /\
       (forall x, in_free l' x <-> in_free l x \/ b <= x < b + 16 + n) /\
       (forall x, ~ in_free l' x -> load8 (hmem h') x = load8 (hmem h) x)) /\
  (forall l1 a s l2 r, l = l1 ++ (a, s) :: l2 -> first_fit r l = Some (l1, (a, s), l2) -> 8 <= r -> r + 16 < s ->
     exists p h1 h2, allocate fuel r h = Done (p, h1) /\ deallocate fuel p h1 = Done h2 /\ heap_ok h2 l U).
Proof.
  intros Hok Hf Hb Hb'. split; [|split].
  - intros Hm. unfold deallocate, deallocate_impl, UsedBlockHeader_size.
    replace (b + 16 - 16) with b by lia. rewrite (wrap_id 64 b) by lia. by rewrite (proj2 (Z.eqb_neq _ _)).
  - intros HU Hn. by apply (deallocate_done h l U b n fuel).
  - intros l1 a s l2 r -> Hfit Hr Hrs.
    destruct (allocate_done h l1 a s l2 U r fuel Hok ltac:(lia) Hfit Hrs Hf) as (m' & Ha & Hok' & Hn & _).
    set (p := a + 24 + s - r) in *.
    destruct (deallocate_done _ _ _ (p - 16) r fuel Hok') as (h' & Hd & Hok2 & _);
      [apply lookup_insert_eq|done| |].
    { rewrite length_app in *. simpl in *. lia. }
    rewrite delete_new in Hok2 by done. exists p, (Heap m' (head h)), h'. split; [done|].
    replace (p - 16 + 16) with p in Hd by lia. split; [done|].
    unfold p in Hok2. by rewrite (fl_insert_cut l1 a s l2 r (2 ^ 64 - 1) (ok_sorted _ _ _ Hok)) in Hok2.
Qed.

(** ** Concrete heaps *)

(** One page of memory. *)
Definition demo_heap : heap :=
  match add_memory 20 0x10000 0x1000 (Heap ∅ 0) with Done h => h | _ => Heap ∅ 0 end.

Lemma empty_heap_ok m : heap_ok (Heap m 0) [] ∅.
Proof.
  split; simpl; try done; intros *; by rewrite ?elem_of_nil.
Qed.

Lemma demo_heap_ok : heap_ok demo_heap [(0x10000, 0xff8)] ∅.
Proof.
  destruct (add_memory_done (Heap ∅ 0) [] ∅ 0x10000 0x1000 20 (empty_heap_ok ∅)) as (h & Hd & Hok & _);
    [lia|lia|lia|intros a s Hin; by apply elem_of_nil in Hin|intros b n Hn; by rewrite lookup_empty in Hn|simpl; lia|].
  unfold demo_heap. by rewrite Hd.
Qed.

Lemma heap_allocate_correct_witness :
  exists m', allocate 20 100 demo_heap = Done (0x10000 + 24 + 0xff8 - 100, Heap m' (head demo_heap)) /\
    get_size (0x10000 + 24 + 0xff8 - 100) (Heap m' (head demo_heap)) = 100.
Proof.
  destruct (heap_allocate_correct demo_heap [(0x10000, 0xff8)] ∅ 100 20 demo_heap_ok) as (_ & m' & Ha & _ & Hsz & _);
    [lia|lia|simpl; lia|]. exists m'. split; [exact Ha|exact Hsz].
Defined.

Lemma heap_deallocate_correct_witness :
  deallocate 20 0x10010 demo_heap = Panic "invalid memory free" /\
  exists p h1 h2, allocate 20 100 demo_heap = Done (p, h1) /\ deallocate 20 p h1 = Done h2 /\
    heap_ok h2 [(0x10000, 0xff8)] ∅.
Proof.
  destruct (heap_deallocate_correct demo_heap [(0x10000, 0xff8)] ∅ 0x10000 0 20 demo_heap_ok) as (Hp & _ & Hr);
    [simpl; lia|lia|lia|]. split.
  - apply Hp. vm_compute. congruence.
  - apply (Hr [] 0x10000 0xff8 [] 100); [reflexivity|vm_compute; reflexivity|lia|lia].
Defined.

(** Merging does not correct the back pointer of the block behind.  After three
    blocks are freed so that two merges happen, an exact fit is unlinked through
    a stale back pointer: the block stays in the list, and the next request is
    cut out of the block that was just handed out. *)
Lemma stale_prev_double_allocation :
  ('(a, h) ← allocate 20 100 demo_heap;
   '(_, h) ← allocate 20 100 h;
   '(c, h) ← allocate 20 100 h;
   '(d, h) ← allocate 20 100 h;
   h ← deallocate 20 c h; h ← deallocate 20 a h; h ← deallocate 20 d h;
   '(_, h) ← allocate 20 (size (hmem h) (head h) - 40) h;
   '(x, h) ← allocate 20 76 h;
   '(y, h) ← allocate 20 50 h;
   Done (bool_decide (x < y < x + 76), get_size x h)) = Done (true, 10).
Proof. vm_compute. reflexivity. Qed.

(** Freeing a block of fewer than 8 bytes writes its free header over the block
    behind it. *)
Lemma small_block_free_overwrites :
  ('(a, h) ← allocate 20 100 demo_heap;
   '(b, h) ← allocate 20 4 h;
   '(_, h) ← allocate 20 100 h;
   h' ← deallocate 20 b h;
   Done (get_size a h, get_size a h')) = Done (100, 0).
Proof. vm_compute. reflexivity. Qed.
