(* ===== verification/Vmm.v ===== *)
(** * The virtual memory manager

    vmm.cpp: the heap is set up from the free regions of virtual memory;
    [vmalloc] and [vfree] are the heap's operations, and [vfree] also returns
    the frame behind the pointer.  The operations of the heap with the page faults
    that their accesses to a block's header cause are here too. *)

From Stdlib Require Import ZArith Lia String.
From stdpp Require Import base gmap list list_numbers numbers strings.
From S2P Require Import Prelude Memory FrameAllocator PageTree Paging KernelMemory Processor Idt EarlyFaults Acpi Running FreeList.
#[local] Open Scope Z_scope.

Section Vmm.
Context (limine : limine_features).

(** [allocator], and the memory management below it. *)
Record vmm := Vmm { allocator : heap; paging : vm_state }.

Fixpoint add_regions (fuel : nat) (regions : list MemoryRegion) (h : heap) : outcome heap :=
  match regions with
  | [] => Done h
  | r :: regions =>
      if region_size r =? 0 then add_regions fuel regions h
      else
        h ← add_memory fuel (region_base r) (region_size r) h;
        add_regions fuel regions h
  end.

Definition vmm_init (symbols : linker_symbols) (fuel : nat) (st : vmm) : outcome vmm :=
  regions ← paging_get_initial_free_regions limine symbols;
  h ← add_regions fuel regions (allocator st);
  Done (Vmm h (paging st)).

Definition vmalloc (fuel : nat) (sz : Z) (st : vmm) : outcome (Z * vmm) :=
  r ← allocate fuel sz (allocator st);
  let '(p, h) := r : Z * heap in
  Done (p, Vmm h (paging st)).

(** ** Setting the heap up *)

(** The regions ascend from [lo] on and leave more than 16 bytes between them. *)
Fixpoint spread (lo : Z) (l : list MemoryRegion) : Prop :=
  match l with
  | [] => True
  | r :: l => lo <= region_base r /\ 8 <= region_size r /\ region_end r + 16 < 2 ^ 64 - 1 /\
      spread (region_end r + 17) l
  end.

Definition region_block (r : MemoryRegion) : Z * Z := (region_base r, region_size r - 8).

Lemma fl_insert_last l b hi :
  sorted_in 1 l hi -> hi <= fst b -> fl_insert b l = l ++ [b].
Proof.
  intros Hs Hb. destruct (list_snoc_cases l) as [->|(l0 & [c t] & ->)]; [done|].
  rewrite (fl_insert_after b l0 (c, t) []); [| | |done].
  - assert (Hin : (c, t) ∈ l0 ++ [(c, t)]) by (rewrite elem_of_app; right; left).
    pose proof (sorted_in_elem _ _ _ _ _ Hs Hin). simpl. rewrite (proj2 (Z.eqb_neq _ _)) by lia.
    by rewrite <-app_assoc.
  - intros [a s] Ha. assert (Hin : (a, s) ∈ l0 ++ [(c, t)]) by (rewrite elem_of_app; by left).
    pose proof (sorted_in_elem _ _ _ _ _ Hs Hin). simpl. lia.
  - assert (Hin : (c, t) ∈ l0 ++ [(c, t)]) by (rewrite elem_of_app; right; left).
    pose proof (sorted_in_elem _ _ _ _ _ Hs Hin). simpl. lia.
Qed.

Lemma add_regions_done fuel l2 : forall h l1 lo,
  heap_ok h l1 ∅ -> sorted_in 1 l1 lo -> spread lo l2 -> 1 <= lo ->
  (List.length l1 + List.length l2 < fuel)%nat ->
  exists h', add_regions fuel l2 h = Done h' /\ heap_ok h' (l1 ++ (region_block <$> l2)) ∅.
Proof.
  induction l2 as [|r l2 IH]; intros h l1 lo Hok Hs Hsp Hlo Hf; simpl in *.
  - exists h. by rewrite app_nil_r.
  - destruct Hsp as (Hb & Hsz & He & Hsp). unfold region_end in *.
    rewrite (proj2 (Z.eqb_neq _ _)) by lia.
    destruct (add_memory_done h l1 ∅ (region_base r) (region_size r) fuel Hok) as (h1 & Ha & Hok1 & _);
      [lia|lia|lia| | |lia|].
    { intros a s Hin. pose proof (sorted_in_elem _ _ _ _ _ Hs Hin). lia. }
    { intros b n Hn. by rewrite lookup_empty in Hn. }
    rewrite Ha, bind_done. rewrite (fl_insert_last l1 _ lo) in Hok1 by (done || simpl; lia).
    destruct (IH h1 (l1 ++ [region_block r]) (region_base r + region_size r + 17)) as (h' & Hd & Hok');
      [done| |done|lia|rewrite length_app; simpl; lia|].
    { apply sorted_in_app. exists lo. split; [done|]. simpl. lia. }
    exists h'. split; [done|]. by rewrite <-app_assoc in Hok'.
Qed.

Lemma add_regions_zero fuel l2 n h :
  add_regions fuel (l2 ++ replicate n (MkRegion 0 0)) h = add_regions fuel l2 h.
Proof.
  revert h. induction l2 as [|r l2 IH]; intros h; simpl.
  - by induction n.
  - destruct (region_size r =? 0); [apply IH|]. destruct (add_memory _ _ _ h); simpl; [apply IH|done|done|done].
Qed.

Lemma first_fit_app n l1 a s l2 :
  Forall (fun b => snd b < n + 16) l1 -> n + 16 <= s ->
  first_fit n (l1 ++ (a, s) :: l2) = Some (l1, (a, s), l2).
Proof.
  intros H1 Hs. induction H1 as [|b l1 Hb H1 IH]; simpl.
  - by rewrite (proj2 (Z.leb_le _ _)).
  - rewrite (proj2 (Z.leb_gt _ _)) by lia. by rewrite IH.
Qed.

End Vmm.

(** ** The heap on demand-paged memory *)
Section Faulting.
Context {H : Type} `{Platform H} (limine : limine_features).
Implicit Types m : machine H.

(** The bytes of a block header, in the order in which they are accessed: a word
    that lies across a page boundary faults at the first byte behind it. *)
Definition header_bytes (b size : Z) : list Z := seqZ b size.

(** [allocate], [deallocate] and [add_memory] with the page faults of the header of
    the block that they hand out, take back or make.  [deallocate] reads the magic
    number first and panics if it is wrong; then it writes a free header, which is
    longer than the used one.  The headers of the free blocks, which they also
    access, were written when those blocks became free. *)
Definition allocate_faulting (fuel : nat) (request : Z) (h : heap) m : outcome (Z * (heap * machine H)) :=
  r ← allocate fuel request h;
  let '(p, h) := r : Z * heap in
  m ← touch_all limine fuel (header_bytes (p - UsedBlockHeader_size) UsedBlockHeader_size) m;
  Done (p, (h, m)).

Definition deallocate_faulting (fuel : nat) (p : Z) (hm : heap * machine H) : outcome (heap * machine H) :=
  m ← touch_all limine fuel (header_bytes (p - UsedBlockHeader_size) UsedBlockHeader_size) (snd hm);
  h ← deallocate fuel p (fst hm);
  m ← touch_all limine fuel (header_bytes p (FreeBlockHeader_size - UsedBlockHeader_size)) m;
  Done (h, m).

Definition add_memory_faulting (fuel : nat) (base size : Z) (h : heap) m : outcome (heap * machine H) :=
  m ← touch_all limine fuel (header_bytes base FreeBlockHeader_size) m;
  h ← add_memory fuel base size h;
  Done (h, m).

(** The free header that [deallocate] writes is longer than the used one: its last
    word is the one at [ptr], whose page is therefore mapped when its translation
    is looked up. *)
Definition vfree (fuel : nat) (ptr : Z) (hm : heap * machine H) : outcome (heap * machine H) :=
  hm ← deallocate_faulting fuel ptr hm;
  let '(h, m) := hm : heap * machine H in
  t ← paging_get_translation limine ptr (vm m);
  k ← deallocate_frame limine (physical_address t) (vm_mem (vm m));
  Done (h, with_vm m (VM k (page_tree (vm m)) (ptbr (vm m)))).

(** The headers of the free blocks are mapped. *)
Definition headers_mapped m (l : list (Z * Z)) : Prop :=
  forall a s i, (a, s) ∈ l -> 0 <= i < FreeBlockHeader_size -> translate m (a + i) <> None.

Lemma touch_all_app fuel l1 l2 m :
  touch_all limine fuel (l1 ++ l2) m = (m ← touch_all limine fuel l1 m; touch_all limine fuel l2 m).
Proof.
  revert m. induction l1 as [|va l1 IH]; intros m; [done|]. cbn [app touch_all]. rewrite bind_assoc.
  apply bind_cong. apply IH.
Qed.

Lemma deallocate_faulting_done fuel p h h' m :
  deallocate fuel p h = Done h' ->
  deallocate_faulting fuel p (h, m) =
    (m ← touch_all limine fuel (header_bytes (p - UsedBlockHeader_size) FreeBlockHeader_size) m; Done (h', m)).
Proof.
  intros Hd. unfold deallocate_faulting, header_bytes. cbn [fst snd].
  change FreeBlockHeader_size with (UsedBlockHeader_size + (FreeBlockHeader_size - UsedBlockHeader_size)) at 2.
  rewrite seqZ_app, Z.sub_simpl_r, touch_all_app, bind_assoc by done.
  apply bind_cong. intros m1. by rewrite Hd, bind_done.
Qed.
End Faulting.

(** A block of the list after an insertion starts where one of the blocks did. *)
Lemma fl_merge_starts b l a s : (a, s) ∈ fl_merge b l -> a = fst b \/ exists s', (a, s') ∈ l.
Proof.
  destruct b as [b t], l as [|c l]; cbn [fl_merge fst].
  - intros [= -> ->]%list_elem_of_singleton. by left.
  - case_match; rewrite !elem_of_cons.
    + intros [[= -> ->]|Hin]; [by left|right; exists s; by rewrite elem_of_cons; right].
    + intros [[= -> ->]|Hin]; [by left|right; exists s; by rewrite elem_of_cons].
Qed.

Lemma fl_insert_starts b l a s : (a, s) ∈ fl_insert b l -> a = fst b \/ exists s', (a, s') ∈ l.
Proof.
  revert a s. induction l as [|c l IH]; intros a s; cbn [fl_insert].
  - intros <-%list_elem_of_singleton. by left.
  - repeat case_match.
    + rewrite elem_of_cons. intros [<-|Hin]; [right; exists s; by left|].
      destruct (IH a s Hin) as [->|(s' & Hs)]; [by left|right; exists s'; by right].
    + intros [->|(s' & Hin)]%fl_merge_starts; [right; destruct c as [x t]; exists t; by left|].
      destruct (fl_merge_starts _ _ _ _ Hin) as [->|(t & Ht)]; [by left|right; exists t; by right].
    + apply fl_merge_starts.
Qed.

(** The first byte of an unmapped page behind a mapped one. *)
Lemma page_boundary c : page_index (c - 1) <> page_index c -> c mod pageSize = 0.
Proof.
  rewrite !page_index_eq. intros Hne. destruct (decide (c mod pageSize = 0)) as [|Hm]; [done|]. exfalso.
  apply Hne. f_equal. unfold pageSize in *. pose proof (Z.mod_pos_bound c 0x1000 ltac:(done)).
  pose proof (Z.div_mod c 0x1000 ltac:(done)) as Hc. rewrite Hc at 1.
  replace (0x1000 * (c / 0x1000) + c mod 0x1000 - 1) with (c mod 0x1000 - 1 + c / 0x1000 * 0x1000) by lia.
  rewrite Z.div_add by done. rewrite (Z.div_small (c mod 0x1000 - 1)) by lia. lia.
Qed.

(** What the kernel reads out of the page tree is the frame, cut to 32 bits. *)
Lemma translation_frame limine k root G va :
  hhdm_ok limine -> sys_ok limine k root G ->
  exists t, get_translation limine (ram k) (kernel_physical_to_virtual limine root) va = Done t /\
    physical_address t = match mmu_translate (ram k) root va with
                         | Some pa => (pa - va mod pageSize) mod 2 ^ 32
                         | None => 0
                         end.
Proof.
  intros Hh Hsys. destruct (translation_cases limine k root va Hh (ex_intro _ G Hsys)) as (t & Hg & Ht).
  exists t. split; [exact Hg|]. destruct (mmu_translate (ram k) root va) as [pa|]; [apply Ht|by rewrite Ht].
Qed.

(** The heap that [vmm_init] sets up. *)
Lemma vmm_init_done limine symbols st fuel free k :
  paging_get_initial_free_regions limine symbols = Done (free ++ replicate k (MkRegion 0 0)) ->
  spread 1 free -> allocator st = Heap ∅ 0 -> (List.length free < fuel)%nat ->
  exists h, vmm_init limine symbols fuel st = Done (Vmm h (paging st)) /\ heap_ok h (region_block <$> free) ∅.
Proof.
  intros Hr Hs Hh Hf. destruct (add_regions_done fuel free (Heap ∅ 0) [] 1) as (h & Ha & Hok);
    [apply empty_heap_ok|simpl; lia|done|lia|simpl; lia|].
  exists h. split; [|done]. unfold vmm_init. rewrite Hr, bind_done, Hh, add_regions_zero, Ha. done.
Qed.

(** C38. [vmm_init] on regions that are more than 16 bytes apart makes each of
    them one free block; but the block a region becomes is 16 bytes longer than
    the region, because the donated size is taken for the size behind a header.
    The first allocation therefore ends 16 bytes behind the first region with
    room for it. *)
Theorem vmm_init_overruns limine symbols st fuel free k :
  paging_get_initial_free_regions limine symbols = Done (free ++ replicate k (MkRegion 0 0)) ->
  spread 1 free -> allocator st = Heap ∅ 0 -> (List.length free < fuel)%nat ->
  exists h, vmm_init limine symbols fuel st = Done (Vmm h (paging st)) /\
    heap_ok h (region_block <$> free) ∅ /\
    (forall x, in_free (region_block <$> free) x <->
       exists r, r ∈ free /\ region_base r <= x < region_end r + 16) /\
    (forall n f1 r f2, free = f1 ++ r :: f2 -> Forall (fun r => region_size r < n + 24) f1 ->
       0 <= n -> n + 24 < region_size r ->
       exists st', vmalloc fuel n (Vmm h (paging st)) = Done (region_end r + 16 - n, st')).
Proof.
  intros Hr Hs Hh Hf. destruct (vmm_init_done limine symbols st fuel free k Hr Hs Hh Hf) as (h & Hinit & Hok).
  exists h. split; [exact Hinit|split; [done|split]].
  - intros x. unfold in_free. split.
    + intros (a & s & (r & [= -> ->] & Hin)%list_elem_of_fmap & Hx). exists r. split; [done|].
      unfold region_end. lia.
    + intros (r & Hin & Hx). exists (region_base r), (region_size r - 8). split; [|unfold region_end in Hx; lia].
      apply list_elem_of_fmap. by exists r.
  - intros n f1 r f2 Hfr Hsm Hn Hrn.
    rewrite Hfr, fmap_app, fmap_cons in Hok. unfold region_block at 2 in Hok.
    destruct (allocate_done h (region_block <$> f1) (region_base r) (region_size r - 8) (region_block <$> f2) ∅ n fuel Hok)
      as (m' & Hd & _); [done| |lia| |].
    + apply first_fit_app; [|lia]. apply Forall_fmap. eapply Forall_impl; [exact Hsm|].
      intros r' Hr'. unfold compose, region_block. simpl in *. lia.
    + rewrite length_app. cbn [List.length]. rewrite !length_fmap. rewrite Hfr, length_app in Hf. exact Hf.
    + exists (Vmm (Heap m' (head h)) (paging st)). unfold vmalloc. cbn [allocator]. rewrite Hd, bind_done.
      unfold region_end. do 2 f_equal. lia.
Qed.

(** ** Giving memory back *)
Section Vfree.
Context {H : Type} `{Devices H} (limine : limine_features) (Hhhdm : hhdm_ok limine) (Hhigh : higher_half limine).
Context (root : Z) (area : Z -> Prop) (m0 : mem) (sto : option (Z * Z)).
Implicit Types m : machine H.
Abbreviation live := (live limine root area m0 sto).

Lemma first_unmapped m b (len : nat) :
  (forall i, 0 <= i < Z.of_nat len -> translate m (b + i) <> None) \/
  exists j, 0 <= j < Z.of_nat len /\ translate m (b + j) = None /\ forall i, 0 <= i < j -> translate m (b + i) <> None.
Proof.
  induction len as [|len [IH|(j & Hj & Hno & Hi)]]; [left; lia| |right; exists j; split; [lia|done]].
  destruct (translate m (b + Z.of_nat len)) eqn:Ht.
  - left. intros i Hi. destruct (decide (i = Z.of_nat len)) as [->|]; [by rewrite Ht|apply IH; lia].
  - right. exists (Z.of_nat len). split; [lia|]. split; [done|]. intros i Hi. apply IH. lia.
Qed.

(** Accesses to the bytes from [b] on, of which the first [x] are mapped: at most
    one page is mapped anew, the one behind a page boundary. *)
Lemma touch_header n d m b x len fuel :
  live (1 + tables_for 1 + n) d m -> 0 <= n -> 0 <= b -> 0 < x <= len -> len < pageSize ->
  b + len + 2 * pageSize <= 2 ^ 64 -> (forall i, 0 <= i < x -> translate m (b + i) <> None) ->
  let e := b + len - 1 in
  exists m', touch_all limine fuel (header_bytes b len) m = Done m' /\ live n d m' /\
    (forall i, 0 <= i < len -> translate m' (b + i) <> None) /\
    (forall va, translate m va <> None \/ page_index va <> page_index e -> translate m' va = translate m va) /\
    (translate m e <> None -> m' = m) /\
    (translate m e = None -> exists f,
       (f ∈ free_frames limine (vm_mem (vm m))) /\ (f ∉ free_frames limine (vm_mem (vm m'))) /\
       (forall g, g ∈ free_frames limine (vm_mem (vm m')) -> g ∈ free_frames limine (vm_mem (vm m))) /\
       forall va, page_index va = page_index e -> translate m' va = Some (f + va mod pageSize)).
Proof.
  intros Hm Hn Hb Hx Hlen Hmax Hmap e. pose proof (tables_for_nonneg 1 ltac:(lia)).
  assert (Hw : live n d m) by (eapply live_weaken; [|exact Hm]; lia).
  destruct (first_unmapped m b (Z.to_nat len)) as [Hall|(j & Hj & Hno & Hbefore)]; rewrite Z2Nat.id in * by lia.
  { assert (He : translate m e <> None) by (replace e with (b + (len - 1)) by (unfold e; lia); apply Hall; lia).
    exists m. split; [|done]. apply touch_all_mapped, Forall_forall. intros va Hva%elem_of_seqZ.
    replace va with (b + (va - b)) by lia. apply Hall. lia. }
  assert (Hxj : x <= j) by (destruct (decide (x <= j)) as [|Hlt]; [done|]; by destruct (Hmap j ltac:(lia))).
  set (c := b + j) in *.
  assert (Hc : c mod pageSize = 0).
  { apply page_boundary. intros Hp. apply (live_same_page limine root area m0 sto n d m (c - 1) c Hw); [done| |done].
    replace (c - 1) with (b + (j - 1)) by (unfold c; lia). apply Hbefore. lia. }
  assert (Hpage : forall va, c <= va <= e -> page_index va = page_index c).
  { intros va Hva. apply page_offset_self. replace va with (c + (va - c)) by lia. apply page_start; [done|].
    unfold e, c in *. lia. }
  assert (Hpe : page_index e = page_index c) by (apply Hpage; unfold e, c; lia).
  destruct (one_page c Hc ltac:(unfold c; lia)) as (Hr & Hfl & Hk); [unfold c, pageSize in *; lia|].
  assert (Hnone : forall va, page_index va = page_index c -> translate m va = None).
  { intros va Hp. destruct (translate m va) eqn:Hva; [|done]. exfalso.
    apply (live_same_page limine root area m0 sto n d m va c Hw); [done|by rewrite Hva|done]. }
  destruct (live_touch_page limine Hhhdm root Hhigh area m0 sto n d m c (seqZ (Z.succ c) (Z.pred (len - j))) fuel)
    as (m' & Ht & Hm' & Hc' & _ & Hnew); rewrite ?Hk, ?Hfl; [exact Hm|exact Hn|exact Hr|lia| | |].
  { pose proof (page_offset_range c (kernel_physical_to_virtual limine (pc_lapic_base d))).
    destruct (decide (page_offset c (kernel_physical_to_virtual limine (pc_lapic_base d)) = 0)) as [Hz|]; [|lia].
    apply page_offset_self, Hnone in Hz.
    pose proof (lv_lapic _ _ _ _ _ _ _ _ Hm 0 ltac:(done)) as Hl. rewrite Z.add_0_r in Hl. congruence. }
  { apply Forall_forall. intros va Hva%elem_of_seqZ. apply Hpage. unfold e, c in *. lia. }
  destruct (Hnew Hno) as (fs & Hfs & _ & Hin & Hsub & Htr). rewrite Hk in Hfs.
  destruct fs as [|f [|? ?]]; cbn [List.length] in Hfs; try lia. rewrite Hfl in Htr.
  assert (Htr' : forall va, translate m' va = if decide (page_index va = page_index c) then Some (f + va mod pageSize) else translate m va).
  { intros va. rewrite Htr. pose proof (page_offset_range c va). destruct (decide _) as [Hp|Hp].
    - apply page_offset_self in Hp. by rewrite Hp.
    - rewrite <-page_offset_self in Hp. by rewrite lookup_ge_None_2 by (cbn [List.length]; lia). }
  exists m'. split; [|split; [done|split; [|split; [|split]]]].
  - unfold header_bytes. replace len with (j + (len - j)) by lia. rewrite seqZ_app by lia. fold c. rewrite (seqZ_cons c), touch_all_app by lia.
    rewrite touch_all_mapped, bind_done; [exact Ht|]. apply Forall_forall. intros va Hva%elem_of_seqZ.
    replace va with (b + (va - b)) by lia. apply Hbefore. lia.
  - intros i Hi. rewrite Htr'. destruct (decide _) as [|Hp]; [done|]. apply Hbefore.
    destruct (decide (i < j)); [lia|]. exfalso. apply Hp, Hpage. unfold c, e. lia.
  - intros va Hva. rewrite Htr'. destruct (decide _) as [Hp|]; [|done]. exfalso.
    destruct Hva as [Hva|Hva]; [by apply Hva, Hnone|]. apply Hva. congruence.
  - intros He. exfalso. by apply He, Hnone.
  - intros _. exists f. destruct (Hin f ltac:(by apply list_elem_of_singleton)) as [Hf1 Hf2].
    split; [done|split; [done|split; [done|]]]. intros va Hva. rewrite Htr', decide_True by congruence. done.
Qed.

(** Looking the frame up and giving it back. *)
Lemma return_frame n d m ptr pa :
  live n d m -> translate m ptr = Some pa ->
  Z.of_nat (List.length (free_frames limine (vm_mem (vm m)))) < capacity (vm_mem (vm m)) ->
  let frame := (pa - ptr mod pageSize) mod 2 ^ 32 in
  exists t k, paging_get_translation limine ptr (vm m) = Done t /\
    deallocate_frame limine (physical_address t) (vm_mem (vm m)) = Done k /\
    let m' := with_vm m (VM k (page_tree (vm m)) (ptbr (vm m))) in
    (forall va, translate m' va = translate m va) /\
    free_frames limine (vm_mem (vm m')) = free_frames limine (vm_mem (vm m)) ++ [frame] /\
    exists k', allocate_frame limine (vm_mem (vm m')) = Done (frame, k').
Proof.
  intros Hm Hpa Hroom frame. destruct (lv_memory _ _ _ _ _ _ _ _ Hm) as [G HG].
  pose proof (km_sys _ _ _ _ _ _ _ HG) as Hsys. pose proof (sys_tree _ _ _ _ Hsys) as Ht.
  unfold translate in Hpa. rewrite (km_root _ _ _ _ _ _ _ HG) in Hpa.
  destruct (translation_frame limine (vm_mem (vm m)) root G ptr Hhhdm Hsys) as (t & Hg & Hp).
  rewrite Hpa in Hp. fold frame in Hp.
  assert (Hfr : 0 <= frame < 2 ^ 64) by (pose proof (Z.mod_pos_bound (pa - ptr mod pageSize) (2 ^ 32)); unfold frame; lia).
  destruct (free_stack_push_spec limine _ frame (sys_alloc _ _ _ _ Hsys) Hfr Hroom) as (k & Hk & Hl & Hka & Hst & Hout).
  assert (Hnode := fun p g i Hg Hi => node_entry_storage limine _ root G (ram k) p g i Hsys Hg Hi Hout).
  destruct (tree_ok_same _ (ram k) _ _ Ht Hnode) as [Ht' Hleaf].
  exists t, k. split; [|split; [|split; [|split]]].
  - unfold paging_get_translation, with_page_tree. by rewrite (km_tree _ _ _ _ _ _ _ HG).
  - unfold deallocate_frame. by rewrite Hp, Hk.
  - intros va. unfold translate. cbn [vm with_vm vm_mem ptbr]. rewrite (km_root _ _ _ _ _ _ _ HG).
    apply (translate_same _ _ _ G G); [done|done|apply Hleaf].
  - exact Hl.
  - cbn [vm with_vm vm_mem]. destruct (allocate_frame_spec limine k _ _ Hka Hl) as (k' & Hk' & _). by exists k'.
Qed.
End Vfree.

(** C21. [vfree] gives the block back to the heap and the frame behind the
    pointer back to the frame allocator, without unmapping anything: the page of
    the pointer translates to that frame afterwards, and so does every other block
    of that page, while the frame is the next one to be handed out.  The pointer's
    page is always mapped when it is looked up, because [deallocate] writes the last
    word of the free header there: where the block was never touched, that write
    takes a fresh frame, which goes back at once.  No other page is mapped anew
    than that of the last byte of the header, nothing that was mapped moves, and
    the headers of the free list stay mapped. *)
Theorem vfree_frees_mapped_frame {H} `{Devices H} limine root area m0 sto n d (m : machine H) h l U b size fuel :
  hhdm_ok limine -> higher_half limine -> 0 <= n ->
  live limine root area m0 sto (1 + tables_for 1 + n) d m ->
  Z.of_nat (List.length (free_frames limine (vm_mem (vm m)))) < capacity (vm_mem (vm m)) ->
  heap_ok h l U -> U !! b = Some size -> 8 <= size -> (List.length l < fuel)%nat -> b + 3 * pageSize <= 2 ^ 64 ->
  headers_mapped m l -> (forall i, 0 <= i < UsedBlockHeader_size -> translate m (b + i) <> None) ->
  let ptr := b + UsedBlockHeader_size in
  let last := b + FreeBlockHeader_size - 1 in
  exists h' m' pa rest, vfree limine fuel ptr (h, m) = Done (h', m') /\
    heap_ok h' (fl_insert (b, size - 8) l) (delete b U) /\
    headers_mapped m' (fl_insert (b, size - 8) l) /\
    translate m' ptr = Some pa /\
    let frame := (pa - ptr mod pageSize) mod 2 ^ 32 in
    free_frames limine (vm_mem (vm m')) = rest ++ [frame] /\
    (exists k, allocate_frame limine (vm_mem (vm m')) = Done (frame, k)) /\
    (forall va, translate m va <> None \/ page_index va <> page_index last -> translate m' va = translate m va) /\
    (translate m last <> None -> rest = free_frames limine (vm_mem (vm m))) /\
    (forall f, f ∈ rest -> f ∈ free_frames limine (vm_mem (vm m))) /\
    (translate m ptr = None ->
       (frame ∈ free_frames limine (vm_mem (vm m))) /\ (frame ∉ rest) /\ pa = frame + ptr mod pageSize).
Proof.
  intros Hh Hhigh Hn Hm Hroom Hok HU Hsz Hf Hmax Hhead Hused ptr last.
  destruct (deallocate_done _ _ _ _ _ fuel Hok HU Hsz Hf) as (h' & Hd & Hok' & _).
  assert (Hb : 0 <= b) by (destruct Hok as [_ _ Hu _ _]; destruct (Hu b size HU) as (? & _); lia).
  destruct (touch_header limine Hh Hhigh root area m0 sto n d m b UsedBlockHeader_size FreeBlockHeader_size fuel)
    as (m1 & Ht & Hm1 & Hall & Hkept & Hsame & Hnew);
    [exact Hm|exact Hn|exact Hb|done|done|unfold FreeBlockHeader_size, pageSize in *; lia|exact Hused|].
  fold last in Hkept, Hsame, Hnew.
  destruct (translate m1 ptr) as [pa|] eqn:Hpa; [|by destruct (Hall 16 ltac:(done))].
  assert (Hsub : forall f, f ∈ free_frames limine (vm_mem (vm m1)) -> f ∈ free_frames limine (vm_mem (vm m))).
  { destruct (translate m last) eqn:Hl; [by rewrite Hsame|]. by destruct (Hnew eq_refl) as (f & _ & _ & Hs & _). }
  destruct (return_frame limine Hh root area m0 sto n d m1 ptr pa Hm1 Hpa) as (t & k & Htr & Hk & Hmap & Hfree & Hal).
  { assert (Hcap : capacity (vm_mem (vm m1)) = capacity (vm_mem (vm m)))
      by (unfold capacity; by rewrite (lv_storage _ _ _ _ _ _ _ _ Hm1), (lv_storage _ _ _ _ _ _ _ _ Hm)).
    destruct (lv_memory _ _ _ _ _ _ _ _ Hm1) as [G1 HG1].
    pose proof (submseteq_length _ _ (NoDup_submseteq _ _ (sys_nodup _ _ _ _ (km_sys _ _ _ _ _ _ _ HG1)) Hsub)). lia. }
  eexists h', _, pa, (free_frames limine (vm_mem (vm m1))). split; [|split; [exact Hok'|split; [|split; [|split; [exact Hfree|split; [exact Hal|]]]]]].
  - unfold vfree. rewrite (deallocate_faulting_done _ _ _ _ _ _ Hd). unfold ptr.
    rewrite Z.add_simpl_r, Ht, !bind_done. cbv beta iota. fold ptr. by rewrite Htr, bind_done, Hk, bind_done.
  - intros a s i Hin Hi. rewrite Hmap. destruct (fl_insert_starts _ _ _ _ Hin) as [->|(s' & Hs')]; [by apply Hall|].
    rewrite Hkept; [by eapply Hhead|]. left. by eapply Hhead.
  - by rewrite Hmap.
  - split; [intros va Hva; rewrite Hmap; by apply Hkept|]. split; [intros Hl; by rewrite Hsame|]. split; [done|].
    intros Hno. destruct (decide (page_index ptr = page_index last)) as [Hp|Hp].
    + destruct (translate m last) eqn:Hl; [by rewrite Hsame in Hpa; [rewrite Hno in Hpa|]|].
      destruct (Hnew eq_refl) as (f & Hf1 & Hf2 & _ & Hfp). rewrite (Hfp _ Hp) in Hpa. injection Hpa as <-.
      rewrite Z.add_simpl_r.
      assert (frame_ok f) as Hfo by (eapply kernel_memory_frame; [apply Hm|done]).
      rewrite Z.mod_small by (destruct Hfo; lia). done.
    + exfalso. rewrite Hkept in Hpa by (by right). congruence.
Qed.

(** The regions of the example boot: the first one ends where the canonical
    addresses do, so that the first allocation of 100 bytes runs 16 bytes into
    the hole behind them. *)
Lemma vmm_init_overruns_witness :
  exists h st', vmm_init boot_limine boot_symbols 20 (Vmm (Heap ∅ 0) (VM (KMem ∅ None) None 0)) =
      Done (Vmm h (VM (KMem ∅ None) None 0)) /\
    vmalloc 20 100 (Vmm h (VM (KMem ∅ None) None 0)) = Done (0x800000000000 + 16 - 100, st').
Proof.
  destruct (vmm_init_overruns boot_limine boot_symbols (Vmm (Heap ∅ 0) (VM (KMem ∅ None) None 0)) 20
    [MkRegion 0x100001000 0x7ffefffff000; MkRegion 0xffff800100000000 0x7ffe80000000] 14)
    as (h & Hi & _ & _ & Hm).
  - vm_compute. reflexivity.
  - vm_compute. intuition congruence.
  - reflexivity.
  - simpl. lia.
  - destruct (Hm 100 [] (MkRegion 0x100001000 0x7ffefffff000) [MkRegion 0xffff800100000000 0x7ffe80000000])
      as (st' & Hv).
    + reflexivity.
    + constructor.
    + lia.
    + simpl. lia.
    + exists h, st'. split; [exact Hi|exact Hv].
Defined.

(** ** A concrete running kernel: the heap of two regions, with the first page of
    the heap mapped. *)
Definition demo_devices : pc :=
  let d := demo_pc (Kbc 3 0 0 None None 0x65 false) in
  PC (pc_edx d) (pc_pic1 d) (pc_pic2 d) (pc_kbc d) (pc_apic_msr d) (Lapic 0x1ff 0 0 [] []) ∅ true.

Definition demo_region : MemoryRegion := MkRegion 0x100001000 0x7ffefffff000.

Definition demo_running : machine pc :=
  let m := demo_apic_machine demo_devices in
  match paging_allocate_and_map large_limine (region_base demo_region) pageSize PageFlags.Write (vm m) with
  | Done v => with_vm m v
  | _ => m
  end.

Lemma large_higher_half : higher_half large_limine.
Proof. split; [reflexivity|split; vm_compute; congruence]. Defined.

Lemma demo_running_live :
  live large_limine large_root (fun _ => False) ∅ (storage (vm_mem large_vm)) 20 demo_devices demo_running /\ translate demo_running (region_base demo_region) <> None /\
  translate demo_running (region_end demo_region - 0x20) = None.
Proof.
  assert (H0 : kernel_memory large_limine large_root (fun _ => False) ∅ 30 large_vm).
  { apply kernel_memory_all; [exact large_page_tree_ok|reflexivity|reflexivity|vm_compute; congruence]. }
  destruct (kernel_memory_map large_limine large_hhdm_ok large_root (fun _ => False) ∅ 24 large_vm 0xffff8000fee00000 0xfee00000
    (PageFlags_or PageFlags.Write PageFlags.CacheDisable))
    as (v1 & Hd1 & H1 & _ & Hs1 & Ht1);
    [eapply kernel_memory_weaken; [|exact H0]; vm_compute; congruence|vm_compute; intuition congruence..|].
  destruct (kernel_memory_allocate large_limine large_hhdm_ok large_root (fun _ => False) ∅ 20 v1 (region_base demo_region) pageSize PageFlags.Write)
    as (v2 & fs & Hd2 & H2 & Hlen & _ & _ & _ & Hs2 & Ht2);
    [eapply kernel_memory_weaken; [|exact H1]; vm_compute; congruence|vm_compute; intuition congruence..|].
  assert (Hrun : demo_running = Machine demo_devices v2 0xffff8000fee00000).
  { unfold demo_running, demo_apic_machine. rewrite Hd1. cbv zeta. cbn [vm with_vm hw baseAddress]. by rewrite Hd2. }
  change (num_pages _) with 1 in Hlen. destruct fs as [|f [|? ?]]; simpl in Hlen; try lia.
  assert (Hpage : page_floor (region_base demo_region) = region_base demo_region) by reflexivity. rewrite Hpage in Ht2.
  rewrite Hrun. split; [split; try reflexivity|split].
  - exact H2.
  - cbn [vm]. by rewrite Hs2, Hs1.
  - intros off Ho. change (translate _) with (vm_translate v2). rewrite Ht2, lookup_ge_None_2.
    + rewrite Ht1. change (kernel_physical_to_virtual _ _) with 0xffff8000fee00000.
      destruct (page_start 0xffff8000fee00000 off) as [-> ->]; [reflexivity|exact Ho|reflexivity].
    + destruct (page_start 0xffff8000fee00000 off) as [Hz _]; [reflexivity|exact Ho|]. apply page_offset_self in Hz.
      assert (1 <= page_offset (region_base demo_region) (0xffff8000fee00000 + off))
        by (unfold page_offset; rewrite Hz; vm_compute; congruence).
      change (kernel_physical_to_virtual _ _) with 0xffff8000fee00000. cbn [List.length]. lia.
  - change (translate _) with (vm_translate v2). rewrite Ht2. by replace (page_offset _ _) with 0 by reflexivity.
  - change (translate _) with (vm_translate v2).
    assert (1 <= page_offset (region_base demo_region) (region_end demo_region - 0x20)) by (vm_compute; congruence).
    rewrite Ht2, lookup_ge_None_2 by (cbn [List.length]; lia).
    rewrite Ht1. replace (page_offset _ _ =? 0) with false by reflexivity. vm_compute. reflexivity.
Defined.

(** The heap of one page: a block of 100 bytes from its end, given back. *)
Definition page_heap : heap :=
  match add_memory 20 0x100001000 0xff0 (Heap ∅ 0) with Done h => h | _ => Heap ∅ 0 end.

Lemma page_heap_ok : heap_ok page_heap [(0x100001000, 0xfe8)] ∅.
Proof.
  destruct (add_memory_done (Heap ∅ 0) [] ∅ 0x100001000 0xff0 20 (empty_heap_ok ∅)) as (h & Hd & Hok & _);
    [lia|lia|lia|intros a s Hin; by apply elem_of_nil in Hin|intros b n Hn; by rewrite lookup_empty in Hn|simpl; lia|].
  unfold page_heap. by rewrite Hd.
Qed.

Lemma first_page_mapped i : 0 <= i < pageSize -> translate demo_running (0x100001000 + i) <> None.
Proof.
  intros Hi. destruct demo_running_live as (Hm & Ht & _).
  apply (live_same_page large_limine large_root (fun _ => False) ∅ (storage (vm_mem large_vm)) 20 demo_devices demo_running
    0x100001000 _ Hm); [|exact Ht]. apply page_offset_self. by apply page_start.
Qed.

Lemma vfree_frees_mapped_frame_witness :
  exists h h' m' pa k, vfree large_limine 20 0x100001f9c (h, demo_running) = Done (h', m') /\
    translate m' 0x100001f9c = Some pa /\
    allocate_frame large_limine (vm_mem (vm m')) = Done ((pa - 0xf9c) mod 2 ^ 32, k).
Proof.
  destruct (allocate_done page_heap [] 0x100001000 0xfe8 [] ∅ 100 20 page_heap_ok) as (m' & _ & Hok & _);
    [lia|reflexivity|lia|simpl; lia|].
  destruct (vfree_frees_mapped_frame large_limine large_root (fun _ => False) ∅ (storage (vm_mem large_vm)) 10 demo_devices
    demo_running (Heap m' (head page_heap)) [(0x100001000, 0xfe8 - (100 + 16))]
    (<[0x100001000 + 24 + 0xfe8 - 100 - 16 := 100]> ∅) (0x100001000 + 24 + 0xfe8 - 100 - 16) 100 20)
    as (h' & m2 & pa & rest & Hv & _ & _ & Hpa & _ & (k & Hk) & _).
  - exact large_hhdm_ok.
  - exact large_higher_half.
  - lia.
  - eapply live_weaken; [|apply demo_running_live]. vm_compute. congruence.
  - vm_compute. reflexivity.
  - exact Hok.
  - apply lookup_insert_eq.
  - lia.
  - simpl. lia.
  - unfold pageSize. lia.
  - intros a s i Hin Hi. apply list_elem_of_singleton in Hin. injection Hin as -> ->.
    apply first_page_mapped. unfold FreeBlockHeader_size, pageSize in *. lia.
  - intros i Hi. replace (_ + i) with (0x100001000 + (0xf8c + i)) by lia.
    apply first_page_mapped. unfold UsedBlockHeader_size, pageSize in *. lia.
  - exists (Heap m' (head page_heap)), h', m2, pa, k. split; [exact Hv|]. split; [exact Hpa|exact Hk].
Defined.
