(* ===== verification/Terminal.v ===== *)
(** * The terminal

    Terminal.hpp, Terminal.cpp and BitmapFont.hpp: a ring of text lines, a
    framebuffer, and the painting of glyphs.  [layout] says which lines a text
    has, [picture] which pixels lines of text have; the theorems show that the
    screen is the picture of the last lines of the text as long as the ring has
    room, and what happens when it is full. *)

From Stdlib Require Import ZArith Lia String.
From stdpp Require Import base gmap list list_numbers numbers strings.
From S2P Require Import Prelude Utilities Printf.
#[local] Open Scope Z_scope.

(** [for (i = first; i < last; ++i) body] *)
Definition for_range {S : Type} (first last : Z) (body : Z -> S -> outcome S) (s : S) : outcome S :=
  for_upto (Z.to_nat (last - first)) first body s.

(** ** Framebuffer *)
Record Framebuffer := MkFramebuffer {
  m_pixels : gmap Z Z;
  m_width : Z;
  m_height : Z
}.

Definition setPixel (x y value : Z) (fb : Framebuffer) : outcome Framebuffer :=
  if (y <? m_height fb) && (x <? m_width fb) then
    Done (MkFramebuffer (<[u64 (m_width fb * y + x) := u32 value]> (m_pixels fb)) (m_width fb) (m_height fb))
  else Panic "Cursor out of bounds".

(** ** BitmapFont *)
Record BitmapFont := MkFont {
  characterWidth : Z;
  characterHeight : Z;
  characterLeftPadding : Z;
  characterTopPadding : Z;
  characterRightPadding : Z;
  characterBottomPadding : Z;
  font_data : list Z
}.

Definition characterTotalWidth (f : BitmapFont) : Z :=
  u64 (characterWidth f + characterLeftPadding f + characterRightPadding f).
Definition characterTotalHeight (f : BitmapFont) : Z :=
  u64 (characterHeight f + characterTopPadding f + characterBottomPadding f).

(** Byte [line] of the bitmap of a (signed) character. *)
Definition characterBitmap (f : BitmapFont) (character line : Z) : outcome Z :=
  array_get (font_data f) (character * characterHeight f + line).

(** DefaultFonts::terminalFont; the bytes are a data file. *)
Definition terminalFont (data : list Z) : BitmapFont := MkFont 8 16 0 0 0 0 data.

(** ** LineBuffer *)
Definition s_maxColumns : Z := 200.
Definition s_maxLines : Z := 256.

Inductive ScrollMode := automatic | manual.

#[export] Instance ScrollMode_eq_dec : EqDecision ScrollMode.
Proof. solve_decision. Defined.

Record LineBuffer := MkLineBuffer {
  m_lineSize : Z;
  m_visibleLines : Z;
  m_lineBuffer : list (list Z);
  m_front : Z;
  m_size : Z;
  m_firstVisibleLine : Z;
  m_currentColumn : Z
}.

(** The members' initial values; the array has no initialiser. *)
Definition LineBuffer_new (contents : list (list Z)) : LineBuffer :=
  MkLineBuffer s_maxColumns 24 contents 0 1 0 0.

Definition setLineSize (lineSize : Z) (b : LineBuffer) : LineBuffer :=
  MkLineBuffer (Z.min lineSize s_maxColumns) (m_visibleLines b) (m_lineBuffer b) (m_front b) (m_size b)
    (m_firstVisibleLine b) (m_currentColumn b).

Definition setNumVisibleLines (numVisibleLines : Z) (b : LineBuffer) : LineBuffer :=
  MkLineBuffer (m_lineSize b) (Z.min numVisibleLines s_maxLines) (m_lineBuffer b) (m_front b) (m_size b)
    (m_firstVisibleLine b) (m_currentColumn b).

Definition with_firstVisibleLine (b : LineBuffer) (first : Z) : LineBuffer :=
  MkLineBuffer (m_lineSize b) (m_visibleLines b) (m_lineBuffer b) (m_front b) (m_size b) first
    (m_currentColumn b).

Definition LineBuffer_scrollDown (lines : Z) (b : LineBuffer) : LineBuffer :=
  with_firstVisibleLine b
    (if 0 <=? lines then Z.min (u64 (m_size b - 1)) (u64 (m_firstVisibleLine b + lines))
     else if m_firstVisibleLine b <? Z.abs lines then 0 else m_firstVisibleLine b - Z.abs lines).

Record WriteResult := MkWriteResult { lineWrapped : bool; needsViewportRedraw : bool }.

(** The ring state after the line wraps: front, size and first visible line. *)
Definition wrap_line (scrollMode : ScrollMode) (b : LineBuffer) : Z * Z * Z :=
  let '(front, sz, first) :=
    if s_maxLines <=? m_size b then
      let front := u64 (m_front b + 1) mod s_maxLines in
      let first := if m_firstVisibleLine b =? front then u64 (m_firstVisibleLine b + 1) mod s_maxLines
                   else m_firstVisibleLine b in
      (front, m_size b, first)
    else (m_front b, u64 (m_size b + 1), m_firstVisibleLine b) in
  let first := if decide (scrollMode = automatic)
               then Z.max first (if m_visibleLines b <? sz then sz - m_visibleLines b else 0)
               else first in
  (front, sz, first).

Definition LineBuffer_write (character : Z) (scrollMode : ScrollMode) (b : LineBuffer)
    : outcome (WriteResult * LineBuffer) :=
  let lineWrap := (m_lineSize b <=? m_currentColumn b) || (character =? 10) in
  let oldFirstVisibleLine := m_firstVisibleLine b in
  let '(front, sz, first) := if lineWrap then wrap_line scrollMode b
                             else (m_front b, m_size b, m_firstVisibleLine b) in
  let column := if lineWrap then 0 else m_currentColumn b in
  let result := MkWriteResult lineWrap (negb (first =? oldFirstVisibleLine)) in
  let i := u64 (front + sz - 1) mod s_maxLines in
  if character =? 10 then
    Done (result, MkLineBuffer (m_lineSize b) (m_visibleLines b) (m_lineBuffer b) front sz first column)
  else
    currentLine ← array_get (m_lineBuffer b) i;
    currentLine ← array_set currentLine column character;
    lines ← array_set (m_lineBuffer b) i currentLine;
    Done (result, MkLineBuffer (m_lineSize b) (m_visibleLines b) lines front sz first (u64 (column + 1))).

(** From the number in the array to the position in the ring. *)
Definition firstVisibleLineIndex (b : LineBuffer) : Z :=
  if m_firstVisibleLine b <? m_front b then u64 (m_firstVisibleLine b + (s_maxLines - m_front b - 1))
  else m_firstVisibleLine b - m_front b.

Definition lastVisibleLineIndex (b : LineBuffer) : Z :=
  Z.min (u64 (m_size b - 1)) (u64 (firstVisibleLineIndex b + m_visibleLines b - 1)).

Definition getLine (index : Z) (b : LineBuffer) : outcome (list Z) :=
  array_get (m_lineBuffer b) (u64 (m_front b + index) mod s_maxLines).

Definition LineBuffer_clear (b : LineBuffer) : outcome LineBuffer :=
  lines ← array_set (m_lineBuffer b) 0 (replicate (Z.to_nat s_maxColumns) 0);
  Done (MkLineBuffer (m_lineSize b) (m_visibleLines b) lines 0 1 0 0).

(** ** Terminal *)
Record Terminal := MkTerminal {
  m_framebuffer : Framebuffer;
  m_font : BitmapFont;
  m_scrollMode : ScrollMode;
  cursor_x : Z;
  cursor_y : Z;
  m_lines : LineBuffer
}.

Definition with_paint (t : Terminal) (fb : Framebuffer) (x y : Z) : Terminal :=
  MkTerminal fb (m_font t) (m_scrollMode t) x y (m_lines t).

Definition with_lines (t : Terminal) (b : LineBuffer) : Terminal :=
  MkTerminal (m_framebuffer t) (m_font t) (m_scrollMode t) (cursor_x t) (cursor_y t) b.

Definition Terminal_new (contents : list (list Z)) (framebuffer : Framebuffer) (font : BitmapFont) : Terminal :=
  MkTerminal framebuffer font automatic 0 0
    (setNumVisibleLines (m_height framebuffer / characterTotalHeight font)
       (setLineSize (m_width framebuffer / characterTotalWidth font) (LineBuffer_new contents))).

Definition setScrollMode (mode : ScrollMode) (t : Terminal) : Terminal :=
  MkTerminal (m_framebuffer t) (m_font t) mode (cursor_x t) (cursor_y t) (m_lines t).

(** The rest of the current row of text in black. *)
Definition black_to_end (t : Terminal) : outcome Framebuffer :=
  for_range (cursor_x t) (m_width (m_framebuffer t)) (fun x fb =>
    for_range (cursor_y t) (u64 (cursor_y t + characterTotalHeight (m_font t))) (fun y fb =>
      setPixel x y 0 fb) fb) (m_framebuffer t).

(** The pixels of a glyph, line by line. *)
Definition paint_glyph (font : BitmapFont) (character left top : Z) (fb : Framebuffer) : outcome Framebuffer :=
  for_range 0 (characterHeight font) (fun line fb =>
    for_range 0 (characterWidth font) (fun bit fb =>
      bits ← characterBitmap font character line;
      setPixel (u64 (left + bit)) (u64 (top + line))
        (if negb (Z.land bits (Z.shiftl 1 (characterWidth font - bit - 1)) =? 0) then 0xffffffff else 0) fb) fb) fb.

Definition paintCharacter (character : Z) (t : Terminal) : outcome Terminal :=
  if character =? 10 then
    fb ← black_to_end t;
    let below := u64 (cursor_y t + characterTotalHeight (m_font t)) in
    Done (with_paint t fb 0 (if below <? m_height fb then below else cursor_y t))
  else
    let left := u64 (cursor_x t + characterLeftPadding (m_font t)) in
    let top := u64 (cursor_y t + characterTopPadding (m_font t)) in
    fb ← paint_glyph (m_font t) character left top (m_framebuffer t);
    Done (with_paint t fb
      (u64 (cursor_x t + (characterWidth (m_font t) + characterLeftPadding (m_font t) + characterRightPadding (m_font t))))
      (cursor_y t)).

(** The characters of a line up to the first zero. *)
Fixpoint paint_line (line : list Z) (t : Terminal) : outcome Terminal :=
  match line with
  | [] => Done t
  | c :: line => if c =? 0 then Done t else t ← paintCharacter c t; paint_line line t
  end.

(** [for (y = top; y < height; ++y) for (x = 0; x < width; ++x)] in black *)
Definition black_from (top : Z) (fb : Framebuffer) : outcome Framebuffer :=
  for_range top (m_height fb) (fun y fb0 => for_range 0 (m_width fb) (fun x fb1 => setPixel x y 0 fb1) fb0) fb.

Definition paintVisibleBuffer (t : Terminal) : outcome Terminal :=
  let first := firstVisibleLineIndex (m_lines t) in
  let last := lastVisibleLineIndex (m_lines t) in
  t ← for_range first (last + 1) (fun line t =>
    currentLine ← getLine line (m_lines t);
    t ← paint_line currentLine t;
    if line =? last then fb ← black_to_end t; Done (with_paint t fb (cursor_x t) (cursor_y t))
    else paintCharacter 10 t) (with_paint t (m_framebuffer t) 0 0);
  fb ← black_from (u64 (cursor_y t + characterTotalHeight (m_font t))) (m_framebuffer t);
  Done (with_paint t fb (cursor_x t) (cursor_y t)).

Definition write (character : Z) (t : Terminal) : outcome Terminal :=
  r ← LineBuffer_write character automatic (m_lines t);
  let '(result, b) := r : WriteResult * LineBuffer in
  let t := with_lines t b in
  if needsViewportRedraw result then paintVisibleBuffer t
  else
    t ← (if lineWrapped result && negb (character =? 10) then paintCharacter 10 t else Done t);
    paintCharacter character t.

Fixpoint write_string (string : list Z) (t : Terminal) : outcome Terminal :=
  match string with
  | [] => Done t
  | c :: string => t ← write c t; write_string string t
  end.

Definition scrollDown (lines : Z) (t : Terminal) : outcome Terminal :=
  paintVisibleBuffer (with_lines t (LineBuffer_scrollDown lines (m_lines t))).

Definition clearViewport (t : Terminal) : outcome Terminal :=
  fb ← black_from 0 (m_framebuffer t);
  Done (with_paint t fb 0 0).

Definition clear (t : Terminal) : outcome Terminal :=
  t ← clearViewport t;
  b ← LineBuffer_clear (m_lines t);
  Done (with_lines t b).

(** ** Pixels *)
Definition pixel (fb : Framebuffer) (x y : Z) : Z := default 0 (m_pixels fb !! u64 (m_width fb * y + x)).

(** A framebuffer of [W] by [H] pixels. *)
Record fb_ok (W H : Z) (fb : Framebuffer) : Prop := {
  fb_width : m_width fb = W;
  fb_height : m_height fb = H
}.

(** In [fb'] the pixels of the rectangle from (x0, y0) inclusive to (x1, y1)
    exclusive are those of [f]; the others are as in [fb]. *)
Definition painted (W H : Z) (fb fb' : Framebuffer) (x0 x1 y0 y1 : Z) (f : Z -> Z -> Z) : Prop :=
  fb_ok W H fb' /\
  forall x y, 0 <= x < W -> 0 <= y < H ->
    pixel fb' x y = if decide (x0 <= x < x1 /\ y0 <= y < y1) then f x y else pixel fb x y.

Section Screen.
Context (W H : Z) (HW : 0 < W < 2 ^ 31) (HH : 0 < H < 2 ^ 31).

Lemma pixel_index_inj x y x' y' :
  0 <= x < W -> 0 <= y < H -> 0 <= x' < W -> 0 <= y' < H ->
  u64 (W * y + x) = u64 (W * y' + x') -> x = x' /\ y = y'.
Proof.
  intros Hx Hy Hx' Hy'.
  assert (Hb : forall a b, 0 <= a < W -> 0 <= b < H -> 0 <= W * b + a < 2 ^ 64).
  { intros a b Ha Hb. assert (W * b <= 2 ^ 31 * (2 ^ 31 - 1)) by (apply Z.mul_le_mono_nonneg; lia).
    change (2 ^ 64) with 18446744073709551616. change (2 ^ 31) with 2147483648 in *. nia. }
  rewrite !wrap_id by auto. intros He.
  assert (y = y' /\ x = x') as [-> ->]; [|done]. apply (Z.div_mod_unique W); [left; done|left; done|done].
Qed.

Lemma setPixel_spec fb x y v :
  fb_ok W H fb -> 0 <= x < W -> 0 <= y < H -> 0 <= v < 2 ^ 32 ->
  exists fb', setPixel x y v fb = Done fb' /\ fb_ok W H fb' /\
    forall x' y', 0 <= x' < W -> 0 <= y' < H ->
      pixel fb' x' y' = if decide (x' = x /\ y' = y) then v else pixel fb x' y'.
Proof.
  intros [Hw Hh] Hx Hy Hv. unfold setPixel. rewrite Hw, Hh.
  rewrite !(proj2 (Z.ltb_lt _ _)) by lia. simpl. eexists. split; [done|]. split; [done|].
  intros x' y' Hx' Hy'. unfold pixel. simpl. rewrite ?Hw. case_decide as Hd.
  - destruct Hd as [-> ->]. rewrite lookup_insert_eq. simpl. by apply wrap_id.
  - rewrite lookup_insert_ne; [by rewrite ?Hw|]. intros He.
    apply pixel_index_inj in He as [-> ->]; [|done..]. by apply Hd.
Qed.

Lemma setPixel_outside fb x y v : fb_ok W H fb -> W <= x \/ H <= y -> setPixel x y v fb = Panic "Cursor out of bounds".
Proof.
  intros [Hw Hh] Ho. unfold setPixel. rewrite Hw, Hh.
  destruct (Z.ltb_spec y H), (Z.ltb_spec x W); simpl; done || lia.
Qed.

(** A loop along one axis. *)
Lemma paint_row fb a b y (f : Z -> Z -> Z) (body : Z -> Framebuffer -> outcome Framebuffer) :
  fb_ok W H fb -> 0 <= a <= b -> b <= W -> 0 <= y < H ->
  (forall x fb, a <= x < b -> fb_ok W H fb -> 0 <= f x y < 2 ^ 32 /\ body x fb = setPixel x y (f x y) fb) ->
  exists fb', for_range a b body fb = Done fb' /\ painted W H fb fb' a b y (y + 1) f.
Proof.
  intros Hfb Hab Hb Hy Hbody. unfold for_range.
  destruct (for_upto_total (fun x fb' => painted W H fb fb' a x y (y + 1) f) body (Z.to_nat (b - a)) a fb)
    as (fb' & Hd & Hp).
  - split; [done|]. intros x y' _ _. rewrite decide_False by lia. done.
  - intros x fb1 Hx [Hok Hp]. destruct (Hbody x fb1) as [Hv ->]; [lia|done|].
    destruct (setPixel_spec fb1 x y (f x y)) as (fb2 & -> & Hok2 & Hpx); [done|lia|done|done|].
    exists fb2. split; [done|]. split; [done|]. intros x' y' Hx' Hy'. rewrite Hpx, Hp by done.
    destruct (decide (x' = x /\ y' = y)) as [[-> ->]|Hne]; [by rewrite decide_True by lia|].
    destruct (decide (a <= x' < x /\ y <= y' < y + 1)), (decide (a <= x' < x + 1 /\ y <= y' < y + 1));
      done || (exfalso; lia).
  - exists fb'. split; [done|]. by replace (a + Z.of_nat (Z.to_nat (b - a))) with b in Hp by lia.
Qed.

Lemma paint_column fb a b x (f : Z -> Z -> Z) (body : Z -> Framebuffer -> outcome Framebuffer) :
  fb_ok W H fb -> 0 <= a <= b -> b <= H -> 0 <= x < W ->
  (forall y fb, a <= y < b -> fb_ok W H fb -> 0 <= f x y < 2 ^ 32 /\ body y fb = setPixel x y (f x y) fb) ->
  exists fb', for_range a b body fb = Done fb' /\ painted W H fb fb' x (x + 1) a b f.
Proof.
  intros Hfb Hab Hb Hx Hbody. unfold for_range.
  destruct (for_upto_total (fun y fb' => painted W H fb fb' x (x + 1) a y f) body (Z.to_nat (b - a)) a fb)
    as (fb' & Hd & Hp).
  - split; [done|]. intros x' y' _ _. rewrite decide_False by lia. done.
  - intros y fb1 Hy [Hok Hp]. destruct (Hbody y fb1) as [Hv ->]; [lia|done|].
    destruct (setPixel_spec fb1 x y (f x y)) as (fb2 & -> & Hok2 & Hpx); [done|done|lia|done|].
    exists fb2. split; [done|]. split; [done|]. intros x' y' Hx' Hy'. rewrite Hpx, Hp by done.
    destruct (decide (x' = x /\ y' = y)) as [[-> ->]|Hne]; [by rewrite decide_True by lia|].
    destruct (decide (x <= x' < x + 1 /\ a <= y' < y)), (decide (x <= x' < x + 1 /\ a <= y' < y + 1));
      done || (exfalso; lia).
  - exists fb'. split; [done|]. by replace (a + Z.of_nat (Z.to_nat (b - a))) with b in Hp by lia.
Qed.

(** Rows below each other, and columns next to each other. *)
Lemma paint_rows fb x0 x1 a b (f : Z -> Z -> Z) (body : Z -> Framebuffer -> outcome Framebuffer) :
  fb_ok W H fb -> a <= b ->
  (forall y fb, a <= y < b -> fb_ok W H fb ->
     exists fb', body y fb = Done fb' /\ painted W H fb fb' x0 x1 y (y + 1) f) ->
  exists fb', for_range a b body fb = Done fb' /\ painted W H fb fb' x0 x1 a b f.
Proof.
  intros Hfb Hab Hbody. unfold for_range.
  destruct (for_upto_total (fun y fb' => painted W H fb fb' x0 x1 a y f) body (Z.to_nat (b - a)) a fb)
    as (fb' & Hd & Hp).
  - split; [done|]. intros x' y' _ _. rewrite decide_False by lia. done.
  - intros y fb1 Hy [Hok Hp]. destruct (Hbody y fb1) as (fb2 & -> & Hok2 & Hp2); [lia|done|].
    exists fb2. split; [done|]. split; [done|]. intros x' y' Hx' Hy'. rewrite Hp2, Hp by done.
    destruct (decide (x0 <= x' < x1 /\ y <= y' < y + 1)), (decide (x0 <= x' < x1 /\ a <= y' < y)),
      (decide (x0 <= x' < x1 /\ a <= y' < y + 1)); done || (exfalso; lia).
  - exists fb'. split; [done|]. by replace (a + Z.of_nat (Z.to_nat (b - a))) with b in Hp by lia.
Qed.

Lemma paint_columns fb y0 y1 a b (f : Z -> Z -> Z) (body : Z -> Framebuffer -> outcome Framebuffer) :
  fb_ok W H fb -> a <= b ->
  (forall x fb, a <= x < b -> fb_ok W H fb ->
     exists fb', body x fb = Done fb' /\ painted W H fb fb' x (x + 1) y0 y1 f) ->
  exists fb', for_range a b body fb = Done fb' /\ painted W H fb fb' a b y0 y1 f.
Proof.
  intros Hfb Hab Hbody. unfold for_range.
  destruct (for_upto_total (fun x fb' => painted W H fb fb' a x y0 y1 f) body (Z.to_nat (b - a)) a fb)
    as (fb' & Hd & Hp).
  - split; [done|]. intros x' y' _ _. rewrite decide_False by lia. done.
  - intros x fb1 Hx [Hok Hp]. destruct (Hbody x fb1) as (fb2 & -> & Hok2 & Hp2); [lia|done|].
    exists fb2. split; [done|]. split; [done|]. intros x' y' Hx' Hy'. rewrite Hp2, Hp by done.
    destruct (decide (x <= x' < x + 1 /\ y0 <= y' < y1)), (decide (a <= x' < x /\ y0 <= y' < y1)),
      (decide (a <= x' < x + 1 /\ y0 <= y' < y1)); done || (exfalso; lia).
  - exists fb'. split; [done|]. by replace (a + Z.of_nat (Z.to_nat (b - a))) with b in Hp by lia.
Qed.
End Screen.

(** ** Characters *)

Lemma for_upto_shift {S} n first k (body : Z -> S -> outcome S) s :
  for_upto n first body s = for_upto n (first + k) (fun i => body (i - k)) s.
Proof.
  revert first s. induction n as [|n IH]; intros first s; [done|]. cbn [for_upto].
  replace (first + k - k) with first by lia. destruct (body first s); [|done..].
  rewrite !bind_done, IH. f_equal. lia.
Qed.

Lemma for_range_shift {S} a b k (body : Z -> S -> outcome S) s :
  for_range a b body s = for_range (a + k) (b + k) (fun i => body (i - k)) s.
Proof. unfold for_range. rewrite (for_upto_shift _ a k). do 2 f_equal. lia. Qed.

(** A printable character of the font. *)
Definition printable (c : Z) : Prop := 0 < c < 128 /\ c <> 10.

Section Text.
Context (W H : Z) (HW : 8 <= W < 2 ^ 31) (HH : 16 <= H < 2 ^ 31).
Context (data : list Z) (Hdata : List.length data = Z.to_nat 4096).

(** The pixel in column [x] and line [y] of a glyph. *)
Definition glyph (c x y : Z) : Z :=
  if Z.testbit (nth (Z.to_nat (16 * c + y)) data 0) (7 - x) then 0xffffffff else 0.

Lemma bit_test b k : 0 <= k -> negb (Z.land b (Z.shiftl 1 k) =? 0) = Z.testbit b k.
Proof.
  intros Hk. rewrite Z.shiftl_1_l. destruct (Z.testbit b k) eqn:Hb.
  - apply negb_true_iff, Z.eqb_neq. intros Hz. apply (f_equal (fun z => Z.testbit z k)) in Hz.
    rewrite Z.land_spec, Hb, Z.pow2_bits_true, Z.bits_0 in Hz by done. done.
  - apply negb_false_iff, Z.eqb_eq. apply Z.bits_inj'. intros i Hi.
    rewrite Z.land_spec, Z.bits_0, Z.pow2_bits_eqb by done. destruct (Z.eqb_spec k i) as [->|]; [by rewrite Hb|].
    by rewrite andb_false_r.
Qed.

Lemma glyph_range c x y : 0 <= glyph c x y < 2 ^ 32.
Proof. unfold glyph. case_match; lia. Qed.

Lemma characterBitmap_spec c line :
  0 <= c < 256 -> 0 <= line < 16 ->
  characterBitmap (terminalFont data) c line = Done (nth (Z.to_nat (16 * c + line)) data 0).
Proof.
  intros Hc Hl. unfold characterBitmap. cbn [characterHeight terminalFont font_data].
  replace (c * 16 + line) with (16 * c + line) by lia. apply array_get_done; [lia|].
  destruct (nth_lookup_or_length data (Z.to_nat (16 * c + line)) 0) as [Hn|Hn]; [done|lia].
Qed.

(** A terminal with the default font on a screen of [W] by [H] pixels. *)
Record term_ok (t : Terminal) : Prop := {
  term_fb : fb_ok W H (m_framebuffer t);
  term_font : m_font t = terminalFont data
}.

Lemma paint_glyph_spec fb c left top :
  fb_ok W H fb -> 0 <= c < 256 -> 0 <= left -> left + 8 <= W -> 0 <= top -> top + 16 <= H ->
  exists fb', paint_glyph (terminalFont data) c left top fb = Done fb' /\
    painted W H fb fb' left (left + 8) top (top + 16) (fun x y => glyph c (x - left) (y - top)).
Proof.
  intros Hfb Hc Hl Hlw Ht Hth. unfold paint_glyph. cbn [characterHeight characterWidth terminalFont].
  rewrite (for_range_shift 0 16 top). replace (0 + top) with top by lia. replace (16 + top) with (top + 16) by lia.
  apply paint_rows; [done|lia|]. intros y fb1 Hy Hfb1.
  rewrite (for_range_shift 0 8 left). replace (0 + left) with left by lia. replace (8 + left) with (left + 8) by lia.
  apply paint_row; [lia|lia|done|lia|lia|lia|]. intros x fb2 Hx Hfb2. split; [apply glyph_range|].
  change (MkFont 8 16 0 0 0 0 data) with (terminalFont data).
  rewrite characterBitmap_spec, bind_done by lia. rewrite !(wrap_id 64) by lia.
  replace (left + (x - left)) with x by lia. replace (top + (y - top)) with y by lia.
  rewrite bit_test by lia. unfold glyph. by replace (8 - (x - left) - 1) with (7 - (x - left)) by lia.
Qed.

Lemma paintCharacter_spec t c :
  term_ok t -> printable c -> 0 <= cursor_x t -> cursor_x t + 8 <= W -> 0 <= cursor_y t -> cursor_y t + 16 <= H ->
  exists fb', paintCharacter c t = Done (with_paint t fb' (cursor_x t + 8) (cursor_y t)) /\
    painted W H (m_framebuffer t) fb' (cursor_x t) (cursor_x t + 8) (cursor_y t) (cursor_y t + 16)
      (fun x y => glyph c (x - cursor_x t) (y - cursor_y t)).
Proof.
  intros [Hfb Hfont] [Hc Hn] Hx Hxw Hy Hyh. unfold paintCharacter. rewrite Hfont.
  rewrite (proj2 (Z.eqb_neq c 10)) by done.
  cbn [characterLeftPadding characterTopPadding characterRightPadding characterWidth terminalFont].
  change (MkFont 8 16 0 0 0 0 data) with (terminalFont data). rewrite !Z.add_0_r, !(wrap_id 64) by lia.
  destruct (paint_glyph_spec (m_framebuffer t) c (cursor_x t) (cursor_y t)) as (fb' & -> & Hp); [done|lia|done..|].
  exists fb'. by rewrite bind_done.
Qed.

Lemma black_to_end_spec t :
  term_ok t -> 0 <= cursor_x t <= W -> 0 <= cursor_y t -> cursor_y t + 16 <= H ->
  exists fb', black_to_end t = Done fb' /\
    painted W H (m_framebuffer t) fb' (cursor_x t) W (cursor_y t) (cursor_y t + 16) (fun _ _ => 0).
Proof.
  intros [Hfb Hfont] Hx Hy Hyh. unfold black_to_end. rewrite Hfont, (fb_width _ _ _ Hfb).
  change (characterTotalHeight (terminalFont data)) with 16. rewrite (wrap_id 64) by lia.
  apply paint_columns; [done|lia|]. intros x fb1 Hx1 Hfb1.
  apply paint_column; [lia|lia|done|lia|lia|lia|]. intros y fb2 Hy2 Hfb2. split; [lia|done].
Qed.

Lemma newline_spec t :
  term_ok t -> 0 <= cursor_x t <= W -> 0 <= cursor_y t -> cursor_y t + 16 <= H ->
  exists fb', paintCharacter 10 t =
      Done (with_paint t fb' 0 (if cursor_y t + 16 <? H then cursor_y t + 16 else cursor_y t)) /\
    painted W H (m_framebuffer t) fb' (cursor_x t) W (cursor_y t) (cursor_y t + 16) (fun _ _ => 0).
Proof.
  intros Ht Hx Hy Hyh. destruct (black_to_end_spec t Ht Hx Hy Hyh) as (fb' & Hb & Hp). exists fb'. split; [|done].
  unfold paintCharacter. rewrite Hb, bind_done. rewrite (term_font _ Ht), (fb_height _ _ _ (proj1 Hp)).
  change (characterTotalHeight (terminalFont data)) with 16. by rewrite (wrap_id 64) by lia.
Qed.

Lemma black_from_spec fb top :
  fb_ok W H fb -> 0 <= top ->
  exists fb', black_from top fb = Done fb' /\ painted W H fb fb' 0 W top H (fun _ _ => 0).
Proof.
  intros Hfb Ht. unfold black_from. rewrite (fb_height _ _ _ Hfb), (fb_width _ _ _ Hfb).
  destruct (Z.le_gt_cases top H).
  - apply paint_rows; [done|lia|]. intros y fb1 Hy Hfb1.
    apply paint_row; [lia|lia|done|lia|lia|lia|]. intros x fb2 Hx Hfb2. split; [lia|done].
  - unfold for_range. replace (Z.to_nat (H - top)) with 0%nat by lia. exists fb. split; [done|]. split; [done|].
    intros x y Hx Hy. by rewrite decide_False by lia.
Qed.

(** ** Pictures of text *)

(** A pixel of a row of characters; [x] counts from its left edge. *)
Definition line_pixel (l : list Z) (x y : Z) : Z :=
  match l !! Z.to_nat (x / 8) with Some c => glyph c (x mod 8) (y mod 16) | None => 0 end.

(** A pixel of lines of text. *)
Definition picture (ls : list (list Z)) (x y : Z) : Z :=
  match ls !! Z.to_nat (y / 16) with Some l => line_pixel l x y | None => 0 end.

Lemma line_pixel_cons c l x y :
  0 <= x -> line_pixel (c :: l) x y = if decide (x < 8) then glyph c x (y mod 16) else line_pixel l (x - 8) y.
Proof.
  intros Hx. unfold line_pixel. case_decide.
  - rewrite Z.div_small, Z.mod_small by lia. done.
  - assert (x / 8 = (x - 8) / 8 + 1) as -> by (rewrite <-(Z.div_add (x - 8) 1 8) by lia; f_equal; lia).
    assert (x mod 8 = (x - 8) mod 8) as -> by (rewrite <-(Z_mod_plus_full (x - 8) 1 8); f_equal; lia).
    assert (0 <= (x - 8) / 8) by (apply Z.div_pos; lia).
    replace (Z.to_nat ((x - 8) / 8 + 1)) with (S (Z.to_nat ((x - 8) / 8))) by lia. done.
Qed.

Lemma line_pixel_end l x y : 8 * Z.of_nat (List.length l) <= x -> line_pixel l x y = 0.
Proof.
  intros Hx. unfold line_pixel. rewrite lookup_ge_None_2; [done|].
  assert (Z.of_nat (List.length l) <= x / 8) by (apply Z.div_le_lower_bound; lia). lia.
Qed.

(** Painting a line whose characters are printable, up to its first zero. *)
Lemma paint_line_spec l n t :
  term_ok t -> Forall printable l -> 0 <= cursor_x t -> cursor_x t + 8 * Z.of_nat (List.length l) <= W ->
  0 <= cursor_y t -> cursor_y t mod 16 = 0 -> cursor_y t + 16 <= H ->
  exists fb', paint_line (l ++ replicate n 0) t =
      Done (with_paint t fb' (cursor_x t + 8 * Z.of_nat (List.length l)) (cursor_y t)) /\
    painted W H (m_framebuffer t) fb' (cursor_x t) (cursor_x t + 8 * Z.of_nat (List.length l))
      (cursor_y t) (cursor_y t + 16) (fun x y => line_pixel l (x - cursor_x t) y).
Proof.
  intros Ht Hl. revert t Ht. induction Hl as [|c l Hc Hl IH]; intros t Ht Hx Hxw Hy Hym Hyh.
  - exists (m_framebuffer t). rewrite Z.mul_0_r, Z.add_0_r. split.
    + destruct t. by destruct n.
    + split; [apply Ht|]. intros x y _ _. by rewrite decide_False by lia.
  - cbn [List.length] in Hxw |- *. destruct (paintCharacter_spec t c) as (fb1 & Hd1 & Hp1); [done|done|lia..|].
    destruct (IH (with_paint t fb1 (cursor_x t + 8) (cursor_y t))) as (fb2 & Hd2 & Hp2);
      [split; [apply Hp1|apply Ht]|simpl; lia..|].
    cbn [with_paint cursor_x cursor_y m_framebuffer] in Hd2, Hp2.
    exists fb2. split.
    + cbn [app paint_line]. rewrite (proj2 (Z.eqb_neq c 0)) by (destruct Hc; lia).
      rewrite Hd1, bind_done, Hd2. unfold with_paint. do 2 f_equal. lia.
    + split; [apply Hp2|]. intros x y Hxx Hyy. destruct Hp1 as [_ Hp1]. destruct Hp2 as [_ Hp2].
      rewrite Hp2, Hp1 by done.
      destruct (decide (cursor_x t <= x < cursor_x t + 8 * Z.of_nat (S (List.length l)) /\
        cursor_y t <= y < cursor_y t + 16)) as [Hin|Hout].
      * rewrite line_pixel_cons by lia. destruct (decide (x - cursor_x t < 8)).
        -- rewrite decide_False, decide_True by lia. f_equal.
           apply (Zmod_unique _ _ (cursor_y t / 16)); [lia|].
           pose proof (Z.div_mod (cursor_y t) 16 ltac:(lia)). lia.
        -- rewrite decide_True by lia. f_equal. lia.
      * rewrite !decide_False by lia. done.
Qed.

(** ** The ring as text *)

(** Columns and rows of text. *)
Definition columns : Z := Z.min (W / 8) 200.
Definition rows : Z := Z.min (H / 16) 256.

Lemma columns_range : 1 <= columns <= 200 /\ 8 * columns <= W.
Proof. unfold columns. pose proof (Z.div_mod W 8 ltac:(lia)). pose proof (Z.mod_pos_bound W 8). lia. Qed.

Lemma rows_range : 1 <= rows <= 256 /\ 16 * rows <= H.
Proof. unfold rows. pose proof (Z.div_mod H 16 ltac:(lia)). pose proof (Z.mod_pos_bound H 16). lia. Qed.

Definition blank : list Z := replicate 200 0.
Definition pad (l : list Z) : list Z := l ++ replicate (200 - List.length l) 0.

Definition line_ok (l : list Z) : Prop := Forall printable l /\ Z.of_nat (List.length l) <= columns.

Definition num {A} (l : list A) : Z := Z.of_nat (List.length l).

(** The buffer holds the lines [d ++ [cur]], in a ring that has not wrapped. *)
Record holds (d : list (list Z)) (cur : list Z) (b : LineBuffer) : Prop := {
  h_columns : m_lineSize b = columns;
  h_rows : m_visibleLines b = rows;
  h_front : m_front b = 0;
  h_size : m_size b = num d + 1;
  h_room : num d + 1 <= 256;
  h_first : m_firstVisibleLine b = Z.max 0 (num d + 1 - rows);
  h_column : m_currentColumn b = num cur;
  h_lines : m_lineBuffer b = (pad <$> (d ++ [cur])) ++ replicate (255 - List.length d) blank;
  h_ok : Forall line_ok (d ++ [cur])
}.

(** The lines on the screen. *)
Definition screen (ls : list (list Z)) : list (list Z) := drop (Z.to_nat (num ls - rows)) ls.

Lemma pad_length l : line_ok l -> List.length (pad l) = 200%nat.
Proof. intros [_ Hl]. pose proof columns_range. unfold pad. rewrite length_app, length_replicate. lia. Qed.

Lemma getLine_holds d cur b i l :
  holds d cur b -> 0 <= i -> (d ++ [cur]) !! Z.to_nat i = Some l -> getLine i b = Done (pad l).
Proof.
  intros Hb Hi Hl. pose proof (lookup_lt_Some _ _ _ Hl) as Hlt. rewrite length_app in Hlt. simpl in Hlt.
  pose proof (h_room _ _ _ Hb) as Hr. unfold num in Hr. unfold getLine.
  rewrite (h_front _ _ _ Hb), Z.add_0_l, (wrap_id 64) by lia. unfold s_maxLines. rewrite Z.mod_small by lia.
  apply array_get_done; [done|]. rewrite (h_lines _ _ _ Hb). apply lookup_app_l_Some.
  by rewrite list_lookup_fmap, Hl.
Qed.

Lemma visible_range d cur b :
  holds d cur b ->
  firstVisibleLineIndex b = Z.max 0 (num d + 1 - rows) /\ lastVisibleLineIndex b = num d.
Proof.
  intros Hb. pose proof rows_range. pose proof (h_room _ _ _ Hb) as Hr.
  assert (0 <= num d) by (unfold num; lia).
  assert (Hf : firstVisibleLineIndex b = Z.max 0 (num d + 1 - rows)).
  { unfold firstVisibleLineIndex. rewrite (h_front _ _ _ Hb), (h_first _ _ _ Hb).
    rewrite (proj2 (Z.ltb_ge _ _)) by lia. lia. }
  split; [done|]. unfold lastVisibleLineIndex. rewrite Hf, (h_size _ _ _ Hb), (h_rows _ _ _ Hb).
  rewrite !(wrap_id 64) by lia. lia.
Qed.

Lemma picture_lt ls r l x y :
  ls !! Z.to_nat r = Some l -> 0 <= r -> 16 * r <= y < 16 * r + 16 -> picture ls x y = line_pixel l x y.
Proof.
  intros Hl Hr Hy. unfold picture. replace (y / 16) with r; [by rewrite Hl|].
  apply (Z.div_unique y 16 r (y - 16 * r)); lia.
Qed.

Lemma picture_below ls x y : 16 * num ls <= y -> picture ls x y = 0.
Proof.
  intros Hy. unfold picture, num in *. rewrite lookup_ge_None_2; [done|].
  assert (Z.of_nat (List.length ls) <= y / 16) by (apply Z.div_le_lower_bound; lia). lia.
Qed.

(** A row of text from the left edge, and black behind it. *)
Lemma row_spec l r t :
  term_ok t -> line_ok l -> cursor_x t = 0 -> cursor_y t = 16 * r -> 0 <= r -> r + 1 <= rows ->
  exists t1, paint_line (pad l) t = Done t1 /\ term_ok t1 /\ t1 = with_paint t (m_framebuffer t1) (8 * num l) (16 * r) /\
    cursor_x t1 = 8 * num l /\ cursor_y t1 = 16 * r /\ 0 <= 8 * num l <= W /\ 16 * r + 16 <= H /\
    (forall fb, painted W H (m_framebuffer t1) fb (8 * num l) W (16 * r) (16 * r + 16) (fun _ _ => 0) ->
       painted W H (m_framebuffer t) fb 0 W (16 * r) (16 * r + 16) (line_pixel l)).
Proof.
  intros Ht [Hp Hl] Hx Hy Hr Hrr. pose proof columns_range. pose proof rows_range. unfold num.
  destruct (paint_line_spec l (200 - List.length l) t) as (fb1 & Hd & Hp1); [done|done|lia|lia|lia| |lia|].
  { rewrite Hy, Z.mul_comm. apply Z_mod_mult. }
  rewrite Hx, Hy in Hp1. exists (with_paint t fb1 (cursor_x t + 8 * Z.of_nat (List.length l)) (cursor_y t)).
  split; [done|]. split; [split; [apply Hp1|apply Ht]|]. cbn.
  split_and!; try lia; [unfold with_paint; simpl; f_equal; lia|]. intros fb [Hok Hf]. split; [done|]. intros x y Hxx Hyy.
  destruct Hp1 as [_ Hp1]. rewrite Hf, Hp1 by done.
  destruct (decide (0 <= x < W /\ 16 * r <= y < 16 * r + 16)) as [Hin|Hout].
  - destruct (decide (8 * Z.of_nat (List.length l) <= x < W /\ 16 * r <= y < 16 * r + 16)) as [Hin2|Hout2].
    + symmetry. apply line_pixel_end. lia.
    + rewrite decide_True by lia. f_equal. lia.
  - rewrite !decide_False by lia. done.
Qed.

Lemma screen_length ls : num (screen ls) = Z.min (num ls) rows.
Proof. pose proof rows_range. unfold screen, num. rewrite length_drop. lia. Qed.

Lemma screen_lookup ls r : 0 <= r -> screen ls !! Z.to_nat r = ls !! Z.to_nat (Z.max 0 (num ls - rows) + r).
Proof. intros Hr. unfold screen. rewrite lookup_drop. f_equal. lia. Qed.

(** Rows painted one below the other. *)
Lemma painted_below fb fb1 fb2 r l ls :
  0 <= r -> ls !! Z.to_nat r = Some l ->
  painted W H fb fb1 0 W 0 (16 * r) (picture ls) ->
  painted W H fb1 fb2 0 W (16 * r) (16 * r + 16) (line_pixel l) ->
  painted W H fb fb2 0 W 0 (16 * (r + 1)) (picture ls).
Proof.
  intros Hr Hl [_ H1] [Hok H2]. split; [done|]. intros x y Hx Hy. rewrite H2, H1 by done.
  destruct (decide (0 <= x < W /\ 16 * r <= y < 16 * r + 16)) as [Hin|Hout].
  - rewrite decide_True by lia. symmetry. apply (picture_lt ls r); [done|done|lia].
  - destruct (decide (0 <= x < W /\ 0 <= y < 16 * r)), (decide (0 <= x < W /\ 0 <= y < 16 * (r + 1)));
      done || (exfalso; lia).
Qed.

(** One round of the loop of [paintVisibleBuffer]. *)
Lemma repaint_row d cur t i fb :
  holds d cur (m_lines t) -> term_ok t ->
  let ls := d ++ [cur] in
  let first := Z.max 0 (num ls - rows) in
  first <= i <= num d -> painted W H (m_framebuffer t) fb 0 W 0 (16 * (i - first)) (picture (screen ls)) ->
  let t0 := with_paint t fb 0 (16 * (i - first)) in
  exists fb' x y,
    (currentLine ← getLine i (m_lines t0);
     t1 ← paint_line currentLine t0;
     if i =? num d then fb ← black_to_end t1; Done (with_paint t1 fb (cursor_x t1) (cursor_y t1))
     else paintCharacter 10 t1) = Done (with_paint t fb' x y) /\
    painted W H (m_framebuffer t) fb' 0 W 0 (16 * (i + 1 - first)) (picture (screen ls)) /\
    (if i =? num d then x = 8 * num cur /\ y = 16 * (i - first) else x = 0 /\ y = 16 * (i + 1 - first)).
Proof.
  intros Hb Ht ls first Hi Hp t0. pose proof rows_range.
  assert (Hn : num ls = num d + 1) by (unfold num, ls; rewrite length_app; simpl; lia).
  assert (Hd0 : 0 <= num d) by (unfold num; lia).
  destruct (lookup_lt_is_Some_2 ls (Z.to_nat i)) as [l Hl].
  { unfold num in *. unfold ls. rewrite length_app. simpl. lia. }
  assert (Hls : line_ok l) by (apply (proj1 (Forall_lookup _ _) (h_ok _ _ _ Hb) _ _ Hl)).
  assert (Ht0 : term_ok t0) by (split; [apply Hp|apply Ht]).
  change (m_lines t0) with (m_lines t). rewrite (getLine_holds d cur _ i l), bind_done by (done || lia).
  destruct (row_spec l (i - first) t0) as (t1 & -> & Ht1 & He1 & Hx1 & Hy1 & Hxw & Hyh & Hrow);
    [done|done|done|done|lia|lia|].
  rewrite bind_done.
  assert (Hsl : screen ls !! Z.to_nat (i - first) = Some l).
  { rewrite screen_lookup by lia. fold first. by replace (first + (i - first)) with i by lia. }
  destruct (Z.eqb_spec i (num d)) as [->|Hne].
  - destruct (black_to_end_spec t1) as (fb2 & -> & Hp2); [done|lia|lia|lia|]. rewrite bind_done.
    rewrite Hx1, Hy1 in Hp2. apply Hrow in Hp2.
    assert (Hlc : l = cur).
    { revert Hl. unfold ls, num. rewrite Nat2Z.id, lookup_app_r, Nat.sub_diag by lia. simpl. congruence. }
    subst l. eexists fb2, _, _. split; [|split; [|split; [exact Hx1|exact Hy1]]].
    + rewrite He1. done.
    + replace (num d + 1 - first) with (num d - first + 1) by lia. eapply painted_below; [lia|done|done|exact Hp2].
  - destruct (newline_spec t1) as (fb2 & -> & Hp2); [done|lia|lia|lia|].
    rewrite Hx1, Hy1 in Hp2. apply Hrow in Hp2. rewrite Hy1.
    rewrite (proj2 (Z.ltb_lt _ _)) by lia.
    eexists fb2, _, _. split; [|split; [|split; [reflexivity|reflexivity]]].
    + rewrite He1. unfold with_paint, t0. cbn. do 2 f_equal. lia.
    + replace (i + 1 - first) with (i - first + 1) by lia. eapply painted_below; [lia|done|done|exact Hp2].
Qed.

(** The whole screen is the picture of the last lines. *)
Lemma paintVisibleBuffer_spec d cur t :
  holds d cur (m_lines t) -> term_ok t ->
  let ls := d ++ [cur] in
  exists fb', paintVisibleBuffer t = Done (with_paint t fb' (8 * num cur) (16 * (num (screen ls) - 1))) /\
    painted W H (m_framebuffer t) fb' 0 W 0 H (picture (screen ls)).
Proof.
  intros Hb Ht ls. pose proof rows_range. destruct (visible_range _ _ _ Hb) as [Hf Hl].
  assert (Hn : num ls = num d + 1) by (unfold num, ls; rewrite length_app; simpl; lia).
  assert (Hd0 : 0 <= num d) by (unfold num; lia).
  pose proof (screen_length ls) as Hsl. unfold paintVisibleBuffer. rewrite Hf, Hl. rewrite <-Hn.
  set (first := Z.max 0 (num ls - rows)) in *. unfold for_range.
  match goal with |- context [for_upto ?n ?a ?body ?s] =>
    destruct (for_upto_total (fun i t' => exists fb x y, t' = with_paint t fb x y /\
      painted W H (m_framebuffer t) fb 0 W 0 (16 * (i - first)) (picture (screen ls)) /\
      (if i <=? num d then x = 0 /\ y = 16 * (i - first) else x = 8 * num cur /\ y = 16 * (i - 1 - first)))
      body n a s) as (t1 & -> & fb1 & x & y & -> & Hp & Hxy) end.
  - exists (m_framebuffer t), 0, 0. split; [done|]. split.
    + split; [apply Ht|]. intros x y _ _. by rewrite decide_False by lia.
    + rewrite (proj2 (Z.leb_le _ _)) by lia. lia.
  - intros i t' Hi (fb & x & y & -> & Hp & Hxy). rewrite (proj2 (Z.leb_le _ _)) in Hxy by lia.
    destruct Hxy as [-> ->].
    destruct (repaint_row d cur t i fb) as (fb' & x & y & Hd & Hp' & Hxy); [done|done|change (first <= i <= num d); lia|done|].
    fold ls in Hd, Hp', Hxy. fold first in Hd, Hp', Hxy.
    exists (with_paint t fb' x y). split; [exact Hd|]. exists fb', x, y. split; [done|]. split; [done|].
    destruct (Z.eqb_spec i (num d)).
    + rewrite (proj2 (Z.leb_gt _ _)) by lia. intuition lia.
    + rewrite (proj2 (Z.leb_le _ _)) by lia. intuition lia.
  - replace (first + Z.of_nat (Z.to_nat (num ls - first))) with (num d + 1) in * by lia.
    rewrite (proj2 (Z.leb_gt _ _)) in Hxy by lia. destruct Hxy as [-> ->]. rewrite bind_done.
    cbn [with_paint cursor_y m_framebuffer m_font]. rewrite (term_font _ Ht).
    change (characterTotalHeight (terminalFont data)) with 16. rewrite (wrap_id 64) by lia.
    destruct (black_from_spec fb1 (16 * (num d + 1 - 1 - first) + 16)) as (fb2 & -> & Hok2 & Hp2); [apply Hp|lia|].
    rewrite bind_done. exists fb2. split.
    + unfold with_paint. cbn. do 2 f_equal. lia.
    + split; [done|]. intros px py Hpx Hpy. destruct Hp as [_ Hp]. rewrite Hp2, Hp by done.
      rewrite (decide_True (P := 0 <= px < W /\ 0 <= py < H)) by lia.
      destruct (decide (0 <= px < W /\ 16 * (num d + 1 - 1 - first) + 16 <= py < H)) as [Hin|Hout].
      * symmetry. apply picture_below. lia.
      * by rewrite decide_True by lia.
Qed.

(** ** Writing *)

(** The effect of a character on the lines of a text, the last one apart. *)
Definition layout1 (s : list (list Z) * list Z) (c : Z) : list (list Z) * list Z :=
  let '(d, cur) := s in
  if (columns <=? num cur) || (c =? 10) then (d ++ [cur], if c =? 10 then [] else [c]) else (d, cur ++ [c]).

Definition layout (text : list Z) : list (list Z) * list Z := foldl layout1 ([], []) text.

Lemma pad_nil : pad [] = blank.
Proof. done. Qed.

Lemma pad_snoc l c : num l < 200 -> <[List.length l := c]> (pad l) = pad (l ++ [c]).
Proof.
  intros Hl. unfold num in Hl. unfold pad. rewrite insert_app_r_alt, Nat.sub_diag by lia.
  rewrite length_app. simpl List.length.
  replace (200 - List.length l)%nat with (S (200 - (List.length l + 1))) by lia. simpl. by rewrite <-app_assoc.
Qed.

Lemma line_ok_nil : line_ok [].
Proof. pose proof columns_range. split; [constructor|simpl; lia]. Qed.

(** Storing a character in the ring. *)
Lemma store_char ls i l c rest :
  num ls = i -> num l < 200 ->
  exists line line', array_get ((pad <$> ls) ++ pad l :: rest) i = Done line /\
    array_set line (num l) c = Done line' /\
    array_set ((pad <$> ls) ++ pad l :: rest) i line' = Done ((pad <$> ls) ++ pad (l ++ [c]) :: rest).
Proof.
  intros Hi Hl. unfold num in *. exists (pad l), (pad (l ++ [c])).
  assert (Hn : Z.to_nat i = List.length (pad <$> ls)) by (rewrite length_fmap; lia).
  split_and!.
  - apply array_get_done; [lia|rewrite Hn; by apply list_lookup_middle].
  - rewrite array_set_done; [by rewrite Nat2Z.id, pad_snoc|].
    unfold pad. rewrite length_app, length_replicate. lia.
  - rewrite array_set_done by (rewrite length_app, length_fmap; simpl; lia).
    by rewrite Hn, insert_app_r_alt, Nat.sub_diag by lia.
Qed.

Lemma LineBuffer_write_spec d cur b c :
  holds d cur b -> printable c \/ c = 10 ->
  let d' := fst (layout1 (d, cur) c) in
  let cur' := snd (layout1 (d, cur) c) in
  num d' + 1 <= 256 ->
  exists b', LineBuffer_write c automatic b =
      Done (MkWriteResult ((columns <=? num cur) || (c =? 10))
              (negb (Z.max 0 (num d' + 1 - rows) =? Z.max 0 (num d + 1 - rows))), b') /\
    holds d' cur' b'.
Proof.
  intros Hb Hc d' cur' Hroom. pose proof columns_range. pose proof rows_range.
  destruct Hb as [Hn HV Hfr Hsz Hrm Hfi Hco Hli Hok].
  assert (Hd0 : 0 <= num d) by (unfold num; lia). assert (Hc0 : 0 <= num cur) by (unfold num; lia).
  pose proof Hok as [Hokd Hokc]%Forall_app. rewrite Forall_singleton in Hokc.
  assert (Hpc : c <> 10 -> printable c) by (intros; by destruct Hc).
  unfold LineBuffer_write, wrap_line. rewrite Hn, HV, Hfr, Hsz, Hfi, Hco. unfold s_maxLines.
  unfold layout1 in d', cur'. destruct ((columns <=? num cur) || (c =? 10)) eqn:Hw; simpl in d', cur'; subst d' cur'.
  - (* the line wraps *)
    assert (Hnd : num (d ++ [cur]) = num d + 1) by (unfold num; rewrite length_app; simpl; lia).
    rewrite Hnd in *. rewrite (proj2 (Z.leb_gt 256 _)) by lia.
    rewrite (wrap_id 64 (num d + 1 + 1)) by lia. rewrite decide_True by done.
    replace (Z.max (Z.max 0 (num d + 1 - rows)) (if rows <? num d + 1 + 1 then num d + 1 + 1 - rows else 0))
      with (Z.max 0 (num d + 1 + 1 - rows)) by (destruct (Z.ltb_spec rows (num d + 1 + 1)); lia).
    assert (Hblank : m_lineBuffer b = (pad <$> (d ++ [cur])) ++ pad [] :: replicate (255 - List.length (d ++ [cur])) blank).
    { rewrite Hli, length_app. cbn [List.length]. f_equal. unfold num in *.
      replace (255 - List.length d)%nat with (S (255 - (List.length d + 1))) by lia. done. }
    destruct (Z.eqb_spec c 10) as [->|Hne].
    + eexists. split; [done|]. split; simpl; try done; try lia.
      * rewrite Hblank, (fmap_app _ (d ++ [cur]) [[]]), <-app_assoc. done.
      * apply Forall_app. split; [done|]. apply Forall_singleton, line_ok_nil.
    + rewrite (wrap_id 64 (0 + _ - 1)), Z.mod_small by lia. replace (0 + (num d + 1 + 1) - 1) with (num d + 1) by lia.
      destruct (store_char (d ++ [cur]) (num d + 1) [] c (replicate (255 - List.length (d ++ [cur])) blank))
        as (l & l' & Hg & Hs & Hst); [done|unfold num; simpl; lia|].
      rewrite <-Hblank in Hg, Hst. change (num []) with 0 in Hs.
      rewrite Hg, bind_done, Hs, bind_done, Hst, bind_done.
      eexists. split; [done|]. split; simpl; try done; try lia.
      * rewrite (fmap_app _ (d ++ [cur]) [[c]]), <-app_assoc. done.
      * apply Forall_app. split; [done|]. apply Forall_singleton. split; [|simpl; lia].
        constructor; [by apply Hpc|constructor].
  - (* the character goes on the last line *)
    apply orb_false_iff in Hw as [Hw1 Hne]. rewrite Hne. apply Z.leb_gt in Hw1. apply Z.eqb_neq in Hne.
    rewrite (wrap_id 64 (0 + _ - 1)), Z.mod_small by lia. replace (0 + (num d + 1) - 1) with (num d) by lia.
    assert (Hlast : m_lineBuffer b = (pad <$> d) ++ pad cur :: replicate (255 - List.length d) blank).
    { by rewrite Hli, (fmap_app _ d [cur]), <-app_assoc. }
    destruct (store_char d (num d) cur c (replicate (255 - List.length d) blank)) as (l & l' & Hg & Hs & Hst);
      [done|lia|].
    rewrite <-Hlast in Hg, Hst. rewrite Hg, bind_done, Hs, bind_done, Hst, bind_done. rewrite !Z.eqb_refl. eexists. split; [done|]. split; simpl; try done.
    + unfold num in *. rewrite length_app, wrap_id by lia. simpl. lia.
    + by rewrite (fmap_app _ d [cur ++ [c]]), <-app_assoc.
    + apply Forall_app. split; [done|]. apply Forall_singleton. destruct Hokc as [Hp Hl]. split.
      * apply Forall_app. split; [done|]. constructor; [by apply Hpc|constructor].
      * unfold num in *. rewrite length_app. simpl. lia.
Qed.

(** ** The screen while text is written *)

(** The framebuffer is the picture of [l ++ [cur]], and the paint cursor is
    behind the last character. *)
Record displays (l : list (list Z)) (cur : list Z) (t : Terminal) : Prop := {
  dp_ok : term_ok t;
  dp_x : cursor_x t = 8 * num cur;
  dp_y : cursor_y t = 16 * num l;
  dp_pixels x y : 0 <= x < W -> 0 <= y < H -> pixel (m_framebuffer t) x y = picture (l ++ [cur]) x y
}.

Lemma picture_last l cur x y : 16 * num l <= y < 16 * num l + 16 -> picture (l ++ [cur]) x y = line_pixel cur x y.
Proof.
  intros Hy. apply (picture_lt _ (num l)); [|unfold num; lia|done].
  unfold num. rewrite Nat2Z.id. by apply list_lookup_middle.
Qed.

Lemma picture_before l cur cur' x y : 0 <= y < 16 * num l -> picture (l ++ [cur]) x y = picture (l ++ [cur']) x y.
Proof.
  intros Hy. unfold picture, num in *.
  assert (y / 16 < Z.of_nat (List.length l)) by (apply Z.div_lt_upper_bound; lia).
  assert (0 <= y / 16) by (apply Z.div_pos; lia).
  rewrite !lookup_app_l by lia. done.
Qed.

Lemma line_pixel_app l c x y :
  0 <= x -> line_pixel (l ++ [c]) x y =
    if decide (8 * num l <= x < 8 * num l + 8) then glyph c (x - 8 * num l) (y mod 16) else line_pixel l x y.
Proof.
  intros Hx. unfold line_pixel, num. assert (0 <= x / 8) by (apply Z.div_pos; lia).
  pose proof (Z.div_mod x 8 ltac:(lia)). pose proof (Z.mod_pos_bound x 8 ltac:(lia)).
  case_decide as Hd.
  - assert (x / 8 = Z.of_nat (List.length l)) as He by lia. rewrite He, Nat2Z.id, list_lookup_middle by done.
    f_equal. lia.
  - destruct (decide (Z.to_nat (x / 8) < List.length l)%nat).
    + by rewrite lookup_app_l.
    + rewrite !(lookup_ge_None_2 _ (Z.to_nat (x / 8))); [done|lia|]. rewrite length_app. simpl. lia.
Qed.

Lemma display_char l cur t c :
  displays l cur t -> printable c -> num cur < columns -> num l + 1 <= rows ->
  exists t', paintCharacter c t = Done t' /\ m_lines t' = m_lines t /\ displays l (cur ++ [c]) t'.
Proof.
  intros [Ht Hx Hy Hp] Hc Hcol Hrow. pose proof columns_range. pose proof rows_range.
  assert (0 <= num cur) by (unfold num; lia). assert (0 <= num l) by (unfold num; lia).
  destruct (paintCharacter_spec t c Ht Hc) as (fb & Hd & Hpt); [lia..|].
  eexists. split; [done|]. split; [done|]. destruct Hpt as [Hok Hpt]. rewrite Hx, Hy in *. split.
  - split; [done|apply Ht].
  - simpl. unfold num. rewrite length_app. simpl. lia.
  - done.
  - intros x y Hxx Hyy. cbn [with_paint m_framebuffer]. rewrite Hpt, Hp by done.
    destruct (Z.lt_ge_cases y (16 * num l)) as [Hlt|Hge]; [|destruct (Z.lt_ge_cases y (16 * num l + 16)) as [Hlt2|Hge2]].
    + rewrite decide_False by lia. apply picture_before; lia.
    + rewrite !picture_last, line_pixel_app by lia.
      destruct (decide (8 * num cur <= x < 8 * num cur + 8)); [|by rewrite decide_False by lia].
      rewrite decide_True by lia. f_equal. apply (Zmod_unique _ _ (num l)); lia.
    + rewrite decide_False by lia. rewrite !picture_below; [done|unfold num in *; rewrite length_app; simpl; lia..].
Qed.

Lemma display_newline l cur t :
  displays l cur t -> num cur <= columns -> num l + 2 <= rows ->
  exists t', paintCharacter 10 t = Done t' /\ m_lines t' = m_lines t /\ displays (l ++ [cur]) [] t'.
Proof.
  intros [Ht Hx Hy Hp] Hcol Hrow. pose proof columns_range. pose proof rows_range.
  assert (0 <= num cur) by (unfold num; lia). assert (0 <= num l) by (unfold num; lia).
  destruct (newline_spec t Ht) as (fb & Hd & Hpt); [lia..|].
  eexists. split; [done|]. split; [done|]. destruct Hpt as [Hok Hpt]. rewrite Hx, Hy in *. split.
  - split; [done|apply Ht].
  - done.
  - simpl. rewrite (proj2 (Z.ltb_lt _ _)) by lia. unfold num. rewrite length_app. simpl. lia.
  - intros x y Hxx Hyy. cbn [with_paint m_framebuffer]. rewrite Hpt, Hp by done.
    assert (Hsame : picture ((l ++ [cur]) ++ [[]]) x y = picture (l ++ [cur]) x y).
    { assert (Hnl : num (l ++ [cur]) = num l + 1) by (unfold num; rewrite length_app; simpl; lia).
      destruct (Z.lt_ge_cases y (16 * num l + 16)) as [Hlt|Hge].
      - assert (Hy16 : y / 16 < num l + 1) by (apply Z.div_lt_upper_bound; lia).
        assert (0 <= y / 16) by (apply Z.div_pos; lia).
        unfold picture. rewrite lookup_app_l; [done|]. unfold num in Hnl, Hy16. lia.
      - rewrite (picture_below (l ++ [cur])) by lia.
        destruct (Z.lt_ge_cases y (16 * num l + 32)).
        + rewrite picture_last by lia. unfold line_pixel. by rewrite lookup_nil.
        + apply picture_below. unfold num in *. rewrite length_app. simpl. lia. }
    rewrite Hsame. destruct (decide (8 * num cur <= x < W /\ 16 * num l <= y < 16 * num l + 16)); [|done].
    rewrite picture_last by lia. symmetry. apply line_pixel_end. unfold num in *. lia.
Qed.

(** The terminal shows the text [d ++ [cur]]. *)
Record shows (d : list (list Z)) (cur : list Z) (t : Terminal) : Prop := {
  sh_holds : holds d cur (m_lines t);
  sh_display : displays (drop (Z.to_nat (num d + 1 - rows)) d) cur t
}.

Lemma screen_snoc d cur : screen (d ++ [cur]) = drop (Z.to_nat (num d + 1 - rows)) d ++ [cur].
Proof.
  pose proof rows_range. unfold screen, num in *. rewrite length_app. simpl List.length.
  rewrite drop_app_le by lia. do 2 f_equal. lia.
Qed.

Lemma displays_lines l cur t b : displays l cur t -> displays l cur (with_lines t b).
Proof. intros [[] ? ? ?]. by split; [split|..]. Qed.

Lemma holds_column d cur b : holds d cur b -> num cur <= columns.
Proof. intros Hb. pose proof (h_ok _ _ _ Hb) as [_ Hc]%Forall_app. rewrite Forall_singleton in Hc. apply Hc. Qed.

Lemma write_spec d cur t c :
  shows d cur t -> printable c \/ c = 10 ->
  let s := layout1 (d, cur) c in
  num (fst s) + 1 <= 256 -> exists t', write c t = Done t' /\ shows (fst s) (snd s) t'.
Proof.
  intros [Hb Hdp] Hc s Hroom. pose proof columns_range. pose proof rows_range.
  pose proof (holds_column _ _ _ Hb) as Hcol. assert (Hd0 : 0 <= num d) by (unfold num; lia).
  destruct (LineBuffer_write_spec d cur (m_lines t) c Hb Hc Hroom) as (b' & Hw & Hb').
  fold s in Hw, Hb'. unfold write. rewrite Hw, bind_done. cbn [needsViewportRedraw lineWrapped].
  assert (Ht' : term_ok (with_lines t b')) by (split; apply Hdp).
  destruct (Z.eqb_spec (Z.max 0 (num (fst s) + 1 - rows)) (Z.max 0 (num d + 1 - rows))) as [He|Hne]; cbn [negb].
  - (* the first visible line stays *)
    assert (Hpc : c <> 10 -> printable c) by (intros; by destruct Hc).
    pose proof (displays_lines _ _ _ b' Hdp) as Hdp'.
    unfold s in *. unfold layout1 in *. destruct ((columns <=? num cur) || (c =? 10)) eqn:Hwr.
    + cbn [fst snd andb] in *.
      assert (Hnd : num (d ++ [cur]) = num d + 1) by (unfold num; rewrite length_app; simpl; lia).
      rewrite Hnd in *. replace (Z.to_nat (num d + 1 - rows)) with 0%nat in * by lia. rewrite drop_0 in Hdp, Hdp'.
      destruct (display_newline d cur (with_lines t b')) as (t1 & Hn1 & Hl1 & Hdp1); [done|done|lia|].
      destruct (Z.eqb_spec c 10) as [->|Hc10]; cbn [negb].
      * rewrite bind_done. exists t1. split; [done|]. split; [by rewrite Hl1|].
        rewrite Hnd. by replace (Z.to_nat (num d + 1 + 1 - rows)) with 0%nat by lia.
      * rewrite Hn1, bind_done.
        destruct (display_char (d ++ [cur]) [] t1 c) as (t2 & Hn2 & Hl2 & Hdp2);
          [done|by apply Hpc|unfold num; simpl; lia|lia|].
        exists t2. split; [done|]. split; [by rewrite Hl2, Hl1|].
        rewrite Hnd. by replace (Z.to_nat (num d + 1 + 1 - rows)) with 0%nat by lia.
    + apply orb_false_iff in Hwr as [Hw1 Hw2]. apply Z.leb_gt in Hw1. apply Z.eqb_neq in Hw2. cbn [fst snd andb] in *.
      rewrite bind_done.
      destruct (display_char (drop (Z.to_nat (num d + 1 - rows)) d) cur (with_lines t b') c) as (t1 & Hn1 & Hl1 & Hdp1);
        [done|by apply Hpc|lia|unfold num in *; rewrite length_drop; lia|].
      exists t1. split; [done|]. split; [by rewrite Hl1|done].
  - (* the screen is painted anew *)
    destruct (paintVisibleBuffer_spec (fst s) (snd s) (with_lines t b')) as (fb & -> & Hp); [done|done|].
    eexists. split; [done|]. rewrite screen_snoc in Hp. split; [done|]. destruct Hp as [Hok Hp]. split.
    + by split; [|apply Ht'].
    + done.
    + simpl. rewrite screen_snoc. unfold num at 1 2. rewrite length_app. simpl. unfold num. lia.
    + intros x y Hx Hy. cbn [with_paint m_framebuffer]. rewrite Hp by done. by rewrite decide_True by lia.
Qed.

Lemma layout1_grows s c : num (fst s) <= num (fst (layout1 s c)).
Proof.
  destruct s as [d cur]. unfold layout1. case_match; simpl; [|lia]. unfold num. rewrite length_app. lia.
Qed.

Lemma layout_grows s text : num (fst s) <= num (fst (foldl layout1 s text)).
Proof.
  revert s. induction text as [|c text IH]; intros s; simpl; [lia|].
  etrans; [apply (layout1_grows s c)|apply IH].
Qed.

(** The lines of a text hold its characters, in order, without the newlines. *)
Lemma layout_characters s text :
  concat (fst (foldl layout1 s text) ++ [snd (foldl layout1 s text)]) =
  concat (fst s ++ [snd s]) ++ filter (fun c => c <> 10) text.
Proof.
  revert s. induction text as [|c text IH]; intros [d cur]; [simpl; by rewrite app_nil_r|].
  cbn [foldl]. rewrite IH. rewrite filter_cons. unfold layout1.
  destruct (Z.eqb_spec c 10) as [->|Hne].
  - rewrite orb_true_r, decide_False by (intros Hn; by apply Hn). simpl.
    rewrite !concat_app. simpl. by rewrite !app_nil_r.
  - rewrite orb_false_r, decide_True by done. destruct (columns <=? num cur); simpl.
    + rewrite !concat_app. simpl. rewrite !app_nil_r, <-!app_assoc. done.
    + rewrite !concat_app. simpl. rewrite !app_nil_r, <-!app_assoc. done.
Qed.

Lemma write_string_spec text d cur t :
  shows d cur t -> Forall (fun c => printable c \/ c = 10) text ->
  let s := foldl layout1 (d, cur) text in
  num (fst s) + 1 <= 256 -> exists t', write_string text t = Done t' /\ shows (fst s) (snd s) t'.
Proof.
  intros Ht Htext. revert d cur t Ht. induction Htext as [|c text Hc Htext IH]; intros d cur t Ht s Hroom.
  - by exists t.
  - assert (Hg : num (fst (layout1 (d, cur) c)) <= num (fst s)) by apply (layout_grows (layout1 (d, cur) c) text).
    destruct (write_spec d cur t c Ht Hc) as (t1 & Hw & Ht1); [lia|].
    cbn [write_string]. rewrite Hw, bind_done. unfold s in *. cbn [foldl] in *.
    destruct (layout1 (d, cur) c) as [d1 cur1] eqn:Hl. by apply IH.
Qed.

(** A terminal on any framebuffer, after [clear]. *)
Lemma clear_new fb :
  fb_ok W H fb ->
  exists t0, clear (Terminal_new (replicate 256 blank) fb (terminalFont data)) = Done t0 /\ shows [] [] t0.
Proof.
  intros Hfb. pose proof columns_range. pose proof rows_range. unfold clear, clearViewport.
  destruct (black_from_spec fb 0) as (fb' & Hb & Hok & Hp); [done|lia|].
  cbn [Terminal_new m_framebuffer]. rewrite Hb, !bind_done. unfold LineBuffer_clear.
  cbn [with_paint m_lines]. rewrite array_set_done, !bind_done
    by (cbn [m_lineBuffer setNumVisibleLines setLineSize LineBuffer_new Terminal_new m_lines];
        rewrite length_replicate; lia).
  eexists. split; [done|]. split.
  - split; try done.
    + simpl. unfold columns. rewrite (fb_width _ _ _ Hfb). done.
    + simpl. unfold rows. rewrite (fb_height _ _ _ Hfb). done.
    + simpl. unfold num. simpl. lia.
    + constructor; [apply line_ok_nil|constructor].
  - split; [by split|done|by rewrite drop_nil|]. intros x y Hx Hy. cbn [with_lines with_paint m_framebuffer].
    rewrite Hp, decide_True by lia. rewrite drop_nil. unfold picture. simpl.
    destruct (Z.to_nat (y / 16)); [|done]. done.
Qed.

(** ** A full ring *)

Lemma for_upto_panic {S} (I : S -> Prop) (body : Z -> S -> outcome S) msg k n first s :
  I s -> first <= k < first + Z.of_nat n ->
  (forall i s, first <= i < k -> I s -> exists s', body i s = Done s' /\ I s') ->
  (forall s, I s -> body k s = Panic msg) ->
  for_upto n first body s = Panic msg.
Proof.
  revert first s. induction n as [|n IH]; intros first s HI Hk Hdone Hpanic; [lia|]. cbn [for_upto].
  destruct (decide (first = k)) as [->|Hne]; [by rewrite Hpanic|].
  destruct (Hdone first s) as (s' & -> & HI'); [lia|done|]. rewrite bind_done.
  apply IH; [done|lia| |done]. intros i s1 Hi. apply Hdone. lia.
Qed.

Lemma paint_glyph_panic fb c left top :
  fb_ok W H fb -> 0 <= c < 256 -> 0 <= left -> left + 8 <= W -> 0 <= top <= H -> H < top + 16 ->
  paint_glyph (terminalFont data) c left top fb = Panic "Cursor out of bounds".
Proof.
  intros Hfb Hc Hl Hlw Ht Hth. unfold paint_glyph. cbn [characterHeight characterWidth terminalFont].
  change (MkFont 8 16 0 0 0 0 data) with (terminalFont data).
  apply (for_upto_panic (fb_ok W H) _ _ (H - top)); [done|lia| |].
  - intros line fb1 Hline Hfb1. rewrite (for_range_shift 0 8 left).
    destruct (paint_row W H ltac:(lia) ltac:(lia) fb1 (0 + left) (8 + left) (top + line)
      (fun x y => glyph c (x - left) (y - top))
      (fun i fb => bits ← characterBitmap (terminalFont data) c line;
         setPixel (u64 (left + (i - left))) (u64 (top + line))
           (if negb (Z.land bits (Z.shiftl 1 (8 - (i - left) - 1)) =? 0) then 0xffffffff else 0) fb))
      as (fb2 & Hd & Hok & _); [done|lia|lia|lia| |by exists fb2].
    intros x fb2 Hx Hfb2. split; [apply glyph_range|].
    rewrite characterBitmap_spec, bind_done by lia. rewrite !(wrap_id 64) by lia.
    replace (left + (x - left)) with x by lia.
    rewrite bit_test by lia. unfold glyph. replace (top + line - top) with line by lia.
    by replace (8 - (x - left) - 1) with (7 - (x - left)) by lia.
  - intros fb1 Hfb1. unfold for_range. change (Z.to_nat (8 - 0)) with 8%nat. cbn [for_upto].
    rewrite characterBitmap_spec, bind_done by lia.
    rewrite (setPixel_outside W H) by (done || (right; rewrite wrap_id by lia; lia)). done.
Qed.

(** A newline in a full ring: no line is added, and the screen is not painted
    anew. *)
Lemma full_newline d cur t :
  shows d cur t -> num d = 255 -> rows <= 254 ->
  exists t1, write 10 t = Done t1 /\ term_ok t1 /\ cursor_x t1 = 0 /\
    cursor_y t1 = (if 16 * rows <? H then 16 * rows else 16 * rows - 16) /\
    (forall x y, 0 <= x < W -> 0 <= y < H -> pixel (m_framebuffer t1) x y = pixel (m_framebuffer t) x y) /\
    m_lines t1 = MkLineBuffer columns rows (m_lineBuffer (m_lines t)) 1 256 (256 - rows) 0.
Proof.
  intros [Hb Hdp] Hnd Hr. pose proof rows_range. pose proof columns_range.
  pose proof (holds_column _ _ _ Hb) as Hcol. destruct Hb as [Hn HV Hfr Hsz _ Hfi Hco _ _].
  assert (Hw : LineBuffer_write 10 automatic (m_lines t) = Done (MkWriteResult true false,
    MkLineBuffer columns rows (m_lineBuffer (m_lines t)) 1 256 (256 - rows) 0)).
  { unfold LineBuffer_write, wrap_line. rewrite Hn, HV, Hfr, Hsz, Hfi, Hnd, orb_true_r. unfold s_maxLines.
    change (256 <=? 255 + 1) with true. change (u64 (0 + 1) mod 256) with 1. cbv iota.
    rewrite (proj2 (Z.eqb_neq (Z.max 0 _) 1)) by lia. rewrite decide_True by done.
    rewrite (proj2 (Z.ltb_lt rows _)) by lia.
    replace (Z.max (Z.max 0 (255 + 1 - rows)) (255 + 1 - rows)) with (256 - rows) by lia.
    rewrite (proj2 (Z.eqb_eq (256 - rows) _)) by lia. done. }
  unfold write. rewrite Hw, bind_done. cbn [needsViewportRedraw lineWrapped]. rewrite andb_false_r, bind_done.
  pose proof (displays_lines _ _ _ (MkLineBuffer columns rows (m_lineBuffer (m_lines t)) 1 256 (256 - rows) 0) Hdp) as Hdp'.
  assert (Hy : cursor_y t = 16 * rows - 16).
  { rewrite (dp_y _ _ _ Hdp). unfold num in *. rewrite length_drop. lia. }
  assert (Hl : 16 * num (drop (Z.to_nat (num d + 1 - rows)) d) = 16 * rows - 16) by (rewrite <-(dp_y _ _ _ Hdp); done).
  destruct (newline_spec (with_lines t (MkLineBuffer columns rows (m_lineBuffer (m_lines t)) 1 256 (256 - rows) 0)))
    as (fb & -> & Hok & Hp); [apply Hdp'|simpl; rewrite (dp_x _ _ _ Hdp); unfold num in *; lia|simpl; lia|simpl; lia|].
  eexists. split; [done|]. split; [split; [done|apply Hdp]|]. split; [done|].
  cbn [with_paint with_lines cursor_y cursor_x m_framebuffer m_lines] in *. rewrite Hy in *.
  replace (16 * rows - 16 + 16) with (16 * rows) in * by lia. split; [done|]. split; [|done].
  intros x y Hx Hyy. rewrite Hp by done. case_decide as Hin; [|done].
  rewrite (dp_pixels _ _ _ Hdp) by done. rewrite picture_last by lia. symmetry. apply line_pixel_end.
  rewrite (dp_x _ _ _ Hdp) in Hin. unfold num in Hin. lia.
Qed.

(** The next character goes to the first line of the array. *)
Lemma full_char lines first c t1 :
  m_lines t1 = MkLineBuffer columns rows lines 1 256 first 0 ->
  (exists l, lines !! 0%nat = Some l /\ (0 < List.length l)%nat) -> c <> 10 ->
  exists b, write c t1 = paintCharacter c (with_lines t1 b).
Proof.
  intros Hl (l & Hl0 & Hlen) Hc. pose proof columns_range. unfold write, LineBuffer_write. rewrite Hl.
  cbn [m_lineSize m_currentColumn m_front m_size m_firstVisibleLine m_lineBuffer m_visibleLines].
  rewrite (proj2 (Z.leb_gt columns 0)), (proj2 (Z.eqb_neq c 10)) by lia. cbn [orb].
  change (u64 (1 + 256 - 1) mod s_maxLines) with 0.
  rewrite (array_get_done _ 0 l), bind_done by done.
  rewrite array_set_done, bind_done by lia.
  pose proof (lookup_lt_Some _ _ _ Hl0). rewrite array_set_done, !bind_done by lia.
  cbn [needsViewportRedraw lineWrapped]. rewrite Z.eqb_refl. eexists. done.
Qed.
End Text.

(** C11. After [clear], a new terminal shows what is written to it: as long as the
    text has at most 256 lines the screen is, pixel by pixel, the picture of the
    last lines of the text, which hold its characters in order.  No character is
    written outside the framebuffer or the buffer of lines. *)
Theorem terminal_shows_text W H data fb text :
  8 <= W < 2 ^ 31 -> 16 <= H < 2 ^ 31 -> List.length data = Z.to_nat 4096 -> fb_ok W H fb ->
  Forall (fun c => printable c \/ c = 10) text ->
  let s := layout W text in
  let lines := fst s ++ [snd s] in
  num (fst s) + 1 <= 256 ->
  exists t0 t, clear (Terminal_new (replicate 256 blank) fb (terminalFont data)) = Done t0 /\
    write_string text t0 = Done t /\
    (forall x y, 0 <= x < W -> 0 <= y < H -> pixel (m_framebuffer t) x y = picture data (screen H lines) x y) /\
    concat lines = filter (fun c => c <> 10) text /\
    Forall (fun l => num l <= columns W) lines /\ num (screen H lines) = Z.min (num lines) (rows H).
Proof.
  intros HW HH Hd Hfb Htext s lines Hroom.
  destruct (clear_new W H HW HH data Hd fb Hfb) as (t0 & Hc & Ht0).
  destruct (write_string_spec W H HW HH data Hd text [] [] t0 Ht0 Htext Hroom) as (t & Hw & Ht).
  exists t0, t. split; [done|]. split; [done|]. split; [|split; [|split]].
  - intros x y Hx Hy. rewrite (dp_pixels _ _ _ _ _ _ (sh_display _ _ _ _ _ _ Ht)) by done.
    unfold lines, s. by rewrite (screen_snoc H HH data Hd).
  - unfold lines, s, layout. rewrite layout_characters. done.
  - pose proof (h_ok _ _ _ _ _ (sh_holds _ _ _ _ _ _ Ht)) as Hok. eapply Forall_impl; [exact Hok|].
    intros l [_ Hl]. exact Hl.
  - by apply (screen_length H HH data Hd).
Qed.

(** C39. Once 256 lines were written a newline no longer scrolls.  If the height of
    the screen is not a multiple of 16, the next character is painted below its
    edge and the kernel panics; otherwise it is painted over the last line. *)
Theorem terminal_full_ring W H data d cur t c :
  8 <= W < 2 ^ 31 -> 16 <= H < 16 * 255 -> List.length data = Z.to_nat 4096 ->
  shows W H data d cur t -> num d = 255 -> printable c ->
  exists t1, write 10 t = Done t1 /\
    (forall x y, 0 <= x < W -> 0 <= y < H -> pixel (m_framebuffer t1) x y = pixel (m_framebuffer t) x y) /\
    (H mod 16 <> 0 -> write c t1 = Panic "Cursor out of bounds") /\
    (H mod 16 = 0 -> exists t2, write c t1 = Done t2 /\
       forall x y, 0 <= x < W -> 0 <= y < H ->
         pixel (m_framebuffer t2) x y =
           if decide (x < 8 /\ H - 16 <= y) then glyph data c x (y - (H - 16)) else pixel (m_framebuffer t) x y).
Proof.
  intros HW HH Hd Ht Hnd Hc. assert (HH' : 16 <= H < 2 ^ 31) by lia.
  assert (Hr : rows H = H / 16).
  { unfold rows. assert (H / 16 < 255) by (apply Z.div_lt_upper_bound; lia). lia. }
  pose proof (Z.div_mod H 16 ltac:(lia)) as Hdm. pose proof (Z.mod_pos_bound H 16 ltac:(lia)) as Hmb.
  destruct (full_newline W H HW HH' data Hd d cur t Ht Hnd) as (t1 & Hw & Hok & Hx & Hy & Hp & Hl);
    [rewrite Hr; lia|].
  exists t1. split; [done|]. split; [done|].
  destruct (full_char W H HW data Hd (m_lineBuffer (m_lines t)) (256 - rows H) c t1 Hl) as (b & Hwc).
  { pose proof (sh_holds _ _ _ _ _ _ Ht) as Hb. rewrite (h_lines _ _ _ _ _ Hb).
    destruct d as [|l d]; [done|]. exists (pad l). split; [done|].
    pose proof (h_ok _ _ _ _ _ Hb) as Hlok. apply Forall_cons in Hlok as [Hlok _].
    rewrite (pad_length W HW data Hd l Hlok). lia. }
  { apply Hc. }
  assert (Hok' : term_ok W H data (with_lines t1 b)) by (split; apply Hok). rewrite Hwc. split.
  - intros Hm. rewrite (proj2 (Z.ltb_lt _ _)) in Hy by lia. destruct Hc as [Hcr Hc10]. unfold paintCharacter.
    rewrite (proj2 (Z.eqb_neq c 10)), (term_font _ _ _ _ Hok') by done.
    cbn [with_lines cursor_x cursor_y m_framebuffer characterLeftPadding characterTopPadding terminalFont].
    change (MkFont 8 16 0 0 0 0 data) with (terminalFont data). rewrite !Z.add_0_r, Hx, Hy, (wrap_id 64 0), (wrap_id 64 (16 * rows H)) by lia.
    rewrite (paint_glyph_panic W H HW HH' data Hd); [done|apply Hok|lia..].
  - intros Hm. rewrite (proj2 (Z.ltb_ge _ _)) in Hy by lia.
    destruct (paintCharacter_spec W H HW HH' data Hd (with_lines t1 b) c Hok' Hc) as (fb & -> & _ & Hpt);
      [simpl; lia..|].
    eexists. split; [done|]. intros x y Hxx Hyy. cbn [with_paint m_framebuffer].
    rewrite Hpt by done. cbn [with_lines cursor_x cursor_y m_framebuffer]. rewrite Hx, Hy, Hp by done.
    destruct (decide (x < 8 /\ H - 16 <= y)).
    + rewrite decide_True by lia. f_equal; lia.
    + rewrite decide_False by lia. done.
Qed.

(** ** Concrete terminals *)

(** A font whose glyphs are all white, and black screens. *)
Definition demo_data : list Z := replicate (Z.to_nat 4096) 255.
Definition demo_screen (w h : Z) : Terminal :=
  Terminal_new (replicate 256 blank) (MkFramebuffer ∅ w h) (terminalFont demo_data).

(** "Hi", a newline, and "!" *)
Lemma terminal_shows_text_witness :
  exists t0 t, clear (demo_screen 640 480) = Done t0 /\ write_string [72; 105; 10; 33] t0 = Done t /\
    pixel (m_framebuffer t) 3 20 = 0xffffffff /\ pixel (m_framebuffer t) 8 20 = 0.
Proof.
  destruct (terminal_shows_text 640 480 demo_data (MkFramebuffer ∅ 640 480) [72; 105; 10; 33])
    as (t0 & t & Hc & Hw & Hp & _).
  - lia.
  - lia.
  - reflexivity.
  - split; reflexivity.
  - repeat constructor; unfold printable; lia.
  - vm_compute. congruence.
  - exists t0, t. split; [exact Hc|]. split; [exact Hw|]. split.
    + rewrite Hp by lia. vm_compute. reflexivity.
    + rewrite Hp by lia. vm_compute. reflexivity.
Defined.

(** 255 newlines on a screen of 1920 by 1080. *)
Lemma terminal_full_ring_witness :
  exists t t1, write_string (replicate 255 10) t = Done t1 /\
    exists t2, write 10 t1 = Done t2 /\ write 65 t2 = Panic "Cursor out of bounds".
Proof.
  destruct (clear_new 1920 1080 ltac:(lia) ltac:(lia) demo_data eq_refl (MkFramebuffer ∅ 1920 1080))
    as (t0 & _ & Ht0); [split; reflexivity|].
  destruct (write_string_spec 1920 1080 ltac:(lia) ltac:(lia) demo_data eq_refl (replicate 255 10) [] [] t0 Ht0)
    as (t1 & Hw & Ht1).
  - apply Forall_replicate. by right.
  - vm_compute. congruence.
  - exists t0, t1. split; [exact Hw|].
    destruct (terminal_full_ring 1920 1080 demo_data _ _ t1 65 ltac:(lia) ltac:(lia) eq_refl Ht1)
      as (t2 & Hn & _ & Hpanic & _).
    + vm_compute. reflexivity.
    + unfold printable. lia.
    + exists t2. split; [exact Hn|]. apply Hpanic. vm_compute. congruence.
Defined.

(** [clear] empties only the first line of the array: the second line of the old
    text comes back when the screen is painted anew. *)
Lemma clear_keeps_old_lines :
  (t ← clear (demo_screen 32 32);
   t ← write_string [97; 10; 98] t;
   t ← clear t;
   t ← write 10 t;
   t' ← scrollDown 0 t;
   Done (pixel (m_framebuffer t) 0 16, pixel (m_framebuffer t') 0 16)) = Done (0, 0xffffffff).
Proof. vm_compute. reflexivity. Qed.

(** ** The console *)

(** [kpp::putchar] writes to the terminal of the kernel. *)
Definition terminal_putchar (ic : Z) (t : Terminal) : outcome (Z * Terminal) :=
  t ← write (i8 ic) t; Done (ic, t).

Lemma terminal_putchar_returns c t r t' : terminal_putchar c t = Done (r, t') -> r = c.
Proof. unfold terminal_putchar. destruct (write (i8 c) t); simpl; intros [=]. done. Qed.

#[export] Instance terminal_console : Console Terminal := {
  putchar := terminal_putchar;
  putchar_returns := terminal_putchar_returns
}.

(** Writing characters one by one is [write_string]. *)
Lemma emit_terminal text t : Forall (fun c => 0 <= c < 128) text -> emit text t = write_string text t.
Proof.
  intros Ht. revert t. induction Ht as [|c text Hc Ht IH]; intros t; [done|]. cbn [emit write_string putchar terminal_console].
  rewrite (wrap_id 8 c) by lia. unfold terminal_putchar.
  rewrite (swrap_id 8 c) by (done || (change (2 ^ (8 - 1)) with 128; lia)).
  destruct (write c t) as [t1| | |]; [|done..]. rewrite !bind_done. apply IH.
Qed.
