(* ===== verification/Views.v ===== *)
(** * Views (lib/kpp StringView.hpp, Span.hpp)

    A view is an address and a length.  The terminal writes the characters of a
    StringView; here they are read out of memory.  The bitmap of a character is a
    Span of the bytes of the font. *)

From Stdlib Require Import ZArith Lia String.
From stdpp Require Import base gmap list list_numbers numbers strings.
From S2P Require Import Prelude Memory Utilities CString Printf Terminal.
#[local] Open Scope Z_scope.

Record StringView := MkView { m_data : Z; m_size : Z }.
Implicit Types v : StringView.

(** [StringView(data, size)] and [StringView(data)]; the loop of the latter
    counts up to the terminating zero, with the fuel of strlen. *)
Definition StringView_sized (data size : Z) : StringView := MkView data size.

Definition StringView_cstr (data : Z) (m : mem) : outcome StringView :=
  n ← while (size m + 2) (fun n => negb (load8 m (data + n) =? 0)) (fun n => Done (u64 (n + 1))) 0;
  Done (MkView data n).

(** [operator[]], [begin()], [end()] *)
Definition view_at v (index : Z) (m : mem) : Z := load_char m (m_data v + index).
Definition view_begin v : Z := m_data v.
Definition view_end v : Z := u64 (m_data v + m_size v).

(** [Terminal::write(StringView)]: a range-based loop from [begin()] to [end()]. *)
Definition write_view v (m : mem) (t : Terminal) : outcome Terminal :=
  r ← while (S (Z.to_nat (m_size v))) (fun s => negb (fst s =? view_end v))
        (fun s => t ← write (load_char m (fst s)) (snd s); Done (u64 (fst s + 1), t))
        (view_begin v, t);
  Done (snd r).

Definition view_chars v (m : mem) : list Z := (fun i => view_at v i m) <$> seqZ 0 (m_size v).

(** The view does not wrap around the address space. *)
Definition view_ok v : Prop := 0 <= m_data v /\ 0 <= m_size v /\ m_data v + m_size v < 2 ^ 64.

Lemma write_view_from v m n p t :
  0 <= p -> view_end v = p + Z.of_nat n -> p + Z.of_nat n < 2 ^ 64 ->
  (r ← while (S n) (fun s => negb (fst s =? view_end v))
        (fun s => t ← write (load_char m (fst s)) (snd s); Done (u64 (fst s + 1), t)) (p, t); Done (snd r)) =
  write_string ((fun i => load_char m (p + i)) <$> seqZ 0 (Z.of_nat n)) t.
Proof.
  revert p t. induction n as [|n IH]; intros p t Hp He Hmax; rewrite while_unfold; cbn [fst snd].
  - rewrite He, Z.add_0_r, Z.eqb_refl. done.
  - rewrite (proj2 (Z.eqb_neq p (view_end v))) by lia. cbn [negb].
    rewrite seqZ_cons, fmap_cons by lia. cbn [write_string]. rewrite Z.add_0_r.
    destruct (write (load_char m p) t) as [t1| | |]; [|done..]. rewrite !bind_done, (wrap_id 64) by lia.
    rewrite (IH (p + 1) t1) by lia. f_equal.
    replace (Z.pred (Z.of_nat (S n))) with (Z.of_nat n) by lia. rewrite <-Z.add_1_l at 1.
    rewrite <-(fmap_add_seqZ 1 0), <-list_fmap_compose. apply list_fmap_ext. intros i x _. cbn.
    by rewrite Z.add_assoc.
Qed.

(** The loop writes the characters of the view, in order. *)
Lemma write_view_string v m t : view_ok v -> write_view v m t = write_string (view_chars v m) t.
Proof.
  intros (Hd & Hs & Hmax). unfold write_view, view_begin, view_chars, view_at.
  rewrite (write_view_from v m _ _ t Hd) by (unfold view_end; rewrite ?(wrap_id 64); lia).
  by rewrite Z2Nat.id.
Qed.

(** A zero-terminated string of characters in memory. *)
Definition string_at (m : mem) (a : Z) (s : list Z) : Prop :=
  (forall i c, s !! i = Some c -> load8 m (a + Z.of_nat i) <> 0 /\ load_char m (a + Z.of_nat i) = c) /\
  load8 m (a + Z.of_nat (List.length s)) = 0.

(** Writing a C string writes its characters up to the terminating zero. *)
Theorem write_c_string m a s t :
  Z.of_nat (size m) < 2 ^ 63 -> 0 <= a -> a + Z.of_nat (List.length s) < 2 ^ 64 -> string_at m a s ->
  (v ← StringView_cstr a m; write_view v m t) = write_string s t.
Proof.
  intros Hm Ha Hmax [Hs Hz].
  destruct (strlen_correct a m Hm) as (n & Hn & Hb & H0 & Hnz). unfold strlen in Hn.
  unfold StringView_cstr. rewrite Hn, !bind_done.
  assert (n = Z.of_nat (List.length s)) as ->.
  { destruct (Z.lt_trichotomy n (Z.of_nat (List.length s))) as [Hlt|[|Hgt]]; [|done|].
    - destruct (lookup_lt_is_Some_2 s (Z.to_nat n)) as [c Hc]; [lia|].
      apply Hs in Hc as [Hc _]. by rewrite Z2Nat.id in Hc by lia.
    - by apply (Hnz (Z.of_nat (List.length s))) in Hz; [|lia]. }
  rewrite write_view_string by (split_and!; cbn; lia). f_equal. unfold view_chars, view_at. cbn.
  apply list_eq. intros i. rewrite list_lookup_fmap.
  destruct (s !! i) as [c|] eqn:Hi.
  - pose proof (lookup_lt_Some _ _ _ Hi). rewrite (proj2 (lookup_seqZ 0 _ i (Z.of_nat i))) by lia. cbn.
    f_equal. by apply Hs.
  - apply lookup_ge_None in Hi. by rewrite lookup_seqZ_ge by lia.
Qed.

(** "hi" at address 16. *)
Lemma write_c_string_witness t :
  let m : mem := <[16 := 104]> (<[17 := 105]> ∅) in
  (v ← StringView_cstr 16 m; write_view v m t) = write_string [104; 105] t.
Proof.
  intros m. apply write_c_string; [vm_compute; reflexivity|lia|cbn; lia|].
  split; [|reflexivity]. intros [|[|i]] c; [intros [= <-]; split; [by vm_compute|reflexivity]..|done].
Defined.

(** ** Span

    Over bytes, the one type that the kernel uses it for.  [data], [begin], [end]
    and the [operator[]] that is not const return the pointer to const as a plain
    one and do not compile when they are used; they are not in the model. *)
Record Span := MkSpan { span_data : Z; span_size : Z }.

Definition Span_new (data size : Z) : Span := MkSpan data size.
Definition span_at (s : Span) (index : Z) (m : mem) : Z := load8 m (u64 (span_data s + index)).

(** [BitmapFont::characterBitmap] of a font whose bytes start at address [data]. *)
Definition character_span (f : BitmapFont) (data character : Z) : Span :=
  Span_new (u64 (data + u64 (u64 character * characterHeight f))) (characterHeight f).

(** The bytes of a font in memory. *)
Definition font_at (m : mem) (data : Z) (f : BitmapFont) : Prop :=
  0 <= data /\ data + Z.of_nat (List.length (font_data f)) < 2 ^ 64 /\
  forall i b, font_data f !! i = Some b -> load8 m (data + Z.of_nat i) = b.

(** Element [line] of the Span is what the terminal paints for the line of the
    glyph, for every character with a glyph. *)
Lemma character_span_bitmap m data f character line :
  font_at m data f -> 0 <= character -> 0 <= line < characterHeight f ->
  (character + 1) * characterHeight f <= Z.of_nat (List.length (font_data f)) ->
  characterBitmap f character line = Done (span_at (character_span f data character) line m) /\
  line < span_size (character_span f data character).
Proof.
  intros (Hd & Hmax & Hm) Hc Hl Hlen. split; [|cbn; lia]. unfold characterBitmap.
  assert (Hb : character * characterHeight f + line < Z.of_nat (List.length (font_data f))) by nia.
  destruct (lookup_lt_is_Some_2 (font_data f) (Z.to_nat (character * characterHeight f + line))) as [b Hbyte]; [nia|].
  rewrite (array_get_done _ _ b) by (done || nia). f_equal. apply Hm in Hbyte. rewrite Z2Nat.id in Hbyte by nia.
  unfold span_at, character_span, Span_new. cbn [span_data].
  rewrite (wrap_id 64 character), (wrap_id 64 (character * _)), (wrap_id 64 (data + _)), wrap_id by nia.
  rewrite <-Hbyte. f_equal. lia.
Qed.
