(* ===== verification/Shell.v ===== *)
(** * The shell and the main program

    main.cpp and kernel.cpp: the line editor that turns keys into a command
    line, the commands, and [kernel_panic].  Keys arrive by interrupt: before
    each [get] of the editor some keys are put into the buffer. *)

From Stdlib Require Import ZArith Lia String Ascii.
From stdpp Require Import base gmap list list_numbers numbers strings.
From S2P Require Import Prelude Memory Containers Utilities CString Printf Terminal.
#[local] Open Scope Z_scope.

(** The characters of a literal. *)
Definition codes (s : string) : list Z := (fun c => Z.of_nat (nat_of_ascii c)) <$> list_ascii_of_string s.

(** A decidable fact about a literal. *)
Ltac literal := apply (bool_decide_unpack _); vm_compute; exact I.

Section Console.
Context {S : Type} `{Console S}.

(** [kpp::printf] where its result is not used. *)
Definition print_format (format : list Z) (args : list va_value) (s : S) : outcome S :=
  r ← printf format args s; Done (snd r).

(** [for (;;) hlt] never returns. *)
Definition kernel_hang {A} (s : S) : outcome A := Diverged.

Definition kernel_panic {A} (fmt : list Z) (args : list va_value) (s : S) : outcome A :=
  s ← print_format (codes "KERNEL PANIC: ") [] s;
  r ← vprintf fmt args s;
  kernel_hang (snd r).

(** The compiler calls this when a function finds its stack guard changed. *)
Definition __stack_chk_guard : Z := 0x0123456789abcdef.
Definition __stack_chk_fail {A} (s : S) : outcome A := kernel_panic (codes "stack smashed!" ++ [10]) [] s.
End Console.

(** ** The line editor *)
Definition input_size : Z := 256.

Record shell := Shell {
  input : list Z;
  pos : Z;
  keyboardBuffer : KeyboardBuffer;
  terminal : Terminal
}.

Definition with_editor (s : shell) (input : list Z) (pos : Z) (t : Terminal) : shell :=
  Shell input pos (keyboardBuffer s) t.

(** [kpp::putchar] where its result is not used. *)
Definition put (c : Z) (t : Terminal) : outcome Terminal := r ← putchar c t; Done (snd r).

(** The body of the inner loop; [true] when the line is complete. *)
Definition edit_key (key : Z) (s : shell) : outcome (bool * shell) :=
  if key =? Key.enter then
    t ← put 10 (terminal s);
    input ← array_set (input s) (pos s) 0;
    Done (true, with_editor s input (pos s) t)
  else if key =? Key.backspace then
    if 0 <? pos s then
      t ← print_format [8; 32; 8] [] (terminal s);
      Done (false, with_editor s (input s) (pos s - 1) t)
    else Done (false, s)
  else if key =? Key.LeftArrow then
    Done (false, if 0 <? pos s then with_editor s (input s) (pos s - 1) (terminal s) else s)
  else if key =? Key.RightArrow then
    if pos s <? input_size - 1 then
      c ← array_get (input s) (pos s);
      Done (false, if negb (c =? 0) then with_editor s (input s) (pos s + 1) (terminal s) else s)
    else Done (false, s)
  else if (key =? Key.UpArrow) || (key =? Key.DownArrow) then
    t ← scrollDown (if key =? Key.UpArrow then -1 else 1) (terminal s);
    Done (false, with_editor s (input s) (pos s) t)
  else if negb (key =? Key.None) && (pos s <? input_size - 1) then
    input ← array_set (input s) (pos s) (i8 key);
    t ← put (i8 key) (terminal s);
    Done (false, with_editor s input (pos s + 1) t)
  else Done (false, s).

(** The inner loop; [arrivals] lists the keys that interrupts deliver before
    each round.  [false] when the editor still waits for a key. *)
Fixpoint read_line (arrivals : list (list Z)) (s : shell) : outcome (bool * shell) :=
  match arrivals with
  | [] => Done (false, s)
  | keys :: arrivals =>
      let b := foldl (fun b k => KeyboardBuffer_put k b) (keyboardBuffer s) keys in
      let '(key, b) := KeyboardBuffer_get b in
      r ← edit_key key (Shell (input s) (pos s) b (terminal s));
      let '(entered, s) := r : bool * shell in
      if entered then Done (true, s) else read_line arrivals s
  end.

(** ** Commands *)

(** [strncmp] on two character sequences. *)
Fixpoint strncmp_chars (n : nat) (a b : list Z) : Z :=
  match n with
  | O => 0
  | S n => if hd 0 a =? hd 0 b then strncmp_chars n (tl a) (tl b) else hd 0 a - hd 0 b
  end.

Definition handle_command (input : list Z) (length : Z) (t : Terminal) : outcome Terminal :=
  if length =? 0 then Done t
  else if strncmp_chars 4 input (codes "help") =? 0 then
    t ← print_format (codes "Available commands:" ++ [10]) [] t;
    t ← print_format (codes "  help - Show this help message" ++ [10]) [] t;
    t ← print_format (codes "  echo <message> - Echo the message back" ++ [10]) [] t;
    print_format (codes "  exit - Exit the shell" ++ [10]) [] t
  else if strncmp_chars 5 input (codes "echo ") =? 0 then
    print_format (codes "%s" ++ [10]) [ArgStr (drop 5 input)] t
  else if strncmp_chars 4 input (codes "exit") =? 0 then
    t ← print_format (codes "Exiting shell..." ++ [10]) [] t;
    kernel_hang t
  else if strncmp_chars 5 input (codes "clear") =? 0 then clear t
  else print_format (codes "Unknown command: %s" ++ [10]) [ArgStr input] t.

(** One round of the outer loop of [kernel_main]. *)
Definition shell_round (arrivals : list (list Z)) (s : shell) : outcome (bool * shell) :=
  t ← print_format (codes "davOS> ") [] (terminal s);
  r ← read_line arrivals (with_editor s (input s) 0 t);
  let '(entered, s) := r : bool * shell in
  if entered then
    t ← handle_command (input s) (pos s) (terminal s);
    Done (true, with_editor s (input s) (pos s) t)
  else Done (false, s).

(** ** KernelTerminal::initialize *)
Definition KernelTerminal_initialize (contents : list (list Z)) (font : list Z) (framebuffers : list Framebuffer)
    : outcome Terminal :=
  fb ← array_get framebuffers 0;
  Done (Terminal_new contents fb (terminalFont font)).

(** ** What the shell does *)

(** The effect of a plain key on the line, and what is echoed. *)
Definition plain (k : Z) : Prop := 0 <= k < 128 /\ k <> 10.

Definition edit1 (line : list Z) (k : Z) : list Z :=
  if k =? 8 then removelast line
  else if (k =? 0) || (255 <=? num line) then line
  else line ++ [k].

Definition echo1 (line : list Z) (k : Z) : list Z :=
  if k =? 8 then match line with [] => [] | _ => [8; 32; 8] end
  else if (k =? 0) || (255 <=? num line) then []
  else [k].

Definition edit (line : list Z) (keys : list Z) : list Z := foldl edit1 line keys.

Fixpoint echo (line : list Z) (keys : list Z) : list Z :=
  match keys with
  | [] => []
  | k :: keys => echo1 line k ++ echo (edit1 line k) keys
  end.

Inductive command :=
| Nothing | Help | Echo (message : list Z) | Exit | Clear | Unknown (line : list Z).

Definition classify (line : list Z) : command :=
  if decide (line = []) then Nothing
  else if decide (codes "help" `prefix_of` line) then Help
  else if decide (codes "echo " `prefix_of` line) then Echo (drop 5 line)
  else if decide (codes "exit" `prefix_of` line) then Exit
  else if decide (codes "clear" `prefix_of` line) then Clear
  else Unknown line.

Definition help_text : list Z :=
  codes "Available commands:" ++ [10] ++ codes "  help - Show this help message" ++ [10] ++
  codes "  echo <message> - Echo the message back" ++ [10] ++ codes "  exit - Exit the shell" ++ [10].

Definition run_command (c : command) (t : Terminal) : outcome Terminal :=
  match c with
  | Nothing => Done t
  | Help => write_string help_text t
  | Echo message => write_string (message ++ [10]) t
  | Exit => t ← write_string (codes "Exiting shell..." ++ [10]) t; Diverged
  | Clear => clear t
  | Unknown line => write_string (codes "Unknown command: " ++ line ++ [10]) t
  end.

(** ** The console as text *)

Lemma write_string_app a b t : write_string (a ++ b) t = (t' ← write_string a t; write_string b t').
Proof.
  revert t. induction a as [|c a IH]; intros t; [done|]. cbn [app write_string].
  destruct (write c t); simpl; [apply IH|done..].
Qed.

Lemma print_format_terminal fmt args out t :
  render fmt args = Some out -> Forall (fun c => 0 <= c < 128) out ->
  print_format fmt args t = write_string out t.
Proof.
  intros Hr Hout. unfold print_format, printf, vprintf.
  rewrite (vprintf_loop_spec _ fmt args 0 t out) by (done || lia).
  rewrite emit_terminal by done. destruct (write_string out t); done.
Qed.

(** A panic shows its message and never returns. *)
Lemma kernel_panic_terminal {A} fmt args out t :
  render fmt args = Some out -> Forall (fun c => 0 <= c < 128) out ->
  kernel_panic (A := A) fmt args t = (_ ← write_string (codes "KERNEL PANIC: " ++ out) t; Diverged).
Proof.
  intros Hr Hout. unfold kernel_panic.
  rewrite (print_format_terminal _ [] (codes "KERNEL PANIC: ")) by first [reflexivity | literal].
  rewrite write_string_app, bind_assoc. apply bind_cong. intros t1.
  pose proof (print_format_terminal fmt args out t1 Hr Hout) as Hp. unfold print_format, printf in Hp.
  rewrite <-Hp, bind_assoc. by destruct (vprintf fmt args t1).
Qed.

Lemma stack_chk_fail_terminal {A} t :
  __stack_chk_fail (A := A) t = (_ ← write_string (codes "KERNEL PANIC: stack smashed!" ++ [10]) t; Diverged).
Proof.
  unfold __stack_chk_fail. apply (kernel_panic_terminal _ [] (codes "stack smashed!" ++ [10])); [reflexivity|literal].
Qed.

Lemma put_terminal c t : 0 <= c < 128 -> put c t = write_string [c] t.
Proof.
  intros Hc. unfold put. cbn [putchar terminal_console]. unfold terminal_putchar.
  rewrite (swrap_id 8 c) by (done || (change (2 ^ (8 - 1)) with 128; lia)).
  cbn [write_string]. by destruct (write c t).
Qed.

(** ** Editing *)

(** The buffer holds the line in front of the cursor. *)
Record edits (line : list Z) (s : shell) : Prop := {
  ed_size : List.length (input s) = 256%nat;
  ed_pos : pos s = num line;
  ed_room : num line <= 255;
  ed_line : take (List.length line) (input s) = line
}.

Lemma edit_key_plain line s k :
  edits line s -> plain k ->
  exists s', edits (edit1 line k) s' /\ keyboardBuffer s' = keyboardBuffer s /\
    edit_key k s = (t ← write_string (echo1 line k) (terminal s); Done (false, with_editor s' (input s') (pos s') t)).
Proof.
  intros [Hsz Hpos Hroom Hline] [Hk Hk10]. unfold edit_key, edit1, echo1.
  unfold Key.enter, Key.backspace, Key.LeftArrow, Key.RightArrow, Key.UpArrow, Key.DownArrow, Key.None, input_size.
  rewrite (proj2 (Z.eqb_neq k 10)), (proj2 (Z.eqb_neq k 0x102)), (proj2 (Z.eqb_neq k 0x103)),
    (proj2 (Z.eqb_neq k 0x100)), (proj2 (Z.eqb_neq k 0x101)) by lia. cbn [orb].
  unfold num in *. destruct (Z.eqb_spec k 8) as [->|Hk8].
  - destruct (list_snoc_cases line) as [->|(l & c & ->)].
    + rewrite Hpos. exists s. split; [by split|]. split; [done|]. by destruct s.
    + rewrite length_app in *. simpl in Hpos, Hroom, Hline. rewrite (proj2 (Z.ltb_lt _ _)) by lia.
      exists (with_editor s (input s) (pos s - 1) (terminal s)). split; [|split; [done|]].
      * rewrite removelast_last. split; simpl; [done|unfold num; lia|unfold num; lia|].
        apply (f_equal (take (List.length l))) in Hline. rewrite take_take, take_app_length in Hline.
        by replace (List.length l `min` (List.length l + 1))%nat with (List.length l) in Hline by lia.
      * rewrite (print_format_terminal _ _ [8; 32; 8]) by first [done | repeat constructor; lia].
        by destruct l.
  - destruct (Z.eqb_spec k 0) as [->|Hk0].
    { simpl. exists s. split; [by split|]. split; [done|]. by destruct s. }
    rewrite Hpos. cbn [negb andb orb]. destruct (Z.leb_spec 255 (Z.of_nat (List.length line))).
    + rewrite (proj2 (Z.ltb_ge _ _)) by lia. exists s. split; [by split|]. split; [done|]. by destruct s.
    + rewrite (proj2 (Z.ltb_lt _ _)) by lia. rewrite array_set_done, bind_done by lia. rewrite Nat2Z.id.
      rewrite (swrap_id 8 k) by (done || (change (2 ^ (8 - 1)) with 128; lia)). rewrite put_terminal by lia.
      exists (with_editor s (<[List.length line := k]> (input s)) (pos s + 1) (terminal s)).
      split; [|split; [done|by rewrite Hpos]]. split; simpl.
      * by rewrite length_insert.
      * rewrite Hpos. unfold num. rewrite length_app. simpl. lia.
      * unfold num. rewrite length_app. simpl. lia.
      * rewrite length_app. simpl. rewrite Nat.add_1_r.
        rewrite (take_S_r _ _ k) by (apply list_lookup_insert_eq; lia).
        by rewrite take_insert_ge, Hline by lia.
Qed.

(** Keys put into a buffer that has room for them. *)
Lemma deliver_spec keys b :
  keyboard_ok b -> (List.length (pending b) + List.length keys <= 256)%nat ->
  keyboard_ok (foldl (fun b k => KeyboardBuffer_put k b) b keys) /\
  pending (foldl (fun b k => KeyboardBuffer_put k b) b keys) = pending b ++ keys.
Proof.
  revert b. induction keys as [|k keys IH]; intros b Hok Hroom; simpl; [by rewrite app_nil_r|].
  destruct (keyboard_put_spec k b Hok) as [Hok' Hp]. unfold fifo_put in Hp.
  simpl in Hroom. rewrite (proj2 (Nat.eqb_neq _ _)) in Hp by (unfold s_maxSize; lia).
  destruct (IH _ Hok') as [Hok2 Hp2]; [rewrite Hp, length_app; simpl; lia|].
  split; [done|]. by rewrite Hp2, Hp, <-app_assoc.
Qed.

Definition set_terminal (s : shell) (t : Terminal) : shell := Shell (input s) (pos s) (keyboardBuffer s) t.

(** Empty rounds change nothing, so that it does not matter when keys arrive. *)
Lemma edit_key_none s : edit_key Key.None s = Done (false, s).
Proof. done. Qed.

Lemma edit_key_enter line s :
  edits line s ->
  exists s', edits line s' /\ nth (List.length line) (input s') 1 = 0 /\ keyboardBuffer s' = keyboardBuffer s /\
    edit_key Key.enter s = (t ← write_string [10] (terminal s); Done (true, set_terminal s' t)).
Proof.
  intros [Hsz Hpos Hroom Hline]. unfold num in *.
  exists (with_editor s (<[List.length line := 0]> (input s)) (pos s) (terminal s)). split; [|split; [|split; [done|]]].
  - split; simpl; [by rewrite length_insert|done|done|]. by rewrite take_insert_ge by lia.
  - simpl. rewrite nth_lookup, list_lookup_insert_eq by lia. done.
  - unfold edit_key. rewrite Z.eqb_refl, put_terminal by lia. rewrite array_set_done by lia.
    rewrite Hpos, Nat2Z.id. destruct (write_string [10] (terminal s)); done.
Qed.

(** A round with a waiting key takes it. *)
Lemma read_line_key ks s line k l :
  edits line s -> keyboard_ok (keyboardBuffer s) -> 0 <= k < 128 ->
  pending (keyboardBuffer s) ++ ks = k :: l -> (List.length l < 256)%nat ->
  exists s', keyboard_ok (keyboardBuffer s') /\ pending (keyboardBuffer s') = l /\
    if k =? 10 then
      edits line s' /\ nth (List.length line) (input s') 1 = 0 /\
      forall arrivals, read_line (ks :: arrivals) s = (t ← write_string [10] (terminal s); Done (true, set_terminal s' t))
    else
      edits (edit1 line k) s' /\
      forall arrivals, read_line (ks :: arrivals) s =
        (t ← write_string (echo1 line k) (terminal s); read_line arrivals (set_terminal s' t)).
Proof.
  intros He Hok Hk Heq Hlen.
  assert (Hroom : (List.length (pending (keyboardBuffer s)) + List.length ks <= 256)%nat).
  { apply (f_equal (@List.length Z)) in Heq. rewrite length_app in Heq. simpl in Heq. lia. }
  destruct (deliver_spec ks _ Hok Hroom) as [Hok1 Hp1]. cbn [read_line].
  set (b1 := foldl _ (keyboardBuffer s) ks) in *.
  destruct (keyboard_get_spec b1 Hok1) as (Hkey & Hok2 & Hp2). rewrite Hp1, Heq in Hkey, Hp2.
  destruct (KeyboardBuffer_get b1) as [key b2]. simpl in Hkey, Hok2, Hp2. subst key.
  set (s1 := Shell (input s) (pos s) b2 (terminal s)).
  assert (He1 : edits line s1) by (by destruct He).
  destruct (Z.eqb_spec k 10) as [->|Hne].
  - destruct (edit_key_enter line s1 He1) as (s' & He' & Hz & Hb & Hd). exists s'. rewrite Hb.
    split; [done|]. split; [done|]. split; [done|]. split; [done|]. intros arrivals.
    change 10 with Key.enter at 1. rewrite Hd. simpl. by destruct (write 10 (terminal s)).
  - destruct (edit_key_plain line s1 k He1 (conj Hk Hne)) as (s' & He' & Hb & Hd). exists s'. rewrite Hb.
    split; [done|]. split; [done|]. split; [done|]. intros arrivals. rewrite Hd, bind_assoc. by apply bind_cong.
Qed.

Lemma read_line_idle arrivals s :
  keyboard_ok (keyboardBuffer s) -> pending (keyboardBuffer s) = [] ->
  exists s', input s' = input s /\ pos s' = pos s /\ terminal s' = terminal s /\
    keyboard_ok (keyboardBuffer s') /\ pending (keyboardBuffer s') = [] /\
    read_line ([] :: arrivals) s = read_line arrivals s'.
Proof.
  intros Hok Hp. destruct (keyboard_get_spec (keyboardBuffer s) Hok) as (Hk & Hok2 & Hp2). rewrite Hp in Hk, Hp2.
  cbn [read_line foldl]. destruct (KeyboardBuffer_get (keyboardBuffer s)) as [key b2].
  simpl in Hk, Hok2, Hp2. subst key. rewrite edit_key_none, bind_done.
  exists (Shell (input s) (pos s) b2 (terminal s)). by split_and!.
Qed.

(** Reading a whole line: the keys and the final Enter. *)
Definition reads_line (rounds : list (list Z)) (line keys : list Z) (s : shell) : Prop :=
  exists s', edits (edit line keys) s' /\ nth (List.length (edit line keys)) (input s') 1 = 0 /\
    keyboard_ok (keyboardBuffer s') /\
    read_line rounds s =
      (t ← write_string (echo line keys ++ [10]) (terminal s); Done (true, set_terminal s' t)).

(** The keys still to come, in the buffer and in the later rounds. *)
Definition coming (rounds : list (list Z)) (line keys : list Z) (s : shell) : Prop :=
  edits line s /\ keyboard_ok (keyboardBuffer s) /\ Forall plain keys /\
  pending (keyboardBuffer s) ++ concat rounds = keys ++ [10] /\ (List.length keys < 256)%nat.

Lemma reads_line_key m ks rounds line keys s :
  (forall line keys s, coming rounds line keys s -> (List.length keys < m)%nat -> reads_line rounds line keys s) ->
  coming (ks :: rounds) line keys s -> (List.length keys <= m)%nat -> pending (keyboardBuffer s) ++ ks <> [] ->
  reads_line (ks :: rounds) line keys s.
Proof.
  intros IH (He & Hok & Hkeys & Heq & Hlen) Hm Hne. cbn [concat] in Heq. rewrite app_assoc in Heq.
  destruct (pending (keyboardBuffer s) ++ ks) as [|k l] eqn:Hpk; [done|]. simpl in Heq.
  assert (Hl : (List.length l < 256)%nat).
  { apply (f_equal (@List.length Z)) in Heq. simpl in Heq. rewrite !length_app in Heq. simpl in Heq. lia. }
  destruct keys as [|key keys]; simpl in Heq.
  - injection Heq as -> Hnil. apply app_eq_nil in Hnil as [-> _].
    destruct (read_line_key ks s line 10 [] He Hok ltac:(lia) Hpk Hl) as (s' & Hok' & _ & He' & Hz & Hr).
    exists s'. split; [done|]. split; [done|]. split; [done|]. apply Hr.
  - injection Heq as -> Heq. apply Forall_cons in Hkeys as [[Hk Hk10] Hkeys]. simpl in Hlen, Hm.
    destruct (read_line_key ks s line key l He Hok Hk Hpk Hl) as (s1 & Hok1 & Hp1 & Hcase).
    rewrite (proj2 (Z.eqb_neq key 10) Hk10) in Hcase. destruct Hcase as [He1 Hr].
    assert (Hnext : forall t, reads_line rounds (edit1 line key) keys (set_terminal s1 t)).
    { intros t. apply IH; [|lia]. split; [by destruct He1|]. cbn. rewrite Hp1. split_and!; [done..|lia]. }
    unfold reads_line. rewrite Hr. cbn [echo edit foldl]. rewrite <-app_assoc, write_string_app.
    destruct (write_string (echo1 line key) (terminal s)) as [t1| | |].
    2-4: destruct (Hnext (terminal s)) as (s' & ? & ? & ? & _); by exists s'.
    destruct (Hnext t1) as (s' & ? & ? & ? & Hd). by exists s'.
Qed.

Lemma concat_nils n : concat (replicate n []) = @nil Z.
Proof. by induction n. Qed.

(** It does not matter when the keys arrive. *)
Lemma read_line_rounds n arrivals : forall line keys s,
  coming (arrivals ++ replicate n []) line keys s -> (List.length keys < n)%nat ->
  reads_line (arrivals ++ replicate n []) line keys s.
Proof.
  induction arrivals as [|ks arrivals IH]; cbn [app].
  - induction n as [|n IHn]; intros line keys s Hc Hn; [lia|]. apply (reads_line_key n); [apply IHn|done|lia|].
    destruct Hc as (_ & _ & _ & Heq & _). intros Hnil. cbn [replicate concat app] in Heq. rewrite app_nil_r in Hnil.
    rewrite Hnil in Heq. rewrite concat_nils in Heq. by destruct keys.
  - intros line keys s Hc Hn. destruct (decide (pending (keyboardBuffer s) ++ ks = [])) as [Hnil|Hne].
    + apply app_eq_nil in Hnil as [Hp ->]. destruct Hc as (He & Hok & Hkeys & Heq & Hlen).
      destruct (read_line_idle (arrivals ++ replicate n []) s Hok Hp) as (s1 & Hi & Hpos & Ht & Hok1 & Hp1 & Hr).
      destruct (IH line keys s1) as (s' & ? & ? & ? & Hd); [|done|].
      * split; [destruct He; split; congruence|]. rewrite Hp1. rewrite Hp in Heq. by split_and!.
      * exists s'. rewrite Hr, <-Ht. by split_and!.
    + apply (reads_line_key n); [apply IH|done|lia|done].
Qed.

(** ** Commands *)

(** [strncmp_chars] is [strncmp] on memory that holds the two sequences. *)
Lemma strncmp_chars_mem n m p q a b :
  (forall i, (i < n)%nat -> load_char m (p + Z.of_nat i) = nth i a 0 /\ load_char m (q + Z.of_nat i) = nth i b 0) ->
  strncmp p q (Z.of_nat n) m = strncmp_chars n a b.
Proof.
  unfold strncmp. rewrite Nat2Z.id. revert p q a b. induction n as [|n IH]; intros p q a b Hm; [done|].
  cbn [strncmp_up strncmp_chars]. destruct (Hm 0%nat) as [Ha Hb]; [lia|]. simpl Z.of_nat in Ha, Hb.
  rewrite Z.add_0_r in Ha, Hb. rewrite Ha, Hb.
  replace (hd 0 a) with (nth 0 a 0) by (by destruct a). replace (hd 0 b) with (nth 0 b 0) by (by destruct b).
  destruct (nth 0 a 0 =? nth 0 b 0); [|done]. apply IH. intros i Hi. destruct (Hm (S i)) as [Ha' Hb']; [lia|].
  replace (p + 1 + Z.of_nat i) with (p + Z.of_nat (S i)) by lia.
  replace (q + 1 + Z.of_nat i) with (q + Z.of_nat (S i)) by lia.
  rewrite Ha', Hb'. by destruct a, b, i.
Qed.

(** Comparing as many characters as a literal has tests for the prefix. *)
Lemma strncmp_prefix lit line rest :
  Forall (fun c => c <> 0) lit -> Forall (fun c => c <> 0) line ->
  (strncmp_chars (List.length lit) (line ++ 0 :: rest) lit =? 0) = bool_decide (lit `prefix_of` line).
Proof.
  intros Hlit. revert line. induction Hlit as [|c lit Hc Hlit IH]; intros line Hline.
  - symmetry. apply bool_decide_eq_true. apply prefix_nil.
  - cbn [List.length strncmp_chars hd tl]. destruct Hline as [|x line Hx Hline]; cbn [app hd tl].
    + rewrite (proj2 (Z.eqb_neq 0 c)), (proj2 (Z.eqb_neq (0 - c) 0)) by lia.
      symmetry. apply bool_decide_eq_false. apply prefix_nil_not.
    + destruct (Z.eqb_spec x c) as [->|Hne].
      * rewrite IH by done. apply bool_decide_ext. split; [apply prefix_cons|apply prefix_cons_inv_2].
      * rewrite (proj2 (Z.eqb_neq (x - c) 0)) by lia. symmetry. apply bool_decide_eq_false.
        intros Hp%prefix_cons_inv_1. congruence.
Qed.

(** A command line: plain characters other than 0. *)
Definition line_char (c : Z) : Prop := 0 < c < 128 /\ c <> 10.

Lemma cstr_app line rest : Forall line_char line -> cstr (line ++ 0 :: rest) = line.
Proof.
  intros Hl. induction Hl as [|c line [Hc _] Hl IH]; [done|]. simpl. rewrite (proj2 (Z.eqb_neq c 0)) by lia. by rewrite IH.
Qed.

Lemma line_char_codes line : Forall line_char line -> Forall (fun c => 0 <= c < 128) line.
Proof. intros Hl. eapply Forall_impl; [exact Hl|]. intros c [Hc _]. simpl. lia. Qed.

(** The help text, printed line by line. *)
Lemma print_help t :
  (t ← print_format (codes "Available commands:" ++ [10]) [] t;
   t ← print_format (codes "  help - Show this help message" ++ [10]) [] t;
   t ← print_format (codes "  echo <message> - Echo the message back" ++ [10]) [] t;
   print_format (codes "  exit - Exit the shell" ++ [10]) [] t) = write_string help_text t.
Proof.
  assert (Hp : forall s t, render s [] = Some s -> Forall (fun c => 0 <= c < 128) s -> print_format s [] t = write_string s t)
    by (intros s t' Hr Hs; by apply print_format_terminal).
  unfold help_text. rewrite (app_assoc (codes "Available commands:")), write_string_app, Hp by first [reflexivity | literal].
  apply bind_cong. intros t1. rewrite (app_assoc (codes "  help - Show this help message")), write_string_app, Hp by first [reflexivity | literal].
  apply bind_cong. intros t2. rewrite (app_assoc (codes "  echo <message> - Echo the message back")), write_string_app, Hp by first [reflexivity | literal].
  apply bind_cong. intros t3. apply Hp; [reflexivity|literal].
Qed.

(** A format with one string argument. *)
Lemma print_string_arg before line rest t :
  (forall s, render (before ++ codes "%s" ++ [10]) [ArgStr s] = Some (before ++ cstr s ++ [10])) ->
  Forall (fun c => 0 <= c < 128) before -> Forall line_char line ->
  print_format (before ++ codes "%s" ++ [10]) [ArgStr (line ++ 0 :: rest)] t = write_string (before ++ line ++ [10]) t.
Proof.
  intros Hr Hb Hl. apply print_format_terminal; [by rewrite Hr, cstr_app|].
  apply Forall_app. split; [done|]. apply Forall_app. split; [by apply line_char_codes|repeat constructor; lia].
Qed.

Lemma handle_command_spec line rest t :
  Forall line_char line ->
  handle_command (line ++ 0 :: rest) (num line) t = run_command (classify line) t.
Proof.
  intros Hl. assert (Hnz : Forall (fun c => c <> 0) line).
  { eapply Forall_impl; [exact Hl|]. intros c [Hc _]. simpl. lia. }
  assert (Hp : forall n lit, n = List.length lit -> Forall (fun c => c <> 0) lit ->
    (strncmp_chars n (line ++ 0 :: rest) lit =? 0) = if decide (lit `prefix_of` line) then true else false).
  { intros n lit -> Hlit. rewrite <-bool_decide_decide. by apply strncmp_prefix. }
  unfold handle_command, classify. destruct (decide (line = [])) as [->|Hne]; [done|].
  rewrite (proj2 (Z.eqb_neq (num line) 0)) by (unfold num; destruct line; simpl; [done|lia]).
  rewrite !Hp by first [reflexivity | literal].
  destruct (decide (codes "help" `prefix_of` line)) as [Hh|Hh]; [apply print_help|].
  destruct (decide (codes "echo " `prefix_of` line)) as [[message ->]|He].
  { apply (print_string_arg [] message rest); [reflexivity|constructor|].
    by apply Forall_app in Hl as [_ Hl]. }
  destruct (decide (codes "exit" `prefix_of` line)) as [Hx|Hx].
  { cbn [run_command]. by rewrite (print_format_terminal _ _ (codes "Exiting shell..." ++ [10])) by first [reflexivity | literal]. }
  destruct (decide (codes "clear" `prefix_of` line)) as [Hx'|Hx']; [done|].
  by apply (print_string_arg (codes "Unknown command: ") line rest); [reflexivity|literal|].
Qed.

Lemma edit_line_char line keys : Forall line_char line -> Forall plain keys -> Forall line_char (edit line keys).
Proof.
  intros Hl Hk. revert line Hl. induction Hk as [|k keys [Hk Hk10] Hks IH]; intros line Hl; [done|].
  apply IH. unfold edit1. destruct (Z.eqb_spec k 8).
  - destruct (list_snoc_cases line) as [->|(l & c & ->)]; [done|]. rewrite removelast_last. by apply Forall_app in Hl as [? _].
  - destruct (Z.eqb_spec k 0); [done|]. cbn [orb]. destruct (255 <=? num line); [done|].
    apply Forall_app. split; [done|]. constructor; [split; [lia|done]|constructor].
Qed.

Lemma edits_command line s :
  edits line s -> nth (List.length line) (input s) 1 = 0 -> exists rest, input s = line ++ 0 :: rest.
Proof.
  intros [Hsz _ Hroom Hline] Hz. unfold num in Hroom. rewrite nth_lookup in Hz.
  destruct (input s !! List.length line) as [c|] eqn:Hc; [simpl in Hz; subst c|done].
  exists (drop (S (List.length line)) (input s)).
  rewrite <-(take_drop_middle (input s) (List.length line) 0 Hc) at 1. by rewrite Hline.
Qed.

(** C10. A round of the shell: whenever the keys arrive, a typed line is edited as
    [edit] says (backspace deletes the last character, everything after 255
    characters is ignored), echoed, and when Enter is pressed the command that
    it starts with is run: [help], [echo], [exit] (which never returns), [clear],
    or a complaint; a longer word that begins with a command's name counts as
    that command. *)
Theorem shell_round_correct s arrivals keys :
  keyboard_ok (keyboardBuffer s) -> pending (keyboardBuffer s) = [] -> List.length (input s) = 256%nat ->
  concat arrivals = keys ++ [10] -> Forall plain keys -> (List.length keys < 256)%nat ->
  let line := edit [] keys in
  exists s', input s' = line ++ 0 :: drop (S (List.length line)) (input s') /\ pos s' = num line /\
    keyboard_ok (keyboardBuffer s') /\
    shell_round (arrivals ++ replicate (S (List.length keys)) []) s =
      (t ← write_string (codes "davOS> " ++ echo [] keys ++ [10]) (terminal s);
       t ← run_command (classify line) t;
       Done (true, set_terminal s' t)).
Proof.
  intros Hok Hp Hsz Hc Hkeys Hlen line.
  assert (He : forall t, edits [] (with_editor s (input s) 0 t)) by (intros t; split; simpl; [done|done|unfold num; simpl; lia|done]).
  assert (Hr : forall t, reads_line (arrivals ++ replicate (S (List.length keys)) []) [] keys (with_editor s (input s) 0 t)).
  { intros t. apply read_line_rounds; [|lia]. split; [apply He|]. split; [exact Hok|]. split; [exact Hkeys|]. split; [|exact Hlen].
    simpl. rewrite Hp, concat_app. simpl. rewrite Hc.
    by rewrite concat_nils, app_nil_r. }
  assert (Hline : Forall line_char line) by (apply edit_line_char; [constructor|done]).
  assert (Hrest : forall s', edits line s' -> nth (List.length line) (input s') 1 = 0 ->
    input s' = line ++ 0 :: drop (S (List.length line)) (input s') /\ pos s' = num line).
  { intros s' He' Hz. destruct (edits_command _ _ He' Hz) as [rest Hi]. split; [|apply He'].
    rewrite Hi at 2. change (0 :: rest) with ([0] ++ rest). rewrite app_assoc.
    rewrite drop_app_length' by (rewrite length_app; simpl; lia). by rewrite Hi. }
  unfold shell_round. rewrite (print_format_terminal _ _ (codes "davOS> "))
    by first [reflexivity | literal].
  rewrite write_string_app. destruct (write_string (codes "davOS> ") (terminal s)) as [t1| | |]; cbn [mbind outcome_bind].
  2-4: destruct (Hr (terminal s)) as (s' & He' & Hz & Hk & _); exists s'; destruct (Hrest _ He' Hz); done.
  destruct (Hr t1) as (s' & He' & Hz & Hk & Hd). exists s'. destruct (Hrest _ He' Hz) as [Hi Hpos].
  split; [done|]. split; [done|]. split; [done|]. fold (@mbind outcome _). cbn [terminal with_editor] in Hd.
  rewrite Hd. destruct (write_string (echo [] keys ++ [10]) t1) as [t2| | |]; cbn [mbind outcome_bind]; [|done..].
  cbn [set_terminal input pos terminal]. rewrite Hpos. rewrite Hi at 1. rewrite handle_command_spec by done.
  destruct (run_command (classify line) t2); [|done..]. by rewrite <-Hpos.
Qed.

(** ** The editor on any keys

    The editor as a total function, apart from what it sends to the terminal. *)
Definition key_output (key : Z) (s : shell) : outcome Terminal :=
  if key =? Key.enter then put 10 (terminal s)
  else if key =? Key.backspace then
    if 0 <? pos s then print_format [8; 32; 8] [] (terminal s) else Done (terminal s)
  else if (key =? Key.LeftArrow) || (key =? Key.RightArrow) then Done (terminal s)
  else if (key =? Key.UpArrow) || (key =? Key.DownArrow) then
    scrollDown (if key =? Key.UpArrow then -1 else 1) (terminal s)
  else if negb (key =? Key.None) && (pos s <? input_size - 1) then put (i8 key) (terminal s)
  else Done (terminal s).

Definition key_line (key : Z) (s : shell) : bool * (list Z * Z) :=
  let i := Z.to_nat (pos s) in
  if key =? Key.enter then (true, (<[i := 0]> (input s), pos s))
  else if (key =? Key.backspace) || (key =? Key.LeftArrow) then (false, (input s, Z.max 0 (pos s - 1)))
  else if key =? Key.RightArrow then
    (false, (input s, if (pos s <? input_size - 1) && negb (nth i (input s) 0 =? 0) then pos s + 1 else pos s))
  else if (key =? Key.UpArrow) || (key =? Key.DownArrow) then (false, (input s, pos s))
  else if negb (key =? Key.None) && (pos s <? input_size - 1) then (false, (<[i := i8 key]> (input s), pos s + 1))
  else (false, (input s, pos s)).

(** The types of the editor's variables: 256 characters, a position in the
    array, a well-formed buffer. *)
Record editor_typed (s : shell) : Prop := {
  et_size : List.length (input s) = 256%nat;
  et_chars : Forall (fun c => -128 <= c < 128) (input s);
  et_pos : 0 <= pos s <= 255;
  et_buffer : keyboard_ok (keyboardBuffer s)
}.

Lemma editor_typed_terminal s t : editor_typed s -> editor_typed (set_terminal s t).
Proof. intros []. by split. Qed.

Lemma i8_char c : -128 <= i8 c < 128.
Proof. apply (swrap_range 8). lia. Qed.

(** No key makes the editor leave its array. *)
Lemma edit_key_total key s :
  editor_typed s ->
  edit_key key s = (t ← key_output key s;
    Done (fst (key_line key s), with_editor s (fst (snd (key_line key s))) (snd (snd (key_line key s))) t)) /\
  forall t, editor_typed (with_editor s (fst (snd (key_line key s))) (snd (snd (key_line key s))) t).
Proof.
  intros [Hsz Hch Hpos Hb]. unfold edit_key, key_output, key_line.
  assert (Hstore : forall c, -128 <= c < 128 -> array_set (input s) (pos s) c = Done (<[Z.to_nat (pos s) := c]> (input s)) /\
    List.length (<[Z.to_nat (pos s) := c]> (input s)) = 256%nat /\
    Forall (fun c => -128 <= c < 128) (<[Z.to_nat (pos s) := c]> (input s))).
  { intros c Hc. rewrite array_set_done, length_insert by lia. split; [done|]. split; [done|]. by apply Forall_insert. }
  destruct (key =? Key.enter).
  { destruct (Hstore 0 ltac:(lia)) as (-> & ? & ?). split; [by destruct (put 10 (terminal s))|]. by split. }
  destruct (key =? Key.backspace).
  { cbn [orb]. destruct (Z.ltb_spec 0 (pos s)).
    - rewrite Z.max_r by lia. split; [by destruct (print_format _ _ _)|]. split; try done. simpl. lia.
    - rewrite Z.max_l by lia. split; [destruct s; simpl in *; do 2 f_equal; unfold with_editor; simpl; f_equal; lia|]. by split. }
  destruct (key =? Key.LeftArrow).
  { cbn [orb]. split; [|split; try done; simpl; lia]. rewrite bind_done. destruct (Z.ltb_spec 0 (pos s)).
    - by rewrite Z.max_r by lia.
    - rewrite Z.max_l by lia. destruct s. unfold with_editor. simpl in *. do 3 f_equal. lia. }
  cbn [orb]. destruct (key =? Key.RightArrow).
  { cbn [fst snd]. rewrite bind_done. destruct (Z.ltb_spec (pos s) (input_size - 1)) as [Hlt|Hge]; cbn [andb].
    - destruct (lookup_lt_is_Some_2 (input s) (Z.to_nat (pos s)) ltac:(lia)) as [c Hc].
      rewrite (array_get_done _ _ c), bind_done, (nth_lookup_Some _ _ _ c) by (done || lia).
      unfold input_size in *. destruct (c =? 0); cbn [negb]; (split; [by destruct s|]); split; simpl; done || lia.
    - split; [by destruct s|]. by split. }
  destruct ((key =? Key.UpArrow) || (key =? Key.DownArrow)).
  { split; [by destruct (scrollDown _ _)|]. by split. }
  destruct (negb (key =? Key.None)); cbn [andb]; [|split; [by destruct s|by split]].
  destruct (Z.ltb_spec (pos s) (input_size - 1)); [|split; [by destruct s|by split]].
  destruct (Hstore (i8 key) (i8_char key)) as (-> & ? & ?). rewrite bind_done. split; [by destruct (put _ _)|].
  unfold input_size in *. split; simpl; done || lia.
Qed.

(** A run that ends as a failed terminal operation does. *)
Definition fails_like {A B} (o : outcome A) (o' : outcome B) : Prop :=
  match o, o' with
  | Panic m, Panic m' | Undefined m, Undefined m' => m = m'
  | Diverged, Diverged => True
  | _, _ => False
  end.

Lemma deliver_ok keys b : keyboard_ok b -> keyboard_ok (foldl (fun b k => KeyboardBuffer_put k b) b keys).
Proof. revert b. induction keys as [|k keys IH]; intros b Hb; [done|]. apply IH. by apply keyboard_put_spec. Qed.

Lemma key_line_entered key s :
  editor_typed s -> fst (key_line key s) = true ->
  fst (snd (key_line key s)) !! Z.to_nat (snd (snd (key_line key s))) = Some 0.
Proof.
  intros [Hsz _ Hpos _]. unfold key_line. destruct (key =? Key.enter); [|by repeat case_match].
  intros _. apply list_lookup_insert_eq. rewrite Hsz. lia.
Qed.

(** C16. The types of the line editor are invariant, whatever keys arrive, the
    arrow keys included: [input] keeps its 256 characters, [pos] stays an index of
    it, the buffer stays well formed.  The editor never leaves the array: a run
    that does not return failed in the terminal.  A line that was entered ends
    with a zero inside the array, so that the commands can read it as a string. *)
Theorem editor_types_preserved arrivals s :
  editor_typed s ->
  match read_line arrivals s with
  | Done (entered, s') =>
      editor_typed s' /\ (entered = true -> input s' !! Z.to_nat (pos s') = Some 0)
  | failed => exists s1 key, editor_typed s1 /\ fails_like failed (key_output key s1)
  end.
Proof.
  revert s. induction arrivals as [|keys arrivals IH]; intros s Hs; [done|]. cbn [read_line].
  pose proof Hs as [Hsz Hch Hpos Hb]. pose proof (deliver_ok keys _ Hb) as Hb1.
  destruct (keyboard_get_spec _ Hb1) as (_ & Hb2 & _). destruct (KeyboardBuffer_get _) as [key b]. cbn [snd] in Hb2.
  set (s1 := Shell (input s) (pos s) b (terminal s)).
  assert (Hs1 : editor_typed s1) by (by split).
  destruct (edit_key_total key s1 Hs1) as [-> Htyped]. pose proof (key_line_entered key s1 Hs1) as Hzero.
  destruct (key_output key s1) as [t| | |] eqn:Ho; rewrite ?bind_done.
  2-4: exists s1, key; by rewrite Ho.
  destruct (key_line key s1) as [entered [inp p]]. cbn [fst snd] in *. destruct entered.
  - split; [apply Htyped|]. intros _. by apply Hzero.
  - apply IH, Htyped.
Qed.

(** ** Deleting on the screen *)

Lemma echo_app line a b : echo line (a ++ b) = echo line a ++ echo (edit line a) b.
Proof.
  revert line. induction a as [|k a IH]; intros line; [done|]. cbn [app echo edit foldl].
  by rewrite IH, <-app_assoc.
Qed.

(** Keys that put a character on the line. *)
Definition visible (k : Z) : Prop := line_char k /\ k <> 8.

Lemma type_keys line keys :
  Forall visible keys -> num line + num keys <= 255 -> edit line keys = line ++ keys /\ echo line keys = keys.
Proof.
  intros Hk. revert line. unfold num. induction Hk as [|k keys [[Hk _] Hk8] Hks IH]; intros line Hlen.
  - by rewrite app_nil_r.
  - simpl in Hlen.
    assert (He1 : edit1 line k = line ++ [k] /\ echo1 line k = [k]).
    { unfold edit1, echo1. rewrite (proj2 (Z.eqb_neq k 8)), (proj2 (Z.eqb_neq k 0)) by lia. cbn [orb].
      by rewrite (proj2 (Z.leb_gt _ _)) by (unfold num; lia). }
    destruct He1 as [He1 Ho1]. cbn [edit foldl echo]. rewrite He1, Ho1.
    destruct (IH (line ++ [k])) as [He Ho]; [rewrite length_app; simpl; lia|].
    unfold edit in He. rewrite He, Ho, <-app_assoc. done.
Qed.

Lemma delete_keys line :
  edit line (replicate (List.length line) 8) = [] /\
  echo line (replicate (List.length line) 8) = concat (replicate (List.length line) [8; 32; 8]).
Proof.
  induction line as [|c line IH] using rev_ind; [done|].
  rewrite length_app. simpl List.length. rewrite Nat.add_1_r. cbn [replicate edit foldl echo concat].
  assert (He : edit1 (line ++ [c]) 8 = line) by (unfold edit1; simpl; apply removelast_last).
  assert (Ho : echo1 (line ++ [c]) 8 = [8; 32; 8]) by (unfold echo1; simpl; by destruct line).
  rewrite He, Ho. destruct IH as [IH1 IH2]. unfold edit in IH1. by rewrite IH1, IH2.
Qed.

Lemma filter_printable l : Forall (fun c => printable c) l -> filter (fun c => c <> 10) l = l.
Proof.
  induction 1 as [|c l [_ Hc] Hl IH]; [done|]. by rewrite filter_cons_True, IH.
Qed.

(** The terminal has no notion of backspace: after a line is typed and
    deleted again the editor's line is empty, but the screen still shows every
    deleted character, followed by the glyphs of the characters that were sent
    to erase it. *)
Theorem backspace_does_not_erase W H data t keys :
  8 <= W < 2 ^ 31 -> 16 <= H < 2 ^ 31 -> List.length data = Z.to_nat 4096 -> shows W H data [] [] t ->
  Forall visible keys -> num keys <= 255 ->
  let typed := keys ++ replicate (List.length keys) 8 in
  let text := codes "davOS> " ++ echo [] typed in
  let s := layout W text in
  let lines := fst s ++ [snd s] in
  num (fst s) + 1 <= 256 ->
  edit [] typed = [] /\
  exists t', write_string text t = Done t' /\
    (forall x y, 0 <= x < W -> 0 <= y < H -> pixel (m_framebuffer t') x y = picture data (screen H lines) x y) /\
    concat lines = codes "davOS> " ++ keys ++ concat (replicate (List.length keys) [8; 32; 8]).
Proof.
  intros HW HH Hd Ht Hk Hlen typed text s lines Hroom.
  destruct (type_keys [] keys Hk) as [He Ho]; [unfold num in *; simpl; lia|]. simpl in He.
  destruct (delete_keys keys) as [He2 Ho2].
  assert (Htyped : edit [] typed = []) by (unfold typed, edit in *; by rewrite foldl_app, He).
  assert (Hecho : echo [] typed = keys ++ concat (replicate (List.length keys) [8; 32; 8])).
  { unfold typed. by rewrite echo_app, Ho, He, Ho2. }
  assert (Hkeys : Forall (fun c => printable c) keys).
  { eapply Forall_impl; [exact Hk|]. intros c [Hc _]. exact Hc. }
  assert (Herase : forall n, Forall (fun c => printable c) (concat (replicate n [8; 32; 8]))).
  { induction n as [|n IH]; [constructor|]. cbn [replicate concat app]. repeat constructor; (lia || exact IH). }
  assert (Htext : Forall (fun c => printable c) text).
  { unfold text. rewrite Hecho. apply Forall_app. split; [repeat constructor; vm_compute; congruence|].
    by apply Forall_app. }
  split; [done|].
  destruct (write_string_spec W H HW HH data Hd text [] [] t Ht) as (t' & Hw & Ht').
  { eapply Forall_impl; [exact Htext|]. intros c Hc. by left. }
  { exact Hroom. }
  exists t'. split; [done|]. split.
  - intros x y Hx Hy. rewrite (dp_pixels _ _ _ _ _ _ (sh_display _ _ _ _ _ _ Ht')) by done.
    unfold lines, s. by rewrite (screen_snoc H HH data Hd).
  - unfold lines, s, layout. rewrite layout_characters. cbn [fst snd concat app].
    rewrite filter_printable by done. unfold text. by rewrite Hecho.
Qed.

(** ** A concrete session *)

Definition demo_shell : shell :=
  Shell (replicate 256 0) 0 KeyboardBuffer_new (demo_screen 640 480).

(** "hello", with the [o] typed twice and deleted once, arriving in two bursts. *)
Lemma shell_round_correct_witness :
  exists s', shell_round ([[104; 101; 108]; [108; 111; 111; 8; 10]] ++ replicate 8 []) demo_shell =
    (t ← write_string (codes "davOS> hello" ++ [111; 8; 32; 8; 10]) (terminal demo_shell);
     t ← write_string (codes "Unknown command: hello" ++ [10]) t;
     Done (true, set_terminal s' t)) /\ pos s' = 5.
Proof.
  destruct (shell_round_correct demo_shell [[104; 101; 108]; [108; 111; 111; 8; 10]] [104; 101; 108; 108; 111; 111; 8])
    as (s' & _ & Hpos & _ & Hr).
  - apply keyboard_new_ok.
  - reflexivity.
  - reflexivity.
  - reflexivity.
  - repeat constructor; unfold plain; lia.
  - simpl. lia.
  - exists s'. split; [exact Hr|exact Hpos].
Defined.

(** Typing over a character after an arrow, and one arrow too many. *)
Lemma editor_types_preserved_witness :
  let s := Shell (replicate 256 0) 0 KeyboardBuffer_new (demo_screen 8 16) in
  let arrivals := [[97; Key.LeftArrow; Key.LeftArrow; 98]; [Key.RightArrow; Key.UpArrow]; [10]] ++ replicate 6 [] in
  exists s', read_line arrivals s = Done (true, s') /\ editor_typed s' /\ input s' !! Z.to_nat (pos s') = Some 0.
Proof.
  intros s arrivals. assert (Hs : editor_typed s).
  { split; [reflexivity|by apply Forall_replicate|simpl; lia|apply keyboard_new_ok]. }
  pose proof (editor_types_preserved arrivals s Hs) as Ht.
  assert (Hd : match read_line arrivals s with Done (entered, _) => entered | _ => false end = true)
    by (vm_compute; reflexivity).
  destruct (read_line arrivals s) as [[[|] s']| | |]; [|discriminate Hd..].
  exists s'. split; [reflexivity|]. split; [apply Ht|]. by apply Ht.
Defined.

(** "ab" typed and deleted on an empty screen. *)
Lemma backspace_does_not_erase_witness :
  exists t t', write_string (codes "davOS> " ++ [97; 98; 8; 32; 8; 8; 32; 8]) t = Done t' /\
    pixel (m_framebuffer t') 60 0 = 0xffffffff.
Proof.
  destruct (clear_new 640 480 ltac:(lia) ltac:(lia) demo_data eq_refl (MkFramebuffer ∅ 640 480))
    as (t0 & _ & Ht0); [split; reflexivity|].
  destruct (backspace_does_not_erase 640 480 demo_data t0 [97; 98] ltac:(lia) ltac:(lia) eq_refl Ht0)
    as (_ & t' & Hw & Hp & _).
  - repeat constructor; unfold visible, line_char; lia.
  - vm_compute. congruence.
  - vm_compute. congruence.
  - exists t0, t'. split; [exact Hw|]. rewrite Hp by lia. vm_compute. reflexivity.
Defined.
