(* ===== verification/Tests.v ===== *)
(** * The tests the kernel runs when it starts (src/tests.cpp)

    [run_all_tests] exercises paging, the heap, the interrupts and the keyboard
    controller on the running kernel and prints what it finds.  The theorems say
    what it prints and what it leaves behind: the tests work on the kernel's own
    resources. *)

From Stdlib Require Import ZArith Lia String.
From stdpp Require Import base gmap list list_numbers numbers strings.
From S2P Require Import Prelude Memory FrameAllocator PageTree Paging KernelMemory Utilities Processor Printf Idt EarlyFaults Acpi Running FreeList Vmm Terminal Shell.
#[local] Open Scope Z_scope.

(** ** The state of the tests: the global of the constructor test, the heap of
    the virtual memory manager, and the kernel with its terminal. *)
Record test_state (H : Type) := Testing {
  global_constructor_test : Z;
  kernel_heap : heap;
  core : kernel_state H Terminal
}.
Arguments Testing {H} global_constructor_test kernel_heap core.
Arguments global_constructor_test {H} t.
Arguments kernel_heap {H} t.
Arguments core {H} t.

Definition set_core {H} (s : test_state H) (k : kernel_state H Terminal) : test_state H :=
  Testing (global_constructor_test s) (kernel_heap s) k.

Definition set_machine {H} (s : test_state H) (m : machine H) : test_state H := set_core s (with_mach (core s) m).

Definition set_console {H} (s : test_state H) (t : Terminal) : test_state H :=
  set_core s (Kernel (mach (core s)) (Idt.keyboardBuffer (core s)) (extended (core s)) t).

Definition say {H} (format : list Z) (args : list va_value) (s : test_state H) : outcome (test_state H) :=
  t ← print_format format args (console (core s)); Done (set_console s t).

Definition line (s : string) : list Z := codes s ++ [10].

(** ** GlobalConstructorTest *)
Definition GlobalConstructorTest_new : Z := 0xdeadbeef.
Definition was_constructed (test_value_ : Z) : bool := test_value_ =? 0xdeadbeef.

Definition write_vpage : Z := 0x80002000.
Definition read_vpage : Z := 0x80000000.
Definition test_value : Z := 0xabcd1234.

Section Tests.
Context {H : Type} `{Platform H} (limine : limine_features) (symbols : linker_symbols).
(** The register or stack slot of a 32-bit variadic argument, which printf reads
    as 64 bits: the upper half is whatever the caller left there. *)
Context (slot : Z -> Z).
(** The interrupt that the local APIC was told to send arrives. *)
Context (ipi : H -> H).
Implicit Types s : test_state H.

Definition test_global_constructor s : outcome (test_state H) :=
  s ← say (line "running global constructor test...") [] s;
  if was_constructed (global_constructor_test s) then say (line "global constructor test: PASSED") [] s
  else Done s.

Definition test_paging (fuel : nat) s : outcome (test_state H) :=
  s ← say (line "running paging test...") [] s;
  let m := mach (core s) in
  r ← allocate_frame limine (vm_mem (vm m));
  let '(new_frame, k) := r : Z * kmem in
  v ← paging_add_mapping limine write_vpage new_frame 0x1000 PageFlags.Write (VM k (page_tree (vm m)) (ptbr (vm m)));
  v ← paging_add_mapping limine read_vpage new_frame 0x1000 PageFlags.Write v;
  m ← write32 limine fuel write_vpage test_value (with_vm m v);
  r ← read32 limine fuel read_vpage m;
  let '(x, m) := r : Z * machine H in
  let s := set_machine s m in
  if x =? test_value then say (line "paging test: PASSED") [] s
  else
    s ← say (line "paging test: FAILED") [] s;
    r ← read32 limine fuel read_vpage (mach (core s));
    let '(x, m) := r : Z * machine H in
    say (line "read %d at %p, expected %d") [ArgInt x; ArgWord new_frame; ArgInt test_value] (set_machine s m).

(** The allocator of the test is its own, but the memory it works on is the one
    that the kernel's heap lies in. *)
Definition test_allocator (fuel : nat) s : outcome (test_state H) :=
  s ← say (line "running allocator test...") [] s;
  let allocator := Heap (hmem (kernel_heap s)) 0 in
  free_regions ← paging_get_initial_free_regions limine symbols;
  free_region ← array_get free_regions 0;
  hm ← add_memory_faulting limine fuel (region_base free_region) (max less (region_size free_region) 0x1000) allocator (mach (core s));
  r ← allocate_faulting limine fuel 0x20 (fst hm) (snd hm);
  let '(p1, hm) := r : Z * (heap * machine H) in
  r ← allocate_faulting limine fuel 0x30 (fst hm) (snd hm);
  let '(p2, hm) := r : Z * (heap * machine H) in
  r ← allocate_faulting limine fuel 0x50 (fst hm) (snd hm);
  let '(p3, hm) := r : Z * (heap * machine H) in
  hm ← deallocate_faulting limine fuel p3 hm;
  hm ← deallocate_faulting limine fuel p2 hm;
  hm ← deallocate_faulting limine fuel p1 hm;
  let '(allocator, m) := hm : heap * machine H in
  say (line "allocator test: PASSED") []
    (set_machine (Testing (global_constructor_test s) (Heap (hmem allocator) (head (kernel_heap s))) (core s)) m).

Definition test_interprocessor_interrupts s : outcome (test_state H) :=
  s ← say (line "running interprocessor interrupt test...") [] s;
  m ← sendInterprocessorInterrupt limine 0 0xff (mach (core s));
  Done (set_machine s m).

(** The interrupt of that test: it is accepted as soon as it was sent. *)
Definition ipi_interrupt s : outcome (test_state H) :=
  let m := mach (core s) in
  k ← run_isr limine isr_interprocessor_interrupt 0 (with_mach (core s) (with_hw m (ipi (hw m))));
  Done (set_core s k).

Definition flag_text (flag : bool) (yes no : string) : va_value := ArgStr (codes (if flag then yes else no)).

Definition test_keyboard s : outcome (test_state H) :=
  s ← say (line "running keyboard controller test...") [] s;
  let m := mach (core s) in
  let h := ioWait (outb 0x64 0x20 (hw m)) in
  let '(cmd, h) := inb 0x60 h in
  let s := set_machine s (with_hw m h) in
  let irq1_enabled := negb (Z.land cmd (Z.shiftl 1 0) =? 0) in
  let irq12_enabled := negb (Z.land cmd (Z.shiftl 1 1) =? 0) in
  let kbd_clock_enabled := Z.land cmd (Z.shiftl 1 4) =? 0 in
  let translation_enabled := negb (Z.land cmd (Z.shiftl 1 6) =? 0) in
  s ← say (line "Command Byte: 0x%x") [ArgWord (slot cmd)] s;
  s ← say (line "  IRQ1 (keyboard):       %s (%s)")
        [flag_text irq1_enabled "enabled" "disabled"; flag_text irq1_enabled "OK" "EXPECTED ENABLED"] s;
  s ← say (line "  IRQ12 (mouse):         %s") [flag_text irq12_enabled "enabled" "disabled"] s;
  s ← say (line "  Keyboard clock:        %s (%s)")
        [flag_text kbd_clock_enabled "enabled" "disabled"; flag_text kbd_clock_enabled "OK" "EXPECTED ENABLED"] s;
  s ← say (line "  Scancode translation:  %s") [flag_text translation_enabled "enabled" "disabled"] s;
  s ← (if irq1_enabled && kbd_clock_enabled then say (line "keyboard controller test: PASSED") [] s
       else say (line "keyboard controller test: FAILED") [] s);
  r ← lapic_read 0x80 (mach (core s));
  let '(tpr, m) := r : Z * machine H in
  s ← say (line "TPR: 0x%x (%s)") [ArgWord (slot tpr); flag_text (tpr =? 0) "OK" "EXPECTED 0"] (set_machine s m);
  let flags := interrupt_flag (hw (mach (core s))) in
  s ← say (line "IF enabled: %s (%s)") [flag_text flags "yes" "no"; flag_text flags "OK" "EXPECTED yes"] s;
  r ← lapic_read 0xF0 (mach (core s));
  let '(svr, m) := r : Z * machine H in
  let apic_enabled := negb (Z.land svr (Z.shiftl 1 8) =? 0) in
  s ← say (line "SVR: 0x%x") [ArgWord (slot svr)] (set_machine s m);
  say (line "  APIC enabled bit: %s (%s)") [flag_text apic_enabled "yes" "no"; flag_text apic_enabled "OK" "EXPECTED yes"] s.

Definition run_all_tests (fuel : nat) s : outcome (test_state H) :=
  s ← say ([10] ++ line "=========================") [] s;
  s ← say (line "RUNNING TEST SUITE..." ++ [10]) [] s;
  s ← test_global_constructor s;
  s ← test_paging fuel s;
  s ← test_allocator fuel s;
  s ← test_interprocessor_interrupts s;
  s ← ipi_interrupt s;
  s ← test_keyboard s;
  s ← say ([10] ++ line "PASSED ALL TESTS") [] s;
  say (line "=========================" ++ [10]) [] s.
End Tests.

(** ** Output

    [f] prints [out] and goes from [s] to [s'], whatever is on the screen. *)
Section Output.
Context {H : Type}.
Implicit Types s : test_state H.

Definition prints (f : test_state H -> outcome (test_state H)) (out : list Z) s s' : Prop :=
  forall t, f (set_console s t) = (t' ← write_string out t; Done (set_console s' t')).

Lemma prints_seq f g out1 out2 s s1 s2 :
  prints f out1 s s1 -> prints g out2 s1 s2 -> prints (fun s => s' ← f s; g s') (out1 ++ out2) s s2.
Proof.
  intros Hf Hg t. rewrite Hf, write_string_app, !bind_assoc. apply bind_cong. intros t1. rewrite bind_done. apply Hg.
Qed.

(** A message, and what follows it. *)
Lemma say_then {B} format args out rest s t (k : test_state H -> outcome B) (r : Terminal -> outcome B) :
  render format args = Some out -> Forall (fun c => 0 <= c < 128) out ->
  (forall t1, k (set_console s t1) = (t' ← write_string rest t1; r t')) ->
  (s' ← say format args (set_console s t); k s') = (t' ← write_string (out ++ rest) t; r t').
Proof.
  intros Hr Hout Hk. unfold say. cbn [console core set_console set_core].
  rewrite (print_format_terminal _ _ out), write_string_app, !bind_assoc by done.
  apply bind_cong. intros t1. rewrite bind_done. apply Hk.
Qed.

Lemma say_prints format args out s :
  render format args = Some out -> Forall (fun c => 0 <= c < 128) out -> prints (say format args) out s s.
Proof. intros Hr Hout t. unfold say. cbn [console core set_console set_core]. by rewrite (print_format_terminal _ _ out). Qed.

(** A literal line. *)
Lemma say_line {B} (text : string) rest s t (k : test_state H -> outcome B) (r : Terminal -> outcome B) :
  render (line text) [] = Some (line text) -> Forall (fun c => 0 <= c < 128) (line text) ->
  (forall t1, k (set_console s t1) = (t' ← write_string rest t1; r t')) ->
  (s' ← say (line text) [] (set_console s t); k s') = (t' ← write_string (line text ++ rest) t; r t').
Proof. apply say_then. Qed.
End Output.

(** ** The heap of the allocator test *)

(** Cutting a block off a heap of one free block, and putting it back. *)
Lemma heap_cut h b sz U r fuel :
  heap_ok h [(b, sz)] U -> 8 <= r -> r + 16 < sz -> (1 < fuel)%nat ->
  let p := b + 24 + sz - r in
  exists h', allocate fuel r h = Done (p, h') /\ heap_ok h' [(b, sz - (r + 16))] (<[p - 16 := r]> U) /\ U !! (p - 16) = None.
Proof.
  intros Hok Hr Hsz Hf p. destruct (allocate_done h [] b sz [] U r fuel) as (m' & Ha & Hok' & HU & _); try done; [lia|..].
  - by apply (first_fit_app r [] b sz []); [constructor|lia].
  - by exists (Heap m' (head h)).
Qed.

Lemma heap_uncut h b sz U r fuel :
  let p := b + 24 + sz - r in
  heap_ok h [(b, sz - (r + 16))] (<[p - 16 := r]> U) -> U !! (p - 16) = None -> 8 <= r -> r + 16 < sz ->
  1 <= b -> b + 24 + sz < 2 ^ 64 - 1 -> (1 < fuel)%nat ->
  exists h', deallocate fuel p h = Done h' /\ heap_ok h' [(b, sz)] U.
Proof.
  intros p Hok HU Hr Hsz Hb He Hf.
  destruct (deallocate_done _ _ _ (p - 16) r fuel Hok) as (h' & Hd & Hok' & _); [apply lookup_insert_eq|done|done|].
  exists h'. replace (p - 16 + 16) with p in Hd by lia. split; [exact Hd|]. rewrite delete_new in Hok' by done.
  pose proof (fl_insert_cut [] b sz [] r (2 ^ 64 - 1) ltac:(simpl; lia) Hr Hsz) as Hc. cbn [app] in Hc.
  unfold p in Hok'. by rewrite Hc in Hok'.
Qed.

(** The heap operations of the test on [sz] bytes from [b] on; [e] is where the
    block that they become ends. *)
Lemma allocator_test_heap m b sz fuel :
  0 < b -> 0x1000 <= sz -> b + 16 + sz < 2 ^ 64 - 1 -> (1 < fuel)%nat ->
  let e := b + 16 + sz in
  exists h0 h1 h2 h3 h4 h5 h6, add_memory fuel b sz (Heap m 0) = Done h0 /\
    allocate fuel 0x20 h0 = Done (e - 0x20, h1) /\ allocate fuel 0x30 h1 = Done (e - 0x60, h2) /\
    allocate fuel 0x50 h2 = Done (e - 0xC0, h3) /\ deallocate fuel (e - 0xC0) h3 = Done h4 /\
    deallocate fuel (e - 0x60) h4 = Done h5 /\ deallocate fuel (e - 0x20) h5 = Done h6 /\
    heap_ok h6 [(b, sz - 8)] ∅.
Proof.
  intros Hb Hsz Hmax Hf e.
  destruct (add_memory_done (Heap m 0) [] ∅ b sz fuel (empty_heap_ok m) Hb ltac:(lia) ltac:(lia)) as (h0 & Ha & H0 & _);
    [intros ? ? []%not_elem_of_nil|intros ? ? []%lookup_empty_Some|simpl; lia|].
  change (fl_insert (b, sz - 8) []) with [(b, sz - 8)] in H0.
  destruct (heap_cut h0 b (sz - 8) ∅ 0x20 fuel H0) as (h1 & A1 & H1 & U1); [lia..|done|].
  destruct (heap_cut h1 b _ _ 0x30 fuel H1) as (h2 & A2 & H2 & U2); [lia..|done|].
  destruct (heap_cut h2 b _ _ 0x50 fuel H2) as (h3 & A3 & H3 & U3); [lia..|done|].
  destruct (heap_uncut h3 b _ _ 0x50 fuel H3 U3) as (h4 & A4 & H4); [lia..|done|].
  destruct (heap_uncut h4 b _ _ 0x30 fuel H4 U2) as (h5 & A5 & H5); [lia..|done|].
  destruct (heap_uncut h5 b _ _ 0x20 fuel H5 U1) as (h6 & A6 & H6); [lia..|done|].
  exists h0, h1, h2, h3, h4, h5, h6. unfold e.
  split; [exact Ha|]. split; [rewrite A1; do 2 f_equal; lia|]. split; [rewrite A2; do 2 f_equal; lia|].
  split; [rewrite A3; do 2 f_equal; lia|]. split; [rewrite <-A4; f_equal; lia|].
  split; [rewrite <-A5; f_equal; lia|]. split; [rewrite <-A6; f_equal; lia|done].
Qed.

(** ** What the tests do *)
Section TestSpec.
Context {H : Type} `{Devices H} (limine : limine_features) (symbols : linker_symbols).
Context (Hhhdm : hhdm_ok limine) (Hhigh : higher_half limine) (root : Z).
(** The bytes that stay as in [m0], and where the storage of the free stack is. *)
Context (area : Z -> Prop) (m0 : mem) (sto : option (Z * Z)).
Implicit Types s : test_state H.
Abbreviation virt a := (kernel_physical_to_virtual limine a).

Definition constructor_log (test_value_ : Z) : list Z :=
  line "running global constructor test..." ++
  if was_constructed test_value_ then line "global constructor test: PASSED" else [].

Lemma test_global_constructor_prints s :
  prints test_global_constructor (constructor_log (global_constructor_test s)) s s.
Proof.
  intros t. unfold test_global_constructor, constructor_log.
  apply say_line; [reflexivity|literal|]. intros t1. cbn [global_constructor_test set_console set_core].
  destruct (was_constructed _); [|done]. apply say_prints; [reflexivity|literal].
Qed.

(** The frame of the paging test, between the two mappings. *)
Lemma test_paging_memory n d m :
  live limine root area m0 sto (1 + (tables_for 1 + (tables_for 1 + n))) d m -> 0 <= n ->
  exists f k v1 v2, allocate_frame limine (vm_mem (vm m)) = Done (f, k) /\
    (f ∈ free_frames limine (vm_mem (vm m))) /\
    paging_add_mapping limine write_vpage f 0x1000 PageFlags.Write (VM k (page_tree (vm m)) (ptbr (vm m))) = Done v1 /\
    paging_add_mapping limine read_vpage f 0x1000 PageFlags.Write v1 = Done v2 /\
    kernel_memory limine root (holding area f) (ram (vm_mem (vm m))) n v2 /\ (forall a, in_frame f a -> ~ area a) /\
    storage (vm_mem v2) = sto /\
    f mod pageSize = 0 /\ (f ∉ free_frames limine (vm_mem v2)) /\
    (forall va, vm_translate v2 va =
       if page_offset read_vpage va =? 0 then Some (f + va mod pageSize)
       else if page_offset write_vpage va =? 0 then Some (f + va mod pageSize) else translate m va).
Proof.
  intros Hm Hn. pose proof (tables_for_nonneg 1 ltac:(lia)).
  destruct (kernel_memory_take limine Hhhdm root area m0 (tables_for 1 + (tables_for 1 + n)) (vm m))
    as (f & k & Ha & Hk & Hin & Hram & Hfa & Hnot & Hsk); [apply Hm|lia|].
  destruct (frame_ok_aligned f) as [[Hf0 Hfm] Hf32]; [by eapply kernel_memory_frame, Hin; apply Hm|].
  destruct (kernel_memory_map limine Hhhdm root _ _ (tables_for 1 + n) _ write_vpage f PageFlags.Write Hk)
    as (v1 & Hv1 & Hk1 & Hsub1 & Hs1 & Ht1); try done; try (unfold write_vpage, pageSize; lia).
  destruct (kernel_memory_map limine Hhhdm root _ _ n v1 read_vpage f PageFlags.Write Hk1)
    as (v2 & Hv2 & Hk2 & Hsub2 & Hs2 & Ht2); try done; try (unfold read_vpage, pageSize; lia).
  exists f, k, v1, v2. split; [done|]. split; [done|]. split; [done|]. split; [done|]. split; [done|].
  split; [done|]. split; [rewrite Hs2, Hs1; cbn [vm_mem]; by rewrite Hsk, (lv_storage _ _ _ _ _ _ _ _ Hm)|].
  split; [done|]. split; [by intros Hf2%Hsub2%Hsub1|].
  intros va. rewrite Ht2. destruct (page_offset read_vpage va =? 0); [done|]. rewrite Ht1.
    destruct (page_offset write_vpage va =? 0); [done|]. unfold vm_translate, translate. cbn [vm_mem ptbr]. by rewrite Hram.
Qed.

(** The two pages of the paging test are no device registers. *)
Lemma paging_test_apart d off va :
  0 <= off < pageSize -> 0 <= va < 2 ^ 32 -> va mod pageSize = 0 ->
  page_offset va (virt (pc_lapic_base d) + off) <> 0.
Proof.
  intros Ho Hva Hm. destruct (lapic_page_address limine Hhhdm Hhigh d off Ho) as (Hv & Hal & _).
  destruct (lapic_base_range d) as [Hb _]. intros Hz%page_offset_self.
  apply (hhdm_apart limine (pc_lapic_base d) va Hhigh Hb ltac:(lia)), page_offset_self. rewrite <-Hv, <-Hz.
  apply page_offset_self, (page_start _ off Hal Ho).
Qed.

Lemma test_paging_prints n d s fuel :
  live limine root area m0 sto (1 + (tables_for 1 + (tables_for 1 + n))) d (mach (core s)) -> 0 <= n ->
  exists m' f, prints (test_paging limine fuel) (line "running paging test..." ++ line "paging test: PASSED") s (set_machine s m') /\
    live limine root area m0 sto n d m' /\ load32 (memory m') f = test_value /\
    (f ∈ free_frames limine (vm_mem (vm (mach (core s))))) /\ (f ∉ free_frames limine (vm_mem (vm m'))) /\
    (forall va, translate m' va =
       if page_offset read_vpage va =? 0 then Some (f + va mod pageSize)
       else if page_offset write_vpage va =? 0 then Some (f + va mod pageSize) else translate (mach (core s)) va).
Proof.
  intros Hm Hn. set (m := mach (core s)) in *.
  destruct (test_paging_memory n d m Hm Hn) as (f & k & v1 & v2 & Ha & Hin & Hv1 & Hv2 & Hk2 & Hfa & Hsv & Hfm & Hout & Ht).
  set (r := store32 (ram (vm_mem v2)) f test_value).
  set (v3 := VM (KMem r (free_stack (vm_mem v2))) (page_tree v2) (ptbr v2)).
  destruct (kernel_memory_write limine root _ _ n v2 f r Hk2 Hfa) as (Hk3 & Hf3 & Ht3).
  { eapply same_outside_weaken; [| |apply store_outside]; unfold frameSize; lia. }
  assert (Htr : forall va, page_offset read_vpage va = 0 \/ page_offset write_vpage va = 0 -> va mod pageSize = 0 ->
    translate (with_vm m v2) va = Some f /\ translate (with_vm m v3) va = Some f).
  { intros va Hva Hmod. change (translate (with_vm m v3) va) with (vm_translate v3 va).
    change (translate (with_vm m v2) va) with (vm_translate v2 va). fold v3 in Ht3. rewrite Ht3, Ht.
    rewrite Hmod, Z.add_0_r. destruct Hva as [-> | ->]; [done|]. by destruct (page_offset read_vpage va =? 0). }
  destruct (Htr write_vpage) as [Hw _]; [by right|done|]. destruct (Htr read_vpage) as [_ Hr]; [by left|done|].
  exists (with_vm m v3), f. split; [|split; [|split; [|split; [exact Hin|split; [by cbn [vm with_vm]; unfold v3; rewrite Hf3|]]]]].
  - intros t. unfold test_paging. apply say_line; [reflexivity|literal|]. intros t1. cbn [core set_console set_core mach].
    fold m. rewrite Ha, bind_done. cbv beta iota. rewrite Hv1, bind_done, Hv2, bind_done.
    rewrite (write32_mapped limine fuel write_vpage test_value _ f Hw), bind_done.
    change (with_ram (with_vm m v2) _) with (with_vm m v3).
    rewrite (read32_mapped limine fuel read_vpage _ f Hr), bind_done. cbv beta iota.
    change (memory (with_vm m v3)) with r. unfold r. rewrite load_store_eq.
    change (wrap (8 * Z.of_nat 4) test_value =? test_value) with true. cbv iota.
    apply (say_prints _ _ _ (set_machine s (with_vm m v3))); [reflexivity|literal].
  - eapply live_memory; [exact Hm| |exact Hsv|].
    + eapply kernel_memory_rebase; [|exact Hk3]. intros a. eapply kernel_memory_bytes. apply Hm.
    + intros off Ho. fold v3 in Ht3. rewrite Ht3, Ht.
      by rewrite !(proj2 (Z.eqb_neq _ _)) by (apply paging_test_apart; [exact Ho|unfold read_vpage, write_vpage; lia|done]).
  - change (memory (with_vm m v3)) with r. unfold r. by rewrite load_store_eq.
  - intros va. change (translate (with_vm m v3) va) with (vm_translate v3 va). fold v3 in Ht3. by rewrite Ht3, Ht.
Qed.

Lemma page_index_below e x :
  e mod pageSize = 0 -> 0 < x <= pageSize -> page_index (e - x) = page_index (e - pageSize).
Proof.
  intros He Hx. apply page_offset_self.
  destruct (page_start (e - pageSize) (pageSize - x)) as [Hz _]; [|unfold pageSize in *; lia|].
  - unfold pageSize in *. by rewrite Zminus_mod, He.
  - by replace (e - pageSize + (pageSize - x)) with (e - x) in Hz by lia.
Qed.

(** The region that the test donates again. *)
Record test_region d (r : MemoryRegion) : Prop := {
  tr_base : 0 < region_base r /\ region_base r mod pageSize = 0;
  tr_size : 0x1000 <= region_size r /\ region_size r mod pageSize = 0;
  tr_end : region_end r + 2 * pageSize <= 2 ^ 64;
  tr_apart : 2 <= page_offset (region_end r - pageSize) (virt (pc_lapic_base d))
}.

(** The header words that the test touches lie in the last page of the region. *)
Lemma test_headers e x :
  e mod pageSize = 0 -> 0x20 <= x <= 0xC0 ->
  Forall (fun va => page_index va = page_index (e - 0x20)) (header_bytes (e - x) UsedBlockHeader_size) /\
  Forall (fun va => page_index va = page_index (e - 0x20)) (header_bytes (e - x) FreeBlockHeader_size).
Proof.
  intros He Hx. assert (Hall : forall y, 0 < y <= 0xC0 -> page_index (e - y) = page_index (e - 0x20)).
  { intros y Hy. rewrite (page_index_below e y), (page_index_below e 0x20); unfold pageSize; lia || done. }
  split; apply Forall_forall; intros va Hva%elem_of_seqZ; unfold UsedBlockHeader_size, FreeBlockHeader_size in Hva;
    replace va with (e - (e - va)) by lia; apply Hall; lia.
Qed.

(** What the faults of the test leave: nothing happened, or the last page of the
    region and the page behind it have fresh frames. *)
Definition allocator_faults (r : MemoryRegion) (m m' : machine H) : Prop :=
  (translate m (region_end r - 0x20) <> None -> m' = m) /\
  (translate m (region_end r - 0x20) = None -> exists f f', f <> f' /\
     (f ∈ free_frames limine (vm_mem (vm m))) /\ (f' ∈ free_frames limine (vm_mem (vm m))) /\
     (forall va, translate m' va =
        if page_offset (region_end r - pageSize) va =? 0 then Some (f + va mod pageSize)
        else if page_offset (region_end r - pageSize) va =? 1 then Some (f' + va mod pageSize) else translate m va)).

Lemma allocator_touch n d m r fuel :
  live limine root area m0 sto (2 + tables_for 2 + n) d m -> 0 <= n -> test_region d r ->
  exists m', touch_all limine fuel (header_bytes (region_end r - 0x20) UsedBlockHeader_size) m = Done m' /\
    live limine root area m0 sto n d m' /\ translate m' (region_end r - 0x20) <> None /\ allocator_faults r m m'.
Proof.
  intros Hm Hn Hr. destruct Hr as [[Hb Hbm] [Hs Hsm] Hmax Hap].
  assert (He : region_end r mod pageSize = 0) by (unfold region_end, pageSize in *; by rewrite Zplus_mod, Hbm, Hsm).
  pose proof (test_headers _ 0x20 He ltac:(lia)) as [Hw _].
  destruct (two_pages (region_end r) 0x20 He) as (Hrg & Hfl & Hk);
    [unfold pageSize; lia|unfold region_end, pageSize in *; lia|unfold pageSize in *; lia|].
  assert (Heq : header_bytes (region_end r - 0x20) UsedBlockHeader_size =
    region_end r - 0x20 :: seqZ (Z.succ (region_end r - 0x20)) (Z.pred UsedBlockHeader_size)) by (by apply seqZ_cons).
  rewrite Heq in *. apply Forall_cons in Hw as [_ Hw].
  destruct (live_touch_page limine Hhhdm root Hhigh area m0 sto n d m (region_end r - 0x20)
    (seqZ (Z.succ (region_end r - 0x20)) (Z.pred UsedBlockHeader_size)) fuel)
    as (m' & Ht & Hm' & Hva & Hsame & Hnew); rewrite ?Hk, ?Hfl; try done.
  exists m'. split; [done|]. split; [done|]. split; [done|]. split; [done|].
  intros Hnone. destruct (Hnew Hnone) as (fs & Hlen & Hnd & Hfs & _ & Htr). rewrite Hk in Hlen.
  destruct fs as [|f [|f' [|? ?]]]; simpl in Hlen; try lia. exists f, f'.
  split. { intros ->. apply NoDup_cons in Hnd as [Hnd _]. apply Hnd. by left. }
  split; [apply Hfs; by left|]. split; [apply Hfs; right; by left|]. intros va. rewrite Htr, Hfl.
  pose proof (page_offset_range (region_end r - pageSize) va).
  destruct (Z.eqb_spec (page_offset (region_end r - pageSize) va) 0) as [->|]; [done|].
  destruct (Z.eqb_spec (page_offset (region_end r - pageSize) va) 1) as [->|]; [done|].
  by rewrite lookup_ge_None_2 by (simpl; lia).
Qed.

(** The operations of the test, once their faults are known; [e] is the end of
    the region, and the headers are [x] bytes in front of it. *)
Lemma add_memory_faulting_done (m m' : machine H) base size h h' fuel :
  touch_all limine fuel (header_bytes base FreeBlockHeader_size) m = Done m' -> add_memory fuel base size h = Done h' ->
  add_memory_faulting limine fuel base size h m = Done (h', m').
Proof. intros Ht Ha. unfold add_memory_faulting. by rewrite Ht, bind_done, Ha. Qed.

Lemma allocate_faulting_done (m m' : machine H) r h h' fuel x e :
  allocate fuel r h = Done (e + 16 - x, h') ->
  touch_all limine fuel (header_bytes (e - x) UsedBlockHeader_size) m = Done m' ->
  allocate_faulting limine fuel r h m = Done (e + 16 - x, (h', m')).
Proof.
  intros Ha Ht. unfold allocate_faulting. rewrite Ha, bind_done. cbv beta iota.
  replace (e + 16 - x - UsedBlockHeader_size) with (e - x) by (unfold UsedBlockHeader_size; lia). by rewrite Ht.
Qed.

Lemma test_deallocate_done (m m' : machine H) h h' fuel x e :
  deallocate fuel (e + 16 - x) h = Done h' ->
  touch_all limine fuel (header_bytes (e - x) FreeBlockHeader_size) m = Done m' ->
  deallocate_faulting limine fuel (e + 16 - x) (h, m) = Done (h', m').
Proof.
  intros Ha Ht. rewrite (deallocate_faulting_done _ _ _ _ _ _ Ha).
  replace (e + 16 - x - UsedBlockHeader_size) with (e - x) by (unfold UsedBlockHeader_size; lia). by rewrite Ht.
Qed.

Lemma heap_ok_head h b sz U : heap_ok h [(b, sz)] U -> head h = b.
Proof. intros [Hc _ _ _ _]. simpl in Hc. by destruct Hc as (? & _). Qed.

Lemma test_allocator_prints n d s r rest fuel :
  paging_get_initial_free_regions limine symbols = Done (r :: rest) -> test_region d r ->
  live limine root area m0 sto (2 + tables_for 2 + n) d (mach (core s)) -> 0 <= n ->
  translate (mach (core s)) (region_base r) <> None -> (1 < fuel)%nat ->
  exists m' h', prints (test_allocator limine symbols fuel) (line "running allocator test..." ++ line "allocator test: PASSED")
      s (Testing (global_constructor_test s) (Heap h' (head (kernel_heap s))) (with_mach (core s) m')) /\
    live limine root area m0 sto n d m' /\ heap_ok (Heap h' (region_base r)) [region_block r] ∅ /\
    allocator_faults r (mach (core s)) m'.
Proof.
  intros Hregs Hr Hm Hn Hbase Hf. set (m := mach (core s)) in *.
  destruct (allocator_touch n d m r fuel Hm Hn Hr) as (m' & Ht1 & Hm' & Hend & Hfaults).
  destruct Hr as [[Hb Hbm] [Hs Hsm] Hmax _].
  assert (He : region_end r mod pageSize = 0) by (unfold region_end, pageSize in *; by rewrite Zplus_mod, Hbm, Hsm).
  destruct (allocator_test_heap (hmem (kernel_heap s)) (region_base r) (region_size r) fuel Hb Hs)
    as (h0 & h1 & h2 & h3 & h4 & h5 & h6 & A0 & A1 & A2 & A3 & A4 & A5 & A6 & Hok);
    [unfold region_end, pageSize in *; lia|done|].
  set (e := region_end r) in *. replace (region_base r + 16 + region_size r) with (e + 16) in * by (unfold e, region_end; lia).
  assert (Ht0 : touch_all limine fuel (header_bytes (region_base r) FreeBlockHeader_size) m = Done m).
  { apply touch_all_mapped. assert (Hp : forall i, 0 <= i < pageSize -> translate m (region_base r + i) <> None).
    { intros i Hi. apply (live_same_page limine root area m0 sto _ d m (region_base r) _ Hm); [|exact Hbase].
      by apply page_offset_self, page_start. }
    apply Forall_forall. intros va Hva%elem_of_seqZ. replace va with (region_base r + (va - region_base r)) by lia.
    apply Hp. unfold FreeBlockHeader_size, pageSize in *. lia. }
  assert (Ht : forall x, 0x20 <= x <= 0xC0 -> touch_all limine fuel (header_bytes (e - x) UsedBlockHeader_size) m' = Done m' /\
    touch_all limine fuel (header_bytes (e - x) FreeBlockHeader_size) m' = Done m').
  { intros x Hx. destruct (test_headers e x He Hx) as [Hu Hfr].
    split; apply touch_all_mapped; eapply Forall_impl; try exact Hu; try exact Hfr;
      intros va Hva; exact (live_same_page limine root area m0 sto n d m' _ va Hm' Hva Hend). }
  exists m', (hmem h6). split; [|split; [exact Hm'|split; [|exact Hfaults]]].
  - intros t. unfold test_allocator. apply say_line; [reflexivity|literal|]. intros t1.
    rewrite Hregs, bind_done. change (array_get (r :: rest) 0) with (Done r). rewrite bind_done.
    rewrite max_less, Z.max_l by exact Hs. cbn [core set_console set_core mach kernel_heap]. fold m.
    rewrite (add_memory_faulting_done _ _ _ _ _ _ _ Ht0 A0), bind_done. cbn [fst snd].
    rewrite (allocate_faulting_done _ _ _ _ _ _ 0x20 e A1 Ht1), bind_done. cbv beta iota. cbn [fst snd].
    rewrite (allocate_faulting_done _ _ _ _ _ _ 0x60 e A2 (proj1 (Ht 0x60 ltac:(lia)))), bind_done. cbv beta iota. cbn [fst snd].
    rewrite (allocate_faulting_done _ _ _ _ _ _ 0xC0 e A3 (proj1 (Ht 0xC0 ltac:(lia)))), bind_done. cbv beta iota.
    rewrite (test_deallocate_done _ _ _ _ _ 0xC0 e A4 (proj2 (Ht 0xC0 ltac:(lia)))), bind_done.
    rewrite (test_deallocate_done _ _ _ _ _ 0x60 e A5 (proj2 (Ht 0x60 ltac:(lia)))), bind_done.
    rewrite (test_deallocate_done _ _ _ _ _ 0x20 e A6 (proj2 (Ht 0x20 ltac:(lia)))), bind_done. cbv beta iota.
    apply (say_prints _ _ _ (Testing (global_constructor_test s) (Heap (hmem h6) (head (kernel_heap s))) (with_mach (core s) m')));
      [reflexivity|literal].
  - pose proof (heap_ok_head _ _ _ _ Hok) as Hh. destruct h6 as [hm6 hd6]. simpl in Hh. by subst hd6.
Qed.

(** *** Interrupts *)
Definition ipi_sent (d : pc) : pc :=
  let l := pc_lapic d in
  PC (pc_edx d) (pc_pic1 d) (pc_pic2 d) (pc_kbc d) (pc_apic_msr d)
    (Lapic (la_svr l) (la_tpr l) 0 (la_in_service l) ((0, 0x40ff) :: la_sent l)) (pc_ioapics d) (pc_if d).

Lemma test_interprocessor_interrupts_prints n d s :
  live limine root area m0 sto n d (mach (core s)) -> has EDX_APIC (hw (mach (core s))) = true -> has EDX_MSR (hw (mach (core s))) = true ->
  exists m', prints (test_interprocessor_interrupts limine) (line "running interprocessor interrupt test...") s (set_machine s m') /\
    live limine root area m0 sto n (ipi_sent d) m' /\ vm m' = vm (mach (core s)).
Proof.
  intros Hm Ha Hmsr. set (m := mach (core s)) in *. pose proof Hm as [Hmem Hsto Hd Hb Hl Hap Hi].
  destruct (sendInterprocessorInterrupt_correct limine m 0 0xff) as [Hs _]; try done; try lia; rewrite ?Hd; try done.
  { intros off Ho. destruct (lapic_page_address limine Hhhdm Hhigh d off Ho) as (_ & _ & ->). by apply Hl. }
  destruct (Hs Ha) as (m' & Hsend & Hvm & Hd'). rewrite Hd in Hd'.
  assert (Hb' : baseAddress m' = baseAddress m).
  { unfold sendInterprocessorInterrupt in Hsend. revert Hsend. destruct (localAPICBaseAddress (hw m)); try done.
    rewrite bind_done. unfold device_store. destruct (translate m _); [|done]. rewrite bind_done.
    destruct (translate (with_hw m _) _); [|done]. by intros [= <-]. }
  exists m'. split; [|split; [|exact Hvm]].
  - intros t. unfold test_interprocessor_interrupts. 
    replace (write_string (line _)) with (write_string (line "running interprocessor interrupt test..." ++ [])) by (by rewrite app_nil_r).
    apply say_line; [reflexivity|literal|].
    intros t1. cbn [core set_console set_core mach]. fold m. by rewrite Hsend.
  - split; rewrite ?Hb', ?Hvm; try done. intros off Ho. unfold translate. rewrite Hvm. by apply Hl.
Qed.

Context (ipi : H -> H).

(** The devices when the interrupt was accepted. *)
Definition ipi_arrived (d : pc) : pc :=
  let l := pc_lapic d in
  PC (pc_edx d) (pc_pic1 d) (pc_pic2 d) (pc_kbc d) (pc_apic_msr d)
    (Lapic (la_svr l) (la_tpr l) (la_icr_high l) (0xff :: la_in_service l) (la_sent l)) (pc_ioapics d) (pc_if d).

Lemma printf_ipi_message {B} t (k : Terminal -> outcome B) :
  (r ← printf ipi_message [] t; k (snd (r : Z * Terminal))) = (t' ← write_string ipi_message t; k t').
Proof.
  pose proof (print_format_terminal ipi_message [] ipi_message t ltac:(reflexivity) ltac:(literal)) as Hp.
  rewrite <-Hp. unfold print_format. by destruct (printf ipi_message [] t).
Qed.

Lemma ipi_interrupt_prints n d s :
  (forall h, devices (ipi h) = ipi_arrived (devices h)) -> live limine root area m0 sto n d (mach (core s)) ->
  exists m', prints (ipi_interrupt limine ipi) ipi_message s (set_machine s m') /\
    live limine root area m0 sto n d m' /\ vm m' = vm (mach (core s)).
Proof.
  intros Hipi Hm. pose proof (live_eoi limine Hhhdm root Hhigh area m0 sto n d _ Hm) as Heoi. pose proof Hm as [Hmem Hsto Hd Hb Hl Hap Hi].
  set (m := mach (core s)) in *. set (m1 := with_hw m (ipi (hw m))).
  assert (Heoi1 : eoi_ready m1).
  { unfold eoi_ready in *. unfold m1. cbn [hw with_hw]. rewrite Hipi. exact Heoi. }
  destruct (lapic_store m1 LAPIC_EOI_REGISTER 0 (proj1 Heoi1) ltac:(done) (proj2 Heoi1)) as (m' & Hs & Hvm & Hb' & Hd').
  assert (Hdm : devices (hw m') = d).
  { rewrite Hd'. unfold m1. cbn [hw with_hw]. rewrite Hipi, Hd. cbn. destruct d as [? ? ? ? ? [? ? ? ? ?] ? ?]. done. }
  exists m'. split; [|split; [|exact Hvm]].
  - intros t. unfold ipi_interrupt. cbn [core set_console set_core mach]. fold m. fold m1.
    unfold run_isr. cbn [isr_panic_message]. unfold handle_ipi. cbn [console with_mach].
    rewrite (printf_ipi_message t (fun t1 => end_of_interrupt (Kernel m1 (Idt.keyboardBuffer (core s)) (extended (core s)) t1))).
    rewrite bind_assoc. apply bind_cong. intros t1. unfold end_of_interrupt, sendEndOfInterrupt. cbn [mach with_mach]. by rewrite Hs.
  - split; rewrite ?Hb', ?Hvm; try done. intros off Ho. unfold translate. rewrite Hvm. by apply Hl.
Qed.

(** *** The keyboard controller *)
Definition flag_chars (flag : bool) (yes no : string) : list Z := codes (if flag then yes else no).

(** What the test prints for the byte [cmd] that it reads as the command byte. *)
Definition keyboard_log (slot : Z -> Z) (cmd : Z) : list Z :=
  let irq1 := Z.testbit cmd 0 in
  let clock := negb (Z.testbit cmd 4) in
  line "running keyboard controller test..." ++
  (codes "Command Byte: 0x" ++ hexadecimal (u64 (slot cmd)) ++ [10]) ++
  (codes "  IRQ1 (keyboard):       " ++ flag_chars irq1 "enabled" "disabled" ++ codes " (" ++
     flag_chars irq1 "OK" "EXPECTED ENABLED" ++ line ")") ++
  (codes "  IRQ12 (mouse):         " ++ flag_chars (Z.testbit cmd 1) "enabled" "disabled" ++ [10]) ++
  (codes "  Keyboard clock:        " ++ flag_chars clock "enabled" "disabled" ++ codes " (" ++
     flag_chars clock "OK" "EXPECTED ENABLED" ++ line ")") ++
  (codes "  Scancode translation:  " ++ flag_chars (Z.testbit cmd 6) "enabled" "disabled" ++ [10]) ++
  line (if irq1 && clock then "keyboard controller test: PASSED" else "keyboard controller test: FAILED") ++
  (codes "TPR: 0x" ++ hexadecimal (u64 (slot 0)) ++ line " (OK)") ++
  line "IF enabled: yes (OK)" ++
  (codes "SVR: 0x" ++ hexadecimal (u64 (slot 0x1ff)) ++ [10]) ++
  line "  APIC enabled bit: yes (OK)".

Lemma test_bit cmd i : 0 <= i -> negb (Z.land cmd (Z.shiftl 1 i) =? 0) = Z.testbit cmd i.
Proof.
  intros Hi. rewrite Z.shiftl_1_l. destruct (Z.testbit cmd i) eqn:Hb.
  - destruct (Z.eqb_spec (Z.land cmd (2 ^ i)) 0) as [Hz|]; [|done]. apply (f_equal (fun z => Z.testbit z i)) in Hz.
    rewrite Z.land_spec, Hb, Z.pow2_bits_true, Z.bits_0 in Hz by done. done.
  - destruct (Z.eqb_spec (Z.land cmd (2 ^ i)) 0) as [|Hne]; [done|]. exfalso. apply Hne, Z.bits_inj'. intros j Hj.
    rewrite Z.land_spec, Z.bits_0, Z.pow2_bits_eqb by done. destruct (Z.eqb_spec i j) as [->|]; [by rewrite Hb|apply andb_false_r].
Qed.

Lemma hexadecimal_ascii n : Forall (fun c => 0 <= c < 128) (hexadecimal n).
Proof.
  unfold hexadecimal. destruct (n =? 0); [repeat constructor; unfold chr_0; lia|].
  apply digits_Forall; [lia|]. intros x Hx. assert (Hall : Forall (fun x => 0 <= hex_digit x < 128) (seqZ 0 16)) by literal.
  by apply (proj1 (Forall_forall _ _) Hall), elem_of_seqZ.
Qed.

(** The devices after the test: the command was given, and whatever was in the
    output buffer taken. *)
Definition keyboard_tested (d : pc) : pc := set_kbc d (kbc_take (kbc_command 0x20 (pc_kbc d))).

Lemma flag_chars_ascii flag yes no :
  Forall (fun c => 0 <= c < 128) (codes yes) -> Forall (fun c => 0 <= c < 128) (codes no) ->
  Forall (fun c => 0 <= c < 128) (flag_chars flag yes no).
Proof. by destruct flag. Qed.

(** A row of the report. *)
Ltac row := apply say_then;
  [unfold flag_text, flag_chars; repeat match goal with |- context [Z.testbit ?x ?i] => destruct (Z.testbit x i) end; reflexivity
  |repeat (apply Forall_app; split); first [apply hexadecimal_ascii | apply flag_chars_ascii; literal | literal]
  |intros ?].

Lemma say_verdict (ok : bool) (yes no : string) s :
  (if ok then say (line yes) [] s else say (line no) [] s) = say (line (if ok then yes else no)) [] s.
Proof. by destruct ok. Qed.

Lemma keyboard_report slot cmd s h m1 m2 :
  lapic_read 0x80 (with_hw (mach (core s)) h) = Done (0, m1) -> lapic_read 0xF0 m1 = Done (0x1ff, m2) ->
  inb 0x60 (ioWait (outb 0x64 0x20 (hw (mach (core s))))) = (cmd, h) -> interrupt_flag (hw m1) = true ->
  prints (test_keyboard slot) (keyboard_log slot cmd) s (set_machine s m2).
Proof.
  intros Hr1 Hr2 Hin Hif t. unfold test_keyboard, keyboard_log. apply say_line; [reflexivity|literal|]. intros t1.
  cbn [core set_console set_core mach]. rewrite Hin. cbv beta iota zeta.
  rewrite <-(negb_involutive (Z.land cmd (Z.shiftl 1 4) =? 0)), !test_bit by lia.
  change (set_machine (set_console s t1) (with_hw (mach (core s)) h))
    with (set_console (set_machine s (with_hw (mach (core s)) h)) t1).
  row. row. row. row. row.
  set (ok := Z.testbit cmd 0 && negb (Z.testbit cmd 4)).
  rewrite (say_verdict ok "keyboard controller test: PASSED" "keyboard controller test: FAILED").
  apply say_line; [by destruct ok|destruct ok; literal|]. intros t6.
  cbn [mach core set_console set_core set_machine with_mach]. rewrite Hr1, bind_done. cbv beta iota zeta.
  change (set_machine (set_console _ t6) m1) with (set_console (set_machine s m1) t6). row.
  cbn [mach core set_console set_core set_machine with_mach]. rewrite Hif.
  row. cbn [mach core set_console set_core set_machine with_mach]. rewrite Hr2, bind_done. cbv beta iota zeta.
  change (set_machine (set_console _ t8) m2) with (set_console (set_machine s m2) t8). row.
  apply say_prints; [reflexivity|literal].
Qed.

Lemma test_keyboard_prints slot n d s :
  live limine root area m0 sto n d (mach (core s)) -> la_tpr (pc_lapic d) = 0 -> la_svr (pc_lapic d) = 0x1ff -> pc_if d = true ->
  exists m' cmd, prints (test_keyboard slot) (keyboard_log slot cmd) s (set_machine s m') /\ 0 <= cmd < 256 /\
    live limine root area m0 sto n (keyboard_tested d) m' /\ vm m' = vm (mach (core s)) /\
    (forall b, kb_output (kbc_command 0x20 (pc_kbc d)) = Some b -> cmd = u8 b).
Proof.
  intros Hm Htpr Hsvr Hif. set (m := mach (core s)) in *.
  set (h0 := ioWait (outb 0x64 0x20 (hw m))).
  assert (Hd0 : devices h0 = set_kbc d (kbc_command 0x20 (pc_kbc d))).
  { unfold h0. change (ioWait _) with (outb_wait 0x64 0x20 (hw m)).
    rewrite outb_wait_devices by done. by rewrite (lv_devices _ _ _ _ _ _ _ _ Hm). }
  destruct (inb_any 0x60 h0) as (cmd & h & Hin & Hcmd & Hh & Hread); [done|]. rewrite Hd0 in Hh, Hread.
  assert (Hh' : devices h = keyboard_tested d) by (rewrite Hh; done).
  assert (Hm1 : live limine root area m0 sto n (keyboard_tested d) (with_hw m h)).
  { apply (live_devices limine root area m0 sto n d _ m h Hm Hh'); [done|apply (lv_apart _ _ _ _ _ _ _ _ Hm)|apply (lv_idle _ _ _ _ _ _ _ _ Hm)]. }
  destruct (live_lapic_read limine Hhhdm root Hhigh area m0 sto n _ _ 0x80 0 Hm1) as (m1 & Hr1 & Hm1' & Hv1);
    [done|by rewrite <-Htpr|].
  destruct (live_lapic_read limine Hhhdm root Hhigh area m0 sto n _ m1 0xF0 0x1ff Hm1') as (m2 & Hr2 & Hm2 & Hv2);
    [done|by rewrite <-Hsvr|].
  exists m2, cmd. split; [|split; [done|split; [done|split; [by rewrite Hv2, Hv1|]]]].
  - apply (keyboard_report slot cmd s h m1 m2 Hr1 Hr2 Hin). rewrite devices_if, (lv_devices _ _ _ _ _ _ _ _ Hm1'). exact Hif.
  - intros b Hb. by apply Hread.
Qed.

(** *** All tests *)
Definition test_log (slot : Z -> Z) (test_value_ cmd : Z) : list Z :=
  ([10] ++ line "=========================") ++ (line "RUNNING TEST SUITE..." ++ [10]) ++
  constructor_log test_value_ ++ (line "running paging test..." ++ line "paging test: PASSED") ++
  (line "running allocator test..." ++ line "allocator test: PASSED") ++
  line "running interprocessor interrupt test..." ++ ipi_message ++ keyboard_log slot cmd ++
  ([10] ++ line "PASSED ALL TESTS") ++ line "=========================" ++ [10].

(** The frames the tests need. *)
Definition test_frames : Z := 1 + (tables_for 1 + (tables_for 1 + (2 + tables_for 2))).

(** The devices after the tests. *)
Definition devices_tested (d : pc) : pc := keyboard_tested (ipi_sent d).

(** The local APIC as [enableAPIC] set it up. *)
Record apic_on (d : pc) : Prop := {
  ao_edx : negb (Z.land (pc_edx d) EDX_APIC =? 0) && negb (Z.land (pc_edx d) EDX_MSR =? 0) = true;
  ao_tpr : la_tpr (pc_lapic d) = 0;
  ao_svr : la_svr (pc_lapic d) = 0x1ff;
  ao_if : pc_if d = true
}.

(** The pages that the tests map anew: the two of the paging test, the last page of
    the region and the one behind it. *)
Definition tested_page (r : MemoryRegion) (va : Z) : Prop :=
  page_offset read_vpage va = 0 \/ page_offset write_vpage va = 0 \/
  page_offset (region_end r - pageSize) va = 0 \/ page_offset (region_end r - pageSize) va = 1.

Lemma run_all_tests_prints slot n d s r rest l fuel :
  (forall h, devices (ipi h) = ipi_arrived (devices h)) ->
  live limine root area m0 sto (test_frames + n) d (mach (core s)) -> 0 <= n -> apic_on d ->
  paging_get_initial_free_regions limine symbols = Done (r :: rest) -> test_region d r ->
  heap_ok (kernel_heap s) (region_block r :: l) ∅ -> translate (mach (core s)) (region_base r) <> None -> (1 < fuel)%nat ->
  exists s' cmd, prints (run_all_tests limine symbols slot ipi fuel) (test_log slot (global_constructor_test s) cmd) s s' /\
    0 <= cmd < 256 /\ live limine root area m0 sto n (devices_tested d) (mach (core s')) /\ heap_ok (kernel_heap s') [region_block r] ∅ /\
    Idt.keyboardBuffer (core s') = Idt.keyboardBuffer (core s) /\ extended (core s') = extended (core s) /\
    (forall va, ~ tested_page r va -> translate (mach (core s')) va = translate (mach (core s)) va).
Proof.
  intros Hipi Hm Hn [Hedx Htpr Hsvr Hif] Hregs Hr Hheap Hbase Hf. unfold test_frames in Hm.
  assert (Hhead : head (kernel_heap s) = region_base r).
  { destruct Hheap as [Hc _ _ _ _]. simpl in Hc. by destruct Hc. }
  apply andb_prop in Hedx as [Hapic Hmsr].
  pose proof (tables_for_nonneg 2 ltac:(lia)).
  rewrite <-!Z.add_assoc in Hm. rewrite (Z.add_assoc 2) in Hm.
  destruct (test_paging_prints _ d s fuel Hm ltac:(lia)) as (m1 & f & Hp1 & Hm1 & _ & _ & _ & Htr1).
  set (s1 := set_machine s m1) in *.
  destruct (test_allocator_prints n d s1 r rest fuel Hregs Hr Hm1 Hn) as (m2 & h2 & Hp2 & Hm2 & Hheap2 & Hsame & Hfault); [|done|].
  { change (mach (core s1)) with m1. rewrite Htr1. by repeat case_match. }
  set (s2 := Testing _ _ (with_mach _ m2)) in Hp2.
  assert (Hhas : forall feature, negb (Z.land (pc_edx d) feature =? 0) = true -> has feature (hw (mach (core s2))) = true).
  { intros feature Hfe. unfold has. change (mach (core s2)) with m2. by rewrite (lv_devices _ _ _ _ _ _ _ _ Hm2). }
  destruct (test_interprocessor_interrupts_prints n d s2 Hm2) as (m3 & Hp3 & Hm3 & Hv3); [by apply Hhas..|].
  set (s3 := set_machine s2 m3) in *.
  destruct (ipi_interrupt_prints n _ s3 Hipi Hm3) as (m4 & Hp4 & Hm4 & Hv4). set (s4 := set_machine s3 m4) in *.
  destruct (test_keyboard_prints slot n _ s4 Hm4) as (m5 & cmd & Hp5 & Hcmd & Hm5 & Hv5 & _); [done..|].
  exists (set_machine s4 m5), cmd. split; [|split; [done|split; [exact Hm5|split; [|split; [done|split; [done|]]]]]].
  - unfold run_all_tests, test_log.
    apply (prints_seq _ _ _ _ s s); [apply say_prints; [reflexivity|literal]|].
    apply (prints_seq _ _ _ _ s s); [apply say_prints; [reflexivity|literal]|].
    apply (prints_seq _ _ _ _ s s); [apply test_global_constructor_prints|].
    apply (prints_seq _ _ _ _ s s1); [exact Hp1|]. apply (prints_seq _ _ _ _ s1 s2); [exact Hp2|].
    apply (prints_seq _ _ _ _ s2 s3); [exact Hp3|]. apply (prints_seq _ _ _ _ s3 s4); [exact Hp4|].
    apply (prints_seq _ _ _ _ s4 (set_machine s4 m5)); [exact Hp5|].
    apply (prints_seq _ _ _ _ (set_machine s4 m5) (set_machine s4 m5)); apply say_prints; [reflexivity|literal|reflexivity|literal].
  - change (kernel_heap (set_machine s4 m5)) with (Heap h2 (head (kernel_heap s))). by rewrite Hhead.
  - intros va Hva. unfold tested_page in Hva.
    assert (Hvm : vm m5 = vm m2) by (rewrite Hv5; change (mach (core s4)) with m4; rewrite Hv4; exact Hv3).
    transitivity (translate m2 va); [unfold translate; cbn [mach core set_machine set_core with_mach]; by rewrite Hvm|].
    transitivity (translate m1 va).
    + change (mach (core s1)) with m1 in Hsame, Hfault. destruct (translate m1 (region_end r - 0x20)) eqn:He; [by rewrite Hsame|].
      destruct (Hfault eq_refl) as (f1 & f2 & _ & _ & _ & Ht). rewrite Ht.
      by rewrite !(proj2 (Z.eqb_neq _ _)) by tauto.
    + rewrite Htr1. by rewrite !(proj2 (Z.eqb_neq _ _)) by tauto.
Qed.
End TestSpec.

(** C18. The paging test passes on a running kernel with enough free frames: the
    value stored through one virtual page is loaded through the other, because
    both translate to the same fresh frame.  What it leaves behind: the frame is
    never given back, and the two pages, which lie in the identity map, no longer
    map the physical pages at their own addresses; nothing else changes. *)
Theorem paging_test_correct {H} `{Devices H} limine root area m0 sto n d (s : test_state H) fuel :
  hhdm_ok limine -> higher_half limine -> 0 <= n ->
  live limine root area m0 sto (1 + (tables_for 1 + (tables_for 1 + n))) d (mach (core s)) ->
  exists m' f,
    (forall t, test_paging limine fuel (set_console s t) =
       (t ← write_string (line "running paging test..." ++ line "paging test: PASSED") t;
        Done (set_console (set_machine s m') t))) /\
    live limine root area m0 sto n d m' /\
    (f ∈ free_frames limine (vm_mem (vm (mach (core s))))) /\ (f ∉ free_frames limine (vm_mem (vm m'))) /\
    load32 (memory m') f = test_value /\
    (forall off, 0 <= off < pageSize ->
       translate m' (write_vpage + off) = Some (f + off) /\ translate m' (read_vpage + off) = Some (f + off)) /\
    (forall va, page_index va <> page_index write_vpage -> page_index va <> page_index read_vpage ->
       translate m' va = translate (mach (core s)) va).
Proof.
  intros Hh Hhigh Hn Hm.
  destruct (test_paging_prints limine Hh Hhigh root area m0 sto n d s fuel Hm Hn) as (m' & f & Hp & Hm' & Hv & Hin & Hout & Ht).
  exists m', f. split; [exact Hp|]. split; [done|]. split; [done|]. split; [done|]. split; [done|]. split.
  - intros off Ho. destruct (page_start write_vpage off) as [Hw Hwm]; [done|done|].
    destruct (page_start read_vpage off) as [Hr Hrm]; [done|done|].
    rewrite !Ht, Hw, Hr, Hwm, Hrm. split; [by case_match|done].
  - intros va Hw Hr. rewrite Ht, !(proj2 (Z.eqb_neq _ _)); [done|by rewrite page_offset_self..].
Qed.

(** C17. The allocator test works on the kernel's own heap: it donates the first
    free region a second time, to an allocator of its own, and the header it
    writes ends the list there.  The test passes, but afterwards the kernel's heap
    consists of the first region only: a request that does not fit there panics,
    however many other regions the heap had.  And when the first region reaches up
    to the end of the lower half of the address space, the page fault on its last
    page also maps the page behind it, whose table indices are those of the first
    page of the direct map: that page is mapped to another frame from then on. *)
Theorem allocator_test_forgets_heap {H} `{Devices H} limine symbols root area m0 sto n d (s : test_state H) r rest l fuel :
  hhdm_ok limine -> higher_half limine -> 0 <= n ->
  paging_get_initial_free_regions limine symbols = Done (r :: rest) -> test_region limine d r ->
  live limine root area m0 sto (2 + tables_for 2 + n) d (mach (core s)) ->
  heap_ok (kernel_heap s) (region_block r :: l) ∅ -> translate (mach (core s)) (region_base r) <> None -> (1 < fuel)%nat ->
  exists s',
    (forall t, test_allocator limine symbols fuel (set_console s t) =
       (t ← write_string (line "running allocator test..." ++ line "allocator test: PASSED") t; Done (set_console s' t))) /\
    live limine root area m0 sto n d (mach (core s')) /\ heap_ok (kernel_heap s') [region_block r] ∅ /\
    (forall request, 0 <= request -> request + 16 < 2 ^ 64 -> region_size r < request + 24 ->
       allocate fuel request (kernel_heap s') = Panic "ran out of virtual memory!") /\
    (region_end r = 2 ^ 47 -> hhdm_offset limine = 0xffff800000000000 ->
     translate (mach (core s)) (region_end r - 0x20) = None ->
     exists f, (f ∈ free_frames limine (vm_mem (vm (mach (core s))))) /\
       forall off, 0 <= off < pageSize -> translate (mach (core s')) (kernel_physical_to_virtual limine 0 + off) = Some (f + off)).
Proof.
  intros Hh Hhigh Hn Hregs Hr Hm Hheap Hbase Hf.
  destruct (test_allocator_prints limine symbols Hh Hhigh root area m0 sto n d s r rest fuel Hregs Hr Hm Hn Hbase Hf)
    as (m' & h' & Hp & Hm' & Hheap' & _ & Hfault).
  assert (Hhead : head (kernel_heap s) = region_base r).
  { destruct Hheap as [Hc _ _ _ _]. simpl in Hc. by destruct Hc. }
  eexists. split; [exact Hp|]. split; [exact Hm'|]. cbn [kernel_heap mach core with_mach]. rewrite Hhead.
  split; [exact Hheap'|]. split.
  - intros request Hq Hq' Hs. apply (allocate_panics _ _ _ _ _ Hheap'); [done|done|done|].
    unfold region_block. cbn [first_fit snd].
    by assert ((request + 16 <=? region_size r - 8) = false) as -> by (apply Z.leb_gt; lia).
  - intros He Hoff Hnone. destruct (Hfault Hnone) as (f & f' & _ & _ & Hin & Ht). exists f'. split; [exact Hin|].
    intros off Ho. unfold kernel_physical_to_virtual. rewrite Hoff. change (u64 _) with (0xffff800000000000 + 0).
    destruct (page_start 0xffff800000000000 off) as [Hz Hmod]; [done|done|]. rewrite Z.add_0_r, Ht, He, Hmod.
    assert (Hpo : page_offset (2 ^ 47 - pageSize) (0xffff800000000000 + off) = 1).
    { unfold page_offset. apply page_offset_self in Hz. by rewrite Hz. }
    by rewrite Hpo.
Qed.

(** ** The concrete running kernel of Vmm, with a screen. *)
Definition demo_core : kernel_state pc Terminal :=
  Kernel demo_running Containers.KeyboardBuffer_new false (demo_screen 640 480).

Lemma paging_test_correct_witness :
  exists m' f,
    (forall t, test_paging large_limine 5 (set_console (Testing 0 (Heap ∅ 0) demo_core) t) =
       (t ← write_string (line "running paging test..." ++ line "paging test: PASSED") t;
        Done (set_console (set_machine (Testing 0 (Heap ∅ 0) demo_core) m') t))) /\
    translate m' 0x80002004 = Some (f + 4) /\ translate m' 0x80000004 = Some (f + 4).
Proof.
  destruct (paging_test_correct large_limine large_root (fun _ => False) ∅ (storage (vm_mem large_vm)) 10 demo_devices (Testing 0 (Heap ∅ 0) demo_core) 5)
    as (m' & f & Hp & _ & _ & _ & _ & Ht & _).
  - exact large_hhdm_ok.
  - exact large_higher_half.
  - lia.
  - eapply live_weaken; [|apply demo_running_live]. vm_compute. congruence.
  - exists m', f. split; [exact Hp|]. apply (Ht 4). unfold pageSize. lia.
Defined.

(** Two regions of 128 TiB: after the test a request of the size of one of them
    panics, and address 0 of the direct map shows another frame. *)
Definition demo_region2 : MemoryRegion := MkRegion 0xffff800100000000 0x7ffe80000000.

Lemma allocator_test_forgets_heap_witness :
  exists h s' f, heap_ok h [region_block demo_region; region_block demo_region2] ∅ /\
    (forall t, test_allocator large_limine boot_symbols 20 (set_console (Testing 0 h demo_core) t) =
       (t ← write_string (line "running allocator test..." ++ line "allocator test: PASSED") t; Done (set_console s' t))) /\
    heap_ok (kernel_heap s') [region_block demo_region] ∅ /\
    allocate 20 0x7ffefffff000 (kernel_heap s') = Panic "ran out of virtual memory!" /\
    translate (mach (core s')) (kernel_physical_to_virtual large_limine 0) = Some f.
Proof.
  destruct (vmm_init_done large_limine boot_symbols (Vmm (Heap ∅ 0) large_vm) 20 [demo_region; demo_region2] 14)
    as (h & _ & Hok); [vm_compute; reflexivity|vm_compute; intuition congruence|reflexivity|simpl; lia|].
  destruct (allocator_test_forgets_heap large_limine boot_symbols large_root (fun _ => False) ∅ (storage (vm_mem large_vm)) 10 demo_devices (Testing 0 h demo_core)
    demo_region (demo_region2 :: replicate 14 (MkRegion 0 0)) [region_block demo_region2] 20)
    as (s' & Hp & _ & Hh & Hal & Hf).
  - exact large_hhdm_ok.
  - exact large_higher_half.
  - lia.
  - vm_compute. reflexivity.
  - split; vm_compute; intuition congruence.
  - eapply live_weaken; [|apply demo_running_live]. vm_compute. congruence.
  - exact Hok.
  - apply demo_running_live.
  - lia.
  - destruct Hf as (f & _ & Hf); [reflexivity|reflexivity|apply demo_running_live|].
    exists h, s', f. split; [exact Hok|]. split; [exact Hp|]. split; [exact Hh|]. split.
    + apply Hal; vm_compute; intuition congruence.
    + specialize (Hf 0 ltac:(unfold pageSize; lia)). by rewrite !Z.add_0_r in Hf.
Defined.
