(* ===== verification/Session.v ===== *)
(** * Session: the loop of kernel_main with the keyboard behind it (src/main.cpp)

    Shell takes the arrival of keys as given; here they come from the hardware:
    before every round of the editor the interrupts of some scan codes run, on
    the machine that the shell works on.  The text typed is answered line by
    line, whenever the scan codes arrive, as long as the buffer never overflows. *)

From Stdlib Require Import ZArith Lia String.
From stdpp Require Import base gmap list list_numbers numbers strings.
From S2P Require Import Prelude Memory FrameAllocator PageTree Paging KernelMemory Containers Utilities Processor Printf Idt Typing Terminal Shell.
#[local] Open Scope Z_scope.

(** The kernel with the terminal as its console, and the locals of
    [kernel_main]. *)
Record session (H : Type) := Session {
  kernel : kernel_state H Terminal;
  line_input : list Z;
  line_pos : Z
}.
Arguments Session {H} kernel line_input line_pos.
Arguments kernel {H} s.
Arguments line_input {H} s.
Arguments line_pos {H} s.

(** The part the editor works on. *)
Definition shell_of {H} (s : session H) : shell :=
  Shell (line_input s) (line_pos s) (Idt.keyboardBuffer (kernel s)) (console (kernel s)).

Definition with_shell {H} (s : session H) (sh : shell) : session H :=
  Session (Kernel (mach (kernel s)) (keyboardBuffer sh) (extended (kernel s)) (terminal sh)) (input sh) (pos sh).

Definition with_kernel {H} (s : session H) (k : kernel_state H Terminal) : session H :=
  Session k (line_input s) (line_pos s).

Definition set_screen {H} (s : session H) (t : Terminal) : session H :=
  with_shell s (set_terminal (shell_of s) t).

Section Session.
Context {H : Type} `{Platform H} (limine : limine_features) (press : Z -> H -> H).
Implicit Types s : session H.

Definition prompt : list Z := codes "davOS> ".

(** The start of a line: [pos = 0; printf("davOS> ")]. *)
Definition begin_line s : outcome (session H) :=
  t ← print_format prompt [] (console (kernel s));
  Done (with_shell s (with_editor (shell_of s) (line_input s) 0 t)).

(** [handle_command(input, pos)] *)
Definition end_line s : outcome (session H) :=
  t ← handle_command (line_input s) (line_pos s) (console (kernel s));
  Done (set_screen s t).

(** A round of the editor after the interrupts of [arrived]. *)
Definition poll (arrived : list Z) s : outcome (bool * session H) :=
  k ← key_interrupts limine press arrived (kernel s);
  let '(key, b) := KeyboardBuffer_get (Idt.keyboardBuffer k) in
  let s := with_kernel s (Kernel (mach k) b (extended k) (console k)) in
  r ← edit_key key (shell_of s);
  Done (fst r, with_shell s (snd r)).

(** What follows it: the command and the next prompt when the line is complete. *)
Definition after_poll (r : bool * session H) : outcome (session H) :=
  let '(entered, s) := r in
  if entered then s ← end_line s; begin_line s else Done s.

Definition round (arrived : list Z) s : outcome (session H) :=
  r ← poll arrived s; after_poll r.

(** The two nested loops; the element [i] of [arrivals] lists the scan codes that
    arrive before round [i]. *)
Fixpoint kernel_loop (arrivals : list (list Z)) s : outcome (session H) :=
  match arrivals with
  | [] => Done s
  | arrived :: arrivals => s ← round arrived s; kernel_loop arrivals s
  end.

(** The end of [kernel_main], from the first prompt on. *)
Definition main_loop (arrivals : list (list Z)) s : outcome (session H) :=
  s ← begin_line s; kernel_loop arrivals s.
End Session.

(** ** What the user sees *)

(** The line in front of the cursor and the text on the screen, key by key. *)
Definition line1 (line : list Z) (key : Z) : list Z := if key =? 10 then [] else edit1 line key.

Definition line_after (line keys : list Z) : list Z := foldl line1 line keys.

Definition answer1 (line : list Z) (key : Z) (t : Terminal) : outcome Terminal :=
  if key =? 10 then
    t ← write_string [10] t;
    t ← run_command (classify line) t;
    write_string prompt t
  else write_string (echo1 line key) t.

Fixpoint answer (line keys : list Z) (t : Terminal) : outcome Terminal :=
  match keys with
  | [] => Done t
  | key :: keys => t ← answer1 line key t; answer (line1 line key) keys t
  end.

(** Lines of text: each is echoed, run as a command and followed by a prompt. *)
Fixpoint dialogue (lines : list (list Z)) (t : Terminal) : outcome Terminal :=
  match lines with
  | [] => Done t
  | keys :: lines =>
      t ← write_string (echo [] keys ++ [10]) t;
      t ← run_command (classify (edit [] keys)) t;
      t ← write_string prompt t;
      dialogue lines t
  end.

(** The schedule never has more than 256 scan codes waiting, and leaves none at
    its end; [n] are waiting at its start. *)
Fixpoint keeps_up (n : nat) (arrivals : list (list Z)) : bool :=
  match arrivals with
  | [] => Nat.eqb n 0
  | arrived :: arrivals =>
      Nat.leb (n + List.length arrived) s_maxSize && keeps_up (pred (n + List.length arrived)) arrivals
  end.

(** What the editor takes: characters, Enter, and keys that mean nothing. *)
Definition typable (key : Z) : Prop := 0 <= key < 128.

Lemma answer_app a b line t :
  answer line (a ++ b) t = (t ← answer line a t; answer (line_after line a) b t).
Proof.
  revert line t. induction a as [|k a IH]; intros line t; [done|]. cbn [app answer].
  rewrite bind_assoc. apply bind_cong. intros t1. apply IH.
Qed.

Lemma line_after_app a b line : line_after line (a ++ b) = line_after (line_after line a) b.
Proof. apply foldl_app. Qed.

(** Answering a sequence from its first key on. *)
Lemma answer_split n q rest line t :
  line_after line (q ++ rest) = line_after (line_after line (take n q)) (drop n q ++ rest) /\
  answer line (q ++ rest) t =
    (t ← answer line (take n q) t; answer (line_after line (take n q)) (drop n q ++ rest) t).
Proof. by rewrite <-line_after_app, <-answer_app, app_assoc, take_drop. Qed.

(** A line is answered as a whole. *)
Lemma answer_line keys line t :
  Forall plain keys ->
  answer line (keys ++ [10]) t =
    (t ← write_string (echo line keys ++ [10]) t;
     t ← run_command (classify (edit line keys)) t; write_string prompt t) /\
  line_after line (keys ++ [10]) = [].
Proof.
  intros Hk. revert line t. induction Hk as [|k keys [_ Hk] Hks IH]; intros line t.
  - split; [|done]. cbn [app answer echo edit foldl]. unfold answer1. rewrite Z.eqb_refl.
    destruct (write_string [10] t) as [t1| | |]; [|done..]. rewrite !bind_done.
    destruct (run_command (classify line) t1) as [t2| | |]; [|done..]. rewrite !bind_done.
    by destruct (write_string prompt t2).
  - cbn [app answer echo edit foldl line_after]. unfold answer1, line1 at 1 3.
    rewrite (proj2 (Z.eqb_neq k 10)) by done. split; [|by apply IH].
    rewrite <-app_assoc, write_string_app, bind_assoc. apply bind_cong. intros t1. apply IH.
Qed.

(** Keys that mean nothing leave no trace. *)
Lemma answer_skips_none keys line t :
  answer line (keys ≫= (fun k => [k; Key.None])) t = answer line keys t /\
  line_after line (keys ≫= (fun k => [k; Key.None])) = line_after line keys.
Proof.
  assert (Hnone : forall l, line1 l Key.None = l) by done.
  revert line t. induction keys as [|k keys IH]; intros line t; [done|]. rewrite bind_cons.
  cbn [app answer line_after foldl]. rewrite Hnone. split; [|apply (IH _ t)].
  apply bind_cong. intros t1. apply IH.
Qed.

Lemma answer_dialogue lines t :
  Forall (Forall plain) lines ->
  answer [] (concat ((fun keys => keys ++ [10]) <$> lines)) t = dialogue lines t /\
  line_after [] (concat ((fun keys => keys ++ [10]) <$> lines)) = [].
Proof.
  intros Hl. revert t. induction Hl as [|keys lines Hk Hl IH]; intros t; [done|].
  rewrite fmap_cons. cbn [concat dialogue]. rewrite answer_app.
  destruct (answer_line keys [] t Hk) as [Ha Hline]. rewrite (line_after_app (keys ++ [10])), Ha, Hline. split; [|by apply (IH t)].
  rewrite bind_assoc. apply bind_cong. intros t1. rewrite bind_assoc. apply bind_cong. intros t2.
  apply bind_cong. intros t3. apply IH.
Qed.

(** ** The loop gives these answers *)
Section SessionSpec.
Context {H : Type} `{Devices H} (limine : limine_features) (press : Z -> H -> H).
Context (Hpress : forall code h, devices (press code h) = byte_arrived code (devices h)).
Implicit Types s : session H.

(** Between two rounds: interrupts can be handled, and the buffer of the editor
    holds the line. *)
Record session_ok (line : list Z) s : Prop := {
  so_typing : typing_ok (kernel s);
  so_edits : edits line (shell_of s);
  so_line : Forall line_char line
}.

Abbreviation waiting := (fun s : session H => pending (Idt.keyboardBuffer (kernel s))).

Lemma session_ok_screen line s t : session_ok line s -> session_ok line (set_screen s t).
Proof. intros [[He Hb] [] Hl]. by split; [split|split|]. Qed.

(** The editor's answer to a key that was taken from the buffer. *)
Lemma edit_key_spec line s key :
  session_ok line s -> typable key ->
  exists s', session_ok (line1 line key) s' /\ waiting s' = waiting s /\
    extended (kernel s') = extended (kernel s) /\ mach (kernel s') = mach (kernel s) /\
    (r ← edit_key key (shell_of s); after_poll (fst r, with_shell s (snd r))) =
    (t ← answer1 line key (console (kernel s)); Done (set_screen s' t)).
Proof.
  intros [Hty He Hl] Hk. unfold line1, answer1. destruct (Z.eqb_spec key 10) as [->|Hne].
  - destruct (edit_key_enter line _ He) as (sh & He' & Hz & Hb & Hd).
    destruct (edits_command line sh He' Hz) as [rest Hi].
    exists (with_shell s (with_editor sh (input sh) 0 (terminal sh))).
    split; [split|split; [|split; [done|split; [done|]]]].
    + destruct Hty as [Heoi Hkb]. split; [exact Heoi|]. cbn. by rewrite Hb.
    + destruct He' as [Hsz _ _ _]. by split.
    + constructor.
    + cbn. by rewrite Hb.
    + change 10 with Key.enter at 1. rewrite Hd. cbn [terminal shell_of].
      destruct (write_string [10] (console (kernel s))) as [t1| | |]; [|done..]. rewrite !bind_done. cbn [fst snd].
      cbn [after_poll]. unfold end_line. cbn [kernel with_shell line_input line_pos console set_terminal input pos terminal].
      rewrite Hi at 1. rewrite (ed_pos _ _ He'), handle_command_spec by done.
      destruct (run_command (classify line) t1) as [t2| | |]; [|done..]. rewrite !bind_done.
      unfold begin_line. cbn [set_screen kernel with_shell console set_terminal terminal].
      rewrite (print_format_terminal prompt [] prompt) by first [reflexivity | literal].
      by destruct (write_string prompt t2).
  - assert (Hp : plain key) by (split; [exact Hk|done]).
    destruct (edit_key_plain line _ key He Hp) as (sh & He' & Hb & Hd).
    exists (with_shell s sh). split; [split|split; [|split; [done|split; [done|]]]].
    + destruct Hty as [Heoi Hkb]. split; [exact Heoi|]. cbn. by rewrite Hb.
    + destruct He'. by split.
    + apply (edit_line_char line [key]); [done|by constructor].
    + cbn. by rewrite Hb.
    + rewrite Hd. cbn [terminal shell_of].
      by destruct (write_string (echo1 line key) (console (kernel s))).
Qed.

(** A round takes the first waiting key. *)
Lemma round_spec line s arrived :
  let q := waiting s ++ decode_run (extended (kernel s)) arrived in
  session_ok line s -> Forall (fun c => 0 <= c < 256) arrived ->
  (List.length (waiting s) + List.length arrived <= s_maxSize)%nat -> Forall typable q ->
  exists s', session_ok (line_after line (take 1 q)) s' /\ waiting s' = drop 1 q /\
    extended (kernel s') = prefix_run (extended (kernel s)) arrived /\ vm (mach (kernel s')) = vm (mach (kernel s)) /\
    round limine press arrived s = (t ← answer line (take 1 q) (console (kernel s)); Done (set_screen s' t)).
Proof.
  intros q [Hty He Hl] Hbytes Hroom Hq. unfold round, poll.
  destruct (key_interrupts_spec limine press Hpress arrived _ Hty Hbytes)
    as (k & -> & [Heoi Hkb] & Hp & Hext & Hcon & Hvm & _).
  rewrite fifo_put_all in Hp by (by rewrite decode_run_length). fold q in Hp. clearbody q. rewrite bind_done.
  destruct (keyboard_get_spec _ Hkb) as (Hk & Hkb' & Hp').
  destruct (KeyboardBuffer_get (Idt.keyboardBuffer k)) as [key b]. cbn [fst snd] in Hk, Hkb', Hp'. rewrite Hp in Hk, Hp'.
  set (s1 := with_kernel s (Kernel (mach k) b (extended k) (console k))).
  assert (Hs1 : session_ok line s1).
  { split; [by split| |done]. destruct He. by split. }
  assert (Hkey : typable key).
  { rewrite Hk. destruct Hq; [unfold typable; simpl; unfold Key.None; lia|done]. }
  destruct (edit_key_spec line s1 key Hs1 Hkey) as (s' & Hs' & Hw & Hx & Hmach & Hr).
  assert (Hrest : waiting s' = drop 1 q /\ extended (kernel s') = prefix_run (extended (kernel s)) arrived /\
    vm (mach (kernel s')) = vm (mach (kernel s))).
  { rewrite Hw, Hx, Hmach. split; [|done]. cbn. rewrite Hp'. by destruct q. }
  cbn [console kernel s1 with_kernel] in Hr. rewrite Hcon in Hr.
  exists s'. destruct Hrest as (Hrest & Hx' & Hvm'). rewrite bind_assoc.
  destruct q as [|key' q']; cbn in Hk; subst key;
    (split; [exact Hs'|split; [exact Hrest|split; [exact Hx'|split; [exact Hvm'|etrans; [exact Hr|]]]]]); [done|].
  cbn [take answer]. rewrite bind_assoc. by apply bind_cong.
Qed.

(** The keys that arrive are answered in order, whenever they arrive. *)
Lemma kernel_loop_spec arrivals : forall line s,
  let keys := waiting s ++ decode_run (extended (kernel s)) (concat arrivals) in
  session_ok line s -> Forall (fun c => 0 <= c < 256) (concat arrivals) ->
  keeps_up (List.length (waiting s)) arrivals = true -> Forall typable keys ->
  exists s', session_ok (line_after line keys) s' /\ waiting s' = [] /\ vm (mach (kernel s')) = vm (mach (kernel s)) /\
    kernel_loop limine press arrivals s = (t ← answer line keys (console (kernel s)); Done (set_screen s' t)).
Proof.
  induction arrivals as [|arrived arrivals IH]; intros line s keys Hok Hbytes Hup Hkeys; cbn [concat keeps_up] in *.
  - apply Nat.eqb_eq, nil_length_inv in Hup. unfold keys. rewrite Hup. exists s. split; [done|]. split; [done|]. split; [done|].
    cbn. by destruct s as [[] ? ?].
  - apply Forall_app in Hbytes as [Hb Hbytes]. apply andb_prop in Hup as [Hroom%Nat.leb_le Hup].
    unfold keys in *. rewrite decode_run_app, app_assoc in *.
    set (q := waiting s ++ decode_run (extended (kernel s)) arrived) in *.
    apply Forall_app in Hkeys as [Hq Hkeys].
    destruct (round_spec line s arrived Hok Hb Hroom Hq) as (s1 & Hok1 & Hw1 & Hx1 & Hv1 & Hr). fold q in Hok1, Hw1, Hr.
    assert (Hnext : forall t, exists s', session_ok (line_after line (q ++ decode_run (extended (kernel s1)) (concat arrivals))) s' /\
      waiting s' = [] /\ vm (mach (kernel s')) = vm (mach (kernel s)) /\ kernel_loop limine press arrivals (set_screen s1 t) =
        (t ← answer (line_after line (take 1 q)) (drop 1 q ++ decode_run (extended (kernel s1)) (concat arrivals)) t;
         Done (set_screen s' t))).
    { intros t. specialize (IH (line_after line (take 1 q)) (set_screen s1 t)).
      assert (Hw : pending (Idt.keyboardBuffer (kernel (set_screen s1 t))) = drop 1 q) by exact Hw1.
      cbv zeta in IH. rewrite Hw in IH.
      rewrite (proj1 (answer_split 1 q _ line t)), <-Hv1.
      apply IH; [by apply session_ok_screen|done| |].
      - rewrite length_drop. unfold q. rewrite length_app, decode_run_length. by rewrite <-Nat.sub_1_r in Hup.
      - apply Forall_app. split; [by apply Forall_drop|]. change (extended (kernel (set_screen s1 t))) with (extended (kernel s1)).
        by rewrite Hx1. }
    rewrite Hx1 in Hnext. cbn [kernel_loop]. rewrite Hr.
    rewrite (proj2 (answer_split 1 q _ line _)).
    destruct (answer line (take 1 q) (console (kernel s))) as [t1| | |].
    2-4: destruct (Hnext (console (kernel s))) as (s' & ? & ? & ? & _); by exists s'.
    destruct (Hnext t1) as (s' & ? & ? & ? & Hn). exists s'. split; [done|]. split; [done|]. split; [done|].
    rewrite !bind_done. exact Hn.
Qed.
End SessionSpec.

(** Lines of text as the keys that type them. *)
Definition typed (lines : list (list Z)) : list Z := concat ((fun keys => keys ++ [10]) <$> lines).

Lemma typed_keys (P : Z -> Prop) lines :
  P 10 -> Forall (Forall P) lines -> Forall P (typed lines).
Proof.
  intros H10 Hl. unfold typed. induction Hl as [|keys lines Hk Hl IH]; [constructor|]. rewrite fmap_cons. cbn [concat].
  apply Forall_app. split; [|exact IH]. apply Forall_app. split; [done|by constructor].
Qed.

(** The loop from the first prompt on. *)
Lemma main_loop_spec {H} `{Devices H} limine (press : Z -> H -> H) (s : session H) lines arrivals :
  (forall code h, devices (press code h) = byte_arrived code (devices h)) ->
  eoi_ready (mach (kernel s)) -> Idt.keyboardBuffer (kernel s) = KeyboardBuffer_new -> extended (kernel s) = false ->
  List.length (line_input s) = 256%nat ->
  Forall (Forall (fun key => on_layout key = true /\ plain key)) lines ->
  concat arrivals = typed lines ≫= stroke -> keeps_up 0 arrivals = true ->
  exists s', eoi_ready (mach (kernel s')) /\ pending (Idt.keyboardBuffer (kernel s')) = [] /\
    vm (mach (kernel s')) = vm (mach (kernel s)) /\
    main_loop limine press arrivals s =
      (t ← write_string prompt (console (kernel s)); t ← dialogue lines t; Done (set_screen s' t)).
Proof.
  intros Hpress Heoi Hb Hext Hsz Hlines Harr Hup.
  assert (Hkeys : Forall (fun key => on_layout key = true) (typed lines) /\ Forall typable (typed lines) /\
    Forall (Forall plain) lines).
  { split; [|split]; [apply typed_keys; [reflexivity|]|apply typed_keys; [unfold typable; lia|]|];
      (eapply Forall_impl; [exact Hlines|]; intros keys Hk; eapply Forall_impl; [exact Hk|]; by intros k [? []]). }
  destruct Hkeys as (Hlay & Htyp & Hplain).
  assert (Hstart : forall t, session_ok [] (with_shell s (with_editor (shell_of s) (line_input s) 0 t))).
  { intros t. split; [split; [exact Heoi|cbn; rewrite Hb; apply keyboard_new_ok]| |constructor]. split; [exact Hsz|done|done|done]. }
  assert (Hloop := fun t => kernel_loop_spec limine press Hpress arrivals [] _ (Hstart t)).
  cbn [kernel with_shell with_editor shell_of Idt.keyboardBuffer keyboardBuffer console extended terminal] in Hloop.
  rewrite Hb, Hext, Harr, typed_chars_decode in Hloop;
    [|exact Hlay|eapply Forall_impl; [exact Htyp|]; unfold typable; intros; simpl; lia].
  change (pending KeyboardBuffer_new) with (@nil Z) in Hloop. cbn [app List.length] in Hloop.
  assert (Hall : forall t, exists s', eoi_ready (mach (kernel s')) /\ pending (Idt.keyboardBuffer (kernel s')) = [] /\
    vm (mach (kernel s')) = vm (mach (kernel s)) /\
    kernel_loop limine press arrivals (with_shell s (with_editor (shell_of s) (line_input s) 0 t)) =
      (t ← dialogue lines t; Done (set_screen s' t))).
  { intros t. destruct (Hloop t (strokes_bytes _ Hlay) Hup) as (s' & [[He _] _ _] & Hw & Hv & Hd).
    - apply Forall_bind. eapply Forall_impl; [exact Htyp|]. intros k Hk.
      repeat constructor; [apply Hk..|unfold typable, Key.None; lia].
    - exists s'. split; [exact He|]. split; [exact Hw|]. split; [exact Hv|]. rewrite Hd. rewrite (proj1 (answer_skips_none _ _ _)).
      unfold typed. by rewrite (proj1 (answer_dialogue lines t Hplain)). }
  unfold main_loop, begin_line. rewrite (print_format_terminal prompt [] prompt) by first [reflexivity | literal].
  destruct (write_string prompt (console (kernel s))) as [t| | |]; [|destruct (Hall (console (kernel s))) as (s' & ? & ? & ? & _); by exists s'..].
  destruct (Hall t) as (s' & ? & ? & ? & Hd). by exists s'.
Qed.

(** C14. The running kernel answers its user: whenever the scan codes of some
    typed lines arrive - before the editor asks, in bursts across lines, or one
    by one - every interrupt is handled and the terminal receives the dialogue:
    each line echoed, run as a command and followed by the next prompt, as long
    as at most 256 scan codes wait at any time and the editor catches up in the
    end.  Where a command does not return, neither does the loop. *)
Theorem session_answers {H} `{Devices H} limine (press : Z -> H -> H) (s : session H) lines arrivals :
  (forall code h, devices (press code h) = byte_arrived code (devices h)) ->
  eoi_ready (mach (kernel s)) -> Idt.keyboardBuffer (kernel s) = KeyboardBuffer_new -> extended (kernel s) = false ->
  List.length (line_input s) = 256%nat ->
  Forall (Forall (fun key => on_layout key = true /\ plain key)) lines ->
  concat arrivals = typed lines ≫= stroke -> keeps_up 0 arrivals = true ->
  exists s', eoi_ready (mach (kernel s')) /\ pending (Idt.keyboardBuffer (kernel s')) = [] /\
    main_loop limine press arrivals s =
      (t ← write_string prompt (console (kernel s)); t ← dialogue lines t; Done (set_screen s' t)).
Proof.
  intros Hpress He Hb Hext Hsz Hl Harr Hup.
  destruct (main_loop_spec limine press s lines arrivals Hpress He Hb Hext Hsz Hl Harr Hup) as (s' & He' & Hw & _ & Hd).
  by exists s'.
Qed.

(** Two lines, the second typed while the first is read. *)
Definition demo_session : session pc :=
  Session (Kernel (mach (demo_interrupted None)) KeyboardBuffer_new false (demo_screen 640 480)) (replicate 256 0) 0.

Lemma session_answers_witness :
  exists s', main_loop large_limine byte_arrived ([[35; 163]; []; [23; 151; 28; 156; 38; 166]; [31; 159; 28; 156]] ++ replicate 8 [])
      demo_session =
    (t ← write_string prompt (demo_screen 640 480);
     t ← dialogue [codes "hi"; codes "ls"] t; Done (set_screen s' t)) /\
    pending (Idt.keyboardBuffer (kernel s')) = [].
Proof.
  destruct (session_answers large_limine byte_arrived demo_session [codes "hi"; codes "ls"]
    ([[35; 163]; []; [23; 151; 28; 156; 38; 166]; [31; 159; 28; 156]] ++ replicate 8 [])) as (s' & _ & Hw & Hd).
  - reflexivity.
  - apply demo_eoi_ready.
  - reflexivity.
  - reflexivity.
  - reflexivity.
  - change [codes "hi"; codes "ls"] with [[104; 105]; [108; 115]].
    repeat constructor; unfold plain; lia.
  - reflexivity.
  - reflexivity.
  - exists s'. split; [exact Hd|exact Hw].
Defined.
