(* ===== verification/Boot.v ===== *)
(** * Starting the kernel

    kernel.cpp: [kernel_init] composes the components in the order of the source.
    The theorem follows the machine through all of them, from the memory map and
    the tables of the boot loader to the keyboard interrupt that arrives. *)

From Stdlib Require Import ZArith Lia String.
From stdpp Require Import base gmap list list_numbers numbers strings.
From S2P Require Import Prelude Memory FrameAllocator PageTree Paging KernelMemory Containers Utilities Descriptors Processor Printf Idt EarlyFaults Acpi Running SelfMapped FreeList Vmm Terminal Shell.
#[local] Open Scope Z_scope.

(** ** kernel_init *)

(** What the boot loader hands over and what the linker decides. *)
Record boot_info := BootInfo {
  bi_limine : limine_features;
  bi_symbols : linker_symbols;
  bi_framebuffers : list Framebuffer;
  bi_rsdp : Z;
  bi_lines : list (list Z);
  bi_font : list Z;
  bi_isr_address : isr -> Z;
  bi_gdt_address : Z;
  bi_idt_address : Z
}.

(** The globals that [kernel_init] sets up. *)
Record kernel_globals (H : Type) := Globals {
  g_terminal : option Terminal;
  g_cpu : cpu;
  g_idt : list Z;
  g_allocator : heap;
  g_machine : machine H;
  g_constructor_test : Z
}.
Arguments Globals {H} g_terminal g_cpu g_idt g_allocator g_machine g_constructor_test.
Arguments g_terminal {H} k.
Arguments g_cpu {H} k.
Arguments g_idt {H} k.
Arguments g_allocator {H} k.
Arguments g_machine {H} k.
Arguments g_constructor_test {H} k.

Section KernelInit.
Context {H : Type} `{Platform H} (info : boot_info).
Implicit Types s : kernel_globals H.

(** The constructors are the entries of the linker's init array. *)
Fixpoint call_global_constructors (ctors : list (kernel_globals H -> outcome (kernel_globals H))) s
    : outcome (kernel_globals H) :=
  match ctors with
  | [] => Done s
  | ctor :: ctors => s ← ctor s; call_global_constructors ctors s
  end.

(** The pages whose first access is a write of [vmm_init]: the header of the
    free block that each region becomes. *)
Definition heap_headers (regions : list MemoryRegion) : list Z :=
  region_base <$> filter (fun r => region_size r <> 0) regions.

(** [vmm_init] with the page faults of its accesses. *)
Definition vmm_init_faulting (fuel : nat) (h : heap) (m : machine H) : outcome (heap * machine H) :=
  regions ← paging_get_initial_free_regions (bi_limine info) (bi_symbols info);
  m ← touch_all (bi_limine info) fuel (heap_headers regions) m;
  st ← vmm_init (bi_limine info) (bi_symbols info) fuel (Vmm h (vm m));
  Done (allocator st, with_vm m (paging st)).

(** The interrupt controllers and the keyboard. *)
Definition init_interrupts (fuel : nat) (m : machine H) : outcome (machine H) :=
  m ← enableAPIC (bi_limine info) m;
  h ← initKeyboardController fuel (hw m);
  r ← initialize (bi_limine info) fuel (bi_rsdp info) (with_hw m h) APICManager_new;
  let '(m, apicManager) := r : machine H * APICManager in
  redirectIrq (m_ioApics apicManager) 1 0x30 m.

(** Memory is accessed through the physical addresses behind the kernel's pointers,
    also after page faults have changed the page tables.  The theorem below shows
    that this is what the pointers reach, and that no byte of the stack on which
    the code runs is written, as long as neither the free stack nor that stack is
    in page 1 and the frames that are handed out are not those of that stack. *)
Definition kernel_init (fuel : nat) (ctors : list (kernel_globals H -> outcome (kernel_globals H))) s
    : outcome (kernel_globals H) :=
  s ← call_global_constructors ctors s;
  t ← KernelTerminal_initialize (bi_lines info) (bi_font info) (bi_framebuffers info);
  let c := gdt_init (bi_gdt_address info) (g_cpu s) in
  r ← idt_init (bi_isr_address info) (bi_idt_address info) (g_idt s) c;
  let '(idt, c) := r : list Z * cpu in
  let m := g_machine s in
  k ← frame_allocator_init (bi_limine info) (vm_mem (vm m));
  v ← paging_init (bi_limine info) (bi_symbols info) (VM k (page_tree (vm m)) (ptbr (vm m)));
  r ← vmm_init_faulting fuel (g_allocator s) (with_vm m v);
  let '(h, m) := r : heap * machine H in
  m ← init_interrupts fuel m;
  Done (Globals (Some t) c idt h m (g_constructor_test s)).
End KernelInit.

(** ** Interrupts *)

(** The ACPI tables: what the kernel reads of them depends only on the bytes of
    [area], in which they lie.  [madt_length] is the length of the MADT, [ios]
    its I/O APICs. *)
Record acpi_tables (limine : limine_features) (rsdp : Z) (area : Z -> Prop) (m0 : mem)
    (table madt_length : Z) (ios : list (Z * Z * Z)) : Prop := {
  at_rsdp : rsdp <> 0;
  at_table : table <> 0;
  at_low : hhdm_offset limine <= kernel_physical_to_virtual limine table;
  at_high : kernel_physical_to_virtual limine table + madt_length < 2 ^ 64;
  at_area a : kernel_physical_to_virtual limine table <= a <
    kernel_physical_to_virtual limine table + madt_length -> area (phys limine a);
  at_count : (List.length ios <= 16)%nat;
  at_reads m : (forall a, area a -> load8 m a = load8 m0 a) ->
    let madt := kernel_physical_to_virtual limine table in
    header_length limine m madt = madt_length /\
    (exists rsdt, rootSDTPhysicalAddress limine m rsdp = Done rsdt /\
       findSDTWithSignature limine m (kernel_physical_to_virtual limine rsdt) madt_signature
         (acpiRevision limine m rsdp) = table) /\
    madt_layout limine m (madt + madt_length) (madt + madt_entries) ios
}.

(** The keyboard controller as the boot loader leaves it. *)
Record keyboard_idle (fuel : nat) (k : i8042) : Prop := {
  ki_pending : kb_pending k = None;
  ki_busy : (kb_busy k <= kb_latency k)%nat;
  ki_latency : (kb_latency k + 2 < fuel)%nat;
  ki_command : 0 <= kb_command_byte k < 256;
  ki_output : match kb_output k with Some x => 0 <= x < 256 | None => True end
}.

(** The interrupt controllers and the keyboard controller before they are set
    up. *)
Record hardware_ok (fuel : nat) (d : pc) : Prop := {
  ho_features : (negb (Z.land (pc_edx d) EDX_APIC =? 0)) && (negb (Z.land (pc_edx d) EDX_MSR =? 0)) &&
    (negb (Z.land (pc_edx d) EDX_PAT =? 0)) = true;
  ho_icw1 : pic_icw (pc_pic1 d) = 0;
  ho_icw2 : pic_icw (pc_pic2 d) = 0;
  ho_base : pc_lapic_base d + 2 * pageSize <= 2 ^ 32;
  ho_apart : pc_ioapics d !! pc_lapic_base d = None;
  ho_keyboard : keyboard_idle fuel (pc_kbc d)
}.

(** The first I/O APIC of the table that handles interrupt 1. *)
Record irq1_controller (controller : Z -> ioapic) (ios : list (Z * Z * Z)) (addr gsib id : Z) : Prop := {
  ic_first : exists l1 l2, ios = l1 ++ (addr, gsib, id) :: l2 /\
    Forall (fun a => handlesIRQ a 1 = false) (ioapic_of controller <$> l1);
  ic_handles : handlesIRQ (ioapic_of controller (addr, gsib, id)) 1 = true;
  ic_gsib : 0 <= gsib /\ gsib + io_last (controller addr) < 2 ^ 32;
  ic_last : io_last (controller addr) <= 120;
  ic_regs r : 0 <= ioapic_reg (controller addr) r < 2 ^ 32
}.

(** The devices once interrupts are set up; [x] are the I/O APICs. *)
Definition interrupts_on (d : pc) (x : gmap Z ioapic) : pc :=
  PC (pc_edx d) (Pic 0xff 0x20 4 1 0 true) (Pic 0xff 0x28 2 1 0 true) (kbc_after_init (pc_kbc d))
    (apic_base_word (pc_lapic_base d), 0)
    (Lapic 0x1ff 0 (la_icr_high (pc_lapic d)) (la_in_service (pc_lapic d)) (la_sent (pc_lapic d))) x true.

Lemma interrupts_on_base d x : pc_lapic_base (interrupts_on d x) = pc_lapic_base d.
Proof.
  unfold interrupts_on. unfold pc_lapic_base at 1. simpl.
  destruct (lapic_base_range d) as [? _]. rewrite apic_base_word_base by lia.
  unfold pc_lapic_base. by rewrite <-Z.land_assoc.
Qed.

(** The register pages that [kernel_init] maps in the direct map: the local APIC's
    and those of the I/O APICs. *)
Definition register_page (d : pc) (ios : list (Z * Z * Z)) (base : Z) : Prop :=
  base = pc_lapic_base d \/ exists gsib id, (base, gsib, id) ∈ ios.

#[export] Instance register_page_dec d ios base : Decision (register_page d ios base).
Proof.
  destruct (decide (base = pc_lapic_base d \/ base ∈ (fun e : Z * Z * Z => fst (fst e)) <$> ios)) as [Hb|Hb]; [left|right].
  - destruct Hb as [->|(((a & g) & i) & -> & Hi)%list_elem_of_fmap]; [by left|right; by exists g, i].
  - intros [->|(g & i & Hi)]; apply Hb; [by left|right]. apply list_elem_of_fmap. by exists (base, g, i).
Defined.

Section Interrupts.
Context {H : Type} `{Devices H} (info : boot_info) (root : Z) (area : Z -> Prop) (m0 : mem).
Context (Hhhdm : hhdm_ok (bi_limine info)) (Hhigh : higher_half (bi_limine info)).
Abbreviation limine := (bi_limine info).
Abbreviation virt a := (kernel_physical_to_virtual (bi_limine info) a).
Implicit Types m : machine H.

(** Setting up the local APIC and the keyboard controller. *)
Lemma enable_apic_and_keyboard fuel n m :
  let d := devices (hw m) in
  kernel_memory limine root area m0 (tables_for 1 + n) (vm m) -> 0 <= n -> hardware_ok fuel d ->
  exists m1 h, enableAPIC limine m = Done m1 /\ initKeyboardController fuel (hw m1) = Done h /\
    kernel_memory limine root area m0 n (vm m1) /\ storage (vm_mem (vm m1)) = storage (vm_mem (vm m)) /\
    baseAddress m1 = virt (pc_lapic_base d) /\
    devices h = interrupts_on d (pc_ioapics d) /\
    (forall va, translate m1 va =
       if page_offset (virt (pc_lapic_base d)) va =? 0 then Some (pc_lapic_base d + va mod pageSize)
       else translate m va).
Proof.
  intros d Hmem Hn [Hfeat Hi1 Hi2 Hmax Hio [Hkp Hkb Hkl Hkc Hko]].
  apply andb_prop in Hfeat as [[Ha Hm]%andb_prop Hp].
  destruct (lapic_base_range d) as [Hbr Hbm]. set (base := pc_lapic_base d) in *.
  assert (Hv : virt base = hhdm_offset limine + base) by (by apply virtual_register).
  pose proof (hhdm_aligned _ Hhigh) as Hha.
  assert (Hvm : virt base mod pageSize = 0) by (rewrite Hv, Zplus_mod, Hha, Hbm; done).
  destruct (kernel_memory_map limine Hhhdm root area m0 n (vm m) (virt base) base
    (PageFlags_or PageFlags.Write PageFlags.CacheDisable))
    as (v & Hadd & Hmem' & _ & Hsv & Htr); try done; try (unfold hhdm_ok, pageSize in *; lia).
  destruct (enableAPIC_done limine m v Hadd) as (m1 & Hd & Hvm1 & Hb1 & Hdev1); try done.
  { fold d base. intros off Ho. rewrite Htr, Hv.
    rewrite (wrap_id 64) by (unfold hhdm_ok, pageSize in *; lia). rewrite <-Hv.
    by destruct (page_start (virt base) off Hvm Ho) as [-> ->]. }
  fold d in Hdev1, Hb1. fold base in Hdev1, Hb1.
  destruct (pc_kbc d) as [L b dl p o c e] eqn:Hk. simpl in Hkp, Hkb, Hkl, Hkc, Hko. subst p.
  destruct (initKeyboardController_spec fuel (hw m1) L b dl o c e) as (h & Hkbc & Hdev); try done.
  { unfold kbc_at. by rewrite Hdev1. }
  exists m1, h. split; [exact Hd|]. split; [exact Hkbc|]. rewrite Hvm1. split; [exact Hmem'|]. split; [exact Hsv|].
  split; [exact Hb1|]. split.
  - unfold kbc_at in Hdev. rewrite Hdev, Hdev1. unfold interrupts_on. by rewrite Hk.
  - intros va. unfold translate. rewrite Hvm1. apply Htr.
Qed.

(** Mapping the local APIC does not disturb the I/O APICs. *)
Lemma ready_kept controller m m2 addr :
  ioapic_ready controller m addr -> 0 <= pc_lapic_base (devices (hw m)) < 2 ^ 32 ->
  pc_ioapics (devices (hw m2)) = pc_ioapics (devices (hw m)) ->
  pc_lapic_base (devices (hw m2)) = pc_lapic_base (devices (hw m)) ->
  (forall va, translate m2 va =
     if page_offset (virt (pc_lapic_base (devices (hw m)))) va =? 0
     then Some (pc_lapic_base (devices (hw m)) + va mod pageSize) else translate m va) ->
  ioapic_ready controller m2 addr.
Proof.
  intros [Hr Hal Hl Hd Hs Hw Hap] Hb Hio Hlb Htr.
  assert (Hlow : forall va, 0 <= va < 2 ^ 32 -> translate m2 va = translate m va).
  { intros va Hva. rewrite Htr, virtual_register by done.
    rewrite (proj2 (Z.eqb_neq _ _)); [done|]. apply hhdm_apart; [done|done|lia]. }
  unfold pageSize in Hr. split; try done; rewrite ?Hio, ?Hlb, ?Hlow by lia; done.
Qed.

(** The register page of the local APIC stays mapped while the I/O APICs are
    mapped next to it. *)
Lemma lapic_register_kept controller ios ms m n m0' off :
  let base := pc_lapic_base (devices (hw ms)) in
  madt_inv limine root area m0' ios controller ms n [] m -> 0 <= off < pageSize ->
  translate ms (virt base + off) = Some (base + off) ->
  (forall addr gsib id, (addr, gsib, id) ∈ ios -> ioapic_ready controller ms addr) ->
  translate m (virt base + off) = Some (base + off).
Proof.
  intros base Hinv Ho Ht Hready. destruct (lapic_base_range (devices (hw ms))) as [Hbr Hbm]. fold base in Hbr, Hbm.
  rewrite <-Ht. apply (mi_kept _ _ _ _ _ _ _ _ _ _ Hinv). intros a g i Hi.
  destruct (Hready a g i Hi) as [Hr Hal _ _ _ _ Hne]. fold base in Hne. unfold pageSize in *.
  apply Z.mod_divide in Hal as [y Hy]; [|done]. apply Z.mod_divide in Hbm as [z Hz]; [|done].
  rewrite (virtual_register _ Hhhdm a), (virtual_register _ Hhhdm base), <-Z.add_assoc by lia.
  apply hhdm_pages_apart; [done|lia|lia|]. unfold pageSize.
  rewrite Hy, Hz, (Z.add_comm (z * 0x1000)), Z.div_add, (Z.div_small off), !Z.div_mul by done. lia.
Qed.

(** The mapping of the local APIC, over its whole page. *)
Lemma lapic_register_mapped m m1 off :
  let base := pc_lapic_base (devices (hw m)) in
  (forall va, translate m1 va = if page_offset (virt base) va =? 0 then Some (base + va mod pageSize) else translate m va) ->
  0 <= off < pageSize -> translate m1 (virt base + off) = Some (base + off).
Proof.
  intros base Htr Ho. destruct (lapic_base_range (devices (hw m))) as [Hbr Hbm]. fold base in Hbr, Hbm. rewrite Htr.
  destruct (page_start (virt base) off) as [-> ->]; [|done|done].
  by rewrite virtual_register, Zplus_mod, hhdm_aligned, Hbm.
Qed.

(** Register pages are not in the lower half of the address space. *)
Lemma registers_high controller m (d : pc) ios base va :
  pc_lapic_base d < 2 ^ 32 -> (forall addr gsib id, (addr, gsib, id) ∈ ios -> ioapic_ready controller m addr) ->
  register_page d ios base -> 0 <= va < 2 ^ 47 -> page_offset (virt base) va <> 0.
Proof.
  intros Hd Hready Hbase Hva. assert (Hr : 0 <= base < 2 ^ 32).
  { destruct Hbase as [->|(g & i & Hi)]; [by pose proof (lapic_base_range d) as [? _]; lia|].
    pose proof (ir_range _ _ _ (Hready _ _ _ Hi)). unfold pageSize in *. lia. }
  rewrite (virtual_register _ Hhhdm base) by lia. by apply hhdm_apart.
Qed.

(** No I/O APIC answers at the address of the local APIC. *)
Lemma lapic_apart controller (ios : list (Z * Z * Z)) m (x : gmap Z ioapic) addr gsib id y :
  let base := pc_lapic_base (devices (hw m)) in
  (forall a g i, (a, g, i) ∈ ios -> ioapic_ready controller m a) -> (addr, gsib, id) ∈ ios ->
  pc_ioapics (devices (hw m)) !! base = None ->
  (forall a, (forall g i, (a, g, i) ∉ ios) -> x !! a = pc_ioapics (devices (hw m)) !! a) ->
  <[addr := y]> x !! base = None.
Proof.
  intros base Hready Hin Hnone Hx.
  assert (Hne : forall a g i, (a, g, i) ∈ ios -> base <> a) by (intros a g i Hi; by eapply ir_apart, Hready).
  rewrite lookup_insert_ne by (intros Heq; by eapply (Hne addr)). rewrite Hx; [exact Hnone|].
  intros g i Hi. by eapply Hne.
Qed.

Lemma irq1_listed controller ios addr gsib id : irq1_controller controller ios addr gsib id -> (addr, gsib, id) ∈ ios.
Proof. intros [(l1 & l2 & -> & _) _ _ _ _]. rewrite elem_of_app, elem_of_cons. auto. Qed.

(** The redirection entry as [redirectIrq] leaves it. *)
Lemma controller_entries r last lo a b regs :
  16 <= lo -> let x := IoApic r last (<[lo := a]> (<[lo + 1 := b]> regs)) in
  ioapic_reg x lo = a /\ ioapic_reg x (lo + 1) = b.
Proof.
  intros Hlo x. unfold ioapic_reg, x. cbn [io_regs]. rewrite !(proj2 (Z.eqb_neq _ 1)) by lia.
  rewrite lookup_insert_eq, lookup_insert_ne, lookup_insert_eq by lia. done.
Qed.

(** Interrupt 1 goes to the first controller that handles it. *)
Lemma redirect_keyboard controller (ios : list (Z * Z * Z)) rest m addr gsib id :
  let lo := 0x10 + 2 * (1 - gsib) in
  irq1_controller controller ios addr gsib id -> (forall a g i, (a, g, i) ∈ ios -> ioapic_ready controller m a) ->
  exists m' x', redirectIrq ((ioapic_of controller <$> ios) ++ rest) 1 0x30 m = Done m' /\
    vm m' = vm m /\ baseAddress m' = baseAddress m /\
    devices (hw m') = set_ioapics (devices (hw m)) (<[addr := x']> (pc_ioapics (devices (hw m)))) /\
    ioapic_reg x' lo = redirected_low (ioapic_reg (controller addr) lo) 0x30 /\
    ioapic_reg x' (lo + 1) = redirected_high (ioapic_reg (controller addr) (lo + 1)) id.
Proof.
  intros lo [(l1 & l2 & -> & Hl1) Hhandle Hgsib Hlast Hregs] Hready.
  assert (Hin : (addr, gsib, id) ∈ l1 ++ (addr, gsib, id) :: l2) by (by rewrite elem_of_app, elem_of_cons; auto).
  pose proof (Hready _ _ _ Hin) as Hr. pose proof (ir_last _ _ _ Hr) as Hlr.
  destruct (ready_at controller m addr Hr) as [r Hat].
  rewrite fmap_app, fmap_cons, <-app_assoc. cbn [app].
  destruct (redirectIrq_done m (ioapic_of controller <$> l1) (ioapic_of controller (addr, gsib, id))
    ((ioapic_of controller <$> l2) ++ rest) (select (controller addr) r) 1 0x30)
    as (m' & Hred & Hvm & Hb & Hd); try done; [apply Hgsib|apply Hgsib|split; [apply Hlr|exact Hlast]|].
  exists m'. eexists. split; [exact Hred|]. split; [exact Hvm|]. split; [exact Hb|]. split; [exact Hd|].
  apply controller_entries. unfold handlesIRQ in Hhandle. simpl in Hhandle. lia.
Qed.

(** All of [kernel_init] behind the heap. *)
Lemma init_interrupts_spec fuel m spare rsdp table madt_length ios controller addr gsib id :
  let d := devices (hw m) in
  let lo := 0x10 + 2 * (1 - gsib) in
  bi_rsdp info = rsdp -> 0 <= spare ->
  kernel_memory limine root area m0 (tables_for 1 + (tables_for 1 * Z.of_nat (List.length ios) + spare)) (vm m) ->
  acpi_tables limine rsdp area m0 table madt_length ios -> madt_length < Z.of_nat fuel -> hardware_ok fuel d ->
  (forall addr gsib id, (addr, gsib, id) ∈ ios -> ioapic_ready controller m addr) ->
  irq1_controller controller ios addr gsib id ->
  exists m' x x', init_interrupts info fuel m = Done m' /\
    kernel_memory limine root area m0 spare (vm m') /\ storage (vm_mem (vm m')) = storage (vm_mem (vm m)) /\
    eoi_ready m' /\
    (la_in_service (pc_lapic d) = [] ->
       live limine root area m0 (storage (vm_mem (vm m))) spare (interrupts_on d x) m') /\
    (forall va, (forall base, register_page d ios base -> page_offset (virt base) va <> 0) ->
       translate m' va = translate m va) /\
    (forall base off, register_page d ios base -> 0 <= off < pageSize ->
       translate m' (virt base + off) = Some (base + off)) /\
    devices (hw m') = interrupts_on d x /\
    x !! addr = Some x' /\
    ioapic_reg x' lo = redirected_low (ioapic_reg (controller addr) lo) 0x30 /\
    ioapic_reg x' (lo + 1) = redirected_high (ioapic_reg (controller addr) (lo + 1)) id.
Proof.
  intros d lo <- Hspare Hmem [Hrsdp Htab Hlow Hhi Harea Hcount Hreads] Hlen Hhw Hready Hirq.
  pose proof (tables_for_nonneg 1 ltac:(lia)) as Ht1.
  assert (Hn : 0 <= tables_for 1 * Z.of_nat (List.length ios) + spare) by nia.
  destruct (lapic_base_range d) as [Hbr Hbm].
  destruct (enable_apic_and_keyboard fuel _ m Hmem Hn Hhw) as (m1 & h & He & Hk & Hmem1 & Hsto1 & Hb1 & Hdev1 & Htr1).
  fold d in Hb1, Hdev1, Htr1. set (m2 := with_hw m1 h).
  assert (Hbase2 : pc_lapic_base (devices (hw m2)) = pc_lapic_base d) by (unfold m2; simpl; rewrite Hdev1; apply interrupts_on_base).
  assert (Hready2 : forall a g i, (a, g, i) ∈ ios -> ioapic_ready controller m2 a).
  { intros a g i Hi. apply (ready_kept controller m m2 a); try done; [by eapply Hready|unfold m2; simpl; by rewrite Hdev1]. }
  destruct Hmem1 as [G1 HG1]. pose proof (km_bytes _ _ _ _ _ _ _ HG1) as Hbytes.
  destruct (Hreads (memory m1) Hbytes) as (Hml & (rsdt & Hrsdt & Hfind) & Hlay).
  destruct (APICManager_initialize_done limine m2 root area (memory m1) (bi_rsdp info) rsdt table ios controller spare fuel)
    as (m3 & Hi & Hinv); try done; rewrite ?Hml; try done.
  { eapply kernel_memory_now. by exists G1. }
  destruct (mi_devices _ _ _ _ _ _ _ _ _ _ Hinv) as (x3 & Hd3 & Hx3).
  destruct (redirect_keyboard controller ios (replicate (16 - List.length ios) no_ioapic) m3 addr gsib id Hirq
    (mi_ready _ _ _ _ _ _ _ _ _ _ Hinv)) as (m4 & x' & Hred & Hvm4 & Hb4 & Hd4 & Hlo & Hhigh').
  rewrite Hd3 in Hd4. unfold m2 in Hd4. cbn [hw with_hw] in Hd4. rewrite Hdev1 in Hd4.
  change (set_ioapics _ ?y) with (interrupts_on d y) in Hd4.
  exists m4, (<[addr := x']> x3), x'. split.
  { unfold init_interrupts. rewrite He, bind_done, Hk, bind_done. fold m2. rewrite Hi, bind_done. exact Hred. }
  assert (Hmem4 : kernel_memory limine root area m0 spare (vm m4)).
  { rewrite Hvm4. eapply kernel_memory_rebase; [exact Hbytes|]. eapply kernel_memory_weaken; [|apply Hinv]. simpl. lia. }
  assert (Hsto4 : storage (vm_mem (vm m4)) = storage (vm_mem (vm m))).
  { rewrite Hvm4, (mi_storage _ _ _ _ _ _ _ _ _ _ Hinv). exact Hsto1. }
  assert (Hb4' : baseAddress m4 = virt (pc_lapic_base d)) by (rewrite Hb4, (mi_base _ _ _ _ _ _ _ _ _ _ Hinv); exact Hb1).
  assert (Htr4 : forall va, translate m4 va = translate m3 va) by (intros va; unfold translate; by rewrite Hvm4).
  assert (Hlapic : forall off, 0 <= off < pageSize ->
    translate m4 (virt (pc_lapic_base d) + off) = Some (pc_lapic_base d + off)).
  { intros off Ho. rewrite Htr4, <-Hbase2. apply (lapic_register_kept controller ios m2 m3 spare (memory m1)); try done.
    rewrite Hbase2. by apply (lapic_register_mapped m m1). }
  assert (Hapart : <[addr := x']> x3 !! pc_lapic_base d = None).
  { rewrite <-Hbase2. apply (lapic_apart controller ios m2 x3 addr gsib id); [done|by eapply irq1_listed| |done].
    rewrite Hbase2. unfold m2. simpl. rewrite Hdev1. apply Hhw. }
  assert (Hlive : la_in_service (pc_lapic d) = [] -> live limine root area m0 (storage (vm_mem (vm m))) spare (interrupts_on d (<[addr := x']> x3)) m4)
    by (intros Hidle; by split; rewrite ?interrupts_on_base).
  split; [exact Hmem4|]. split; [exact Hsto4|].
  split; [|split; [exact Hlive|]; split; [|split; [|by rewrite lookup_insert_eq]]].
  - unfold eoi_ready. rewrite Hb4', Hd4, interrupts_on_base.
    destruct (lapic_page_address limine Hhhdm Hhigh d LAPIC_EOI_REGISTER) as (_ & _ & ->); [done|].
    split; [by apply Hlapic|done].
  - intros va Hva. rewrite Htr4. transitivity (translate m2 va).
    + apply (mi_kept _ _ _ _ _ _ _ _ _ _ Hinv). intros a g i Hin. apply Hva. right. by exists g, i.
    + change (translate m2 va) with (translate m1 va). rewrite Htr1.
      rewrite (proj2 (Z.eqb_neq _ _)); [done|]. apply Hva. by left.
  - intros base off [->|(g & i & Hin)] Ho; [by apply Hlapic|]. rewrite Htr4.
    destruct (mi_mapped _ _ _ _ _ _ _ _ _ _ Hinv _ _ _ Hin) as [Hnil|Hma]; [by apply not_elem_of_nil in Hnil|by apply Hma].
Qed.
End Interrupts.

(** ** The heap *)
Lemma heap_headers_spread k free lo :
  spread lo free -> heap_headers (free ++ replicate k (MkRegion 0 0)) = region_base <$> free.
Proof.
  unfold heap_headers. revert lo. induction free as [|r free IH]; intros lo; cbn [app spread].
  - intros _. by induction k.
  - intros (_ & Hs & _ & Hf). rewrite filter_cons_True by lia. rewrite !fmap_cons. f_equal. by eapply IH.
Qed.

Lemma vmm_init_faulting_spec {H} `{Devices H} info root area m0 sto fuel n d (m : machine H) free k :
  hhdm_ok (bi_limine info) ->
  starting (bi_limine info) root area m0 sto (touch_cost * Z.of_nat (List.length free) + n) d m -> 0 <= n ->
  paging_get_initial_free_regions (bi_limine info) (bi_symbols info) = Done (free ++ replicate k (MkRegion 0 0)) ->
  spread 1 free -> Forall heap_page (region_base <$> free) -> NoDup (page_index <$> (region_base <$> free)) ->
  (List.length free < S fuel)%nat ->
  exists h m', vmm_init_faulting info (S fuel) (Heap ∅ 0) m = Done (h, m') /\
    heap_ok h (region_block <$> free) ∅ /\ starting (bi_limine info) root area m0 sto n d m' /\
    (forall r, r ∈ free -> translate m' (region_base r) <> None) /\
    (forall r, r ∈ free -> translate m (region_base r) = None -> translate m' LAPIC_EOI_REGISTER <> None) /\
    (forall a, 2 <= page_index a -> page_index a ∉ page_index <$> (region_base <$> free) ->
       translate m' a = translate m a).
Proof.
  intros Hh Hm Hn Hreg Hsp Hpages Hnd Hfuel. rewrite <-(length_fmap region_base free) in Hm.
  destruct (touch_all_spec (bi_limine info) Hh root area m0 sto d _ fuel Hpages Hnd n m Hm Hn)
    as (m' & Ht & Hm' & Hall & Hnull & _ & Hkept).
  destruct (vmm_init_done (bi_limine info) (bi_symbols info) (Vmm (Heap ∅ 0) (vm m')) (S fuel) free k Hreg Hsp eq_refl Hfuel)
    as (h & Hv & Hok).
  exists h, m'. split.
  { unfold vmm_init_faulting. rewrite Hreg, bind_done, (heap_headers_spread k free 1 Hsp), Ht, bind_done, Hv, bind_done.
    cbn [allocator paging]. by destruct m'. }
  split; [done|]. split; [done|]. split; [|split; [|exact Hkept]].
  - intros r Hr. by apply Hall, list_elem_of_fmap_2.
  - intros r Hr. apply (Hnull (region_base r)). by apply list_elem_of_fmap_2.
Qed.

(** ** From the boot loader to the first interrupt *)

Lemma last_mapping_page maps va va' :
  page_index va = page_index va' -> last_mapping maps va = last_mapping maps va'.
Proof.
  intros Hi. assert (Ho : forall p, page_offset p va = page_offset p va') by (intros p; unfold page_offset; by rewrite Hi).
  induction maps as [|mp maps IH]; [done|]. cbn [last_mapping]. unfold covers. by rewrite IH, Ho.
Qed.

(** An I/O APIC of the table: its registers are in an aligned page below 4 GiB
    that the kernel maps to itself, away from page 1 and the local APIC. *)
Record boot_ioapic (maps : list Mapping) (d : pc) (controller : Z -> ioapic) (addr : Z) : Prop := {
  bo_range : 0x2000 <= addr < 2 ^ 32 - pageSize;
  bo_aligned : addr mod pageSize = 0;
  bo_last : 0 <= io_last (controller addr) < 256;
  bo_device : exists r, pc_ioapics d !! addr = Some (select (controller addr) r);
  bo_identity : exists fl, last_mapping maps addr = Some (addr, fl);
  bo_apart : pc_lapic_base d <> addr
}.

(** The free regions of virtual memory. *)
Record boot_regions (limine : limine_features) (symbols : linker_symbols) (maps : list Mapping)
    (free : list MemoryRegion) : Prop := {
  bg_regions : exists k, paging_get_initial_free_regions limine symbols = Done (free ++ replicate k (MkRegion 0 0));
  bg_spread : spread 1 free;
  bg_pages : Forall heap_page (region_base <$> free);
  bg_distinct : NoDup (page_index <$> (region_base <$> free));
  bg_unmapped r : r ∈ free -> last_mapping maps (region_base r) = None
}.

(** The frames that [kernel_init] may take after [paging_init]: for the page faults
    of the heap and the tables of the register pages, and [spare] that are left. *)
Definition frame_budget (free : list MemoryRegion) (ios : list (Z * Z * Z)) (spare : Z) : Z :=
  touch_cost * Z.of_nat (List.length free) + (tables_for 1 + (tables_for 1 * Z.of_nat (List.length ios) + spare)).

(** The memory map, the address space and the tables of the boot loader.  [area]
    are the bytes that are in use when the kernel starts: the tables it reads, and
    whatever else of the boot loader is still used, its stack and its responses
    (limine_features.cpp) among it.  Pages 0 and 1 are
    remapped by the first page fault, so that neither the free stack nor these
    bytes may lie there; and none of these bytes may lie in a frame that is handed
    out. *)
Record boot_ok {H} (info : boot_info) (area : Z -> Prop) (table madt_length : Z) (ios : list (Z * Z * Z))
    (free : list MemoryRegion) (l : list Z) (root spare : Z) (g : kernel_globals H) : Prop := {
  bc_hhdm : hhdm_ok (bi_limine info);
  bc_high : higher_half (bi_limine info);
  bc_memmap : boot_memmap (bi_limine info);
  bc_reserve : 0x2000 <= manually_reserve_contiguous_frames (bi_limine info) (stack_frames (bi_limine info));
  bc_mappings : Forall mapping_ok (initial_mappings (bi_limine info) (bi_symbols info));
  bc_null : last_mapping (initial_mappings (bi_limine info) (bi_symbols info)) LAPIC_EOI_REGISTER = None;
  bc_frames : initial_free_frames (bi_limine info)
    (manually_reserve_contiguous_frames (bi_limine info) (stack_frames (bi_limine info))) = l ++ [root];
  bc_spare : 0 <= spare;
  bc_room : frame_budget free ios spare + tables_for_all (initial_mappings (bi_limine info) (bi_symbols info)) <= Z.of_nat (List.length l);
  bc_regions : boot_regions (bi_limine info) (bi_symbols info) (initial_mappings (bi_limine info) (bi_symbols info)) free;
  bc_area a : area a -> 0x2000 <= a < 2 ^ 32 /\ undisturbed (bi_limine info) l (frame_budget free ios spare) a;
  bc_direct : hhdm_offset (bi_limine info) + 2 ^ 33 <= 2 ^ 64;
  bc_image : image_apart (bi_limine info) (bi_symbols info);
  bc_acpi : acpi_tables (bi_limine info) (bi_rsdp info) area (ram (vm_mem (vm (g_machine g)))) table madt_length ios;
  bc_framebuffer : bi_framebuffers info <> [];
  bc_idt : Z.of_nat (List.length (g_idt g)) = idt_size;
  bc_idt_address : 0 <= bi_idt_address info < 2 ^ 64;
  bc_isr i : 0 <= bi_isr_address info i < 2 ^ 64;
  bc_heap : g_allocator g = Heap ∅ 0;
  bc_base : baseAddress (g_machine g) = 0
}.

(** The gate that an interrupt line of an I/O APIC leads to: the vector of its
    redirection entry, unless that is masked. *)
Definition irq_gate {H} (g : kernel_globals H) (x : ioapic) (pin : Z) : option gate :=
  let low := ioapic_reg x (0x10 + 2 * pin) in
  if Z.testbit low 16 then None else Some (gate_at (g_idt g) (Z.land low 0xff)).

(** Where the free stack is, for good. *)
Definition stack_location (limine : limine_features) : option (Z * Z) :=
  Some (manually_reserve_contiguous_frames limine (stack_frames limine), Z.of_nat (List.length (usable_frames limine))).

Section BootSpec.
Context {H : Type} `{Devices H} (info : boot_info) (area : Z -> Prop) (table madt_length : Z).
Context (ios : list (Z * Z * Z)) (free : list MemoryRegion) (l : list Z) (root spare : Z) (g : kernel_globals H).
Context (Hboot : boot_ok info area table madt_length ios free l root spare g).
Abbreviation limine := (bi_limine info).
Abbreviation symbols := (bi_symbols info).
Abbreviation maps := (initial_mappings (bi_limine info) (bi_symbols info)).
Abbreviation m := (g_machine g).
Abbreviation d := (devices (hw (g_machine g))).

(** Frames are not device pages. *)
Context (Hram : forall f, (forall a, in_frame f a -> managed_byte limine a) -> no_device d f).

(** The frame allocator, paging and the heap. *)
Lemma boot_memory_spec fuel :
  (List.length free < S fuel)%nat ->
  exists k v h m1, frame_allocator_init limine (vm_mem (vm m)) = Done k /\
    paging_init limine symbols (VM k (page_tree (vm m)) (ptbr (vm m))) = Done v /\
    vmm_init_faulting info (S fuel) (g_allocator g) (with_vm m v) = Done (h, m1) /\
    heap_ok h (region_block <$> free) ∅ /\
    starting limine root area (ram (vm_mem (vm m))) (stack_location limine) (tables_for 1 + (tables_for 1 * Z.of_nat (List.length ios) + spare)) d m1 /\
    (forall a, in_storage (vm_mem (vm m1)) a -> 0x2000 <= a < 2 ^ 32) /\
    (forall r, r ∈ free -> translate m1 (region_base r) <> None) /\
    (free <> [] -> translate m1 LAPIC_EOI_REGISTER <> None) /\
    (forall va frame fl, 2 <= page_index va -> last_mapping maps va = Some (frame, fl) ->
       translate m1 va = Some (frame + va mod pageSize)).
Proof.
  intros Hfuel. pose proof (tables_for_nonneg 1 ltac:(lia)). pose proof touch_cost_nonneg.
  pose proof (bc_regions _ _ _ _ _ _ _ _ _ _ Hboot) as [[kr Hreg] Hsp Hpages Hnd Hnone].
  pose proof (bc_spare _ _ _ _ _ _ _ _ _ _ Hboot).
  set (n := tables_for 1 + (tables_for 1 * Z.of_nat (List.length ios) + spare)).
  assert (Hn : 0 <= n) by (unfold n; nia).
  assert (Hn2 : 0 <= touch_cost * Z.of_nat (List.length free) + n) by nia.
  pose proof (bc_reserve _ _ _ _ _ _ _ _ _ _ Hboot) as Hres.
  destruct (kernel_memory_boot limine symbols (bc_memmap _ _ _ _ _ _ _ _ _ _ Hboot) area (vm m) _ l root
    (touch_cost * Z.of_nat (List.length free) + n) (bc_hhdm _ _ _ _ _ _ _ _ _ _ Hboot) eq_refl
    ltac:(lia) (bc_mappings _ _ _ _ _ _ _ _ _ _ Hboot) (bc_frames _ _ _ _ _ _ _ _ _ _ Hboot)
    Hn2 (bc_room _ _ _ _ _ _ _ _ _ _ Hboot)
    (fun a Ha => proj2 (bc_area _ _ _ _ _ _ _ _ _ _ Hboot a Ha)))
    as (k & v & Hk & Hv & Hmem & Htr & Hfr & Hsto & Hent).
  assert (Hst : starting limine root area (ram (vm_mem (vm m))) (stack_location limine) (touch_cost * Z.of_nat (List.length free) + n) d (with_vm m v)).
  { split; [exact Hmem|exact Hsto|apply Hboot|done|intros f Hf; by apply Hram, Hfr|].
    left. change (translate (with_vm m v)) with (vm_translate v). by rewrite Htr, (bc_null _ _ _ _ _ _ _ _ _ _ Hboot). }
  destruct (vmm_init_faulting_spec info root area _ _ fuel n d (with_vm m v) free kr
    (bc_hhdm _ _ _ _ _ _ _ _ _ _ Hboot) Hst Hn Hreg Hsp Hpages Hnd Hfuel)
    as (h & m1 & Hi & Hok & Hst1 & Hheap & Hnull & Hkept).
  exists k, v, h, m1. rewrite (bc_heap _ _ _ _ _ _ _ _ _ _ Hboot).
  split; [exact Hk|split; [exact Hv|split; [exact Hi|split; [exact Hok|split; [exact Hst1|split; [|split; [exact Hheap|split]]]]]]].
  - intros a Ha. rewrite (in_storage_eq (vm_mem v) _ a) in Ha
      by (rewrite (sm_storage _ _ _ _ _ _ _ _ Hst1); symmetry; exact Hsto).
    split.
    + unfold in_storage in Ha. unfold storage in Hsto. destruct (free_stack (vm_mem v)) as [fs|]; [|done].
      cbn [fmap option_fmap option_map] in Hsto. injection Hsto as Hb _. lia.
    + destruct (Hent a Ha) as (e & He & Hu & Hea).
      pose proof (bm_low _ (bc_memmap _ _ _ _ _ _ _ _ _ _ Hboot)) as Hlow. rewrite Forall_forall in Hlow.
      destruct (Hlow e He (or_introl Hu)). lia.
  - intros Hne. destruct free as [|r rest] eqn:Hf; [done|]. apply (Hnull r); [by left|].
    change (translate (with_vm m v)) with (vm_translate v). rewrite Htr, Hnone; [done|by left].
  - intros va frame fl Hva Hlast. rewrite Hkept; [|done|].
    + change (translate (with_vm m v)) with (vm_translate v). by rewrite Htr, Hlast.
    + intros (b & Hb & (r & -> & Hr)%list_elem_of_fmap)%list_elem_of_fmap.
      rewrite (last_mapping_page maps va (region_base r) Hb), Hnone in Hlast by done. done.
Qed.

Lemma boot_ioapic_ready controller addr n m0 m1 :
  boot_ioapic maps d controller addr -> starting limine root area m0 (stack_location limine) n d m1 ->
  (forall va frame fl, 2 <= page_index va -> last_mapping maps va = Some (frame, fl) ->
     translate m1 va = Some (frame + va mod pageSize)) ->
  ioapic_ready controller m1 addr.
Proof.
  intros [Hr Hal Hl Hd (fl & Hid) Hap] Hm1 Htr.
  assert (Hpage : forall off, 0 <= off < pageSize -> page_index (addr + off) = addr / pageSize /\
    (addr + off) mod pageSize = off).
  { intros off Ho. split; [|by apply page_start]. rewrite page_index_eq. unfold pageSize in *.
    apply Z.mod_divide in Hal as [y ->]; [|done]. rewrite Z.add_comm, Z.div_add, Z.div_mul, Z.div_small by done.
    apply Z.mod_small. lia. }
  assert (Hq : 2 <= addr / pageSize) by (unfold pageSize in *; apply Z.div_le_lower_bound; lia).
  assert (Ht : forall off, 0 <= off < pageSize -> translate m1 (addr + off) = Some (addr + off)).
  { intros off Ho. destruct (Hpage off Ho) as [Hi Hmo]. rewrite (Htr _ addr fl), Hmo; [done|by rewrite Hi|].
    rewrite <-Hid. apply last_mapping_page. rewrite Hi. destruct (Hpage 0 ltac:(done)) as [Hi0 _].
    by rewrite Z.add_0_r in Hi0. }
  split; try done; rewrite ?(sm_devices _ _ _ _ _ _ _ _ Hm1); try done.
  - lia.
  - specialize (Ht 0 ltac:(done)). by rewrite Z.add_0_r in Ht.
  - by apply Ht.
Qed.
(** Address spaces that keep the initial mappings, but for pages 0 and 1 and the
    registers, which are mapped to themselves, keep the memory under the kernel's
    pointers. *)
Lemma boot_self_mapped controller (m2 : machine H) :
  pc_lapic_base d < 2 ^ 32 -> (forall a gb i, (a, gb, i) ∈ ios -> boot_ioapic maps d controller a) ->
  (forall va frame fl, 2 <= page_index va ->
     (forall base, register_page d ios base -> page_offset (kernel_physical_to_virtual limine base) va <> 0) ->
     last_mapping maps va = Some (frame, fl) -> translate m2 va = Some (frame + va mod pageSize)) ->
  (forall base off, register_page d ios base -> 0 <= off < pageSize ->
     translate m2 (kernel_physical_to_virtual limine base + off) = Some (base + off)) ->
  direct_mapped limine (vm m2) /\ forall P : Z -> Prop, (forall a, P a -> 0x2000 <= a < 2 ^ 32) -> identity_mapped (vm m2) P.
Proof.
  intros Hd Hio Hkept Hregs.
  pose proof (bc_hhdm _ _ _ _ _ _ _ _ _ _ Hboot) as Hh. pose proof (bc_high _ _ _ _ _ _ _ _ _ _ Hboot) as Hhigh.
  pose proof (bc_direct _ _ _ _ _ _ _ _ _ _ Hboot) as Hdir. pose proof (bc_image _ _ _ _ _ _ _ _ _ _ Hboot) as Him.
  assert (Hreg : forall base, register_page d ios base -> 0 <= base < 2 ^ 32 /\ base mod pageSize = 0).
  { intros base [->|(g0 & i & Hi)]; [pose proof (lapic_base_range d) as [? ?]; split; [lia|done]|].
    pose proof (bo_range _ _ _ _ (Hio _ _ _ Hi)). pose proof (bo_aligned _ _ _ _ (Hio _ _ _ Hi)).
    unfold pageSize in *. split; [lia|done]. }
  pose proof (hhdm_aligned limine Hhigh) as Hal.
  assert (Hsplit : forall a, pageSize * (a / pageSize) + a mod pageSize = a) by (intros a; symmetry; by apply Z.div_mod).
  split.
  - intros a Ha. change (vm_translate (vm m2)) with (translate m2).
    destruct (page_index_direct limine Hh Hhigh a ltac:(lia)) as (Hf & Hi & _ & Hq0).
    assert (Hva : kernel_physical_to_virtual limine a mod pageSize = a mod pageSize).
    { rewrite (virtual_register limine Hh a), Zplus_mod, Hal by lia. by rewrite Z.add_0_l, Z.mod_mod. }
    destruct (decide (register_page d ios (pageSize * (a / pageSize)))) as [Hr|Hr].
    + specialize (Hregs _ (a mod pageSize) Hr ltac:(by apply Z.mod_pos_bound)).
      destruct (Hreg _ Hr) as [Hb _].
      rewrite (virtual_register limine Hh (pageSize * _)), <-Z.add_assoc, Hsplit in Hregs by lia.
      by rewrite (virtual_register limine Hh a) by lia.
    + rewrite (Hkept _ (pageSize * (a / pageSize)) PageFlags.Write), Hva, Hsplit; [done|lia| |].
      * intros base Hbase Hz. destruct (Hreg base Hbase) as [Hb Hbm]. apply Hr.
        replace (pageSize * (a / pageSize)) with base; [done|].
        rewrite (virtual_register limine Hh base), (virtual_register limine Hh a) in Hz by lia.
        destruct (decide (base / pageSize = a / pageSize)) as [Hq|Hq].
        -- rewrite <-Hq. specialize (Hsplit base). lia.
        -- by apply (hhdm_pages_apart limine base a Hhigh) in Hz; [|lia|lia|exact Hq].
      * apply initial_direct; [done..|lia].
  - intros P HP a Ha%HP. change (vm_translate (vm m2)) with (translate m2).
    rewrite (Hkept a (pageSize * (a / pageSize)) PageFlags.Write), Hsplit; [done| | |].
    + destruct (page_index_low_half a ltac:(lia)) as [-> _]. unfold pageSize. apply Z.div_le_lower_bound; lia.
    + intros base Hbase. destruct (Hreg base Hbase) as [Hb _].
      rewrite (virtual_register limine Hh base) by lia. by apply hhdm_apart; [| |lia].
    + apply initial_identity; [done..|lia].
Qed.
End BootSpec.

Lemma redirected_vector low vector :
  0 <= low < 2 ^ 32 -> 0 <= vector < 256 ->
  Z.testbit (redirected_low low vector) 16 = false /\ Z.land (redirected_low low vector) 0xff = vector.
Proof.
  intros Hl Hv. split; [by rewrite redirected_low_bits by lia|].
  apply Z.bits_inj'. intros i Hi. change 0xff with (Z.ones 8).
  rewrite Z.land_spec, redirected_low_bits, Z.testbit_ones_nonneg by lia.
  destruct (Z.ltb_spec i 8); [apply andb_true_r|]. rewrite andb_false_r. symmetry.
  rewrite <-(wrap_id 8 vector) by done. unfold wrap. by apply Z.mod_pow2_bits_high.
Qed.

(** [kernel_init], with everything that later parts rely on. *)
Lemma kernel_init_spec {H} `{Devices H} info area table madt_length ios free l root spare ctors g0 g
    controller addr gsib id fuel :
  let d := devices (hw (g_machine g)) in
  let maps := initial_mappings (bi_limine info) (bi_symbols info) in
  call_global_constructors ctors g0 = Done g ->
  boot_ok info area table madt_length ios free l root spare g ->
  (forall f, (forall a, in_frame f a -> managed_byte (bi_limine info) a) -> no_device d f) ->
  hardware_ok (S fuel) d ->
  (forall a gb i, (a, gb, i) ∈ ios -> boot_ioapic maps d controller a) ->
  irq1_controller controller ios addr gsib id ->
  madt_length < Z.of_nat (S fuel) -> (List.length free < S fuel)%nat ->
  exists s fb fbs x x', kernel_init info (S fuel) ctors g0 = Done s /\
    bi_framebuffers info = fb :: fbs /\
    g_terminal s = Some (Terminal_new (bi_lines info) fb (terminalFont (bi_font info))) /\
    g_constructor_test s = g_constructor_test g /\
    cs (g_cpu s) = 8 /\ idtr (g_cpu s) = (16 * 256 - 1, bi_idt_address info) /\
    page_tree_ok (bi_limine info) (vm_mem (vm (g_machine s))) root /\
    heap_ok (g_allocator s) (region_block <$> free) ∅ /\ eoi_ready (g_machine s) /\
    (la_in_service (pc_lapic d) = [] ->
       live (bi_limine info) root area (ram (vm_mem (vm (g_machine g)))) (stack_location (bi_limine info)) spare
         (interrupts_on d x) (g_machine s)) /\
    (forall a, area a -> load8 (memory (g_machine s)) a = load8 (memory (g_machine g)) a) /\
    (forall a, in_storage (vm_mem (vm (g_machine s))) a -> 0x2000 <= a < 2 ^ 32) /\
    (forall va frame fl, 2 <= page_index va ->
       (forall base, register_page d ios base ->
          page_offset (kernel_physical_to_virtual (bi_limine info) base) va <> 0) ->
       last_mapping maps va = Some (frame, fl) -> translate (g_machine s) va = Some (frame + va mod pageSize)) /\
    (forall base off, register_page d ios base -> 0 <= off < pageSize ->
       translate (g_machine s) (kernel_physical_to_virtual (bi_limine info) base + off) = Some (base + off)) /\
    (forall r, r ∈ free -> 0 <= region_base r < 2 ^ 47 -> translate (g_machine s) (region_base r) <> None) /\
    devices (hw (g_machine s)) = interrupts_on d x /\ x !! addr = Some x' /\
    irq_gate s x' (1 - gsib) = Some (Gate (bi_isr_address info isr_keyboard) 8 0 0xe 0 true) /\
    (free <> [] -> translate (g_machine s) LAPIC_EOI_REGISTER <> None).
Proof.
  intros d maps Hctors Hboot Hram Hhw Hio Hirq Hlen Hfuel.
  destruct (boot_memory_spec info area table madt_length ios free l root spare g Hboot Hram fuel Hfuel)
    as (k & v & h & m1 & Hk & Hv & Hi & Hok & Hst & Hstack & Hheap & Hnull & Htr).
  destruct (idt_init_spec (bi_isr_address info) (bc_isr _ _ _ _ _ _ _ _ _ _ Hboot) (bi_idt_address info) (g_idt g)
    (gdt_init (bi_gdt_address info) (g_cpu g)) (bc_idt _ _ _ _ _ _ _ _ _ _ Hboot) (bc_idt_address _ _ _ _ _ _ _ _ _ _ Hboot))
    as (idt & Hidt & _ & Hgates).
  assert (Hready : forall a gb i, (a, gb, i) ∈ ios -> ioapic_ready controller m1 a)
    by (intros a gb i Ha; eapply boot_ioapic_ready; [by eapply Hio|exact Hst|exact Htr]).
  pose proof (sm_devices _ _ _ _ _ _ _ _ Hst) as Hd1.
  destruct (init_interrupts_spec info root area (ram (vm_mem (vm (g_machine g)))) (bc_hhdm _ _ _ _ _ _ _ _ _ _ Hboot)
    (bc_high _ _ _ _ _ _ _ _ _ _ Hboot) (S fuel) m1 spare (bi_rsdp info) table madt_length ios controller addr gsib id
    eq_refl (bc_spare _ _ _ _ _ _ _ _ _ _ Hboot) (sm_memory _ _ _ _ _ _ _ _ Hst) (bc_acpi _ _ _ _ _ _ _ _ _ _ Hboot) Hlen)
    as (m' & x & x' & Hint & Hmem & Hsto & Heoi & Hlive & Hkept & Hregs & Hdev & Hx & Hreg & _); try done; [by rewrite Hd1|].
  rewrite (sm_storage _ _ _ _ _ _ _ _ Hst) in Hsto, Hlive. rewrite Hd1 in Hkept, Hregs.
  assert (Hlow : forall va, 0 <= va < 2 ^ 47 -> translate m' va = translate m1 va).
  { intros va Hva. apply Hkept. intros base Hbase.
    eapply (registers_high info (bc_hhdm _ _ _ _ _ _ _ _ _ _ Hboot) (bc_high _ _ _ _ _ _ _ _ _ _ Hboot)
      controller m1 d ios base va); [|exact Hready|exact Hbase|exact Hva].
    pose proof (ho_base _ _ Hhw). unfold pageSize in *. lia. }
  destruct (bi_framebuffers info) as [|fb fbs] eqn:Hfb; [by apply (bc_framebuffer _ _ _ _ _ _ _ _ _ _ Hboot) in Hfb|].
  eexists (Globals (Some _) _ idt h m' _), fb, fbs, x, x'. split.
  { unfold kernel_init. rewrite Hctors, bind_done, Hfb. unfold KernelTerminal_initialize.
    change (array_get (fb :: fbs) 0) with (Done fb). rewrite !bind_done, Hidt, bind_done. cbv beta iota zeta.
    rewrite Hk, bind_done, Hv, bind_done, Hi, bind_done. cbv beta iota. rewrite Hint, bind_done. reflexivity. }
  cbn [g_terminal g_cpu g_idt g_allocator g_machine g_constructor_test cs idtr]. rewrite Hd1 in Hlive.
  split; [done|]. split; [done|]. split; [done|]. split; [reflexivity|]. split; [reflexivity|].
  split; [by eapply kernel_memory_tree|]. split; [exact Hok|]. split; [exact Heoi|]. split; [exact Hlive|].
  split; [intros a; by eapply kernel_memory_bytes|].
  split; [intros a Ha; apply Hstack; rewrite (in_storage_eq (vm_mem (vm m1)) _ a) in Ha; [done|];
    by rewrite Hsto, (sm_storage _ _ _ _ _ _ _ _ Hst)|].
  split; [intros va frame fl Hva Hne Hlast; rewrite Hkept by done; by eapply Htr|]. split; [exact Hregs|].
  split; [intros r Hr Hb; rewrite Hlow by done; by apply Hheap|]. split; [by rewrite Hdev, Hd1|]. split; [exact Hx|]. split.
  - unfold irq_gate. cbn [g_idt]. rewrite Hreg.
    destruct (redirected_vector (ioapic_reg (controller addr) (0x10 + 2 * (1 - gsib))) 0x30) as [-> ->];
      [apply Hirq|done|]. by rewrite Hgates.
  - intros Hne. rewrite Hlow by done. by apply Hnull.
Qed.


(** ** A concrete boot

    The memory map of Paging's example, the ACPI tables and devices of Acpi's. *)
Definition demo_boot : boot_info :=
  BootInfo boot_limine boot_symbols [MkFramebuffer ∅ 640 400] 0xffff800000006000
    (replicate 256 blank) demo_data demo_isr_address 0xffffffff80006000 0xffffffff80007000.

(** [v] is the value of the global that the constructor test looks at. *)
Definition demo_globals (v : Z) : kernel_globals pc :=
  Globals None (CPU (0, 0) (0, 0) 0 0 0 0 0 0) empty_idt (Heap ∅ 0)
    (Machine (hw acpi_machine) (VM (KMem acpi_ram None) None 0) 0) v.

(** What is in use when the kernel starts: the tables, and the stack of the boot
    loader, in the first 16 of the frames that are reclaimed. *)
Definition demo_area (a : Z) : Prop := 0x6000 <= a < 0xa000 \/ 0x8000000 <= a < 0x8010000.

Section DemoTables.
Context (m : mem) (Hm : forall a, demo_area a -> load8 m a = load8 acpi_ram a).

Lemma demo_rd8 a : demo_area (phys boot_limine a) -> rd8 boot_limine m a = rd8 boot_limine acpi_ram a.
Proof. apply Hm. Defined.

Lemma demo_load n a :
  0x6000 <= a -> a + Z.of_nat n <= 0xa000 -> load n m a = load n acpi_ram a.
Proof. intros Ha Hn. apply load_same. intros b Hb. apply Hm. left. lia. Defined.

Lemma demo_rd32 a :
  0x6000 <= phys boot_limine a -> phys boot_limine a + 4 <= 0xa000 -> rd32 boot_limine m a = rd32 boot_limine acpi_ram a.
Proof. intros Ha Hn. by apply (demo_load 4). Defined.

Lemma demo_rd_bytes a :
  0xffff800000006000 <= a < 0xffff800000009f00 -> rd_bytes boot_limine m a 20 = rd_bytes boot_limine acpi_ram a 20.
Proof.
  intros Ha. unfold rd_bytes. apply list_fmap_ext. intros j i Hi%list_elem_of_lookup_2%elem_of_seqZ.
  apply demo_rd8. unfold demo_area, phys. change (hhdm_offset boot_limine) with 0xffff800000000000.
  rewrite (proj2 (Z.leb_le _ _)) by lia. left. lia.
Defined.

Lemma demo_signature a :
  0x6000 <= a < 0x9f00 -> signature_is boot_limine m a madt_signature = signature_is boot_limine acpi_ram a madt_signature.
Proof.
  intros Ha. unfold signature_is. change (seqZ 0 4) with [0; 1; 2; 3]. cbn [forallb].
  rewrite !demo_rd8; [done|..]; unfold demo_area, phys; change (hhdm_offset boot_limine) with 0xffff800000000000;
    rewrite (proj2 (Z.leb_gt _ _)) by lia; left; lia.
Defined.

Lemma demo_reads :
  let madt := kernel_physical_to_virtual boot_limine 0x9000 in
  header_length boot_limine m madt = 64 /\
  (exists rsdt, rootSDTPhysicalAddress boot_limine m 0xffff800000006000 = Done rsdt /\
     findSDTWithSignature boot_limine m (kernel_physical_to_virtual boot_limine rsdt) madt_signature
       (acpiRevision boot_limine m 0xffff800000006000) = 0x9000) /\
  madt_layout boot_limine m (madt + 64) (madt + madt_entries) [(0xfec00000, 0, 2)].
Proof.
  intros madt. change madt with 0xffff800000009000. split; [|split].
  - unfold header_length. rewrite demo_rd32 by (vm_compute; congruence). vm_compute. reflexivity.
  - exists 0x7000. unfold rootSDTPhysicalAddress, validate, verifyPartialChecksum, acpiRevision, rsdtPhysicalAddress.
    rewrite (demo_rd8 (0xffff800000006000 + 15)) by (left; vm_compute; intuition congruence).
    rewrite demo_rd_bytes by lia. rewrite demo_rd32 by (vm_compute; congruence).
    replace (rd8 boot_limine acpi_ram (0xffff800000006000 + 15)) with 0 by (vm_compute; reflexivity).
    split; [vm_compute; reflexivity|].
    change (kernel_physical_to_virtual boot_limine 0x7000) with 0xffff800000007000.
    unfold findSDTWithSignature, numPointersToOtherSDTs, header_length.
    rewrite demo_rd32 by (vm_compute; congruence).
    replace (Z.to_nat _) with 2%nat by (vm_compute; reflexivity). cbn [find_sdt].
    unfold sdt_pointer. change (bytesPerPointer 0 =? 4) with true. cbv iota.
    rewrite (demo_rd32 (0xffff800000007000 + pointersToOtherSDTs + 4 * 0)) by (vm_compute; congruence).
    replace (rd32 boot_limine acpi_ram (0xffff800000007000 + pointersToOtherSDTs + 4 * 0)) with 0x9000 by (vm_compute; reflexivity).
    rewrite demo_signature by lia. vm_compute. reflexivity.
  - assert (H1 : rd8 boot_limine m (0xffff800000009000 + madt_entries + 1) = 8).
    { rewrite demo_rd8 by (left; vm_compute; intuition congruence). vm_compute. reflexivity. }
    apply layout_other; rewrite ?H1; [|lia|unfold madt_entries; lia|].
    { rewrite demo_rd8 by (left; vm_compute; intuition congruence). vm_compute. congruence. }
    assert (H2 : rd8 boot_limine m (0xffff800000009000 + madt_entries + 8 + 1) = 12).
    { rewrite demo_rd8 by (left; vm_compute; intuition congruence). vm_compute. reflexivity. }
    apply layout_ioapic; rewrite ?H2; [|lia|unfold madt_entries; lia| | | |].
    + rewrite demo_rd8 by (left; vm_compute; intuition congruence). vm_compute. reflexivity.
    + rewrite demo_rd8 by (left; vm_compute; intuition congruence). vm_compute. reflexivity.
    + rewrite demo_rd32 by (vm_compute; congruence). vm_compute. reflexivity.
    + rewrite demo_rd32 by (vm_compute; congruence). vm_compute. reflexivity.
    + change (0xffff800000009000 + madt_entries + 8 + 12) with (0xffff800000009000 + 64). apply layout_end.
Defined.
End DemoTables.

Definition demo_regions : list MemoryRegion :=
  [MkRegion 0x100001000 0x7ffefffff000; MkRegion 0xffff800100000000 0x7ffe80000000].

Lemma demo_not_managed a : managed_byte boot_limine a -> 0x100000 <= a < 0x8040000.
Proof.
  assert (Hbounds : forall e, e ∈ memory_map boot_limine ->
    0x100000 <= entry_base e /\ entry_base e + entry_length e <= 0x8040000).
  { intros e He. rewrite list_elem_of_In in He. destruct He as [<-|[<-|[]]]; vm_compute; split; congruence. }
  intros [(e & He & _ & Ha)|(e & He & _ & Ha)]; pose proof (Hbounds e He); lia.
Defined.

Lemma demo_acpi :
  acpi_tables boot_limine 0xffff800000006000 demo_area acpi_ram 0x9000 64 [(0xfec00000, 0, 2)].
Proof.
  split.
  - lia.
  - lia.
  - vm_compute. congruence.
  - vm_compute. reflexivity.
  - intros a. change (kernel_physical_to_virtual boot_limine 0x9000) with 0xffff800000009000. intros Ha.
    unfold demo_area, phys. change (hhdm_offset boot_limine) with 0xffff800000000000.
    rewrite (proj2 (Z.leb_le _ _)) by lia. left. lia.
  - simpl. lia.
  - exact demo_reads.
Defined.

(** The frames that are handed out are among the last 45 that are reclaimed. *)
Lemma demo_handed_out l root n f :
  initial_free_frames boot_limine 0x100000 = l ++ [root] -> n <= 45 -> handed_out boot_limine l n f -> 0x8013000 <= f.
Proof.
  intros Hl Hn (l' & Hp & Hf%(next_frames_weaken 45 n _ Hn)).
  pose proof boot_frames_length as Hlen. pose proof boot_usable_length as Hu. rewrite Hl, length_app in Hlen.
  apply prefix_length in Hp. set (rec := frames_of reclaimable (memory_map boot_limine)) in Hf.
  assert (Hrec : List.length rec = 64%nat) by reflexivity.
  rewrite take_ge in Hf by (rewrite length_app; simpl in Hlen; lia). unfold next_frames in Hf.
  rewrite length_app, Hrec in Hf.
  replace (List.length l' + 64 - Z.to_nat 45)%nat with (List.length l' + 19)%nat in Hf by lia.
  rewrite drop_app_add in Hf. revert f Hf. apply Forall_forall.
  apply (bool_decide_unpack _). vm_compute. exact I.
Qed.

Lemma demo_undisturbed l root spare a :
  initial_free_frames boot_limine 0x100000 = l ++ [root] -> spare <= 15 -> demo_area a ->
  0x2000 <= a < 2 ^ 32 /\ undisturbed boot_limine l (frame_budget demo_regions [(0xfec00000, 0, 2)] spare) a.
Proof.
  intros Hl Hs Ha. split; [unfold demo_area in Ha; lia|]. split.
  - intros (e & He & Hu & Hin). simpl in He. rewrite list_elem_of_In in He. simpl in He.
    destruct He as [<-|[<-|[]]]; [|discriminate Hu]. cbn in Hin. unfold demo_area in Ha. lia.
  - intros f Hf Hin. apply (demo_handed_out l root _ _ Hl) in Hf.
    + unfold in_frame, frameSize, demo_area in *. lia.
    + unfold frame_budget. replace 45 with (touch_cost * 2 + (tables_for 1 + (tables_for 1 * 1 + 15))) by (vm_compute; reflexivity).
      simpl (Z.of_nat _). lia.
Qed.

(** The kernel image is linked behind the direct map. *)
Lemma boot_image_apart : image_apart boot_limine boot_symbols.
Proof.
  intros mp a Hmp Ha.
  assert (Hhh : higher_half boot_limine) by (split; [reflexivity|]; split; vm_compute; congruence).
  assert (Hhd : hhdm_ok boot_limine) by (split; vm_compute; congruence).
  destruct (page_index_low_half a ltac:(lia)) as [Hlow _].
  destruct (page_index_direct boot_limine Hhd Hhh a Ha) as (_ & Hdir & Hq & Hq0).
  change (hhdm_offset boot_limine mod 2 ^ 48 / pageSize) with (2 ^ 35) in Hdir.
  assert (Hmaps : Forall (fun mp => 2 ^ 35 + 2 ^ 20 <= page_index (map_base mp) /\ 0 <= map_pages mp /\
    page_index (map_base mp) + map_pages mp <= 2 ^ 36) (drop 2 (initial_mappings boot_limine boot_symbols))).
  { repeat constructor; vm_compute; congruence. }
  rewrite Forall_forall in Hmaps. destruct (Hmaps mp Hmp) as (Hb & Hp & Hend).
  unfold covers, page_offset. rewrite Hlow, Hdir. split; apply Z.ltb_ge.
  - replace (a / pageSize - page_index (map_base mp)) with (a / pageSize - page_index (map_base mp) + 2 ^ 36 + (-1) * 2 ^ 36) by lia.
    rewrite Z_mod_plus_full, Z.mod_small by lia. lia.
  - replace (2 ^ 35 + a / pageSize - page_index (map_base mp)) with (2 ^ 35 + a / pageSize - page_index (map_base mp) + 2 ^ 36 + (-1) * 2 ^ 36) by lia.
    rewrite Z_mod_plus_full, Z.mod_small by lia. lia.
Qed.

Lemma demo_regions_ok :
  boot_regions boot_limine boot_symbols (initial_mappings boot_limine boot_symbols) demo_regions.
Proof.
  split.
  - exists 14%nat. vm_compute. reflexivity.
  - vm_compute. intuition congruence.
  - repeat constructor; vm_compute; intuition congruence.
  - apply (bool_decide_unpack _). vm_compute. exact I.
  - apply Forall_forall. repeat constructor; vm_compute; reflexivity.
Defined.

Lemma demo_boot_ok l root spare v :
  initial_free_frames boot_limine 0x100000 = l ++ [root] -> 0 <= spare <= 15 ->
  boot_ok demo_boot demo_area 0x9000 64 [(0xfec00000, 0, 2)] demo_regions l root spare (demo_globals v).
Proof.
  intros Hl Hspare. pose proof boot_frames_length as Hlen. rewrite Hl, length_app, Nat2Z.inj_add in Hlen.
  change (Z.of_nat (List.length [root])) with 1 in Hlen.
  split; cbn [bi_limine bi_symbols bi_rsdp demo_boot].
  - split; vm_compute; congruence.
  - split; [reflexivity|]. split; vm_compute; congruence.
  - exact boot_memmap_ok.
  - rewrite boot_stack_base. lia.
  - exact boot_mappings_ok.
  - vm_compute. reflexivity.
  - rewrite boot_stack_base. exact Hl.
  - lia.
  - assert (Z.of_nat (List.length l) = 32447) as -> by lia. unfold frame_budget.
    match goal with |- ?a + (?b + (?c + spare)) + ?e <= ?r => assert (a + (b + (c + 15)) + e <= r) by (vm_compute; congruence) end.
    lia.
  - exact demo_regions_ok.
  - intros a. by apply (demo_undisturbed l root); [|lia].
  - vm_compute. congruence.
  - exact boot_image_apart.
  - exact demo_acpi.
  - discriminate.
  - vm_compute. reflexivity.
  - vm_compute. intuition congruence.
  - exact demo_isr_address_range.
  - reflexivity.
  - reflexivity.
Defined.

Lemma demo_no_device f :
  (forall a, in_frame f a -> managed_byte boot_limine a) -> no_device (devices (hw (g_machine (demo_globals 0)))) f.
Proof.
  intros Hf. specialize (Hf f ltac:(unfold in_frame, frameSize; lia)). apply demo_not_managed in Hf.
  split; [change (pc_lapic_base _) with 0xfee00000; lia|].
  change (pc_ioapics _) with ({[ 0xfec00000 := IoApic 0 23 ∅ ]} : gmap Z ioapic).
  apply lookup_singleton_ne. lia.
Defined.

Lemma demo_hardware : hardware_ok 100 (devices (hw (g_machine (demo_globals 0)))).
Proof.
  split; [reflexivity|reflexivity|reflexivity|vm_compute; congruence|reflexivity|].
  split; [reflexivity|simpl; lia|simpl; lia|vm_compute; intuition congruence|exact I].
Defined.

Lemma demo_ioapic a gb i :
  (a, gb, i) ∈ [(0xfec00000, 0, 2)] ->
  boot_ioapic (initial_mappings boot_limine boot_symbols) (devices (hw (g_machine (demo_globals 0)))) (fun _ => IoApic 0 23 ∅) a.
Proof.
  intros Hin. apply list_elem_of_singleton in Hin. injection Hin as -> -> ->.
  split; try (vm_compute; intuition congruence); [exists 0; reflexivity|exists 2; vm_compute; reflexivity].
Defined.

Lemma demo_irq1 : irq1_controller (fun _ => IoApic 0 23 ∅) [(0xfec00000, 0, 2)] 0xfec00000 0 2.
Proof.
  split.
  - exists [], []. split; [reflexivity|constructor].
  - reflexivity.
  - simpl. lia.
  - simpl. lia.
  - intros r. unfold ioapic_reg. simpl. destruct (r =? 1); vm_compute; intuition congruence.
Defined.

