(* ===== verification/Main.v ===== *)
(** * kernel_main (src/main.cpp)

    The whole program: [kernel_init], the tests, the greeting and the loop that
    answers the user.  The theorem composes what the parts promise into what
    appears on the screen. *)

From Stdlib Require Import ZArith Lia String.
From stdpp Require Import base gmap list list_numbers numbers strings.
From S2P Require Import Prelude Memory FrameAllocator PageTree Paging KernelMemory Containers Utilities Descriptors Processor Printf Idt Typing EarlyFaults Acpi Running SelfMapped FreeList Vmm Terminal Shell Tests Session Boot.
#[local] Open Scope Z_scope.

Section Main.
Context {H : Type} `{Platform H} (info : boot_info).
(** What printf finds in the slot of a 32-bit argument, the interrupt that the
    local APIC sends itself, and the keyboard. *)
Context (slot : Z -> Z) (ipi : H -> H) (press : Z -> H -> H).

(** The entry of [GlobalConstructorTest] in the init array. *)
Definition construct_global_test (s : kernel_globals H) : outcome (kernel_globals H) :=
  Done (Globals (g_terminal s) (g_cpu s) (g_idt s) (g_allocator s) (g_machine s) GlobalConstructorTest_new).

(** [printf] through [KernelTerminal::instance]. *)
Definition kernel_terminal (s : kernel_globals H) : outcome Terminal :=
  match g_terminal s with
  | Some t => Done t
  | None => Undefined "KernelTerminal::instance is null"
  end.

(** [input] is what the array of the name holds when it is created; [arrivals]
    are the scan codes that arrive before each round of the editor.  The C++ stack
    is not part of the state: like the responses of the boot loader it lies in
    memory that becomes free memory ([boot_stack_reclaimed]), so that the model
    stands for the program only as long as nothing is written there.  The theorem
    asks that the few frames that are handed out are not among those in use
    ([undisturbed]) and shows that the bytes in use are never written. *)
Definition kernel_main (fuel : nat) (ctors : list (kernel_globals H -> outcome (kernel_globals H)))
    (input : list Z) (arrivals : list (list Z)) (g : kernel_globals H) : outcome (session H) :=
  s ← kernel_init info fuel ctors g;
  t ← kernel_terminal s;
  let s := Testing (g_constructor_test s) (g_allocator s) (Kernel (g_machine s) KeyboardBuffer_new false t) in
  s ← run_all_tests (bi_limine info) (bi_symbols info) slot ipi fuel s;
  s ← say (line "Hello, world!") [] s;
  s ← say [10] [] s;
  main_loop (bi_limine info) press arrivals (Session (core s) input 0).
End Main.

(** The part between [kernel_init] and the loop. *)
Lemma tests_and_greeting {H} `{Devices H} {B} limine symbols slot (ipi : H -> H) fuel log s s' t (k : test_state H -> outcome B) :
  prints (run_all_tests limine symbols slot ipi fuel) log s s' ->
  (s ← run_all_tests limine symbols slot ipi fuel (set_console s t);
   s ← say (line "Hello, world!") [] s;
   s ← say [10] [] s; k s) =
  (t ← write_string (log ++ line "Hello, world!" ++ [10]) t; k (set_console s' t)).
Proof.
  intros Hp. rewrite Hp, write_string_app, !bind_assoc. apply bind_cong. intros t1. rewrite bind_done.
  apply say_line; [reflexivity|literal|]. intros t2.
  apply (say_then _ _ [10] []); [reflexivity|literal|]. intros t3. reflexivity.
Qed.

(** ** kernel_pre_main

    [mov %rsp, operand]: the assembler takes the second operand as the
    destination, which is the register that holds [&kernel_stack_start]. *)
Record stack_registers := StackRegisters { rsp : Z; operand : Z }.

Definition mov_rsp_operand (r : stack_registers) : stack_registers := StackRegisters (rsp r) (rsp r).

(** [main] is [kernel_main] on the stack that it is called with. *)
Definition kernel_pre_main {A} (kernel_stack_start : Z) (stack : Z) (main : Z -> A) : A :=
  main (rsp (mov_rsp_operand (StackRegisters stack kernel_stack_start))).

(** The kernel runs on the stack of the boot loader, and the first frame of the
    memory that holds it is given to the frame allocator with the rest. *)
Lemma boot_stack_reclaimed {A} limine symbols st b l root f fs kernel_stack_start stack (main : Z -> A) :
  boot_memmap limine -> hhdm_ok limine -> b = manually_reserve_contiguous_frames limine (stack_frames limine) -> b <> 0 ->
  Forall mapping_ok (initial_mappings limine symbols) -> initial_free_frames limine b = l ++ [root] ->
  tables_for_all (initial_mappings limine symbols) <= Z.of_nat (List.length l) ->
  frames_of reclaimable (memory_map limine) = f :: fs -> in_frame f (phys limine stack) ->
  kernel_pre_main kernel_stack_start stack main = main stack /\
  exists k st', frame_allocator_init limine (vm_mem st) = Done k /\
    paging_init limine symbols (VM k (page_tree st) (ptbr st)) = Done st' /\ f ∈ free_frames limine (vm_mem st').
Proof.
  intros Hbm Hh Hb Hb0 Hmaps Hl Hroom Hrec _. split; [done|].
  destruct (boot_ready_init limine Hbm (vm_mem st) b Hb Hb0) as (k & Hi & Hready & Hfree & _). rewrite Hl in Hfree.
  destruct (paging_init_done limine symbols (VM k (page_tree st) (ptbr st)) l root Hh Hready Hmaps Hfree Hroom)
    as (k' & G & used & l' & Hd & _ & _ & _ & _ & Hl' & Hfr & _).
  exists k, (VM k' (Some (kernel_physical_to_virtual limine root)) root). split; [exact Hi|]. split; [exact Hd|].
  cbn [vm_mem] in *. rewrite Hfr, Hrec.
  pose proof (free_frames_length _ _ (br_alloc _ _ Hready)) as Hc. rewrite Hfree, Hl', !length_app in Hc. simpl in Hc.
  rewrite take_app_ge by lia. destruct (Z.to_nat (capacity k) - List.length l')%nat as [|j] eqn:Hj; [lia|].
  apply elem_of_app. right. left.
Qed.

(** The first region of free memory, which the allocator test works on: it lies
    behind the identity map, in the lower half of the address space. *)
Record first_region (limine : limine_features) (d : pc) (free : list MemoryRegion) : Prop := {
  fr_first : exists r rest, free = r :: rest /\ test_region limine d r /\ 2 ^ 32 <= region_base r /\ region_end r <= 2 ^ 47
}.

(** The free stack is away from the two pages of the paging test, which lie in the
    identity map. *)
Definition stack_apart (limine : limine_features) : Prop :=
  forall b n, stack_location limine = Some (b, n) -> b + 8 * n <= read_vpage \/ write_vpage + pageSize <= b.

(** The tests keep the maps through which the kernel reaches its own memory. *)
Section TestedPages.
Context (limine : limine_features) (Hhhdm : hhdm_ok limine) (Hhigh : higher_half limine) (d : pc) (r : MemoryRegion).
Context (Hr : test_region limine d r) (Hlow : 2 ^ 32 <= region_base r) (Hend : region_end r <= 2 ^ 47).

(** The last page of the region, and the one behind it. *)
Lemma region_last_page :
  2 ^ 20 <= page_index (region_end r - pageSize) < 2 ^ 35.
Proof using Hr Hlow Hend.
  destruct Hr as [[Hb _] [Hs _] _ _]. unfold region_end in *.
  destruct (page_index_low_half (region_base r + region_size r - pageSize)) as [-> Hi]; [unfold pageSize; lia|].
  unfold pageSize in *. split; [apply Z.div_le_lower_bound; lia|apply Z.div_lt_upper_bound; lia].
Qed.

Lemma page_offset_index page va i : page_offset page va = i -> page_index va = (page_index page + i) mod 2 ^ 36.
Proof.
  intros <-. unfold page_offset. pose proof (page_index_range va).
  rewrite Zplus_mod_idemp_r. replace (_ + _) with (page_index va) by lia. by rewrite Z.mod_small.
Qed.

Lemma tests_keep_direct_map a : 0x1000 <= a < 2 ^ 32 -> ~ tested_page r (kernel_physical_to_virtual limine a).
Proof.
  intros Ha. pose proof region_last_page as Hl.
  destruct (page_index_direct limine Hhhdm Hhigh a) as (Hf & Hi & Hq & _); [lia|].
  set (first := hhdm_offset limine mod 2 ^ 48 / pageSize) in *. clearbody first.
  assert (1 <= a / pageSize) by (unfold pageSize; apply Z.div_le_lower_bound; lia).
  intros [Ht|[Ht|[Ht|Ht]]]; apply page_offset_index in Ht; rewrite Hi in Ht.
  - change ((page_index read_vpage + 0) mod 2 ^ 36) with 0x80000 in Ht. lia.
  - change ((page_index write_vpage + 0) mod 2 ^ 36) with 0x80002 in Ht. lia.
  - rewrite Z.mod_small in Ht; lia.
  - rewrite Z.mod_small in Ht; lia.
Qed.

Lemma tests_keep_identity_map a :
  0x2000 <= a < 2 ^ 32 -> a < read_vpage \/ write_vpage + pageSize <= a -> ~ tested_page r a.
Proof.
  intros Ha Hap. pose proof region_last_page as Hl.
  destruct (page_index_low_half a) as [Hi _]; [lia|].
  assert (a / pageSize < 2 ^ 20) by (unfold pageSize; apply Z.div_lt_upper_bound; lia).
  unfold read_vpage, write_vpage, pageSize in *.
  pose proof (Z.div_mod a 0x1000). pose proof (Z.mod_pos_bound a 0x1000).
  intros [Ht|[Ht|[Ht|Ht]]]; apply page_offset_index in Ht; rewrite Hi in Ht.
  - change ((page_index read_vpage + 0) mod 2 ^ 36) with 0x80000 in Ht. lia.
  - change ((page_index write_vpage + 0) mod 2 ^ 36) with 0x80002 in Ht. lia.
  - rewrite Z.mod_small in Ht; unfold pageSize in *; lia.
  - rewrite Z.mod_small in Ht; unfold pageSize in *; lia.
Qed.

Lemma tests_keep_maps {H} (m m' : machine H) :
  direct_mapped limine (vm m) -> (forall a, in_storage (vm_mem (vm m)) a -> 0x2000 <= a < 2 ^ 32) ->
  identity_mapped (vm m) (in_storage (vm_mem (vm m))) -> stack_apart limine ->
  storage (vm_mem (vm m)) = stack_location limine -> storage (vm_mem (vm m')) = stack_location limine ->
  (forall va, ~ tested_page r va -> translate m' va = translate m va) ->
  direct_mapped limine (vm m') /\ identity_mapped (vm m') (in_storage (vm_mem (vm m'))).
Proof.
  intros Hdir Hstack Hid Hap Hs Hs' Hsame. split.
  - intros a Ha. change (translate m' (kernel_physical_to_virtual limine a) = Some a).
    rewrite Hsame by (by apply tests_keep_direct_map). by apply Hdir.
  - intros a Ha. rewrite (in_storage_eq (vm_mem (vm m)) _ a) in Ha by (by rewrite Hs, Hs').
    change (translate m' a = Some a). pose proof (Hstack a Ha) as Hrange. rewrite Hsame; [by apply Hid|].
    apply tests_keep_identity_map; [done|]. unfold storage in Hs. unfold in_storage in Ha.
    destruct (free_stack (vm_mem (vm m))) as [fs|]; [|done]. specialize (Hap _ _ (eq_sym Hs)). simpl in Ha. lia.
Qed.
End TestedPages.


